(** * The virtual-memory bookkeeping of the kernel (kernel/vspace.c)

    A shallow embedding of the region bookkeeping, the physical allocator
    it draws from, the rebuild of the hardware table, the loader, the
    duplication of an address space and the write into user memory,
    followed by the properties of these operations. *)

From Stdlib Require Import ZArith Lia Bool Strings.Byte.
From stdpp Require Import base option list gmap.

Local Open Scope Z_scope.

(** ** Machine integers *)

(** [uint64_t] arithmetic wraps modulo [2^64]. *)
Definition u64 (z : Z) : Z := z mod 2 ^ 64.

(** Conversion of a value to [int] keeps the low 32 bits, read in two's
    complement. *)
Definition int32 (z : Z) : Z := (z + 2 ^ 31) mod 2 ^ 32 - 2 ^ 31.

(** ** Page geometry

    The headers that define the geometry (x86_64.h, memlayout.h) are not
    part of the translated file. The kernel uses the four-level x86-64
    tables with 4 KiB pages: [PGSIZE] is 4096 and both shifts are 12. *)
Definition PGSIZE : Z := 4096.
Definition PAGE_SHIFT : Z := 12.
Definition PT_SHIFT : Z := 12.

(** [PGROUNDUP(a)] is [(a + PGSIZE - 1) & ~(PGSIZE - 1)] and
    [PGROUNDDOWN(a)] is [a & ~(PGSIZE - 1)], both on [uint64_t]. *)
Definition PGROUNDUP (a : Z) : Z :=
  Z.land (u64 (a + PGSIZE - 1)) (Z.lnot (PGSIZE - 1)).
Definition PGROUNDDOWN (a : Z) : Z :=
  Z.land (u64 a) (Z.lnot (PGSIZE - 1)).

(** Permission bits of a hardware entry. *)
Definition PTE_P : Z := 1.
Definition PTE_W : Z := 2.
Definition PTE_U : Z := 4.

Definition VPI_READONLY : Z := 0.
Definition VPI_WRITABLE : Z := 1.
Definition VPI_PRESENT : Z := 1.

(** ** Outcomes of kernel code

    A call returns, stops the kernel (a failed [assert], a [panic], an
    access through a bad pointer), or is cut off by the bound put on a loop
    of the model. *)
Inductive fault :=
  | AssertFailed   (* assert / assertm does not hold *)
  | NullDeref      (* access through a null pointer *)
  | BadIndex       (* array index outside the array *)
  | BadAccess.     (* a page read as something it does not hold *)

Inductive outcome (A : Type) :=
  | Ok (a : A)
  | Fault (f : fault)
  | OutOfFuel.
Arguments Ok {A} a.
Arguments Fault {A} f.
Arguments OutOfFuel {A}.

Global Instance outcome_ret : MRet outcome := fun A a => Ok a.
Global Instance outcome_bind : MBind outcome := fun A B f o =>
  match o with
  | Ok a => f a
  | Fault e => Fault e
  | OutOfFuel => OutOfFuel
  end.

Definition assert (b : bool) : outcome unit :=
  if b then Ok tt else Fault AssertFailed.

(** ** Bookkeeping data *)

Inductive vr_direction := VRDIR_UP | VRDIR_DOWN.

(** [struct vpage_info]: the fields are [short used], [uint64_t ppn],
    [short present], [short writable]. *)
Record vpage_info := mk_vpi {
  used : Z;
  ppn : Z;
  present : Z;
  writable : Z
}.

Definition vpi_zero : vpage_info := mk_vpi 0 0 0 0.

(** [struct vpi_page]: an array of [VPIPPAGE] records and the link to the
    next chunk. A page pointer is named by the number of the physical page
    it points to: [P2V(ppn << PT_SHIFT)] and [PGNUM(V2P(p))] convert between
    the two, and the null pointer is [None]. *)
Record vpi_page := mk_chunk {
  infos : list vpage_info;
  next : option Z
}.

(** [struct vregion]. *)
Record vregion := mk_vregion {
  dir : vr_direction;
  va_base : Z;
  size : Z;
  pages : option Z
}.

Definition set_pages (vr : vregion) (p : option Z) : vregion :=
  mk_vregion (dir vr) (va_base vr) (size vr) p.
Definition set_va_base (vr : vregion) (b : Z) : vregion :=
  mk_vregion (dir vr) b (size vr) (pages vr).
Definition set_size (vr : vregion) (s : Z) : vregion :=
  mk_vregion (dir vr) (va_base vr) s (pages vr).

(** The macros [VRBOT] and [VRTOP] of vspace.h.

    Modelled from the spec: the header is not part of the translated file;
    an upward region covers [base, base+size) and a downward region
    [base-size, base). *)
Definition VRBOT (vr : vregion) : Z :=
  match dir vr with
  | VRDIR_UP => va_base vr
  | VRDIR_DOWN => u64 (va_base vr - size vr)
  end.
Definition VRTOP (vr : vregion) : Z :=
  match dir vr with
  | VRDIR_UP => u64 (va_base vr + size vr)
  | VRDIR_DOWN => va_base vr
  end.

(** ** Physical memory and its allocator *)

(** What a physical page holds: a chunk of bookkeeping records or the bytes
    of a user page. A page absent from [ram] holds nothing the kernel has
    written since it was last freed. *)
Inductive kpage :=
  | ChunkPage (c : vpi_page)
  | DataPage (b : list byte).

Record kmem := mk_kmem {
  freelist : list Z;
  ram : gmap Z kpage
}.

(** Modelled from the spec: the physical allocator (kalloc.c) is not part of
    the translated file. Acquiring a page takes one from the free pages and
    yields the null pointer when there is none; releasing a page returns it
    to the free pages, and what it held is lost. *)
Definition kalloc (m : kmem) : option Z * kmem :=
  match freelist m with
  | [] => (None, m)
  | p :: fl => (Some p, mk_kmem fl (ram m))
  end.

Definition kfree (p : Z) (m : kmem) : kmem :=
  mk_kmem (p :: freelist m) (delete p (ram m)).

Definition store (p : Z) (pg : kpage) (m : kmem) : kmem :=
  mk_kmem (freelist m) (<[p := pg]> (ram m)).

Definition zero_bytes : list byte := replicate (Z.to_nat PGSIZE) x00.

Definition read_chunk (p : Z) (m : kmem) : outcome vpi_page :=
  match ram m !! p with
  | Some (ChunkPage c) => Ok c
  | _ => Fault BadAccess
  end.

(** A pointer to one [vpage_info]: the chunk and the position in it. *)
Definition vpi_ptr : Type := Z * nat.

Definition vpi_get (q : vpi_ptr) (m : kmem) : outcome vpage_info :=
  c ← read_chunk q.1 m;
  match infos c !! q.2 with
  | Some v => Ok v
  | None => Fault BadIndex
  end.

Definition vpi_set (q : vpi_ptr) (v : vpage_info) (m : kmem) : outcome kmem :=
  c ← read_chunk q.1 m;
  match infos c !! q.2 with
  | Some _ => Ok (store q.1 (ChunkPage (mk_chunk (<[q.2 := v]> (infos c)) (next c))) m)
  | None => Fault BadIndex
  end.

(** ** Region queries that read no memory *)

(** [va2vpi_idx]: the result is an [int]. The direction is one of the two
    enumerators, so the [panic] branch has no counterpart here. *)
Definition va2vpi_idx (r : vregion) (va : Z) : Z :=
  match dir r with
  | VRDIR_UP => int32 (Z.shiftr (u64 (va - va_base r)) PAGE_SHIFT)
  | VRDIR_DOWN => int32 (Z.shiftr (u64 (va_base r - 1 - va)) PAGE_SHIFT)
  end.

(** [x86perms]. *)
Definition x86perms (vpi : vpage_info) : Z :=
  let perms := PTE_U in
  let perms := if present vpi =? 0 then perms else Z.lor perms PTE_P in
  let perms := if writable vpi =? 0 then perms else Z.lor perms PTE_W in
  perms.

(** [vregioncontains]: [size] is an [int], converted to [uint64_t] in the
    sum; the result is the [int] 1 or 0. *)
Definition vregioncontains (vr : vregion) (va : Z) (sz : Z) : Z :=
  if (sz =? 0) && (va =? VRTOP vr) then 0
  else if (VRBOT vr <=? va) && (u64 (va + sz) <=? VRTOP vr) then 1 else 0.

(** ** The page-info store and the mapping of a range *)

Section Layout.

(** Two constants of headers that are not part of the translated file are
    left open: the user/kernel split [KERNBASE] (memlayout.h) and the number
    [VPIPPAGE] of records in one chunk (vspace.h). *)
Variable KERNBASE : Z.
Variable VPIPPAGE : Z.

Definition zero_chunk : vpi_page :=
  mk_chunk (replicate (Z.to_nat VPIPPAGE) vpi_zero) None.

(** The walk along the chunks in [va2vpage_info]:
    [while (idx >= VPIPPAGE) { ... info = info->next; idx -= VPIPPAGE; }]
    followed by [return &info->infos[idx]]. The comparison is taken on the
    [int] index as the file writes it; [VPIPPAGE] comes from vspace.h,
    which is not part of the translated file. An index below 0 leaves the
    loop at once here and is an index outside the chunk; with a constant
    of an unsigned type the comparison converts it to a large value and
    the loop walks the chain instead. The two readings agree on every
    index that is not negative. *)
Fixpoint vpi_walk (fuel : nat) (info : Z) (idx : Z) (m : kmem)
  : outcome (option vpi_ptr * kmem) :=
  if VPIPPAGE <=? idx then
    match fuel with
    | O => OutOfFuel
    | S fuel' =>
      c ← read_chunk info m;
      match next c with
      | Some q => vpi_walk fuel' q (idx - VPIPPAGE) m
      | None =>
        match kalloc m with
        | (None, m1) => Ok (None, m1)
        | (Some q, m1) =>
          let m2 := store info (ChunkPage (mk_chunk (infos c) (Some q))) m1 in
          let m3 := store q (ChunkPage zero_chunk) m2 in
          vpi_walk fuel' q (idx - VPIPPAGE) m3
        end
      end
    end
  else if idx <? 0 then Fault BadIndex
  else Ok (Some (info, Z.to_nat idx), m).

(** [va2vpage_info]. The first chunk is cleared without a test of what
    [kalloc] returned. *)
Definition va2vpage_info (vr : vregion) (va : Z) (m : kmem)
  : outcome (option vpi_ptr * vregion * kmem) :=
  '(vr, m) ← match pages vr with
             | Some _ => Ok (vr, m)
             | None =>
               match kalloc m with
               | (Some p, m1) =>
                 Ok (set_pages vr (Some p), store p (ChunkPage zero_chunk) m1)
               | (None, _) => Fault NullDeref
               end
             end;
  let idx := va2vpi_idx vr va in
  match pages vr with
  | None => Fault NullDeref
  | Some info =>
    '(q, m) ← vpi_walk (Z.to_nat idx) info idx m;
    Ok (q, vr, m)
  end.

(** Where the allocation loop of [vregionaddmap] stops. *)
Inductive addmap_exit :=
  | AddDone
  | AddFailed (a : Z).

(** [for (a = PGROUNDUP(from_va); a < from_va + sz; a += PGSIZE) { ... }] *)
Fixpoint addmap_loop (fuel : nat) (vr : vregion) (a bound : Z)
    (pres wr : Z) (m : kmem) : outcome (addmap_exit * vregion * kmem) :=
  if a <? bound then
    match fuel with
    | O => OutOfFuel
    | S fuel' =>
      '(q, vr, m) ← va2vpage_info vr a m;
      match q with
      | None => Ok (AddFailed a, vr, m)
      | Some q =>
        v ← vpi_get q m;
        _ ← assert (used v =? 0);
        match kalloc m with
        | (None, m) => Ok (AddFailed a, vr, m)
        | (Some p, m) =>
          let m := store p (DataPage zero_bytes) m in
          m ← vpi_set q (mk_vpi 1 p pres wr) m;
          addmap_loop fuel' vr (u64 (a + PGSIZE)) bound pres wr m
        end
      end
    end
  else Ok (AddDone, vr, m).

(** [for (a -= PGSIZE; a >= PGROUNDUP(from_va); a -= PGSIZE) { ... }];
    the argument [a] is the value after the first [a -= PGSIZE]. *)
Fixpoint addmap_undo (fuel : nat) (vr : vregion) (a start : Z) (m : kmem)
  : outcome (vregion * kmem) :=
  if start <=? a then
    match fuel with
    | O => OutOfFuel
    | S fuel' =>
      '(q, vr, m) ← va2vpage_info vr a m;
      match q with
      | None => Fault AssertFailed
      | Some q =>
        v ← vpi_get q m;
        let m := kfree (ppn v) m in
        m ← vpi_set q vpi_zero m;
        addmap_undo fuel' vr (u64 (a - PGSIZE)) start m
      end
    end
  else Ok (vr, m).

(** [vregionaddmap]. The result is the returned [int], the region record
    as the call leaves it, and the memory. *)
Definition vregionaddmap (vr : vregion) (from_va sz pres wr : Z) (m : kmem)
  : outcome (Z * vregion * kmem) :=
  if KERNBASE <=? u64 (sz + from_va) then Ok (-1, vr, m)
  else if sz <=? 0 then Ok (0, vr, m)
  else
    let start := PGROUNDUP from_va in
    let bound := u64 (from_va + sz) in
    '(e, vr, m) ← addmap_loop (Z.to_nat ((bound - start) / PGSIZE + 1))
                    vr start bound pres wr m;
    match e with
    | AddDone => Ok (int32 sz, vr, m)
    | AddFailed a =>
      '(vr, m) ← addmap_undo (Z.to_nat ((a - start) / PGSIZE + 1))
                   vr (u64 (a - PGSIZE)) start m;
      Ok (-1, vr, m)
    end.

(** ** Address spaces and the hardware table *)

(** One entry of the hardware table: the physical page and the permission
    bits. The table is kept by virtual page number. *)
Record pte := mk_pte {
  pte_ppn : Z;
  pte_perm : Z
}.

(** [struct vspace]: the regions and the table [pgtbl]. *)
Record vspace := mk_vspace {
  regions : list vregion;
  pgtbl : gmap Z pte
}.

Definition NREGIONS : nat := 3.
Definition VR_CODE : nat := 0.
Definition VR_HEAP : nat := 1.
Definition VR_USTACK : nat := 2.

Definition set_regions (vs : vspace) (rs : list vregion) : vspace :=
  mk_vspace rs (pgtbl vs).

(** The test of [va2vregion] on one region. *)
Definition vregion_holds (vr : vregion) (va : Z) : bool :=
  match dir vr with
  | VRDIR_UP => (va_base vr <=? va) && (va <? u64 (va_base vr + size vr))
  | VRDIR_DOWN => (u64 (va_base vr - size vr) <=? va) && (va <? va_base vr)
  end.

(** [va2vregion]: the position of the first region that holds [va]. *)
Definition va2vregion (vs : vspace) (va : Z) : option nat :=
  fst <$> list_find (λ vr, vregion_holds vr va = true) (regions vs).

(** [PML4_INDEX]: the index of a virtual page in the top-level table. *)
Definition PML4_INDEX_of_vpn (vpn : Z) : Z := Z.land (Z.shiftr vpn 27) 511.
Definition SZ_4G : Z := 2 ^ 32.

(** Modelled from the spec: the table primitives (x86_64vm.c) are not part
    of the translated file. Freeing the sub-trees under the top-level
    entries [0 .. PML4_INDEX(SZ_4G)] and clearing these entries leaves no
    mapping for a page under them; the pages mapped are not released. *)
Definition free_user_entries (pt : gmap Z pte) : gmap Z pte :=
  filter (λ kv, ¬ (PML4_INDEX_of_vpn kv.1 <= PML4_INDEX_of_vpn (Z.shiftr SZ_4G PT_SHIFT))) pt.

(** Modelled from the spec: [mappages] for one page installs the mapping of
    the virtual page to the physical page with the permission bits given. *)
Definition mappages (pt : gmap Z pte) (vpn ppn perm : Z) : gmap Z pte :=
  <[vpn := mk_pte ppn perm]> pt.

(** [for (; start < end; start += PGSIZE) { ... }] of [vspaceupdate]. *)
Fixpoint update_pages (fuel : nat) (vr : vregion) (start stop : Z)
    (pt : gmap Z pte) (m : kmem) : outcome (vregion * gmap Z pte * kmem) :=
  if start <? stop then
    match fuel with
    | O => OutOfFuel
    | S fuel' =>
      '(q, vr, m) ← va2vpage_info vr start m;
      match q with
      | None => Fault NullDeref
      | Some q =>
        v ← vpi_get q m;
        let pt := if used v =? 0 then pt
                  else mappages pt (Z.shiftr start PT_SHIFT) (ppn v) (x86perms v) in
        update_pages fuel' vr (u64 (start + PGSIZE)) stop pt m
      end
    end
  else Ok (vr, pt, m).

(** The loop of [vspaceupdate] over the regions. *)
Fixpoint update_regions (rs : list vregion) (pt : gmap Z pte) (m : kmem)
  : outcome (list vregion * gmap Z pte * kmem) :=
  match rs with
  | [] => Ok ([], pt, m)
  | vr :: rs' =>
    let start := VRBOT vr in
    let stop := VRTOP vr in
    _ ← assert (start mod PGSIZE =? 0);
    '(vr, pt, m) ← update_pages (Z.to_nat ((stop - start) / PGSIZE + 1))
                     vr start stop pt m;
    '(rs', pt, m) ← update_regions rs' pt m;
    Ok (vr :: rs', pt, m)
  end.

(** [vspaceupdate]. *)
Definition vspaceupdate (vs : vspace) (m : kmem) : outcome (vspace * kmem) :=
  '(rs, pt, m) ← update_regions (regions vs) (free_user_entries (pgtbl vs)) m;
  Ok (mk_vspace rs pt, m).

(** ** Duplication *)

(** [memmove(data, P2V(ppn << PT_SHIFT), PGSIZE)]: the destination page
    holds what the source page holds. *)
Definition copy_page (d s : Z) (m : kmem) : kmem :=
  mk_kmem (freelist m)
    (match ram m !! s with
     | Some pg => <[d := pg]> (ram m)
     | None => delete d (ram m)
     end).

(** [for (i = 0; i < VPIPPAGE; i++) { ... }] of [copy_vpi_page]; [n] counts
    the records left. The result tells whether the loop ran to its end. *)
Fixpoint copy_infos (n : nat) (i : nat) (d s : Z) (m : kmem)
  : outcome (bool * kmem) :=
  match n with
  | O => Ok (true, m)
  | S n' =>
    sv ← vpi_get (s, i) m;
    if used sv =? 0 then copy_infos n' (S i) d s m
    else
      dv ← vpi_get (d, i) m;
      m ← vpi_set (d, i) (mk_vpi (used sv) (ppn dv) (present sv) (writable sv)) m;
      match kalloc m with
      | (None, m) => Ok (false, m)
      | (Some data, m) =>
        let m := copy_page data (ppn sv) m in
        dv ← vpi_get (d, i) m;
        m ← vpi_set (d, i) (mk_vpi (used dv) data (present dv) (writable dv)) m;
        copy_infos n' (S i) d s m
      end
  end.

(** [copy_vpi_page(dst, src)]: the result is the returned [int], the value
    left in [*dst], and the memory. *)
Fixpoint copy_vpi_page (fuel : nat) (src : option Z) (m : kmem)
  : outcome (Z * option Z * kmem) :=
  match src with
  | None => Ok (0, None, m)
  | Some s =>
    match fuel with
    | O => OutOfFuel
    | S fuel' =>
      match kalloc m with
      | (None, m) => Ok (-1, None, m)
      | (Some d, m) =>
        let m := store d (ChunkPage zero_chunk) m in
        '(fin, m) ← copy_infos (Z.to_nat VPIPPAGE) 0 d s m;
        if fin : bool then
          sc ← read_chunk s m;
          '(r, nx, m) ← copy_vpi_page fuel' (next sc) m;
          dc ← read_chunk d m;
          Ok (r, Some d, store d (ChunkPage (mk_chunk (infos dc) nx)) m)
        else Ok (-1, Some d, m)
      end
    end
  end.

(** The loop of [vspacecopy] over the regions of [dst]; it stops at the
    first failure. *)
Fixpoint copy_regions (rs : list vregion) (m : kmem)
  : outcome (Z * list vregion * kmem) :=
  match rs with
  | [] => Ok (0, [], m)
  | vr :: rs' =>
    '(r, p, m) ← copy_vpi_page (S (length (freelist m))) (pages vr) m;
    if r <? 0 then Ok (-1, set_pages vr p :: rs', m)
    else
      '(r, rs', m) ← copy_regions rs' m;
      Ok (r, set_pages vr p :: rs', m)
  end.

(** [vspacecopy]. *)
Definition vspacecopy (dst src : vspace) (m : kmem)
  : outcome (Z * vspace * kmem) :=
  let dst := set_regions dst (regions src) in
  '(r, rs, m) ← copy_regions (regions dst) m;
  let dst := set_regions dst rs in
  if r <? 0 then Ok (-1, dst, m)
  else
    '(dst, m) ← vspaceupdate dst m;
    Ok (0, dst, m).

(** ** Writing into user memory *)

(** [memmove(P2V(ppn << PT_SHIFT) + off, data, n)]: the bytes land in the
    page from offset [off] on. *)
Definition write_bytes (p : Z) (off : Z) (bs : list byte) (m : kmem)
  : outcome kmem :=
  match ram m !! p with
  | Some (DataPage b) =>
    Ok (store p (DataPage (list_inserts (Z.to_nat off) bs b)) m)
  | _ => Fault BadAccess
  end.

(** The loop of [vspacewritetova]. The buffer [data] is a list; reading
    more bytes than it has is an access outside it. *)
Fixpoint writetova_loop (fuel : nat) (vs : vspace) (va stop : Z)
    (data : list byte) (sz : Z) (m : kmem) : outcome (Z * vspace * kmem) :=
  if va <? stop then
    match fuel with
    | O => OutOfFuel
    | S fuel' =>
      let wsz := Z.min (int32 (u64 (PGROUNDUP va - va))) sz in
      match va2vregion vs va with
      | None => Ok (-1, vs, m)
      | Some i =>
        match regions vs !! i with
        | None => Fault BadIndex
        | Some vr =>
          '(q, vr, m) ← va2vpage_info vr va m;
          let vs := set_regions vs (<[i := vr]> (regions vs)) in
          match q with
          | None => Fault NullDeref
          | Some q =>
            v ← vpi_get q m;
            _ ← assert (negb (used v =? 0));
            if writable v =? 0 then Ok (-1, vs, m)
            else
              _ ← (if Z.of_nat (length data) <? wsz then Fault BadAccess else Ok tt);
              m ← write_bytes (ppn v) (va mod PGSIZE) (take (Z.to_nat wsz) data) m;
              writetova_loop fuel' vs (u64 (va + wsz)) stop
                (drop (Z.to_nat wsz) data) (int32 (sz - wsz)) m
          end
        end
      end
    end
  else Ok (0, vs, m).

(** [vspacewritetova]: [sz] is an [int]. *)
Definition vspacewritetova (vs : vspace) (va : Z) (data : list byte) (sz : Z)
    (m : kmem) : outcome (Z * vspace * kmem) :=
  _ ← assert (0 <? sz);
  _ ← assert (u64 (va + sz) <? KERNBASE);
  writetova_loop (Z.to_nat sz) vs va (u64 (va + sz)) data sz m.

(** ** The loader *)

Definition u32 (z : Z) : Z := z mod 2 ^ 32.

Definition ELF_MAGIC : Z := 0x464C457F.
Definition ELF_PROG_LOAD : Z := 1.
Definition ELF_PROG_FLAG_WRITE : Z := 2.

(** The fields of [struct elfhdr] and [struct proghdr] that the loader
    reads. *)
Record elfhdr := mk_elfhdr {
  elf_magic : Z;
  elf_phnum : Z;
  elf_entry : Z
}.

Record proghdr := mk_proghdr {
  ph_type : Z;
  ph_flags : Z;
  ph_off : Z;
  ph_vaddr : Z;
  ph_filesz : Z;
  ph_memsz : Z
}.

(** Modelled from the spec: the file reader (fs.c) is not part of the
    translated file. A file is known by what the three kinds of read of the
    loader find in it: the header at offset 0 (none when the file is too
    short for one), the program header read in the i-th round of the loop
    (none when the read comes back short), and the bytes. A read of [n]
    bytes at [off] yields the bytes that are there, at most [n]. *)
Record inode := mk_inode {
  i_elf : option elfhdr;
  i_ph : list proghdr;
  i_data : list byte
}.

Definition readi (ip : inode) (off n : Z) : list byte :=
  take (Z.to_nat n) (drop (Z.to_nat off) (i_data ip)).

(** The loop of [vrloaddata]; [i] and [n] are [uint]. *)
Fixpoint vrloaddata_loop (fuel : nat) (r : vregion) (va : Z) (ip : inode)
    (offset sz i : Z) (m : kmem) : outcome (Z * vregion * kmem) :=
  if i <? sz then
    match fuel with
    | O => OutOfFuel
    | S fuel' =>
      '(q, r, m) ← va2vpage_info r (u64 (va + i)) m;
      match q with
      | None => Fault NullDeref
      | Some q =>
        v ← vpi_get q m;
        _ ← assert (negb (used v =? 0));
        let n := Z.min (u32 (sz - i)) (u32 PGSIZE) in
        let bs := readi ip (u32 (offset + i)) n in
        m ← write_bytes (ppn v) 0 bs m;
        if negb (Z.of_nat (length bs) =? n) then Ok (-1, r, m)
        else vrloaddata_loop fuel' r va ip offset sz (u32 (i + PGSIZE)) m
      end
    end
  else Ok (0, r, m).

(** [vrloaddata]. *)
Definition vrloaddata (r : vregion) (va : Z) (ip : inode) (offset sz : Z)
    (m : kmem) : outcome (Z * vregion * kmem) :=
  _ ← assert (va mod PGSIZE =? 0);
  vrloaddata_loop (Z.to_nat (sz / PGSIZE + 1)) r va ip offset sz 0 m.

(** The locals of [vspaceloadcode] that live across the rounds of its
    loop. *)
Record load_state := mk_load {
  first_section : bool;
  last_sz : Z;
  code_end : Z
}.

(** One round of the loop of [vspaceloadcode] for a loadable entry; [None]
    stands for [goto elf_failure]. *)
Definition load_segment (ip : inode) (ph : proghdr) (ls : load_state)
    (vs : vspace) (m : kmem) : outcome (option load_state * vspace * kmem) :=
  if ph_memsz ph <? ph_filesz ph then Ok (None, vs, m)
  else if u64 (ph_vaddr ph + ph_memsz ph) <? ph_vaddr ph then Ok (None, vs, m)
  else
    match regions vs !! VR_CODE with
    | None => Fault BadIndex
    | Some code =>
      let code := if first_section ls
                  then set_va_base code (PGROUNDDOWN (ph_vaddr ph)) else code in
      let wr := if Z.land (ph_flags ph) ELF_PROG_FLAG_WRITE =? 0
                then VPI_READONLY else VPI_WRITABLE in
      '(sz, code, m) ← vregionaddmap code (ph_vaddr ph) (ph_memsz ph) VPI_PRESENT wr m;
      let vs := set_regions vs (<[VR_CODE := code]> (regions vs)) in
      if sz <? 0 then Ok (None, vs, m)
      else if negb (ph_vaddr ph mod PGSIZE =? 0) then Ok (None, vs, m)
      else
        '(r, code, m) ← vrloaddata code (ph_vaddr ph) ip
                          (u32 (ph_off ph)) (u32 (ph_filesz ph)) m;
        let vs := set_regions vs (<[VR_CODE := code]> (regions vs)) in
        if r <? 0 then Ok (None, vs, m)
        else Ok (Some (mk_load false sz (u64 (ph_vaddr ph + ph_memsz ph))), vs, m)
    end.

(** [for (i = 0, off = elf.phoff; i < elf.phnum; i++, off += sizeof(ph))];
    [n] counts the rounds left. *)
Fixpoint load_segments (n : nat) (i : nat) (ip : inode) (ls : load_state)
    (vs : vspace) (m : kmem) : outcome (option load_state * vspace * kmem) :=
  match n with
  | O => Ok (Some ls, vs, m)
  | S n' =>
    match i_ph ip !! i with
    | None => Ok (None, vs, m)
    | Some ph =>
      if negb (ph_type ph =? ELF_PROG_LOAD) then load_segments n' (S i) ip ls vs m
      else
        '(r, vs, m) ← load_segment ip ph ls vs m;
        match r with
        | None => Ok (None, vs, m)
        | Some ls => load_segments n' (S i) ip ls vs m
        end
    end
  end.

(** [vspaceloadcode]: [ip] is what [namei(path)] found. The result is the
    returned [int], the value stored through [rip] if one was stored, the
    address space and the memory. *)
Definition vspaceloadcode (vs : vspace) (ip : option inode) (m : kmem)
  : outcome (Z * option Z * vspace * kmem) :=
  match ip with
  | None => Ok (0, None, vs, m)
  | Some ip =>
    match i_elf ip with
    | None => Ok (0, None, vs, m)
    | Some elf =>
      if negb (elf_magic elf =? ELF_MAGIC) then Ok (0, None, vs, m)
      else
        '(r, vs, m) ← load_segments (Z.to_nat (elf_phnum elf)) 0 ip
                        (mk_load true 0 0) vs m;
        match r with
        | None => Ok (0, None, vs, m)
        | Some ls =>
          _ ← assert (negb (first_section ls));
          match regions vs !! VR_CODE with
          | None => Fault BadIndex
          | Some code =>
            let code := set_size code (u64 (code_end ls - va_base code)) in
            let rs := <[VR_CODE := code]> (regions vs) in
            match rs !! VR_HEAP with
            | None => Fault BadIndex
            | Some heap =>
              let heap := set_size
                            (set_va_base heap (u64 (PGROUNDUP (code_end ls) + PGSIZE))) 0 in
              let rs := <[VR_HEAP := heap]> rs in
              Ok (last_sz ls, Some (elf_entry elf), set_regions vs rs, m)
            end
          end
        end
    end
  end.

(** ** Reading the store without growing it *)

(** The [k]-th chunk of the chain that starts at [p], if the chain is that
    long. *)
Fixpoint chunk_nth (r : gmap Z kpage) (p : option Z) (k : nat)
  : option (Z * vpi_page) :=
  match p with
  | None => None
  | Some q =>
    match r !! q with
    | Some (ChunkPage c) =>
      match k with
      | O => Some (q, c)
      | S k' => chunk_nth r (next c) k'
      end
    | _ => None
    end
  end.

(** The record with index [i] of a region: the one [va2vpage_info] hands
    out for a page with that index. A chunk that was never allocated reads
    as a chunk of cleared records. *)
Definition vpi_at (m : kmem) (vr : vregion) (i : Z) : vpage_info :=
  default vpi_zero
    ('(_, c) ← chunk_nth (ram m) (pages vr) (Z.to_nat (i / VPIPPAGE));
     infos c !! Z.to_nat (i mod VPIPPAGE)).

(** The record of the page that holds [va]. *)
Definition page_info (m : kmem) (vr : vregion) (va : Z) : vpage_info :=
  vpi_at m vr (va2vpi_idx vr va).

(** ** Well-formed stores *)

(** A chain of chunks, as the list of its pages with the records each page
    holds. *)
Fixpoint chain (r : gmap Z kpage) (p : option Z)
    (cs : list (Z * list vpage_info)) : Prop :=
  match cs with
  | [] => p = None
  | (q, vs) :: cs' =>
    p = Some q ∧ length vs = Z.to_nat VPIPPAGE ∧
    ∃ nx, r !! q = Some (ChunkPage (mk_chunk vs nx)) ∧ chain r nx cs'
  end.

Definition cpages (cs : list (Z * list vpage_info)) : list Z := cs.*1.

(** Chunks of cleared records on the pages [l]. *)
Definition zeros (l : list Z) : list (Z * list vpage_info) :=
  (λ p, (p, replicate (Z.to_nat VPIPPAGE) vpi_zero)) <$> l.

(** The store of a region is well formed in a memory: its chunks form a
    chain without repetition, and no chunk is a free page. *)
Definition store_ok (m : kmem) (vr : vregion)
    (cs : list (Z * list vpage_info)) : Prop :=
  chain (ram m) (pages vr) cs ∧ NoDup (cpages cs ++ freelist m).

(** The record with index [i] in the list view of a store. *)
Definition info_at (cs : list (Z * list vpage_info)) (i : Z) : vpage_info :=
  default vpi_zero
    (c ← cs !! Z.to_nat (i / VPIPPAGE); c.2 !! Z.to_nat (i mod VPIPPAGE)).

(** The list view with the record of index [i] replaced. *)
Definition info_set (cs : list (Z * list vpage_info)) (i : Z)
    (v : vpage_info) : list (Z * list vpage_info) :=
  alter (λ c, (c.1, <[Z.to_nat (i mod VPIPPAGE) := v]> c.2))
        (Z.to_nat (i / VPIPPAGE)) cs.

(** * Properties *)

(** ** Arithmetic of pages *)

Lemma land_lnot_page x : 0 <= x → Z.land x (Z.lnot (PGSIZE - 1)) = x - x mod PGSIZE.
Proof.
  intros Hx. rewrite <- Z.ldiff_land.
  change (PGSIZE - 1) with (Z.ones 12).
  rewrite Z.ldiff_ones_r by lia.
  rewrite Z.shiftr_div_pow2, Z.shiftl_mul_pow2 by lia.
  change (2 ^ 12) with PGSIZE. unfold PGSIZE.
  pose proof (Z.div_mod x 4096). lia.
Qed.

Lemma u64_range z : 0 <= u64 z < 2 ^ 64.
Proof. unfold u64. apply Z.mod_pos_bound. lia. Qed.

Lemma u64_small z : 0 <= z < 2 ^ 64 → u64 z = z.
Proof. intros. unfold u64. by apply Z.mod_small. Qed.

Lemma PGROUNDDOWN_eq a : PGROUNDDOWN a = u64 a - u64 a mod PGSIZE.
Proof. unfold PGROUNDDOWN. apply land_lnot_page. apply u64_range. Qed.

Lemma PGROUNDUP_eq a :
  PGROUNDUP a = u64 (a + PGSIZE - 1) - u64 (a + PGSIZE - 1) mod PGSIZE.
Proof. unfold PGROUNDUP. apply land_lnot_page. apply u64_range. Qed.

Lemma PGROUNDUP_aligned a : PGROUNDUP a mod PGSIZE = 0.
Proof.
  rewrite PGROUNDUP_eq. generalize (u64 (a + PGSIZE - 1)). intros x.
  unfold PGSIZE. rewrite Zminus_mod, Z.mod_mod by lia.
  rewrite Z.sub_diag. done.
Qed.

Lemma PGROUNDUP_range a : 0 <= PGROUNDUP a < 2 ^ 64.
Proof.
  rewrite PGROUNDUP_eq. pose proof (u64_range (a + PGSIZE - 1)).
  pose proof (Z.mod_pos_bound (u64 (a + PGSIZE - 1)) PGSIZE).
  pose proof (Z.mod_le (u64 (a + PGSIZE - 1)) PGSIZE).
  unfold PGSIZE in *. lia.
Qed.

(** On an address that does not wrap, [PGROUNDUP] is the least multiple of
    the page size that is not below it. *)
Lemma PGROUNDUP_small a :
  0 <= a → a + PGSIZE - 1 < 2 ^ 64 →
  a <= PGROUNDUP a < a + PGSIZE.
Proof.
  intros H0 H1. rewrite PGROUNDUP_eq, u64_small by (unfold PGSIZE in *; lia).
  pose proof (Z.mod_pos_bound (a + PGSIZE - 1) PGSIZE). unfold PGSIZE in *. lia.
Qed.

(** ** Sequencing *)

Lemma bind_Ok {A B} (o : outcome A) (k : A → outcome B) r :
  o ≫= k = Ok r → ∃ a, o = Ok a ∧ k a = Ok r.
Proof. destruct o; simpl; intros; eauto; discriminate. Qed.

Ltac inv_bind H :=
  let a := fresh "a" in
  let E := fresh "E" in
  apply bind_Ok in H; destruct H as (a & E & H).

(** ** What a call leaves of the region record *)

(** Two region records that differ at most in the pointer to the store. *)
Definition same_extent (vr vr' : vregion) : Prop :=
  dir vr' = dir vr ∧ va_base vr' = va_base vr ∧ size vr' = size vr.

Lemma same_extent_refl vr : same_extent vr vr.
Proof. by repeat split. Qed.

Lemma same_extent_trans a b c : same_extent a b → same_extent b c → same_extent a c.
Proof. unfold same_extent. intuition congruence. Qed.

Lemma same_extent_idx vr vr' va : same_extent vr vr' → va2vpi_idx vr' va = va2vpi_idx vr va.
Proof. intros (Hd & Hb & _). unfold va2vpi_idx. by rewrite Hd, Hb. Qed.

Lemma va2vpage_info_extent vr va m q vr' m' :
  va2vpage_info vr va m = Ok (q, vr', m') → same_extent vr vr'.
Proof.
  unfold va2vpage_info. intros H. inv_bind H. destruct a as [vr1 m1].
  assert (same_extent vr vr1) as Hs.
  { destruct (pages vr); [by inversion E|].
    destruct (kalloc m) as [[p|] m2]; inversion E. by repeat split. }
  destruct (pages vr1); [|discriminate].
  inv_bind H. destruct a as [q1 m2]. by inversion H; subst.
Qed.

Lemma addmap_loop_extent fuel vr a bound pres wr m e vr' m' :
  addmap_loop fuel vr a bound pres wr m = Ok (e, vr', m') → same_extent vr vr'.
Proof.
  revert vr a m. induction fuel as [|fuel IH]; intros vr a m; simpl.
  - destruct (a <? bound); [discriminate|]. intros H. inversion H. apply same_extent_refl.
  - destruct (a <? bound); [|intros H; inversion H; apply same_extent_refl].
    intros H. inv_bind H. destruct a0 as [[q vr1] m1].
    apply va2vpage_info_extent in E.
    destruct q as [q|]; [|inversion H; by subst].
    inv_bind H. inv_bind H.
    destruct (kalloc m1) as [[p|] m2]; [|inversion H; by subst].
    inv_bind H. eapply same_extent_trans; [exact E|]. eapply IH. exact H.
Qed.

Lemma addmap_undo_extent fuel vr a start m vr' m' :
  addmap_undo fuel vr a start m = Ok (vr', m') → same_extent vr vr'.
Proof.
  revert vr a m. induction fuel as [|fuel IH]; intros vr a m; simpl.
  - destruct (start <=? a); [discriminate|]. intros H. inversion H. apply same_extent_refl.
  - destruct (start <=? a); [|intros H; inversion H; apply same_extent_refl].
    intros H. inv_bind H. destruct a0 as [[q vr1] m1].
    apply va2vpage_info_extent in E.
    destruct q as [q|]; [|discriminate].
    inv_bind H. inv_bind H.
    eapply same_extent_trans; [exact E|]. eapply IH. exact H.
Qed.

Lemma vregionaddmap_extent vr from_va sz pres wr m r vr' m' :
  vregionaddmap vr from_va sz pres wr m = Ok (r, vr', m') → same_extent vr vr'.
Proof.
  unfold vregionaddmap.
  destruct (KERNBASE <=? u64 (sz + from_va)); [intros H; inversion H; apply same_extent_refl|].
  destruct (sz <=? 0); [intros H; inversion H; apply same_extent_refl|].
  intros H. inv_bind H. destruct a as [[e vr1] m1].
  apply addmap_loop_extent in E.
  destruct e; [inversion H; by subst|].
  inv_bind H. destruct a0 as [vr2 m2]. apply addmap_undo_extent in E0.
  inversion H; subst. by eapply same_extent_trans.
Qed.

Lemma vrloaddata_loop_extent fuel r va ip offset sz i m ret r' m' :
  vrloaddata_loop fuel r va ip offset sz i m = Ok (ret, r', m') → same_extent r r'.
Proof.
  revert r i m. induction fuel as [|fuel IH]; intros r i m; simpl.
  - destruct (i <? sz); [discriminate|]. intros H. inversion H. apply same_extent_refl.
  - destruct (i <? sz); [|intros H; inversion H; apply same_extent_refl].
    intros H. inv_bind H. destruct a as [[q r1] m1].
    apply va2vpage_info_extent in E.
    destruct q as [q|]; [|discriminate].
    inv_bind H. inv_bind H. inv_bind H.
    destruct (negb (Z.of_nat _ =? _)); [inversion H; by subst|].
    eapply same_extent_trans; [exact E|]. eapply IH. exact H.
Qed.

Lemma vrloaddata_extent r va ip offset sz m ret r' m' :
  vrloaddata r va ip offset sz m = Ok (ret, r', m') → same_extent r r'.
Proof.
  unfold vrloaddata. intros H. inv_bind H. by eapply vrloaddata_loop_extent.
Qed.

(** ** Containment in a region *)

(** C9, as amended. For an address and a size whose sum does not wrap:
    with size 0 the test fails at the top address of the region and
    succeeds at every address from the bottom up to, but excluding, the
    top; with a positive size it succeeds exactly when every address of
    [va, va+sz) lies in the half-open extent [VRBOT, VRTOP). *)
Theorem vregioncontains_spec r va sz :
  0 <= va < 2 ^ 64 → 0 <= sz → va + sz < 2 ^ 64 →
  (sz = 0 → va = VRTOP r → vregioncontains r va sz = 0) ∧
  (sz = 0 → VRBOT r <= va < VRTOP r → vregioncontains r va sz = 1) ∧
  (0 < sz → (vregioncontains r va sz = 1 ↔
             ∀ x, va <= x < va + sz → VRBOT r <= x < VRTOP r)).
Proof.
  intros Hva Hsz Hsum. unfold vregioncontains.
  rewrite (u64_small (va + sz)) by lia. split; [|split].
  - intros -> ->. by rewrite !Z.eqb_refl.
  - intros -> [H1 H2].
    rewrite Z.eqb_refl. simpl.
    destruct (Z.eqb_spec va (VRTOP r)); [lia|].
    replace (va + 0) with va by lia.
    destruct (Z.leb_spec (VRBOT r) va); [|lia].
    destruct (Z.leb_spec va (VRTOP r)); [done|lia].
  - intros Hpos. destruct (Z.eqb_spec sz 0); [lia|]. simpl. split.
    + destruct (Z.leb_spec (VRBOT r) va); destruct (Z.leb_spec (va + sz) (VRTOP r));
        simpl; try done; intros _ y Hy; lia.
    + intros Hall.
      pose proof (Hall va ltac:(lia)). pose proof (Hall (va + sz - 1) ltac:(lia)).
      destruct (Z.leb_spec (VRBOT r) va); destruct (Z.leb_spec (va + sz) (VRTOP r));
        simpl; try done; lia.
Qed.

(** ** The two tests at the entry of [vregionaddmap] *)

(** C4, as amended. When the 64-bit sum of [from_va] and [sz] is at or
    above [KERNBASE] the call returns -1 and changes nothing, whatever [sz]
    is; when the sum is below [KERNBASE] and [sz] is 0 the call returns 0 and
    changes nothing. *)
Theorem vregionaddmap_entry_tests vr from_va sz pres wr m :
  (KERNBASE <= u64 (sz + from_va) →
   vregionaddmap vr from_va sz pres wr m = Ok (-1, vr, m)) ∧
  (u64 (sz + from_va) < KERNBASE → sz <= 0 →
   vregionaddmap vr from_va sz pres wr m = Ok (0, vr, m)).
Proof.
  unfold vregionaddmap. split.
  - intros H. destruct (Z.leb_spec KERNBASE (u64 (sz + from_va))); [done|lia].
  - intros H Hsz. destruct (Z.leb_spec KERNBASE (u64 (sz + from_va))); [lia|].
    destruct (Z.leb_spec sz 0); [done|lia].
Qed.

(** ** The first chunk of a store *)

(** C7: the code at its failing input. A look-up in a region that has no
    chunk yet, with no free page left, does not report the failure: the
    null pointer that [kalloc] returned is handed to [memset]. *)
Theorem va2vpage_info_first_chunk_unchecked vr va m :
  pages vr = None → freelist m = [] →
  va2vpage_info vr va m = Fault NullDeref.
Proof.
  intros Hp Hf. unfold va2vpage_info, kalloc. by rewrite Hp, Hf.
Qed.

(** ** Chains of chunks *)

Lemma chain_frame r r' p cs :
  (∀ q, q ∈ cpages cs → r' !! q = r !! q) → chain r p cs → chain r' p cs.
Proof.
  revert p. induction cs as [|[q vs] cs IH]; simpl; intros p Hfr; [done|].
  intros (-> & Hlen & nx & Hq & Hc). split; [done|]. split; [done|].
  exists nx. split.
  - rewrite Hfr; [done|]. unfold cpages. simpl. apply list_elem_of_here.
  - apply IH; [|done]. intros q' Hq'. apply Hfr. unfold cpages. simpl.
    by apply list_elem_of_further.
Qed.

Lemma chain_functional r p cs cs' : chain r p cs → chain r p cs' → cs = cs'.
Proof.
  revert p cs'. induction cs as [|[q vs] cs IH]; intros p [|[q' vs'] cs']; simpl.
  - done.
  - intros -> (? & _). discriminate.
  - intros (-> & _) ?. discriminate.
  - intros (-> & _ & nx & Hq & Hc) (Hp & _ & nx' & Hq' & Hc').
    inversion Hp; subst q'. rewrite Hq in Hq'. inversion Hq'; subst.
    f_equal. by eapply IH.
Qed.

Lemma cpages_app cs cs' : cpages (cs ++ cs') = cpages cs ++ cpages cs'.
Proof. unfold cpages. apply fmap_app. Qed.

Lemma cpages_zeros l : cpages (zeros l) = l.
Proof.
  unfold cpages, zeros. rewrite <- list_fmap_compose.
  induction l; simpl; [done|]. by f_equal.
Qed.

Lemma zeros_cons p l :
  zeros (p :: l) = (p, replicate (Z.to_nat VPIPPAGE) vpi_zero) :: zeros l.
Proof. done. Qed.

Lemma chain_lookup r p cs k q vs :
  chain r p cs → cs !! k = Some (q, vs) →
  ∃ nx, chunk_nth r p k = Some (q, mk_chunk vs nx).
Proof.
  revert p k. induction cs as [|[q0 vs0] cs IH]; intros p k; simpl; [done|].
  intros (-> & Hlen & nx & Hq & Hc).
  destruct k as [|k]; simpl; rewrite Hq.
  - intros [= -> ->]. by exists nx.
  - intros Hk. by eapply IH.
Qed.

Lemma chain_lookup_None r p cs k :
  chain r p cs → cs !! k = None → chunk_nth r p k = None.
Proof.
  revert p k. induction cs as [|[q0 vs0] cs IH]; intros p k; simpl.
  - intros -> _. by destruct k.
  - intros (-> & Hlen & nx & Hq & Hc).
    destruct k as [|k]; simpl; rewrite Hq; [done|]. intros Hk. by eapply IH.
Qed.

(** On a well-formed store the look-up by index reads the list view. *)
Lemma vpi_at_chain m vr cs i :
  chain (ram m) (pages vr) cs → vpi_at m vr i = info_at cs i.
Proof.
  intros Hc. unfold vpi_at, info_at.
  destruct (cs !! Z.to_nat (i / VPIPPAGE)) as [[q vs]|] eqn:Hk; simpl.
  - destruct (chain_lookup _ _ _ _ _ _ Hc Hk) as (nx & ->). done.
  - by rewrite (chain_lookup_None _ _ _ _ Hc Hk).
Qed.

Lemma info_at_app_zeros cs l i :
  0 <= i → 0 < VPIPPAGE → info_at (cs ++ zeros l) i = info_at cs i.
Proof.
  intros Hi HN. unfold info_at.
  destruct (decide (Z.to_nat (i / VPIPPAGE) < length cs)%nat) as [Hlt|Hge].
  - by rewrite lookup_app_l.
  - rewrite lookup_app_r by lia.
    rewrite (lookup_ge_None_2 cs) by lia. simpl.
    unfold zeros. rewrite list_lookup_fmap.
    destruct (l !! _); simpl; [|done].
    destruct (replicate _ _ !! _) eqn:Hr; simpl; [|done].
    apply lookup_replicate in Hr. by destruct Hr as [-> _].
Qed.

(** ** The walk of [va2vpage_info] on a well-formed store *)

Lemma div_mod_below idx : 0 < VPIPPAGE → 0 <= idx < VPIPPAGE →
  idx / VPIPPAGE = 0 ∧ idx mod VPIPPAGE = idx.
Proof. intros. split; [by apply Z.div_small | by apply Z.mod_small]. Qed.

Lemma div_mod_step idx : 0 < VPIPPAGE → VPIPPAGE <= idx →
  (idx - VPIPPAGE) / VPIPPAGE = idx / VPIPPAGE - 1 ∧
  (idx - VPIPPAGE) mod VPIPPAGE = idx mod VPIPPAGE ∧
  1 <= idx / VPIPPAGE.
Proof.
  intros HN Hi.
  replace (idx - VPIPPAGE) with (idx + (-1) * VPIPPAGE) by lia.
  rewrite Z.div_add, Z.mod_add by lia. repeat split; try lia.
  apply Z.div_le_lower_bound; lia.
Qed.

Lemma not_elem_of_take {A} (x : A) n l : x ∉ l → x ∉ take n l.
Proof. intros H Hin. apply H. by eapply (subseteq_take n l). Qed.

Lemma vpi_walk_spec fuel : ∀ info idx m vs0 cs,
  0 < VPIPPAGE →
  chain (ram m) (Some info) ((info, vs0) :: cs) →
  NoDup (info :: cpages cs ++ freelist m) →
  0 <= idx → (Z.to_nat (idx / VPIPPAGE) ≤ fuel)%nat →
  ∃ q n m', vpi_walk fuel info idx m = Ok (q, m') ∧
    (n ≤ length (freelist m))%nat ∧
    freelist m' = drop n (freelist m) ∧
    chain (ram m') (Some info) ((info, vs0) :: cs ++ zeros (take n (freelist m))) ∧
    (∀ p, p ≠ info → p ∉ cpages cs → p ∉ take n (freelist m) →
          ram m' !! p = ram m !! p) ∧
    (n = 0%nat → m' = m) ∧
    match q with
    | Some (pg, j) =>
      cpages ((info, vs0) :: cs ++ zeros (take n (freelist m)))
        !! Z.to_nat (idx / VPIPPAGE) = Some pg ∧
      j = Z.to_nat (idx mod VPIPPAGE) ∧
      n = (Z.to_nat (idx / VPIPPAGE) - length cs)%nat
    | None =>
      n = length (freelist m) ∧
      (S (length cs) + n ≤ Z.to_nat (idx / VPIPPAGE))%nat
    end.
Proof.
  induction fuel as [|fuel IH]; intros info idx m vs0 cs HN Hc Hnd Hidx Hfuel.
  - (* no round left: the index is in the first chunk *)
    simpl. destruct (Z.leb_spec VPIPPAGE idx) as [Hge|Hlt].
    { destruct (div_mod_step idx HN Hge) as (_ & _ & H1). lia. }
    destruct (Z.ltb_spec idx 0); [lia|].
    destruct (div_mod_below idx HN ltac:(lia)) as [Hd Hm].
    exists (Some (info, Z.to_nat idx)), 0%nat, m.
    rewrite take_0, drop_0, app_nil_r, Hd, Hm.
    split; [done|]. split; [lia|]. split; [done|]. split; [exact Hc|].
    split; [done|]. split; [done|]. split; [done|]. split; [done|]. simpl. lia.
  - simpl. destruct (Z.leb_spec VPIPPAGE idx) as [Hge|Hlt]; last first.
    { destruct (Z.ltb_spec idx 0); [lia|].
      destruct (div_mod_below idx HN ltac:(lia)) as [Hd Hm].
      exists (Some (info, Z.to_nat idx)), 0%nat, m.
      rewrite take_0, drop_0, app_nil_r, Hd, Hm.
      split; [done|]. split; [lia|]. split; [done|]. split; [exact Hc|].
      split; [done|]. split; [done|]. split; [done|]. split; [done|]. simpl. lia. }
    destruct (div_mod_step idx HN Hge) as (Hd & Hm & Hk).
    destruct Hc as (_ & Hlen & nx & Hinfo & Hc).
    unfold read_chunk. rewrite Hinfo. simpl.
    apply NoDup_cons in Hnd as [Hni Hnd].
    destruct cs as [|[q1 vs1] cs].
    + (* the chain ends here *)
      simpl in Hc. subst nx. simpl.
      unfold kalloc. destruct (freelist m) as [|f1 fl] eqn:Hfl.
      * exists None, 0%nat, m. rewrite Hfl. simpl.
        repeat split; try done; try lia.
        exists None. done.
      * simpl in Hni, Hnd.
        apply NoDup_cons in Hnd as [Hnf Hndl].
        set (m3 := store f1 (ChunkPage zero_chunk)
                     (store info (ChunkPage (mk_chunk vs0 (Some f1)))
                        (mk_kmem fl (ram m)))).
        assert (info ≠ f1) as Hne by (intros ->; apply Hni; apply list_elem_of_here).
        destruct (IH f1 (idx - VPIPPAGE) m3
                     (replicate (Z.to_nat VPIPPAGE) vpi_zero) [] HN)
          as (q & n & m' & Hw & Hn & Hf & Hch & Hfr & _ & Hq).
        { simpl. split; [done|]. split; [by rewrite length_replicate|].
          exists None. split; [|done]. by rewrite lookup_insert_eq. }
        { simpl. by apply NoDup_cons. }
        { lia. }
        { rewrite Hd. lia. }
        exists q, (S n), m'. rewrite Hw. simpl in Hn, Hf, Hfr, Hch |- *.
        split; [done|]. split; [lia|]. split; [done|].
        split.
        { split; [done|]. split; [done|]. exists (Some f1). split; [|exact Hch].
          rewrite Hfr; [|done|apply not_elem_of_nil|].
          - subst m3. simpl. rewrite lookup_insert_ne by done.
            by rewrite lookup_insert_eq.
          - apply not_elem_of_take. intros Hin. apply Hni. by apply list_elem_of_further. }
        split.
        { intros p Hp _ Hpt. apply not_elem_of_cons in Hpt as [Hpf Hpt].
          rewrite Hfr; [|done|apply not_elem_of_nil|done].
          subst m3. simpl. by rewrite !lookup_insert_ne. }
        split; [lia|].
        destruct q as [[pg j]|].
        -- destruct Hq as (Hpg & Hj & Hnn). rewrite Hd, Hm in *.
           split; [|split; [done|simpl in *; lia]].
           replace (Z.to_nat (idx / VPIPPAGE)) with (S (Z.to_nat (idx / VPIPPAGE - 1))) by lia.
           simpl. exact Hpg.
        -- destruct Hq as (Hnn & Hle). rewrite Hd in *. simpl in *. split; lia.
    + (* the chain goes on *)
      simpl in Hc. destruct Hc as (-> & Hlen1 & nx1 & Hq1 & Hc). simpl.
      simpl in Hni, Hnd.
      assert (info ≠ q1) as Hne by (intros ->; apply Hni; apply list_elem_of_here).
      destruct (IH q1 (idx - VPIPPAGE) m vs1 cs HN)
        as (q & n & m' & Hw & Hn & Hf & Hch & Hfr & Hz & Hq).
      { simpl. split; [done|]. split; [done|]. by exists nx1. }
      { done. }
      { lia. }
      { rewrite Hd. lia. }
      exists q, n, m'. rewrite Hw.
      split; [done|]. split; [done|]. split; [done|].
      split.
      { simpl. split; [done|]. split; [done|]. exists (Some q1). split; [|exact Hch].
        rewrite Hfr; [done|done| |].
        - intros Hin. apply Hni. apply list_elem_of_further.
          apply elem_of_app. by left.
        - apply not_elem_of_take. intros Hin. apply Hni. apply list_elem_of_further.
          apply elem_of_app. by right. }
      split.
      { intros p Hp Hpc Hpt. simpl in Hpc. apply not_elem_of_cons in Hpc as [Hp1 Hpc].
        by apply Hfr. }
      split; [done|].
      destruct q as [[pg j]|].
      * destruct Hq as (Hpg & Hj & Hnn). rewrite Hd, Hm in *.
        split; [|split; [done|simpl; lia]].
        replace (Z.to_nat (idx / VPIPPAGE)) with (S (Z.to_nat (idx / VPIPPAGE - 1))) by lia.
        simpl. exact Hpg.
      * destruct Hq as (Hnn & Hle). rewrite Hd in *. simpl in *. split; lia.
Qed.

Lemma store_ok_chain m vr cs : store_ok m vr cs → chain (ram m) (pages vr) cs.
Proof. by intros [H _]. Qed.

(** [va2vpage_info] on a well-formed store, for an index that is not
    negative, when the region has a chunk or a page is free: the call
    returns; it takes [n] pages from the front of the free pages and they
    become chunks of cleared records at the end of the chain; nothing else
    changes. The result is the null pointer exactly when the free pages run
    out before the chain is long enough. *)
Lemma va2vpage_info_spec vr va m cs :
  0 < VPIPPAGE → store_ok m vr cs → 0 <= va2vpi_idx vr va →
  ¬ (pages vr = None ∧ freelist m = []) →
  ∃ q n vr' m', va2vpage_info vr va m = Ok (q, vr', m') ∧
    same_extent vr vr' ∧
    (n ≤ length (freelist m))%nat ∧
    freelist m' = drop n (freelist m) ∧
    store_ok m' vr' (cs ++ zeros (take n (freelist m))) ∧
    (∀ p, p ∉ cpages cs → p ∉ take n (freelist m) → ram m' !! p = ram m !! p) ∧
    (n = 0%nat → m' = m ∧ vr' = vr) ∧
    match q with
    | Some (pg, j) =>
      cpages (cs ++ zeros (take n (freelist m)))
        !! Z.to_nat (va2vpi_idx vr va / VPIPPAGE) = Some pg ∧
      j = Z.to_nat (va2vpi_idx vr va mod VPIPPAGE) ∧
      n = (S (Z.to_nat (va2vpi_idx vr va / VPIPPAGE)) - length cs)%nat
    | None =>
      n = length (freelist m) ∧
      (length cs + n ≤ Z.to_nat (va2vpi_idx vr va / VPIPPAGE))%nat
    end.
Proof.
  intros HN [Hc Hnd] Hidx Hne.
  assert (Hfuel : (Z.to_nat (va2vpi_idx vr va / VPIPPAGE)
                   ≤ Z.to_nat (va2vpi_idx vr va))%nat).
  { apply Z2Nat.inj_le; [apply Z.div_pos; lia|lia|].
    apply Z.div_le_upper_bound; [lia|]. nia. }
  unfold va2vpage_info.
  destruct (pages vr) as [p|] eqn:Hp.
  - (* the region has its first chunk *)
    destruct cs as [|[p0 vs0] cs]; [simpl in Hc; discriminate|].
    assert (p0 = p) as -> by (simpl in Hc; destruct Hc as [Hc _]; by inversion Hc).
    simpl. rewrite Hp.
    destruct (vpi_walk_spec (Z.to_nat (va2vpi_idx vr va)) p (va2vpi_idx vr va)
                m vs0 cs HN Hc Hnd Hidx Hfuel)
      as (q & n & m' & Hw & Hn & Hf & Hch & Hfr & Hz & Hq).
    exists q, n, vr, m'. rewrite Hw. simpl.
    split; [done|]. split; [apply same_extent_refl|]. split; [done|].
    split; [done|]. split.
    { split; [by rewrite Hp|]. rewrite Hf.
      change (p :: cpages (cs ++ zeros (take n (freelist m))) ++ drop n (freelist m))
        with (cpages ((p, vs0) :: cs ++ zeros (take n (freelist m))) ++ drop n (freelist m)).
      rewrite app_comm_cons, cpages_app, cpages_zeros, <- app_assoc, take_drop. exact Hnd. }
    split.
    { intros p' Hp1 Hp2. simpl in Hp1. apply not_elem_of_cons in Hp1 as [? ?].
      by apply Hfr. }
    split; [intros Hn0; split; [by apply Hz|done]|].
    destruct q as [[pg j]|].
    + destruct Hq as (Hpg & Hj & Hnn). split; [exact Hpg|]. split; [done|].
      simpl. lia.
    + destruct Hq as (Hnn & Hle). split; [done|]. simpl. lia.
  - (* the first chunk is allocated *)
    destruct cs as [|[p0 vs0] cs]; [|simpl in Hc; destruct Hc; discriminate].
    unfold kalloc. destruct (freelist m) as [|f1 fl] eqn:Hfl; [by destruct Hne|].
    simpl.
    set (m1 := store f1 (ChunkPage zero_chunk) (mk_kmem fl (ram m))).
    replace (va2vpi_idx (set_pages vr (Some f1)) va) with (va2vpi_idx vr va)
      by (unfold va2vpi_idx; destruct vr; done).
    simpl in Hnd.
    destruct (vpi_walk_spec (Z.to_nat (va2vpi_idx vr va)) f1 (va2vpi_idx vr va)
                m1 (replicate (Z.to_nat VPIPPAGE) vpi_zero) [] HN)
      as (q & n & m' & Hw & Hn & Hf & Hch & Hfr & Hz & Hq); try done.
    { simpl. split; [done|]. split; [by rewrite length_replicate|].
      exists None. split; [|done]. by rewrite lookup_insert_eq. }
    exists q, (S n), (set_pages vr (Some f1)), m'. rewrite Hw. simpl in *.
    split; [done|]. split; [by destruct vr|]. split; [lia|]. split; [done|].
    split.
    { split; [exact Hch|]. rewrite Hf.
      change (NoDup (f1 :: cpages (zeros (take n fl)) ++ drop n fl)).
      rewrite cpages_zeros, take_drop. exact Hnd. }
    split.
    { intros p' _ Hp2. apply not_elem_of_cons in Hp2 as [? ?].
      rewrite Hfr; [|done|apply not_elem_of_nil|done].
      subst m1. simpl. by rewrite lookup_insert_ne. }
    split; [lia|].
    destruct q as [[pg j]|].
    + destruct Hq as (Hpg & Hj & Hnn). split; [exact Hpg|]. split; [done|]. lia.
    + destruct Hq as (Hnn & Hle). split; lia.
Qed.

(** ** Reading and writing a record through the pointer *)

Lemma chain_at r p cs k q vs :
  chain r p cs → cs !! k = Some (q, vs) →
  length vs = Z.to_nat VPIPPAGE ∧ ∃ nx, r !! q = Some (ChunkPage (mk_chunk vs nx)).
Proof.
  revert p k. induction cs as [|[q0 vs0] cs IH]; intros p k; simpl; [done|].
  intros (-> & Hlen & nx & Hq & Hc). destruct k as [|k]; simpl.
  - intros [= -> ->]. split; [done|]. by exists nx.
  - intros Hk. by eapply IH.
Qed.

Lemma cpages_lookup cs k pg :
  cpages cs !! k = Some pg → ∃ vs, cs !! k = Some (pg, vs).
Proof.
  unfold cpages. rewrite list_lookup_fmap.
  destruct (cs !! k) as [[q vs]|]; simpl; [|done]. intros [= ->]. by exists vs.
Qed.

Lemma mod_lt_nat i : 0 < VPIPPAGE → 0 <= i →
  (Z.to_nat (i mod VPIPPAGE) < Z.to_nat VPIPPAGE)%nat.
Proof. intros. pose proof (Z.mod_pos_bound i VPIPPAGE). lia. Qed.

Lemma vpi_get_chain m p cs i pg :
  0 < VPIPPAGE → 0 <= i → chain (ram m) p cs →
  cpages cs !! Z.to_nat (i / VPIPPAGE) = Some pg →
  vpi_get (pg, Z.to_nat (i mod VPIPPAGE)) m = Ok (info_at cs i).
Proof.
  intros HN Hi Hc Hpg. destruct (cpages_lookup _ _ _ Hpg) as [vs Hk].
  destruct (chain_at _ _ _ _ _ _ Hc Hk) as (Hlen & nx & Hr).
  unfold vpi_get, read_chunk, info_at. simpl. rewrite Hr, Hk. simpl.
  destruct (lookup_lt_is_Some_2 vs (Z.to_nat (i mod VPIPPAGE))) as [v Hv].
  { rewrite Hlen. by apply mod_lt_nat. }
  by rewrite Hv.
Qed.

Lemma cpages_info_set cs i v : cpages (info_set cs i v) = cpages cs.
Proof.
  unfold cpages, info_set. apply list_eq. intros k.
  rewrite !list_lookup_fmap.
  destruct (decide (k = Z.to_nat (i / VPIPPAGE))) as [->|Hne].
  - rewrite list_lookup_alter_eq. by destruct (cs !! _).
  - by rewrite list_lookup_alter_ne.
Qed.

Lemma chain_alter r p cs k pg vs nx j v :
  chain r p cs → NoDup (cpages cs) → cs !! k = Some (pg, vs) →
  r !! pg = Some (ChunkPage (mk_chunk vs nx)) →
  chain (<[pg := ChunkPage (mk_chunk (<[j := v]> vs) nx)]> r) p
        (alter (λ c, (c.1, <[j := v]> c.2)) k cs).
Proof.
  revert p k. induction cs as [|[q0 vs0] cs IH]; intros p k; simpl; [done|].
  intros (-> & Hlen & nx0 & Hq & Hc) Hnd Hk Hr.
  apply NoDup_cons in Hnd as [Hni Hnd].
  destruct k as [|k]; simpl in *.
  - inversion Hk; subst q0 vs0. rewrite Hq in Hr. inversion Hr; subst nx0.
    split; [done|]. split; [by rewrite length_insert|].
    exists nx. split; [by rewrite lookup_insert_eq|].
    eapply chain_frame; [|exact Hc].
    intros q Hin. rewrite lookup_insert_ne; [done|]. by intros ->.
  - split; [done|]. split; [done|]. exists nx0. split.
    + rewrite lookup_insert_ne; [done|]. intros ->. apply Hni.
      unfold cpages. apply list_elem_of_fmap. exists (q0, vs). split; [done|].
      by eapply list_elem_of_lookup_2.
    + by apply IH.
Qed.

Lemma vpi_set_chain m p cs i pg v :
  0 < VPIPPAGE → 0 <= i → chain (ram m) p cs → NoDup (cpages cs) →
  cpages cs !! Z.to_nat (i / VPIPPAGE) = Some pg →
  ∃ m', vpi_set (pg, Z.to_nat (i mod VPIPPAGE)) v m = Ok m' ∧
    freelist m' = freelist m ∧
    chain (ram m') p (info_set cs i v) ∧
    (∀ p', p' ≠ pg → ram m' !! p' = ram m !! p').
Proof.
  intros HN Hi Hc Hnd Hpg. destruct (cpages_lookup _ _ _ Hpg) as [vs Hk].
  destruct (chain_at _ _ _ _ _ _ Hc Hk) as (Hlen & nx & Hr).
  unfold vpi_set, read_chunk. simpl. rewrite Hr. simpl.
  destruct (lookup_lt_is_Some_2 vs (Z.to_nat (i mod VPIPPAGE))) as [v0 Hv].
  { rewrite Hlen. by apply mod_lt_nat. }
  rewrite Hv. eexists. split; [done|]. simpl. split; [done|]. split.
  - unfold info_set. by eapply chain_alter.
  - intros p' Hp'. by rewrite lookup_insert_ne.
Qed.

Lemma index_split i i' : 0 < VPIPPAGE → 0 <= i → 0 <= i' → i ≠ i' →
  Z.to_nat (i / VPIPPAGE) ≠ Z.to_nat (i' / VPIPPAGE) ∨
  Z.to_nat (i mod VPIPPAGE) ≠ Z.to_nat (i' mod VPIPPAGE).
Proof.
  intros HN Hi Hi' Hne.
  destruct (decide (i / VPIPPAGE = i' / VPIPPAGE)) as [Hd|Hd].
  - right. intros Hm.
    pose proof (Z.mod_pos_bound i VPIPPAGE HN).
    pose proof (Z.mod_pos_bound i' VPIPPAGE HN).
    pose proof (Z.div_mod i VPIPPAGE). pose proof (Z.div_mod i' VPIPPAGE).
    assert (i mod VPIPPAGE = i' mod VPIPPAGE) by lia. nia.
  - left. pose proof (Z.div_pos i VPIPPAGE Hi HN).
    pose proof (Z.div_pos i' VPIPPAGE Hi' HN). lia.
Qed.

Lemma info_at_info_set_ne cs i i' v :
  0 < VPIPPAGE → 0 <= i → 0 <= i' → i ≠ i' →
  info_at (info_set cs i v) i' = info_at cs i'.
Proof.
  intros HN Hi Hi' Hne. unfold info_at, info_set.
  destruct (index_split i i' HN Hi Hi' Hne) as [Hk|Hj].
  - by rewrite list_lookup_alter_ne.
  - destruct (decide (Z.to_nat (i / VPIPPAGE) = Z.to_nat (i' / VPIPPAGE))) as [He|Hk].
    + rewrite <- He, list_lookup_alter_eq.
      destruct (cs !! _) as [[q vs]|]; simpl; [|done].
      by rewrite list_lookup_insert_ne.
    + by rewrite list_lookup_alter_ne.
Qed.

Lemma info_at_info_set_eq r p cs i v :
  0 < VPIPPAGE → 0 <= i → chain r p cs →
  (Z.to_nat (i / VPIPPAGE) < length cs)%nat →
  info_at (info_set cs i v) i = v.
Proof.
  intros HN Hi Hc Hk. unfold info_at, info_set.
  rewrite list_lookup_alter_eq.
  destruct (lookup_lt_is_Some_2 cs _ Hk) as [[q vs] Hq]. rewrite Hq. simpl.
  destruct (chain_at _ _ _ _ _ _ Hc Hq) as (Hlen & _).
  rewrite list_lookup_insert_eq; [done|]. rewrite Hlen. by apply mod_lt_nat.
Qed.

Lemma length_info_set cs i v : length (info_set cs i v) = length cs.
Proof. unfold info_set. apply length_alter. Qed.

(** ** What a returning look-up has done *)

Lemma vpi_walk_negative fuel info idx m :
  0 < VPIPPAGE → idx < 0 → vpi_walk fuel info idx m = Fault BadIndex.
Proof.
  intros HN Hi. destruct fuel; simpl;
    (destruct (Z.leb_spec VPIPPAGE idx); [lia|]);
    by (destruct (Z.ltb_spec idx 0); [|lia]).
Qed.

Lemma va2vpage_info_negative vr va m q vr' m' :
  0 < VPIPPAGE → va2vpage_info vr va m = Ok (q, vr', m') → 0 <= va2vpi_idx vr va.
Proof.
  intros HN H. destruct (Z.le_gt_cases 0 (va2vpi_idx vr va)) as [|Hneg]; [done|].
  exfalso. unfold va2vpage_info in H. inv_bind H. destruct a as [vr1 m1].
  assert (va2vpi_idx vr1 va = va2vpi_idx vr va) as Hi.
  { destruct (pages vr); [by inversion E|].
    destruct (kalloc m) as [[p|] m2]; inversion E. by destruct vr. }
  destruct (pages vr1); [|discriminate].
  rewrite Hi in H. by rewrite vpi_walk_negative in H.
Qed.

Lemma va2vpage_info_inv vr va m cs q vr' m' :
  0 < VPIPPAGE → store_ok m vr cs →
  va2vpage_info vr va m = Ok (q, vr', m') →
  0 <= va2vpi_idx vr va ∧
  ∃ n, same_extent vr vr' ∧
    (n ≤ length (freelist m))%nat ∧
    freelist m' = drop n (freelist m) ∧
    store_ok m' vr' (cs ++ zeros (take n (freelist m))) ∧
    (∀ p, p ∉ cpages cs → p ∉ take n (freelist m) → ram m' !! p = ram m !! p) ∧
    (n = 0%nat → m' = m ∧ vr' = vr) ∧
    match q with
    | Some (pg, j) =>
      cpages (cs ++ zeros (take n (freelist m)))
        !! Z.to_nat (va2vpi_idx vr va / VPIPPAGE) = Some pg ∧
      j = Z.to_nat (va2vpi_idx vr va mod VPIPPAGE) ∧
      n = (S (Z.to_nat (va2vpi_idx vr va / VPIPPAGE)) - length cs)%nat
    | None =>
      n = length (freelist m) ∧
      (length cs + n ≤ Z.to_nat (va2vpi_idx vr va / VPIPPAGE))%nat
    end.
Proof.
  intros HN Hok H.
  pose proof (va2vpage_info_negative _ _ _ _ _ _ HN H) as Hidx.
  split; [done|].
  destruct (va2vpage_info_spec vr va m cs HN Hok Hidx)
    as (q0 & n & vr0 & m0 & Hr & Hrest).
  { intros [Hp Hf].
    unfold va2vpage_info, kalloc in H. by rewrite Hp, Hf in H. }
  rewrite H in Hr. inversion Hr; subst q0 vr0 m0. by exists n.
Qed.

(** A page taken from the free pages of a well-formed store is no chunk of
    it and is not free afterwards. *)
Lemma store_ok_kalloc m vr cs p fl :
  store_ok m vr cs → freelist m = p :: fl →
  (p ∉ cpages cs) ∧ (p ∉ fl) ∧ NoDup (cpages cs ++ fl).
Proof.
  intros [_ Hnd] Hf. rewrite Hf in Hnd.
  apply NoDup_app in Hnd as (Hc & Hdis & Hfl).
  apply NoDup_cons in Hfl as [Hp Hfl]. split; [|split; [done|]].
  - intros Hin. apply (Hdis p Hin). apply list_elem_of_here.
  - apply NoDup_app. split; [done|]. split; [|done].
    intros x Hx Hxf. apply (Hdis x Hx). by apply list_elem_of_further.
Qed.

Lemma elem_of_drop {A} (x : A) n l : x ∈ drop n l → x ∈ l.
Proof.
  intros H. rewrite <- (take_drop n l). apply elem_of_app. by right.
Qed.

(** ** The allocation loop of [vregionaddmap] *)

(** The addresses that a loop from [a] in steps of a page visits before
    [stop]. *)
Definition visited (a stop a' : Z) : Prop :=
  ∃ k, 0 <= k ∧ a' = a + k * PGSIZE ∧ a' < stop.

Lemma visited_split a stop a' :
  visited a stop a' → a' = a ∨ visited (a + PGSIZE) stop a'.
Proof.
  intros (k & Hk & -> & Hlt). destruct (decide (k = 0)) as [->|Hne]; [left; lia|].
  right. exists (k - 1). unfold PGSIZE in *. repeat split; lia.
Qed.

Lemma visited_next a stop a' : visited (a + PGSIZE) stop a' → visited a stop a'.
Proof.
  intros (k & Hk & -> & Hlt). exists (k + 1). unfold PGSIZE in *. repeat split; lia.
Qed.

Lemma visited_first a stop : a < stop → visited a stop a.
Proof. intros. exists 0. repeat split; lia. Qed.

Definition loop_stop (bound : Z) (e : addmap_exit) : Z :=
  match e with AddDone => bound | AddFailed af => af end.

(** What the page mapped for one address of the range looks like in the
    state after the loop: its record, where its page comes from, and what the
    page holds. *)
Definition mapped_fresh (m m' : kmem) (cs' : list (Z * list vpage_info))
    (i pres wr : Z) : Prop :=
  ∃ p, info_at cs' i = mk_vpi 1 p pres wr ∧
       p ∈ freelist m ∧ (p ∉ freelist m') ∧ (p ∉ cpages cs') ∧
       ram m' !! p = Some (DataPage zero_bytes).

Lemma addmap_loop_inv bound pres wr fuel : ∀ vr a m cs e vr' m',
  0 < VPIPPAGE → bound <= 2 ^ 64 - PGSIZE → 0 <= a →
  store_ok m vr cs →
  addmap_loop fuel vr a bound pres wr m = Ok (e, vr', m') →
  ∃ cs' n,
    same_extent vr vr' ∧ store_ok m' vr' cs' ∧
    freelist m' = drop n (freelist m) ∧
    (∀ p, p ∉ cpages cs → p ∉ freelist m → ram m' !! p = ram m !! p) ∧
    (∀ q, q ∈ cpages cs' → q ∈ cpages cs ∨ q ∈ freelist m) ∧
    (∀ a', visited a (loop_stop bound e) a' →
           0 <= va2vpi_idx vr a' ∧ used (info_at cs (va2vpi_idx vr a')) = 0 ∧
           mapped_fresh m m' cs' (va2vpi_idx vr a') pres wr) ∧
    (∀ i, 0 <= i → (∀ a', visited a (loop_stop bound e) a' → va2vpi_idx vr a' ≠ i) →
          info_at cs' i = info_at cs i) ∧
    match e with
    | AddDone => True
    | AddFailed af => visited a bound af ∧ freelist m' = []
    end.
Proof.
  induction fuel as [|fuel IH]; intros vr a m cs e vr' m' HN Hb Ha Hok; simpl.
  - (* no round left *)
    destruct (Z.ltb_spec a bound) as [Hlt|Hge]; [discriminate|].
    intros [= <- <- <-]. exists cs, 0%nat. simpl.
    split; [apply same_extent_refl|]. split; [done|]. split; [by rewrite drop_0|].
    split; [done|]. split; [by left|]. split.
    { intros a' (k & Hk & -> & Hlt). unfold PGSIZE in *. lia. }
    split; [done|done].
  - destruct (Z.ltb_spec a bound) as [Hlt|Hge]; last first.
    { intros [= <- <- <-]. exists cs, 0%nat. simpl.
      split; [apply same_extent_refl|]. split; [done|]. split; [by rewrite drop_0|].
      split; [done|]. split; [by left|]. split.
      { intros a' (k & Hk & -> & Hlt). unfold PGSIZE in *. lia. }
      split; [done|done]. }
    intros H. inv_bind H. destruct a0 as [[q vr1] m1].
    destruct (va2vpage_info_inv _ _ _ _ _ _ _ HN Hok E)
      as (Hidx & n1 & Hext1 & Hn1 & Hf1 & Hok1 & Hfr1 & _ & Hq).
    set (cs1 := cs ++ zeros (take n1 (freelist m))) in *.
    assert (Hat1 : ∀ i, 0 <= i → info_at cs1 i = info_at cs i)
      by (intros i Hi; by apply info_at_app_zeros).
    assert (Hcp1 : ∀ x, x ∈ cpages cs1 → x ∈ cpages cs ∨ x ∈ freelist m).
    { intros x. subst cs1. rewrite cpages_app, cpages_zeros, elem_of_app.
      intros [?|Hx]; [by left|right]. by eapply (subseteq_take n1). }
    destruct q as [[pg j]|]; last first.
    { (* the look-up ran out of pages *)
      inversion H; subst e vr' m'. destruct Hq as [-> _].
      exists cs1, (length (freelist m)). simpl.
      split; [done|]. split; [done|]. split; [done|].
      split; [intros p Hp1 Hp2; apply Hfr1; [done|by apply not_elem_of_take]|].
      split; [done|]. split.
      { intros a' (k & Hk & -> & Hlt'). unfold PGSIZE in *. lia. }
      split; [intros i Hi _; by apply Hat1|].
      split; [by apply visited_first|]. by rewrite Hf1, drop_all. }
    destruct Hq as (Hpg & -> & _).
    pose proof (vpi_get_chain m1 _ cs1 _ pg HN Hidx (store_ok_chain _ _ _ Hok1) Hpg) as Hget.
    inv_bind H. rewrite Hget in E0. inversion E0; subst a0. clear E0.
    inv_bind H. unfold assert in E0.
    destruct (Z.eqb_spec (used (info_at cs1 (va2vpi_idx vr a))) 0) as [Hun|]; [|discriminate].
    clear E0 a0. rewrite Hat1 in Hun by done.
    unfold kalloc in H. destruct (freelist m1) as [|p fl2] eqn:Hfl1.
    { (* no page for the data *)
      inversion H; subst e vr' m'.
      exists cs1, n1. simpl.
      split; [done|]. split; [done|]. split; [congruence|].
      split; [intros p Hp1 Hp2; apply Hfr1; [done|by apply not_elem_of_take]|].
      split; [done|]. split.
      { intros a' (k & Hk & -> & Hlt'). unfold PGSIZE in *. lia. }
      split; [intros i Hi _; by apply Hat1|].
      split; [by apply visited_first|done]. }
    destruct (store_ok_kalloc _ _ _ _ _ Hok1 Hfl1) as (Hpc & Hpf & Hnd2).
    set (m3 := store p (DataPage zero_bytes) (mk_kmem fl2 (ram m1))) in *.
    assert (Hc3 : chain (ram m3) (pages vr1) cs1).
    { eapply chain_frame; [|exact (store_ok_chain _ _ _ Hok1)].
      intros x Hx. subst m3. simpl. rewrite lookup_insert_ne; [done|]. by intros ->. }
    destruct (vpi_set_chain m3 _ cs1 _ pg (mk_vpi 1 p pres wr) HN Hidx Hc3)
      as (m4 & Hset & Hf4 & Hc4 & Hfr4); [by apply NoDup_app in Hnd2 as [? _]|done|].
    inv_bind H. rewrite Hset in E0. inversion E0; subst a0. clear E0.
    set (v' := mk_vpi 1 p pres wr) in *.
    set (cs2 := info_set cs1 (va2vpi_idx vr a) v') in *.
    assert (Hok4 : store_ok m4 vr1 cs2).
    { split; [done|]. rewrite Hf4. subst cs2. by rewrite cpages_info_set. }
    assert (Hu : u64 (a + PGSIZE) = a + PGSIZE)
      by (apply u64_small; unfold PGSIZE in *; lia).
    rewrite Hu in H.
    destruct (IH vr1 (a + PGSIZE) m4 cs2 e vr' m' HN Hb ltac:(unfold PGSIZE; lia) Hok4 H)
      as (cs' & n' & Hext & Hok' & Hf' & Hfr' & Hcp' & Hvis' & Hoth' & He').
    assert (Hidx_eq : ∀ x, va2vpi_idx vr1 x = va2vpi_idx vr x)
      by (intros x; by apply same_extent_idx).
    assert (Hpin : p ∈ freelist m).
    { eapply (elem_of_drop _ n1). rewrite <- Hf1. apply list_elem_of_here. }
    assert (Hfl2 : ∀ x, x ∈ fl2 → x ∈ freelist m).
    { intros x Hx. eapply (elem_of_drop _ n1). rewrite <- Hf1.
      by apply list_elem_of_further. }
    assert (Hpgc : pg ∈ cpages cs1) by (by eapply list_elem_of_lookup_2).
    assert (Hk1 : (Z.to_nat (va2vpi_idx vr a / VPIPPAGE) < length cs1)%nat).
    { apply lookup_lt_Some in Hpg. unfold cpages in Hpg. by rewrite length_fmap in Hpg. }
    assert (Hv2 : info_at cs2 (va2vpi_idx vr a) = v').
    { subst cs2. eapply info_at_info_set_eq; [done|done|exact Hc3|done]. }
    assert (Hdist : ∀ a', visited (a + PGSIZE) (loop_stop bound e) a' →
                          va2vpi_idx vr a' ≠ va2vpi_idx vr a).
    { intros a' Hv Heq. destruct (Hvis' a' Hv) as (_ & Hu' & _).
      rewrite Hidx_eq, Heq, Hv2 in Hu'. simpl in Hu'. lia. }
    exists cs', (n1 + 1 + n')%nat.
    split; [by eapply same_extent_trans|]. split; [done|].
    split.
    { rewrite Hf', Hf4. by rewrite <- !drop_drop, <- Hf1. }
    split.
    { intros x Hx1 Hx2. rewrite Hfr'.
      - rewrite Hfr4 by (intros ->; destruct (Hcp1 _ Hpgc); done).
        subst m3. simpl. rewrite lookup_insert_ne by (by intros ->).
        apply Hfr1; [done|by apply not_elem_of_take].
      - subst cs2. rewrite cpages_info_set. intros Hin. destruct (Hcp1 _ Hin); done.
      - rewrite Hf4. intros Hin. by apply Hx2, Hfl2. }
    split.
    { intros x Hx. destruct (Hcp' x Hx) as [Hin|Hin].
      - subst cs2. rewrite cpages_info_set in Hin. by apply Hcp1.
      - right. rewrite Hf4 in Hin. by apply Hfl2. }
    split.
    { intros a' Hv. destruct (visited_split _ _ _ Hv) as [->|Hv'].
      - split; [done|]. split; [done|]. exists p.
        split.
        { rewrite Hoth'; [done|done|]. intros a'' Hv''. rewrite Hidx_eq. by apply Hdist. }
        split; [done|]. split.
        { rewrite Hf', Hf4. intros Hin. apply Hpf. by eapply elem_of_drop. }
        split.
        { intros Hin. destruct (Hcp' _ Hin) as [Hin'|Hin'].
          - subst cs2. by rewrite cpages_info_set in Hin'.
          - by rewrite Hf4 in Hin'. }
        rewrite Hfr'.
        + rewrite Hfr4 by (intros ->; done). subst m3. simpl. by rewrite lookup_insert_eq.
        + subst cs2. by rewrite cpages_info_set.
        + by rewrite Hf4.
      - destruct (Hvis' a' Hv') as (Hi' & Hu' & p' & Hp1 & Hp2 & Hp3 & Hp4 & Hp5).
        rewrite Hidx_eq in *. split; [done|]. split.
        { subst cs2. rewrite info_at_info_set_ne in Hu'; [|done|done|done|].
          - by rewrite Hat1 in Hu'.
          - intros Heq. by apply (Hdist a' Hv'). }
        exists p'. split; [done|]. split; [|done].
        rewrite Hf4 in Hp2. by apply Hfl2. }
    split.
    { intros i Hi Hne. rewrite Hoth'; [|done|].
      - subst cs2. rewrite info_at_info_set_ne; [by apply Hat1|done|done|done|].
        apply Hne. apply visited_first.
        destruct e; simpl; [done|]. destruct He' as [(k & ? & -> & ?) _].
        unfold PGSIZE in *. lia.
      - intros a' Hv'. rewrite Hidx_eq. apply Hne. by apply visited_next. }
    destruct e; [done|]. destruct He' as [Hv' ->]. split; [|done].
    by apply visited_next.
Qed.

(** ** A successful [vregionaddmap] *)

Lemma int32_small z : - 2 ^ 31 <= z < 2 ^ 31 → int32 z = z.
Proof. intros. unfold int32. rewrite Z.mod_small; lia. Qed.

Lemma visited_aligned a stop a' :
  a mod PGSIZE = 0 → (visited a stop a' ↔ a <= a' < stop ∧ a' mod PGSIZE = 0).
Proof.
  intros Ha. unfold visited, PGSIZE in *. split.
  - intros (k & Hk & -> & Hlt). split; [lia|].
    rewrite Z.mod_add by lia. done.
  - intros [[H1 H2] H3]. exists ((a' - a) / 4096).
    pose proof (Z.div_mod a 4096). pose proof (Z.div_mod a' 4096).
    assert (a' - a = ((a' / 4096) - (a / 4096)) * 4096) as Hd by lia.
    rewrite Hd, Z.div_mul by lia. repeat split; lia.
Qed.

(** The pages that one run of the allocation loop maps are distinct: each
    is taken from the free pages, which hold no page twice. *)
Lemma addmap_loop_distinct bound pres wr fuel : ∀ vr a m cs e vr' m',
  0 < VPIPPAGE → bound <= 2 ^ 64 - PGSIZE → 0 <= a →
  store_ok m vr cs →
  addmap_loop fuel vr a bound pres wr m = Ok (e, vr', m') →
  ∀ a1 a2, visited a (loop_stop bound e) a1 → visited a (loop_stop bound e) a2 →
    a1 ≠ a2 →
    ppn (vpi_at m' vr' (va2vpi_idx vr a1)) ≠ ppn (vpi_at m' vr' (va2vpi_idx vr a2)).
Proof.
  induction fuel as [|fuel IH]; intros vr a m cs e vr' m' HN Hb Ha Hok; simpl.
  - destruct (Z.ltb_spec a bound) as [Hlt|Hge]; [discriminate|].
    intros [= <- <- <-] a1 a2 (k & Hk & -> & Hlt). simpl in Hlt. unfold PGSIZE in *. lia.
  - destruct (Z.ltb_spec a bound) as [Hlt|Hge]; last first.
    { intros [= <- <- <-] a1 a2 (k & Hk & -> & Hlt). simpl in Hlt.
      unfold PGSIZE in *. lia. }
    intros H. inv_bind H. destruct a0 as [[q vr1] m1].
    destruct (va2vpage_info_inv _ _ _ _ _ _ _ HN Hok E)
      as (Hidx & n1 & Hext1 & Hn1 & Hf1 & Hok1 & Hfr1 & _ & Hq).
    set (cs1 := cs ++ zeros (take n1 (freelist m))) in *.
    destruct q as [[pg j]|]; last first.
    { inversion H; subst e vr' m'. intros a1 a2 (k & Hk & -> & Hlt').
      simpl in Hlt'. unfold PGSIZE in *. lia. }
    destruct Hq as (Hpg & -> & _).
    pose proof (vpi_get_chain m1 _ cs1 _ pg HN Hidx (store_ok_chain _ _ _ Hok1) Hpg) as Hget.
    inv_bind H. rewrite Hget in E0. inversion E0; subst a0. clear E0.
    inv_bind H. unfold assert in E0.
    destruct (Z.eqb_spec (used (info_at cs1 (va2vpi_idx vr a))) 0) as [Hun|]; [|discriminate].
    clear E0 a0.
    unfold kalloc in H. destruct (freelist m1) as [|p fl2] eqn:Hfl1.
    { inversion H; subst e vr' m'. intros a1 a2 (k & Hk & -> & Hlt').
      simpl in Hlt'. unfold PGSIZE in *. lia. }
    destruct (store_ok_kalloc _ _ _ _ _ Hok1 Hfl1) as (Hpc & Hpf & Hnd2).
    set (m3 := store p (DataPage zero_bytes) (mk_kmem fl2 (ram m1))) in *.
    assert (Hc3 : chain (ram m3) (pages vr1) cs1).
    { eapply chain_frame; [|exact (store_ok_chain _ _ _ Hok1)].
      intros x Hx. subst m3. simpl. rewrite lookup_insert_ne; [done|]. by intros ->. }
    destruct (vpi_set_chain m3 _ cs1 _ pg (mk_vpi 1 p pres wr) HN Hidx Hc3)
      as (m4 & Hset & Hf4 & Hc4 & Hfr4); [by apply NoDup_app in Hnd2 as [? _]|done|].
    inv_bind H. rewrite Hset in E0. inversion E0; subst a0. clear E0.
    set (v' := mk_vpi 1 p pres wr) in *.
    set (cs2 := info_set cs1 (va2vpi_idx vr a) v') in *.
    assert (Hok4 : store_ok m4 vr1 cs2).
    { split; [done|]. rewrite Hf4. subst cs2. by rewrite cpages_info_set. }
    assert (Hu : u64 (a + PGSIZE) = a + PGSIZE)
      by (apply u64_small; unfold PGSIZE in *; lia).
    rewrite Hu in H.
    assert (Ha' : 0 <= a + PGSIZE) by (unfold PGSIZE; lia).
    destruct (addmap_loop_inv _ _ _ _ _ _ _ _ _ _ _ HN Hb Ha' Hok4 H)
      as (cs' & n' & Hext & Hok' & _ & _ & _ & Hvis' & Hoth' & _).
    pose proof (IH vr1 (a + PGSIZE) m4 cs2 e vr' m' HN Hb Ha' Hok4 H) as Htail.
    assert (Hidx_eq : ∀ x, va2vpi_idx vr1 x = va2vpi_idx vr x)
      by (intros x; by apply same_extent_idx).
    assert (Hk1 : (Z.to_nat (va2vpi_idx vr a / VPIPPAGE) < length cs1)%nat).
    { apply lookup_lt_Some in Hpg. unfold cpages in Hpg. by rewrite length_fmap in Hpg. }
    assert (Hv2 : info_at cs2 (va2vpi_idx vr a) = v').
    { subst cs2. eapply info_at_info_set_eq; [done|done|exact Hc3|done]. }
    assert (Hdist : ∀ a', visited (a + PGSIZE) (loop_stop bound e) a' →
                          va2vpi_idx vr a' ≠ va2vpi_idx vr a).
    { intros a' Hv Heq. destruct (Hvis' a' Hv) as (_ & Hu' & _).
      rewrite Hidx_eq, Heq, Hv2 in Hu'. simpl in Hu'. lia. }
    assert (Hfirst : ppn (vpi_at m' vr' (va2vpi_idx vr a)) = p).
    { rewrite (vpi_at_chain _ _ _ _ (store_ok_chain _ _ _ Hok')).
      rewrite Hoth'; [by rewrite Hv2|done|].
      intros a'' Hv''. rewrite Hidx_eq. by apply Hdist. }
    assert (Hlater : ∀ a', visited (a + PGSIZE) (loop_stop bound e) a' →
                           ppn (vpi_at m' vr' (va2vpi_idx vr a')) ≠ p).
    { intros a' Hv. destruct (Hvis' a' Hv) as (_ & _ & p' & Hp1 & Hp2 & _).
      rewrite (vpi_at_chain _ _ _ _ (store_ok_chain _ _ _ Hok')), <- Hidx_eq, Hp1.
      simpl. intros ->. apply Hpf. by rewrite Hf4 in Hp2. }
    intros a1 a2 Hv1 Hv2' Hne.
    destruct (visited_split _ _ _ Hv1) as [-> | Hv1'];
      destruct (visited_split _ _ _ Hv2') as [-> | Hv2''].
    + done.
    + rewrite Hfirst. intros Heq. by apply (Hlater a2 Hv2'').
    + rewrite Hfirst. by apply Hlater.
    + rewrite <- !Hidx_eq. by apply Htail.
Qed.

(** C3, as amended. A call with a size above 0 whose range does not wrap
    around [2^64], on a well-formed store, that returns another value than
    -1 returns the size as [int], which is [sz] for a size up to [INT_MAX],
    and leaves the extent of the region, its [size] included, as it was.
    Every page-aligned address from [PGROUNDUP(from_va)] up to the end
    [from_va + sz] of the range has a record with [used = 1] and the flags
    given, on a page that was free before the call, is not free after it
    and holds zero bytes; the pages of two such addresses are distinct. A
    record whose index is not that of a page of the range reads as
    before. *)
Theorem vregionaddmap_success vr from_va sz pres wr m cs r vr' m' :
  0 < VPIPPAGE → KERNBASE <= 2 ^ 64 - PGSIZE →
  store_ok m vr cs →
  0 <= from_va → 0 < sz → from_va + sz < 2 ^ 64 →
  vregionaddmap vr from_va sz pres wr m = Ok (r, vr', m') → r ≠ -1 →
  r = int32 sz ∧ (sz < 2 ^ 31 → r = sz) ∧ same_extent vr vr' ∧
  (∀ a, PGROUNDUP from_va <= a < from_va + sz → a mod PGSIZE = 0 →
        ∃ p, page_info m' vr' a = mk_vpi 1 p pres wr ∧
             p ∈ freelist m ∧ (p ∉ freelist m') ∧
             ram m' !! p = Some (DataPage zero_bytes)) ∧
  (∀ a a', PGROUNDUP from_va <= a < from_va + sz → a mod PGSIZE = 0 →
           PGROUNDUP from_va <= a' < from_va + sz → a' mod PGSIZE = 0 → a ≠ a' →
           ppn (page_info m' vr' a) ≠ ppn (page_info m' vr' a')) ∧
  (∀ i, 0 <= i →
        (∀ a, PGROUNDUP from_va <= a < from_va + sz → a mod PGSIZE = 0 →
              va2vpi_idx vr a ≠ i) →
        vpi_at m' vr' i = vpi_at m vr i).
Proof.
  intros HN HK Hok Hva Hsz Hnw H Hr. unfold vregionaddmap in H.
  rewrite (Z.add_comm sz from_va), (u64_small (from_va + sz)) in H by lia.
  destruct (Z.leb_spec KERNBASE (from_va + sz)) as [|Hlt];
    [inversion H; congruence|].
  destruct (Z.leb_spec sz 0); [lia|].
  inv_bind H. destruct a as [[e vr1] m1].
  assert (Hb : from_va + sz <= 2 ^ 64 - PGSIZE) by lia.
  destruct (addmap_loop_inv _ _ _ _ _ _ _ _ _ _ _ HN Hb
              (proj1 (PGROUNDUP_range from_va)) Hok E)
    as (cs' & n & Hext & Hok' & Hf & Hfr & Hcp & Hvis & Hoth & He).
  pose proof (addmap_loop_distinct _ _ _ _ _ _ _ _ _ _ _ HN Hb
                (proj1 (PGROUNDUP_range from_va)) Hok E) as Hdis.
  destruct e as [|af].
  - inversion H; subst r vr1 m1. simpl in *.
    split; [done|]. split; [intros; apply int32_small; lia|]. split; [done|].
    pose proof (store_ok_chain _ _ _ Hok) as Hc.
    pose proof (store_ok_chain _ _ _ Hok') as Hc'.
    split.
    + intros a Ha Hal.
      destruct (Hvis a) as (_ & _ & p & Hp1 & Hp2 & Hp3 & _ & Hp5).
      { apply visited_aligned; [apply PGROUNDUP_aligned|done]. }
      exists p. unfold page_info.
      rewrite (vpi_at_chain _ _ _ _ Hc'), (same_extent_idx _ _ _ Hext). done.
    + split.
      * intros a a' Ha Hal Ha' Hal' Hne. unfold page_info.
        rewrite !(same_extent_idx _ _ _ Hext).
        apply Hdis; [..|done]; (apply visited_aligned; [apply PGROUNDUP_aligned|done]).
      * intros i Hi Hne.
        rewrite (vpi_at_chain _ _ _ _ Hc'), (vpi_at_chain _ _ _ _ Hc).
        apply Hoth; [done|]. intros a Hv.
        apply visited_aligned in Hv as [? ?]; [|apply PGROUNDUP_aligned].
        by apply Hne.
  - inv_bind H. destruct a as [vr2 m2]. inversion H. congruence.
Qed.

(** ** [vregionaddmap] over a page that is mapped already *)

Lemma info_at_used_lookup cs i :
  used (info_at cs i) ≠ 0 → (Z.to_nat (i / VPIPPAGE) < length cs)%nat.
Proof.
  unfold info_at. intros Hu. apply lookup_lt_is_Some.
  destruct (cs !! Z.to_nat (i / VPIPPAGE)); [done|]. by simpl in Hu.
Qed.

(** The allocation loop reaches a mapped page when the free pages suffice
    for the pages before it and for the chunks that their look-ups add: the
    assertion fails there, or at a mapped page before it. *)
Lemma addmap_loop_hits_mapped bound pres wr a0 fuel : ∀ vr a m cs (k c : nat),
  0 < VPIPPAGE → bound <= 2 ^ 64 - PGSIZE → 0 <= a → store_ok m vr cs →
  a0 = a + Z.of_nat k * PGSIZE → a0 < bound → (k < fuel)%nat →
  0 <= va2vpi_idx vr a0 → used (info_at cs (va2vpi_idx vr a0)) ≠ 0 →
  (∀ a', visited a a0 a' →
     0 <= va2vpi_idx vr a' ∧
     (Z.to_nat (va2vpi_idx vr a' / VPIPPAGE) < length cs + c)%nat) →
  (k + c ≤ length (freelist m))%nat →
  addmap_loop fuel vr a bound pres wr m = Fault AssertFailed.
Proof.
  induction fuel as [|fuel IH];
    intros vr a m cs k c HN Hb Ha Hok Ha0 Hlt0 Hfuel Hidx0 Hu0 Hvis Hfree; [lia|].
  cbn [addmap_loop].
  assert (Hle : a <= a0) by (unfold PGSIZE in *; lia).
  destruct (Z.ltb_spec a bound) as [Hlt|]; [|lia].
  pose proof (info_at_used_lookup _ _ Hu0) as Hl0.
  assert (Hhere : 0 <= va2vpi_idx vr a ∧
                  (Z.to_nat (va2vpi_idx vr a / VPIPPAGE) < length cs + c)%nat ∧
                  (k = 0%nat → (Z.to_nat (va2vpi_idx vr a / VPIPPAGE) < length cs)%nat)).
  { destruct k as [|k].
    - assert (a = a0) as -> by lia. split; [done|]. split; [lia|done].
    - destruct (Hvis a) as [? ?]; [apply visited_first; unfold PGSIZE in *; lia|].
      split; [done|]. split; [done|]. intros [=]. }
  destruct Hhere as (Hidx & Hc & Hk0).
  destruct (va2vpage_info_spec vr a m cs HN Hok Hidx)
    as (q & n & vr1 & m1 & Heq & Hext & Hn & Hfl1 & Hok1 & _ & _ & Hq).
  { intros [Hp Hnil]. destruct k as [|k].
    - specialize (Hk0 eq_refl). destruct Hok as [Hch _]. rewrite Hp in Hch.
      destruct cs as [|[q0 vs0] cs]; [simpl in Hk0; lia|]. simpl in Hch. by destruct Hch.
    - rewrite Hnil in Hfree. simpl in Hfree. lia. }
  destruct q as [[pg j]|]; [|lia]. destruct Hq as (Hpg & -> & ->).
  set (n := (S (Z.to_nat (va2vpi_idx vr a / VPIPPAGE)) - length cs)%nat) in *.
  set (cs1 := cs ++ zeros (take n (freelist m))) in *.
  rewrite Heq. cbn [mbind outcome_bind].
  rewrite (vpi_get_chain m1 _ cs1 _ pg HN Hidx (store_ok_chain _ _ _ Hok1) Hpg).
  cbn [mbind outcome_bind]. unfold cs1 at 1. rewrite info_at_app_zeros by done.
  destruct (Z.eqb_spec (used (info_at cs (va2vpi_idx vr a))) 0) as [Hun|Hun]; [|done].
  cbn [assert mbind outcome_bind].
  destruct k as [|k]; [assert (a = a0) as -> by lia; done|].
  destruct (freelist m1) as [|p fl] eqn:Hfl.
  { apply (f_equal length) in Hfl1. rewrite length_drop in Hfl1. simpl in Hfl1. lia. }
  unfold kalloc. rewrite Hfl.
  destruct (store_ok_kalloc _ _ _ _ _ Hok1 Hfl) as (Hpc & Hpf & Hnd).
  set (m2 := store p (DataPage zero_bytes) (mk_kmem fl (ram m1))).
  assert (Hc2 : chain (ram m2) (pages vr1) cs1).
  { eapply chain_frame; [|exact (store_ok_chain _ _ _ Hok1)].
    intros x Hx. simpl. apply lookup_insert_ne. by intros <-. }
  assert (Hndc : NoDup (cpages cs1)) by (by apply NoDup_app in Hnd as (? & _)).
  destruct (vpi_set_chain m2 _ cs1 (va2vpi_idx vr a) pg (mk_vpi 1 p pres wr)
              HN Hidx Hc2 Hndc Hpg) as (m3 & Hset & Hfl3 & Hc3 & _).
  rewrite Hset. cbn [mbind outcome_bind].
  rewrite u64_small by (unfold PGSIZE in *; lia).
  assert (Hlen1 : length cs1 = (length cs + n)%nat).
  { unfold cs1, zeros. rewrite length_app, length_fmap, length_take. lia. }
  assert (Hfllen : length fl = (length (freelist m) - n - 1)%nat).
  { apply (f_equal length) in Hfl1. rewrite length_drop in Hfl1. simpl in Hfl1. lia. }
  assert (Hk1 : (Z.to_nat (va2vpi_idx vr a / VPIPPAGE) < length cs1)%nat).
  { apply lookup_lt_Some in Hpg. unfold cpages in Hpg. by rewrite length_fmap in Hpg. }
  apply (IH vr1 (a + PGSIZE) m3 (info_set cs1 (va2vpi_idx vr a) (mk_vpi 1 p pres wr))
            k (c - n)%nat HN Hb).
  - unfold PGSIZE. lia.
  - split; [done|]. by rewrite cpages_info_set, Hfl3.
  - unfold PGSIZE in *. lia.
  - done.
  - lia.
  - by rewrite (same_extent_idx _ _ _ Hext).
  - rewrite (same_extent_idx _ _ _ Hext).
    destruct (decide (va2vpi_idx vr a = va2vpi_idx vr a0)) as [He|He].
    + rewrite <- He. erewrite info_at_info_set_eq; [simpl; lia|done|done|exact Hc2|done].
    + rewrite info_at_info_set_ne by done. unfold cs1. by rewrite info_at_app_zeros.
  - intros a' Hv'. pose proof (visited_next _ _ _ Hv') as Hv.
    destruct (Hvis a' Hv) as (Hi' & Hc').
    rewrite (same_extent_idx _ _ _ Hext). split; [done|].
    rewrite length_info_set, Hlen1. unfold n in *. lia.
  - rewrite Hfl3. unfold m2. simpl. rewrite Hfllen. unfold n in *. lia.
Qed.

(** ** The rollback of [vregionaddmap] from address 0 *)

Lemma addmap_undo_start_zero fuel : ∀ vr a m r,
  0 <= a → addmap_undo fuel vr a 0 m ≠ Ok r.
Proof.
  induction fuel as [|fuel IH]; intros vr a m r Ha; simpl;
    (destruct (Z.leb_spec 0 a) as [_|]; [|lia]); [done|].
  intros H. inv_bind H. destruct a0 as [[q vr1] m1].
  destruct q as [q|]; [|discriminate].
  inv_bind H. inv_bind H.
  eapply IH; [|exact H]. apply u64_range.
Qed.

(** C2: the code at its failing input. When the range starts at address 0
    and an allocation fails after the first page, the rollback loop
    [for (a -= PGSIZE; a >= PGROUNDUP(from_va); a -= PGSIZE)] compares
    unsigned values with 0, which never fails: the call does not return
    -1, it does not return. *)
Theorem vregionaddmap_rollback_from_zero vr from_va sz pres wr m af vr1 m1 :
  PGROUNDUP from_va = 0 → 0 < sz → u64 (sz + from_va) < KERNBASE →
  addmap_loop (Z.to_nat ((u64 (from_va + sz) - 0) / PGSIZE + 1))
    vr 0 (u64 (from_va + sz)) pres wr m = Ok (AddFailed af, vr1, m1) →
  ∀ res, vregionaddmap vr from_va sz pres wr m ≠ Ok res.
Proof.
  intros Hs Hsz Hlt Hloop res H. unfold vregionaddmap in H.
  destruct (Z.leb_spec KERNBASE (u64 (sz + from_va))); [lia|].
  destruct (Z.leb_spec sz 0); [lia|].
  rewrite Hs, Hloop in H. simpl in H.
  inv_bind H. eapply addmap_undo_start_zero; [|exact E]. apply u64_range.
Qed.

(** ** The loader on the two-segment image *)

Lemma vregionaddmap_result vr from_va sz pres wr m r vr' m' :
  vregionaddmap vr from_va sz pres wr m = Ok (r, vr', m') →
  r = -1 ∨ (sz <= 0 ∧ r = 0) ∨ (0 < sz ∧ r = int32 sz).
Proof.
  unfold vregionaddmap.
  destruct (Z.leb_spec KERNBASE (u64 (sz + from_va))); [intros [= <- _ _]; by left|].
  destruct (Z.leb_spec sz 0); [intros [= <- _ _]; right; by left|].
  intros Hr. inv_bind Hr. destruct a as [[e vr1] m1]. destruct e.
  - inversion Hr. right. right. done.
  - inv_bind Hr. destruct a0. inversion Hr. by left.
Qed.

(** One round of the loader's loop that does not fail. *)
Lemma load_segment_inv ip ph ls vs m ls' vs' m' :
  load_segment ip ph ls vs m = Ok (Some ls', vs', m') →
  ∃ code code',
    regions vs !! VR_CODE = Some code ∧
    regions vs' = <[VR_CODE := code']> (regions vs) ∧
    same_extent (if first_section ls
                 then set_va_base code (PGROUNDDOWN (ph_vaddr ph)) else code) code' ∧
    first_section ls' = false ∧
    code_end ls' = u64 (ph_vaddr ph + ph_memsz ph) ∧
    0 <= last_sz ls' ∧
    ((ph_memsz ph <= 0 ∧ last_sz ls' = 0) ∨
     (0 < ph_memsz ph ∧ last_sz ls' = int32 (ph_memsz ph))).
Proof.
  unfold load_segment.
  destruct (ph_memsz ph <? ph_filesz ph); [discriminate|].
  destruct (u64 (ph_vaddr ph + ph_memsz ph) <? ph_vaddr ph); [discriminate|].
  destruct (regions vs !! VR_CODE) as [code|] eqn:Hcode; [|discriminate].
  intros H. inv_bind H. destruct a as [[sz code1] m1].
  pose proof (vregionaddmap_extent _ _ _ _ _ _ _ _ _ E) as Hext1.
  pose proof (vregionaddmap_result _ _ _ _ _ _ _ _ _ E) as Hres.
  destruct (Z.ltb_spec sz 0) as [|Hsz]; [discriminate|].
  destruct (negb (ph_vaddr ph mod PGSIZE =? 0)); [discriminate|].
  inv_bind H. destruct a as [[r code2] m2].
  pose proof (vrloaddata_extent _ _ _ _ _ _ _ _ _ E0) as Hext2.
  destruct (r <? 0); [discriminate|].
  inversion H; subst ls' vs' m'. simpl.
  exists code, code2. split; [done|]. split; [by rewrite list_insert_insert_eq|].
  split; [by eapply same_extent_trans|]. split; [done|]. split; [done|].
  split; [done|]. destruct Hres as [->|[?|?]]; [lia|by left|by right].
Qed.

(** The image of the scenario: two loadable segments, the first at
    [0x10000] with 0x100 bytes in the file, 0x1000 bytes in memory and no
    write flag, the second at [0x11000] with 0x50 bytes in the file and in
    memory and the write flag. *)
Definition two_segment_image (ip : inode) : Prop :=
  ∃ entry flA flB offA offB,
    i_elf ip = Some (mk_elfhdr ELF_MAGIC 2 entry) ∧
    i_ph ip = [mk_proghdr ELF_PROG_LOAD flA offA 0x10000 0x100 0x1000;
               mk_proghdr ELF_PROG_LOAD flB offB 0x11000 0x50 0x50] ∧
    Z.land flA ELF_PROG_FLAG_WRITE = 0 ∧ Z.land flB ELF_PROG_FLAG_WRITE ≠ 0.

(** A load of the two-segment image that succeeds (it stores the entry
    point) returns the size asked for the last segment, 0x50, and leaves the
    code region with base [0x10000] and size [0x1050], and the heap region
    with base [0x13000] and size 0. *)
Lemma vspaceloadcode_two_segments_regions vs ip m r rip vs' m' :
  two_segment_image ip →
  vspaceloadcode vs (Some ip) m = Ok (r, Some rip, vs', m') →
  r = 0x50 ∧
  ∃ code heap,
    regions vs' !! VR_CODE = Some code ∧ regions vs' !! VR_HEAP = Some heap ∧
    va_base code = 0x10000 ∧ size code = 0x1050 ∧
    va_base heap = 0x13000 ∧ size heap = 0.
Proof.
  intros (entry & flA & flB & offA & offB & Helf & Hph & _ & _).
  unfold vspaceloadcode. rewrite Helf. simpl.
  intros H. inv_bind H. destruct a as [[o vs2] m2].
  destruct o as [ls|]; [|discriminate].
  (* the two rounds of the loop *)
  simpl in E. rewrite Hph in E. simpl in E.
  inv_bind E. destruct a as [[o1 vs1] m1].
  destruct o1 as [ls1|]; [|discriminate].
  destruct (load_segment_inv _ _ _ _ _ _ _ _ E0)
    as (c0 & c1 & Hc0 & Hrs1 & Hext1 & Hfs1 & Hend1 & _ & _).
  inv_bind E. destruct a as [[o2 vs2'] m2'].
  destruct o2 as [ls2|]; [|discriminate].
  destruct (load_segment_inv _ _ _ _ _ _ _ _ E1)
    as (c1' & c2 & Hc1 & Hrs2 & Hext2 & Hfs2 & Hend2 & Hsz2 & Hres2).
  inversion E; subst ls vs2' m2'. clear E.
  simpl in *. rewrite Hfs1 in Hext2.
  assert (Hlen : (0 < length (regions vs))%nat) by (by eapply lookup_lt_Some).
  rewrite Hrs1, list_lookup_insert_eq in Hc1 by done. inversion Hc1; subst c1'.
  (* after the loop *)
  inv_bind H. rewrite Hrs2, Hrs1 in H.
  rewrite list_lookup_insert_eq in H by (by rewrite length_insert).
  destruct (<[VR_CODE:=_]> (<[VR_CODE:=c2]> (<[VR_CODE:=c1]> (regions vs))) !! VR_HEAP)
    as [heap|] eqn:Hheap; [|discriminate].
  inversion H; subst r rip vs' m'. simpl.
  destruct Hext1 as (_ & Hb1 & _). destruct Hext2 as (_ & Hb2 & _).
  simpl in Hb1. split.
  { destruct Hres2 as [[? _]|[_ ->]]; [lia|done]. }
  eexists _, _. split.
  { rewrite list_lookup_insert_ne by done. apply list_lookup_insert_eq.
    by rewrite !length_insert. }
  split.
  { apply list_lookup_insert_eq. apply lookup_lt_Some in Hheap.
    by rewrite !length_insert in *. }
  simpl. rewrite Hend2, Hb2, Hb1. done.
Qed.

(** ** The stores of all regions of an address space *)

(** The stores of the regions [rs] are well formed, with list views
    [css], and no chunk belongs to two of them. *)
Definition stores_ok (m : kmem) (rs : list vregion)
    (css : list (list (Z * list vpage_info))) : Prop :=
  Forall2 (store_ok m) rs css ∧
  ∀ i j cs cs' p, i ≠ j → css !! i = Some cs → css !! j = Some cs' →
                  p ∈ cpages cs → p ∉ cpages cs'.

Lemma stores_ok_lookup m rs css i vr :
  stores_ok m rs css → rs !! i = Some vr →
  ∃ cs, css !! i = Some cs ∧ store_ok m vr cs.
Proof. intros [Hf _] Hi. by eapply Forall2_lookup_l. Qed.

Lemma chain_is_chunk r p cs q :
  chain r p cs → q ∈ cpages cs → ∃ c, r !! q = Some (ChunkPage c).
Proof.
  intros Hc Hq. unfold cpages in Hq. apply list_elem_of_fmap in Hq as ([q' vs] & -> & Hin).
  apply list_elem_of_lookup in Hin as [k Hk].
  destruct (chain_at _ _ _ _ _ _ Hc Hk) as (_ & nx & Hr). eauto.
Qed.

Lemma NoDup_app_drop {A} (l fl : list A) n : NoDup (l ++ fl) → NoDup (l ++ drop n fl).
Proof.
  rewrite !NoDup_app. intros (H1 & H2 & H3). split; [done|]. split.
  - intros x Hx Hd. apply (H2 x Hx). by eapply elem_of_drop.
  - rewrite <- (take_drop n fl) in H3. by apply NoDup_app in H3 as (_ & _ & ?).
Qed.

(** Memory changes that leave every chunk of every store alone keep the
    stores well formed; free pages may have been taken. *)
Lemma stores_ok_frame m m' rs css n :
  stores_ok m rs css → freelist m' = drop n (freelist m) →
  (∀ k cs q, css !! k = Some cs → q ∈ cpages cs → ram m' !! q = ram m !! q) →
  stores_ok m' rs css.
Proof.
  intros [Hf Hd] Hfl Hfr. split; [|done].
  apply Forall2_same_length_lookup. split; [by eapply Forall2_length|].
  intros k vr cs Hvr Hcs.
  destruct (Forall2_lookup_lr _ _ _ _ _ _ Hf Hvr Hcs) as [Hc Hnd].
  split.
  - eapply chain_frame; [|exact Hc]. intros q Hq. by eapply Hfr.
  - rewrite Hfl. by apply NoDup_app_drop.
Qed.

(** A change to the store of one region that takes its new chunks from the
    free pages and touches no other page keeps all stores well formed. *)
Lemma stores_ok_update m m' rs css i vr cs vr' cs' n :
  stores_ok m rs css → rs !! i = Some vr → css !! i = Some cs →
  store_ok m' vr' cs' →
  freelist m' = drop n (freelist m) →
  (∀ p, p ∈ cpages cs' → p ∈ cpages cs ∨ p ∈ freelist m) →
  (∀ p, p ∉ cpages cs → p ∉ freelist m → ram m' !! p = ram m !! p) →
  stores_ok m' (<[i := vr']> rs) (<[i := cs']> css).
Proof.
  intros [Hf Hd] Hvr Hcs Hok' Hfl Hsub Hfr.
  pose proof (Forall2_length _ _ _ Hf) as Hlen.
  assert (Hi : (i < length css)%nat) by (by eapply lookup_lt_Some).
  split.
  - apply Forall2_same_length_lookup. split; [by rewrite !length_insert|].
    intros k vrk csk Hk1 Hk2.
    destruct (decide (k = i)) as [->|Hne].
    + rewrite list_lookup_insert_eq in Hk1 by lia.
      rewrite list_lookup_insert_eq in Hk2 by lia. by simplify_eq.
    + rewrite list_lookup_insert_ne in Hk1 by done.
      rewrite list_lookup_insert_ne in Hk2 by done.
      destruct (Forall2_lookup_lr _ _ _ _ _ _ Hf Hk1 Hk2) as [Hc Hnd].
      split.
      * eapply chain_frame; [|exact Hc]. intros q Hq. apply Hfr.
        -- by apply (Hd k i csk cs q).
        -- apply NoDup_app in Hnd as (_ & Hdis & _). by apply Hdis.
      * rewrite Hfl. by apply NoDup_app_drop.
  - intros a b ca cb p Hab Ha Hb Hp.
    destruct (decide (a = i)) as [->|Hai]; destruct (decide (b = i)) as [->|Hbi]; [done| | |].
    + rewrite list_lookup_insert_eq in Ha by lia. simplify_eq.
      rewrite list_lookup_insert_ne in Hb by done.
      destruct (Hsub p Hp) as [Hin|Hin].
      * by apply (Hd i b cs cb p).
      * destruct (Forall2_lookup_r _ _ _ _ _ Hf Hb) as (vrb & _ & _ & Hnd).
        apply NoDup_app in Hnd as (_ & Hdis & _). intros Hq. by apply (Hdis p Hq).
    + rewrite list_lookup_insert_eq in Hb by lia. simplify_eq.
      rewrite list_lookup_insert_ne in Ha by done.
      intros Hq. destruct (Hsub p Hq) as [Hin|Hin].
      * by apply (Hd a i ca cs p).
      * destruct (Forall2_lookup_r _ _ _ _ _ Hf Ha) as (vra & _ & _ & Hnd).
        apply NoDup_app in Hnd as (_ & Hdis & _). by apply (Hdis p Hp).
    + rewrite list_lookup_insert_ne in Ha by done.
      rewrite list_lookup_insert_ne in Hb by done.
      by apply (Hd a b ca cb p).
Qed.

(** [va2vpage_info] on one region of an address space. *)
Lemma va2vpage_info_stores m rs css i vr cs va q vr' m' :
  0 < VPIPPAGE → stores_ok m rs css →
  rs !! i = Some vr → css !! i = Some cs →
  va2vpage_info vr va m = Ok (q, vr', m') →
  0 <= va2vpi_idx vr va ∧
  ∃ n cs',
    same_extent vr vr' ∧
    freelist m' = drop n (freelist m) ∧
    store_ok m' vr' cs' ∧
    stores_ok m' (<[i := vr']> rs) (<[i := cs']> css) ∧
    (∀ p, p ∉ cpages cs → p ∉ freelist m → ram m' !! p = ram m !! p) ∧
    (∀ p, p ∈ cpages cs' → p ∈ cpages cs ∨ p ∈ freelist m) ∧
    (∀ j, 0 <= j → info_at cs' j = info_at cs j) ∧
    match q with
    | Some (pg, j) =>
      cpages cs' !! Z.to_nat (va2vpi_idx vr va / VPIPPAGE) = Some pg ∧
      j = Z.to_nat (va2vpi_idx vr va mod VPIPPAGE)
    | None => freelist m' = []
    end.
Proof.
  intros HN Hs Hvr Hcs H.
  destruct (stores_ok_lookup _ _ _ _ _ Hs Hvr) as (cs0 & Hcs0 & Hok).
  rewrite Hcs in Hcs0. inversion Hcs0; subst cs0.
  destruct (va2vpage_info_inv _ _ _ _ _ _ _ HN Hok H)
    as (Hidx & n & Hext & Hn & Hf & Hok' & Hfr & _ & Hq).
  split; [done|]. exists n, (cs ++ zeros (take n (freelist m))).
  assert (Hsub : ∀ p, p ∈ cpages (cs ++ zeros (take n (freelist m))) →
                      p ∈ cpages cs ∨ p ∈ freelist m).
  { intros p. rewrite cpages_app, cpages_zeros, elem_of_app.
    intros [?|Hx]; [by left|right]. by eapply (subseteq_take n). }
  assert (Hfr' : ∀ p, p ∉ cpages cs → p ∉ freelist m → ram m' !! p = ram m !! p).
  { intros p Hp1 Hp2. apply Hfr; [done|]. by apply not_elem_of_take. }
  split; [done|]. split; [done|]. split; [done|].
  split; [by eapply stores_ok_update|].
  split; [done|]. split; [done|].
  split; [intros j Hj; by apply info_at_app_zeros|].
  destruct q as [[pg j]|].
  - destruct Hq as (? & ? & _). done.
  - destruct Hq as [-> _]. by rewrite Hf, drop_all.
Qed.

(** ** The rebuild of the hardware table *)

Lemma shiftr_page_step a k :
  0 <= a → 0 <= k →
  Z.shiftr (a + k * PGSIZE) PT_SHIFT = Z.shiftr a PT_SHIFT + k.
Proof.
  intros Ha Hk. unfold PT_SHIFT, PGSIZE. rewrite !Z.shiftr_div_pow2 by lia.
  change (2 ^ 12) with 4096. by rewrite Z.div_add by lia.
Qed.

Lemma visited_vpn_distinct a stop a' :
  0 <= a → visited (a + PGSIZE) stop a' →
  Z.shiftr a' PT_SHIFT ≠ Z.shiftr a PT_SHIFT.
Proof.
  intros Ha (k & Hk & -> & _).
  replace (a + PGSIZE + k * PGSIZE) with (a + (k + 1) * PGSIZE) by lia.
  rewrite shiftr_page_step by lia. lia.
Qed.

(** What the table holds for a page after the rebuild has visited it. *)
Definition installed (v : vpage_info) (old : option pte) : option pte :=
  if used v =? 0 then old else Some (mk_pte (ppn v) (x86perms v)).

Lemma update_pages_inv stop fuel : ∀ i vr start pt m rs css cs vr' pt' m',
  0 < VPIPPAGE → stop <= 2 ^ 64 - PGSIZE → 0 <= start →
  stores_ok m rs css → rs !! i = Some vr → css !! i = Some cs →
  update_pages fuel vr start stop pt m = Ok (vr', pt', m') →
  ∃ cs' n,
    same_extent vr vr' ∧
    freelist m' = drop n (freelist m) ∧
    stores_ok m' (<[i := vr']> rs) (<[i := cs']> css) ∧
    (∀ p, p ∉ cpages cs → p ∉ freelist m → ram m' !! p = ram m !! p) ∧
    (∀ p, p ∈ cpages cs' → p ∈ cpages cs ∨ p ∈ freelist m) ∧
    (∀ j, 0 <= j → info_at cs' j = info_at cs j) ∧
    (∀ a, visited start stop a →
          0 <= va2vpi_idx vr a ∧
          pt' !! Z.shiftr a PT_SHIFT
          = installed (info_at cs (va2vpi_idx vr a)) (pt !! Z.shiftr a PT_SHIFT)) ∧
    (∀ vpn, (∀ a, visited start stop a → Z.shiftr a PT_SHIFT ≠ vpn) →
            pt' !! vpn = pt !! vpn).
Proof.
  induction fuel as [|fuel IH];
    intros i vr start pt m rs css cs vr' pt' m' HN Hb Ha Hs Hvr Hcs; simpl.
  - destruct (Z.ltb_spec start stop) as [Hlt|Hge]; [discriminate|].
    intros [= <- <- <-]. exists cs, 0%nat.
    rewrite !list_insert_id by done.
    split; [apply same_extent_refl|]. split; [by rewrite drop_0|].
    split; [done|]. split; [done|]. split; [by left|]. split; [done|].
    split; [|done]. intros a (k & Hk & -> & Hlt). unfold PGSIZE in *. lia.
  - destruct (Z.ltb_spec start stop) as [Hlt|Hge]; last first.
    { intros [= <- <- <-]. exists cs, 0%nat.
      rewrite !list_insert_id by done.
      split; [apply same_extent_refl|]. split; [by rewrite drop_0|].
      split; [done|]. split; [done|]. split; [by left|]. split; [done|].
      split; [|done]. intros a (k & Hk & -> & Hlt). unfold PGSIZE in *. lia. }
    intros H. inv_bind H. destruct a as [[q vr1] m1].
    destruct (va2vpage_info_stores _ _ _ _ _ _ _ _ _ _ HN Hs Hvr Hcs E)
      as (Hidx & n1 & cs1 & Hext1 & Hf1 & Hok1 & Hs1 & Hfr1 & Hsub1 & Hat1 & Hq).
    destruct q as [[pg j]|]; [|discriminate].
    destruct Hq as (Hpg & ->).
    inv_bind H.
    rewrite (vpi_get_chain m1 _ cs1 _ pg HN Hidx (store_ok_chain _ _ _ Hok1) Hpg) in E0.
    inversion E0; subst a. clear E0. rewrite Hat1 in H by done.
    assert (Hu : u64 (start + PGSIZE) = start + PGSIZE)
      by (apply u64_small; unfold PGSIZE in *; lia).
    rewrite Hu in H.
    assert (Hi : (i < length rs)%nat) by (by eapply lookup_lt_Some).
    assert (Hi' : (i < length css)%nat) by (by eapply lookup_lt_Some).
    set (v := info_at cs (va2vpi_idx vr start)) in *.
    set (pt1 := if used v =? 0 then pt
                else mappages pt (Z.shiftr start PT_SHIFT) (ppn v) (x86perms v)) in *.
    destruct (IH i vr1 (start + PGSIZE) pt1 m1 (<[i:=vr1]> rs) (<[i:=cs1]> css) cs1
                vr' pt' m' HN Hb ltac:(unfold PGSIZE; lia) Hs1
                ltac:(by apply list_lookup_insert_eq)
                ltac:(by apply list_lookup_insert_eq) H)
      as (cs' & n' & Hext & Hf' & Hs' & Hfr' & Hsub' & Hat' & Hvis' & Hoth').
    rewrite !list_insert_insert_eq in Hs'.
    assert (Hpt1 : pt1 !! Z.shiftr start PT_SHIFT
                   = installed v (pt !! Z.shiftr start PT_SHIFT)).
    { subst pt1. unfold installed, mappages. destruct (used v =? 0); [done|].
      by rewrite lookup_insert_eq. }
    assert (Hpt1' : ∀ vpn, vpn ≠ Z.shiftr start PT_SHIFT → pt1 !! vpn = pt !! vpn).
    { intros vpn Hne. subst pt1. unfold mappages. destruct (used v =? 0); [done|].
      by rewrite lookup_insert_ne. }
    exists cs', (n1 + n')%nat.
    split; [by eapply same_extent_trans|].
    split; [by rewrite Hf', Hf1, drop_drop|].
    split; [done|].
    split.
    { intros p Hp1 Hp2. rewrite Hfr'; [by apply Hfr1| |].
      - intros Hin. destruct (Hsub1 _ Hin); done.
      - rewrite Hf1. intros Hin. apply Hp2. by eapply elem_of_drop. }
    split.
    { intros p Hp. destruct (Hsub' _ Hp) as [Hin|Hin]; [by apply Hsub1|].
      right. rewrite Hf1 in Hin. by eapply elem_of_drop. }
    split; [intros j Hj; by rewrite Hat', Hat1|].
    split.
    { intros a Hv. destruct (visited_split _ _ _ Hv) as [->|Hv'].
      - split; [done|]. rewrite Hoth'; [done|].
        intros a' Hv'. by eapply visited_vpn_distinct.
      - destruct (Hvis' a Hv') as [Hidx' Hpt'].
        rewrite (same_extent_idx _ _ _ Hext1) in Hidx', Hpt'.
        split; [done|]. rewrite Hpt', Hat1 by done. f_equal.
        apply Hpt1'. by eapply visited_vpn_distinct. }
    intros vpn Hne. rewrite Hoth'.
    + apply Hpt1'. intros ->. by apply (Hne start (visited_first _ _ Hlt)).
    + intros a Hv'. apply Hne. by apply visited_next.
Qed.

(** The page-aligned addresses of the extent of a region, as the rebuild
    visits them. *)
Definition region_page (vr : vregion) (a : Z) : Prop :=
  visited (VRBOT vr) (VRTOP vr) a.

(** No page is visited for two regions of the list. *)
Definition no_shared_page (rs : list vregion) : Prop :=
  ∀ k k' vr vr' a a', k ≠ k' → rs !! k = Some vr → rs !! k' = Some vr' →
    region_page vr a → region_page vr' a' →
    Z.shiftr a PT_SHIFT ≠ Z.shiftr a' PT_SHIFT.

Lemma no_shared_page_tail vr rs : no_shared_page (vr :: rs) → no_shared_page rs.
Proof.
  intros H k k' v v' a a' Hne Hk Hk'. apply (H (S k) (S k')); [lia|done|done].
Qed.

Lemma update_regions_inv : ∀ rs rs0 css0 css pt m rs' pt' m',
  0 < VPIPPAGE →
  length rs0 = length css0 → length rs = length css →
  stores_ok m (rs0 ++ rs) (css0 ++ css) →
  Forall (λ vr, 0 <= VRBOT vr ∧ VRTOP vr <= 2 ^ 64 - PGSIZE) rs →
  no_shared_page rs →
  update_regions rs pt m = Ok (rs', pt', m') →
  ∃ css' n,
    Forall2 same_extent rs rs' ∧
    Forall (λ vr, VRBOT vr mod PGSIZE = 0) rs ∧
    freelist m' = drop n (freelist m) ∧
    stores_ok m' (rs0 ++ rs') (css0 ++ css') ∧
    Forall2 (λ cs cs', ∀ j, 0 <= j → info_at cs' j = info_at cs j) css css' ∧
    (∀ p, (∀ cs, cs ∈ css → p ∉ cpages cs) → p ∉ freelist m →
          ram m' !! p = ram m !! p) ∧
    (∀ k vr cs a, rs !! k = Some vr → css !! k = Some cs → region_page vr a →
          0 <= va2vpi_idx vr a ∧
          pt' !! Z.shiftr a PT_SHIFT
          = installed (info_at cs (va2vpi_idx vr a)) (pt !! Z.shiftr a PT_SHIFT)) ∧
    (∀ vpn, (∀ k vr a, rs !! k = Some vr → region_page vr a →
                       Z.shiftr a PT_SHIFT ≠ vpn) →
            pt' !! vpn = pt !! vpn).
Proof.
  induction rs as [|vr rs IH];
    intros rs0 css0 css pt m rs' pt' m' HN Hl0 Hl Hs Hext Hdis; simpl.
  - intros [= <- <- <-]. destruct css; [|done]. exists [], 0%nat.
    split; [constructor|]. split; [constructor|].
    split; [by rewrite drop_0|]. split; [done|].
    split; [constructor|]. split; [done|]. split; [done|done].
  - destruct css as [|cs css]; [done|]. simpl in Hl.
    intros H. inv_bind H. unfold assert in E.
    destruct (Z.eqb_spec (VRBOT vr mod PGSIZE) 0) as [Hal|]; [|discriminate].
    clear E a.
    inv_bind H. destruct a as [[vr1 pt1] m1].
    apply Forall_cons in Hext as [[Hbot Htop] Hext].
    destruct (update_pages_inv _ _ (length rs0) _ _ _ _ _ _ cs _ _ _ HN Htop Hbot Hs
                ltac:(by apply list_lookup_middle)
                ltac:(rewrite Hl0; by apply list_lookup_middle) E)
      as (cs1 & n1 & Hext1 & Hf1 & Hs1 & Hfr1 & Hsub1 & Hat1 & Hvis1 & Hoth1).
    replace (length rs0) with (length rs0 + 0)%nat in Hs1 at 1 by lia.
    rewrite insert_app_r in Hs1. rewrite Hl0 in Hs1.
    replace (length css0) with (length css0 + 0)%nat in Hs1 by lia.
    rewrite insert_app_r in Hs1. simpl in Hs1.
    rewrite (cons_middle vr1), (cons_middle cs1), !app_assoc in Hs1.
    inv_bind H. destruct a as [[rs2 pt2] m2].
    destruct (IH (rs0 ++ [vr1]) (css0 ++ [cs1]) css pt1 m1 rs2 pt2 m2 HN
                ltac:(rewrite !length_app; simpl; lia) ltac:(lia) Hs1 Hext
                (no_shared_page_tail _ _ Hdis) E0)
      as (css' & n' & Hext' & Hal' & Hf' & Hs' & Hat' & Hfr' & Hvis' & Hoth').
    inversion H; subst rs' pt' m'. clear H.
    exists (cs1 :: css'), (n1 + n')%nat.
    split; [by constructor|]. split; [by constructor|].
    split; [by rewrite Hf', Hf1, drop_drop|].
    split; [by rewrite <- !app_assoc in Hs'|].
    split; [by constructor|].
    split.
    { intros p Hp1 Hp2. rewrite Hfr'.
      - apply Hfr1; [|done]. apply Hp1, list_elem_of_here.
      - intros c Hc. by apply Hp1, list_elem_of_further.
      - rewrite Hf1. intros Hin. apply Hp2. by eapply elem_of_drop. }
    split.
    { intros k vrk csk a Hk1 Hk2 Ha. destruct k as [|k]; simpl in Hk1, Hk2.
      - simplify_eq. destruct (Hvis1 a Ha) as [Hi Hp]. split; [done|].
        rewrite Hoth'; [done|]. intros k' vr' a' Hk' Ha'.
        apply (Hdis (S k') 0%nat vr' vrk a' a); [lia|done|done|done|done].
      - destruct (Hvis' k vrk csk a Hk1 Hk2 Ha) as [Hi Hp]. split; [done|].
        rewrite Hp. f_equal. apply Hoth1. intros a' Ha'.
        apply (Hdis 0%nat (S k) vr vrk a' a); [lia|done|done|done|done]. }
    intros vpn Hne. rewrite Hoth'.
    + apply Hoth1. intros a Ha. by apply (Hne 0%nat vr a).
    + intros k vrk a Hk Ha. by apply (Hne (S k) vrk a).
Qed.

(** The bits of [x86perms]: user always, present and writable as the
    record says. *)
Lemma x86perms_bits v :
  Z.land (x86perms v) PTE_U ≠ 0 ∧
  (Z.land (x86perms v) PTE_P ≠ 0 ↔ present v ≠ 0) ∧
  (Z.land (x86perms v) PTE_W ≠ 0 ↔ writable v ≠ 0).
Proof.
  unfold x86perms.
  destruct (Z.eqb_spec (present v) 0) as [Hp|Hp];
    destruct (Z.eqb_spec (writable v) 0) as [Hw|Hw];
    vm_compute; (split; [discriminate|]); split; split; intros H; try done;
    by exfalso; apply H.
Qed.

(** The entries under the first top-level entry are gone after the first
    loop of [vspaceupdate]. *)
Lemma free_user_entries_low pt vpn :
  0 <= vpn < 2 ^ 27 → free_user_entries pt !! vpn = None.
Proof.
  intros Hv. unfold free_user_entries. apply map_lookup_filter_None. right.
  intros e _ Hn. apply Hn. simpl. unfold PML4_INDEX_of_vpn.
  rewrite (Z.shiftr_div_pow2 vpn) by lia. rewrite Z.div_small by lia.
  vm_compute. discriminate.
Qed.

(** The table has a present mapping for the page of [a]. *)
Definition hw_present (pt : gmap Z pte) (a : Z) : Prop :=
  ∃ e, pt !! Z.shiftr a PT_SHIFT = Some e ∧ Z.land (pte_perm e) PTE_P ≠ 0.

(** C1, as amended. After [vspaceupdate] returns on an address space whose
    stores are well formed and whose regions lie below [2^39] (the part of
    the table under the top-level entries that the rebuild clears) and share
    no page: for every region and every page-aligned address of its extent,
    the record of the page is as before the call; the table holds an entry
    for the page exactly when the record is mapped, and a present mapping
    exactly when the record is mapped and present; the entry targets the
    physical page of the record, with the user bit set, the present bit set
    iff [present], the writable bit set iff [writable]. *)
Theorem vspaceupdate_mirrors vs m css vs' m' :
  0 < VPIPPAGE →
  stores_ok m (regions vs) css →
  Forall (λ vr, 0 <= VRBOT vr ∧ VRTOP vr <= 2 ^ 39) (regions vs) →
  no_shared_page (regions vs) →
  vspaceupdate vs m = Ok (vs', m') →
  ∀ k vr a, regions vs !! k = Some vr →
    VRBOT vr <= a < VRTOP vr → a mod PGSIZE = 0 →
    ∃ vr', regions vs' !! k = Some vr' ∧ same_extent vr vr' ∧
      page_info m' vr' a = page_info m vr a ∧
      (hw_present (pgtbl vs') a ↔
         used (page_info m' vr' a) ≠ 0 ∧ present (page_info m' vr' a) ≠ 0) ∧
      (used (page_info m' vr' a) ≠ 0 ↔
         is_Some (pgtbl vs' !! Z.shiftr a PT_SHIFT)) ∧
      (∀ e, pgtbl vs' !! Z.shiftr a PT_SHIFT = Some e →
            pte_ppn e = ppn (page_info m' vr' a) ∧
            Z.land (pte_perm e) PTE_U ≠ 0 ∧
            (Z.land (pte_perm e) PTE_P ≠ 0 ↔ present (page_info m' vr' a) ≠ 0) ∧
            (Z.land (pte_perm e) PTE_W ≠ 0 ↔ writable (page_info m' vr' a) ≠ 0)).
Proof.
  intros HN Hs Hext Hdis H k vr a Hk Ha Hal.
  unfold vspaceupdate in H. inv_bind H. destruct a0 as [[rs' pt'] m1].
  inversion H; subst vs' m1. clear H. simpl.
  pose proof (Forall2_length _ _ _ (proj1 Hs)) as Hlen.
  assert (Hext64 : Forall (λ vr, 0 <= VRBOT vr ∧ VRTOP vr <= 2 ^ 64 - PGSIZE)
                          (regions vs)).
  { eapply Forall_impl; [exact Hext|]. simpl. intros x [? ?]. unfold PGSIZE. lia. }
  destruct (update_regions_inv (regions vs) [] [] css _ _ _ _ _ HN eq_refl Hlen Hs
              Hext64 Hdis E)
    as (css' & n & Hext' & Halign & Hf & Hs' & Hat & _ & Hvis & _).
  simpl in Hs'.
  destruct (Forall2_lookup_l _ _ _ _ _ Hext' Hk) as (vr' & Hk' & Hse).
  destruct (stores_ok_lookup _ _ _ _ _ Hs Hk) as (cs & Hcs & Hok).
  destruct (Forall2_lookup_l _ _ _ _ _ Hat Hcs) as (cs' & Hcs' & Hrec).
  destruct (stores_ok_lookup _ _ _ _ _ Hs' Hk') as (cs'' & Hcs'' & Hok').
  rewrite Hcs' in Hcs''. inversion Hcs''; subst cs''. clear Hcs''.
  pose proof (proj1 (Forall_lookup _ _) Halign _ _ Hk) as Hbal. simpl in Hbal.
  pose proof (proj1 (Forall_lookup _ _) Hext _ _ Hk) as [Hb0 Ht]. 
  assert (Hv : region_page vr a) by (by apply visited_aligned).
  destruct (Hvis k vr cs a Hk Hcs Hv) as [Hidx Hpt].
  rewrite free_user_entries_low in Hpt; last first.
  { unfold PT_SHIFT. rewrite Z.shiftr_div_pow2 by lia. split.
    - apply Z.div_pos; lia.
    - apply Z.div_lt_upper_bound; lia. }
  exists vr'. split; [done|]. split; [done|].
  assert (Hpi : page_info m' vr' a = info_at cs (va2vpi_idx vr a)).
  { unfold page_info. rewrite (vpi_at_chain _ _ _ _ (store_ok_chain _ _ _ Hok')).
    rewrite (same_extent_idx _ _ _ Hse). by apply Hrec. }
  rewrite Hpi. split.
  { unfold page_info. by rewrite (vpi_at_chain _ _ _ _ (store_ok_chain _ _ _ Hok)). }
  set (v := info_at cs (va2vpi_idx vr a)) in *.
  destruct (x86perms_bits v) as (HU & HP & HW).
  unfold hw_present, installed in *. rewrite Hpt.
  destruct (Z.eqb_spec (used v) 0) as [Hu|Hu].
  - split; [split; [intros (e & ? & _); done|intros [? _]; done]|].
    split; [split; [done|intros [? ?]; done]|]. intros e ?. done.
  - split.
    { split.
      - intros (e & [= <-] & Hp). simpl in Hp. split; [done|]. by apply HP.
      - intros [_ Hp]. eexists. split; [done|]. simpl. by apply HP. }
    split; [split; [eauto|done]|].
    intros e [= <-]. simpl. done.
Qed.

(** ** Duplication of a store *)

Lemma copy_infos_spec : ∀ n i d s m svs snx dvs fin m',
  (i + n = Z.to_nat VPIPPAGE)%nat →
  ram m !! s = Some (ChunkPage (mk_chunk svs snx)) →
  length svs = Z.to_nat VPIPPAGE →
  ram m !! d = Some (ChunkPage (mk_chunk dvs None)) →
  length dvs = Z.to_nat VPIPPAGE →
  d ≠ s → d ∉ freelist m → s ∉ freelist m → NoDup (freelist m) →
  (∀ j sv, svs !! j = Some sv → used sv ≠ 0 → (ppn sv ∉ freelist m) ∧ ppn sv ≠ d) →
  copy_infos n i d s m = Ok (fin, m') →
  ∃ dvs' k,
    ram m' !! d = Some (ChunkPage (mk_chunk dvs' None)) ∧
    length dvs' = Z.to_nat VPIPPAGE ∧
    freelist m' = drop k (freelist m) ∧
    (∀ p, p ≠ d → p ∉ take k (freelist m) → ram m' !! p = ram m !! p) ∧
    (∀ j, (j < i)%nat → dvs' !! j = dvs !! j) ∧
    (fin = true → ∀ j sv, (i ≤ j)%nat → svs !! j = Some sv →
       (used sv = 0 → dvs' !! j = dvs !! j) ∧
       (used sv ≠ 0 →
        ∃ p, dvs' !! j = Some (mk_vpi (used sv) p (present sv) (writable sv)) ∧
             p ∈ take k (freelist m) ∧ ram m' !! p = ram m !! ppn sv)).
Proof.
  induction n as [|n IH];
    intros i d s m svs snx dvs fin m' Hin Hs Hls Hd Hld Hds Hdf Hsf Hnd Hppn; simpl.
  - intros [= <- <-]. exists dvs, 0%nat. rewrite drop_0.
    split; [done|]. split; [done|]. split; [done|]. split; [done|]. split; [done|].
    intros _ j sv Hj Hsv. apply lookup_lt_Some in Hsv. lia.
  - intros H. inv_bind H. unfold vpi_get, read_chunk in E. simpl in E.
    rewrite Hs in E. simpl in E.
    destruct (svs !! i) as [sv|] eqn:Hsv; [|discriminate].
    inversion E; subst a. clear E.
    destruct (Z.eqb_spec (used sv) 0) as [Hu|Hu].
    + (* a record that is not mapped *)
      destruct (IH (S i) d s m svs snx dvs fin m' ltac:(lia) Hs Hls Hd Hld Hds Hdf Hsf
                  Hnd Hppn H) as (dvs' & k & H1 & H2 & H3 & H4 & H5 & H6).
      exists dvs', k. split; [done|]. split; [done|]. split; [done|].
      split; [done|]. split; [intros j Hj; apply H5; lia|].
      intros Hfin j sv' Hj Hsv'. destruct (decide (j = i)) as [->|Hne].
      * rewrite Hsv in Hsv'. inversion Hsv'; subst sv'.
        split; [intros _; apply H5; lia|done].
      * apply H6; [done|lia|done].
    + (* a mapped record *)
      destruct (lookup_lt_is_Some_2 dvs i) as [dv0 Hdv0]; [lia|].
      inv_bind H. unfold vpi_get, read_chunk in E. simpl in E.
      rewrite Hd in E. simpl in E. rewrite Hdv0 in E. inversion E; subst a. clear E.
      inv_bind H. unfold vpi_set, read_chunk in E. simpl in E.
      rewrite Hd in E. simpl in E. rewrite Hdv0 in E. inversion E; subst a. clear E.
      set (v1 := mk_vpi (used sv) (ppn dv0) (present sv) (writable sv)) in *.
      set (m1 := store d (ChunkPage (mk_chunk (<[i:=v1]> dvs) None)) m) in *.
      unfold kalloc in H. simpl in H.
      destruct (freelist m) as [|data fl2] eqn:Hfl.
      * (* no page for the copy *)
        inversion H; subst fin m'. exists (<[i:=v1]> dvs), 0%nat.
        subst m1. simpl.
        split; [by rewrite lookup_insert_eq|]. split; [by rewrite length_insert|].
        split; [done|].
        split; [intros p Hp _; by rewrite lookup_insert_ne|].
        split; [intros j Hj; apply list_lookup_insert_ne; lia|done].
      * destruct (Hppn i sv Hsv Hu) as [Hpf Hpd].
        apply NoDup_cons in Hnd as [Hdata Hnd2].
        assert (data ≠ d) as Hdd by (intros ->; apply Hdf; apply list_elem_of_here).
        assert (data ≠ s) as Hdsrc by (intros ->; apply Hsf; apply list_elem_of_here).
        set (m3 := copy_page data (ppn sv) (mk_kmem fl2 (ram m1))) in *.
        assert (Hm3d : ram m3 !! d
                       = Some (ChunkPage (mk_chunk (<[i:=v1]> dvs) None))).
        { subst m3 m1. unfold copy_page. simpl.
          destruct (<[d:=_]> (ram m) !! ppn sv).
          - rewrite lookup_insert_ne by done. by rewrite lookup_insert_eq.
          - rewrite lookup_delete_ne by done. by rewrite lookup_insert_eq. }
        assert (Hm3 : ∀ p, p ≠ d → p ≠ data → ram m3 !! p = ram m !! p).
        { intros p Hp1 Hp2. subst m3 m1. unfold copy_page. simpl.
          destruct (<[d:=_]> (ram m) !! ppn sv).
          - rewrite lookup_insert_ne by done. by rewrite lookup_insert_ne.
          - rewrite lookup_delete_ne by done. by rewrite lookup_insert_ne. }
        assert (Hm3data : ram m3 !! data = ram m !! ppn sv).
        { subst m3 m1. unfold copy_page. simpl.
          rewrite lookup_insert_ne by done.
          destruct (ram m !! ppn sv).
          - by rewrite lookup_insert_eq.
          - by rewrite lookup_delete_eq. }
        change (copy_page data (ppn sv) _) with m3 in H.
        inv_bind H. unfold vpi_get, read_chunk in E. cbn [fst snd] in E.
        rewrite Hm3d in E. cbn [mbind outcome_bind infos] in E.
        rewrite list_lookup_insert_eq in E by lia. inversion E; subst a. clear E.
        inv_bind H. unfold vpi_set, read_chunk in E. cbn [fst snd] in E.
        rewrite Hm3d in E. cbn [mbind outcome_bind infos next] in E.
        rewrite list_lookup_insert_eq in E by lia. inversion E; subst a. clear E.
        cbn [used present writable v1] in H. rewrite list_insert_insert_eq in H.
        set (v2 := mk_vpi (used sv) data (present sv) (writable sv)) in *.
        set (m4 := store d (ChunkPage (mk_chunk (<[i:=v2]> dvs) None)) m3) in *.
        assert (Hfl4 : freelist m4 = fl2) by done.
        assert (P1 : ram m4 !! s = Some (ChunkPage (mk_chunk svs snx))).
        { subst m4. simpl. rewrite lookup_insert_ne by done. by rewrite Hm3. }
        assert (P2 : ram m4 !! d = Some (ChunkPage (mk_chunk (<[i:=v2]> dvs) None))).
        { subst m4. simpl. by rewrite lookup_insert_eq. }
        assert (P3 : length (<[i:=v2]> dvs) = Z.to_nat VPIPPAGE)
          by (by rewrite length_insert).
        assert (P4 : d ∉ freelist m4).
        { rewrite Hfl4. intros Hin'. apply Hdf. by apply list_elem_of_further. }
        assert (P5 : s ∉ freelist m4).
        { rewrite Hfl4. intros Hin'. apply Hsf. by apply list_elem_of_further. }
        assert (P6 : NoDup (freelist m4)) by (by rewrite Hfl4).
        assert (P7 : ∀ j sv', svs !! j = Some sv' → used sv' ≠ 0 →
                              (ppn sv' ∉ freelist m4) ∧ ppn sv' ≠ d).
        { intros j sv' Hsv' Hu'. destruct (Hppn j sv' Hsv' Hu') as [Hq1 Hq2].
          split; [|done]. rewrite Hfl4. intros Hin'. apply Hq1.
          by apply list_elem_of_further. }
        destruct (IH (S i) d s m4 svs snx (<[i:=v2]> dvs) fin m' ltac:(lia)
                    P1 Hls P2 P3 Hds P4 P5 P6 P7 H)
          as (dvs' & k & H1 & H2 & H3 & H4 & H5 & H6).
        rewrite Hfl4 in H3, H4, H6.
        assert (Hfr : ∀ p, p ≠ d → p ≠ data → p ∉ take k fl2 →
                            ram m' !! p = ram m !! p).
        { intros p Hp1 Hp2 Hp3. rewrite H4 by done. subst m4. unfold store.
          cbn [ram]. rewrite lookup_insert_ne by done. by apply Hm3. }
        exists dvs', (S k). simpl.
        split; [done|]. split; [done|]. split; [done|].
        split.
        { intros p Hp1 Hp2. apply not_elem_of_cons in Hp2 as [Hp2 Hp3].
          by apply Hfr. }
        split.
        { intros j Hj. rewrite H5 by lia. apply list_lookup_insert_ne. lia. }
        intros Hfin j sv' Hj Hsv'. destruct (decide (j = i)) as [->|Hne].
        -- rewrite Hsv in Hsv'. inversion Hsv'; subst sv'. split; [done|].
           intros _. exists data. split.
           { rewrite H5 by lia. apply list_lookup_insert_eq. lia. }
           split; [apply list_elem_of_here|].
           rewrite H4; [|done|by apply not_elem_of_take].
           subst m4. unfold store. cbn [ram]. rewrite lookup_insert_ne by done. done.
        -- destruct (H6 Hfin j sv' ltac:(lia) Hsv') as [Hz Hnz]. split.
           { intros Hu'. rewrite Hz by done. apply list_lookup_insert_ne. lia. }
           intros Hu'. destruct (Hnz Hu') as (p & Hp1 & Hp2 & Hp3).
           exists p. split; [done|]. split; [by apply list_elem_of_further|].
           rewrite Hp3. destruct (Hppn j sv' Hsv' Hu') as [Hq1 Hq2].
           subst m4. unfold store. cbn [ram]. rewrite lookup_insert_ne by done.
           apply Hm3; [done|]. intros Heq. apply Hq1. rewrite Heq.
           apply list_elem_of_here.
Qed.

(** The records [dvs] are a copy of the records [svs]: a record that is
    not mapped is cleared in the copy; a mapped record keeps its flags and
    has a page of [F] that holds in [r'] what the page of the source held
    in [r0]. *)
Definition copied (r0 r' : gmap Z kpage) (F : list Z)
    (svs dvs : list vpage_info) : Prop :=
  length dvs = Z.to_nat VPIPPAGE ∧
  ∀ j sv, svs !! j = Some sv →
    (used sv = 0 → dvs !! j = Some vpi_zero) ∧
    (used sv ≠ 0 →
     ∃ p, dvs !! j = Some (mk_vpi (used sv) p (present sv) (writable sv)) ∧
          p ∈ F ∧ r' !! p = r0 !! ppn sv).

Lemma copy_vpi_page_spec fuel : ∀ src m cs p' m',
  0 < VPIPPAGE → chain (ram m) src cs → NoDup (freelist m) →
  (∀ q, q ∈ cpages cs → q ∉ freelist m) →
  (∀ c j sv, c ∈ cs → c.2 !! j = Some sv → used sv ≠ 0 → ppn sv ∉ freelist m) →
  copy_vpi_page fuel src m = Ok (0, p', m') →
  ∃ cs' F,
    freelist m = F ++ freelist m' ∧
    chain (ram m') p' cs' ∧
    NoDup (cpages cs') ∧ (∀ q, q ∈ cpages cs' → q ∈ F) ∧
    (∀ p, p ∉ F → ram m' !! p = ram m !! p) ∧
    Forall2 (λ c c', copied (ram m) (ram m') F c.2 c'.2) cs cs'.
Proof.
  induction fuel as [|fuel IH]; intros src m cs p' m' HN Hc Hnd Hcf Hpf;
    destruct src as [s|]; simpl; try discriminate.
  - destruct cs as [|[? ?] ?]; [|by destruct Hc]. intros [= <- <-].
    exists [], []. split; [done|]. split; [done|]. split; [constructor|].
    split; [intros q Hq; by apply elem_of_nil in Hq|]. split; [done|constructor].
  - destruct cs as [|[s0 svs] cs]; [done|].
    destruct Hc as (Hs0 & Hls & snx & Hs & Hc). inversion Hs0; subst s0. clear Hs0.
    unfold kalloc. destruct (freelist m) as [|d fl1] eqn:Hfl; [discriminate|].
    intros H. inv_bind H. destruct a as [fin m2].
    apply NoDup_cons in Hnd as [Hdfl Hnd1].
    assert (Hsd : d ≠ s).
    { intros ->. apply (Hcf s); [apply list_elem_of_here|apply list_elem_of_here]. }
    assert (Hsf : s ∉ fl1).
    { intros Hin. apply (Hcf s); [apply list_elem_of_here|by apply list_elem_of_further]. }
    set (m1 := store d (ChunkPage zero_chunk) (mk_kmem fl1 (ram m))) in *.
    assert (Hm1 : ∀ p, p ≠ d → ram m1 !! p = ram m !! p).
    { intros p Hp. subst m1. simpl. by rewrite lookup_insert_ne. }
    assert (Hppn1 : ∀ j sv, svs !! j = Some sv → used sv ≠ 0 →
                            (ppn sv ∉ freelist m1) ∧ ppn sv ≠ d).
    { intros j sv Hsv Hu.
      pose proof (Hpf (s, svs) j sv ltac:(apply list_elem_of_here) Hsv Hu) as Hn.
      split.
      - intros Hin. apply Hn. by apply list_elem_of_further.
      - intros Heq. apply Hn. rewrite Heq. apply list_elem_of_here. }
    destruct (copy_infos_spec (Z.to_nat VPIPPAGE) 0 d s m1 svs snx
                (replicate (Z.to_nat VPIPPAGE) vpi_zero) fin m2)
      as (dvs' & k & Hd2 & Hld' & Hf2 & Hfr2 & _ & Hfin); try done.
    { by rewrite Hm1. }
    { subst m1. simpl. by rewrite lookup_insert_eq. }
    { by rewrite length_replicate. }
    destruct fin; [|discriminate]. specialize (Hfin eq_refl).
    simpl in Hf2, Hfr2.
    assert (Hs2 : ram m2 !! s = Some (ChunkPage (mk_chunk svs snx))).
    { rewrite Hfr2, Hm1; [done|by intros ->|by intros ->|by apply not_elem_of_take]. }
    inv_bind H. unfold read_chunk in E0. rewrite Hs2 in E0.
    inversion E0; subst a. clear E0. simpl in H.
    inv_bind H. destruct a as [[r nx] m3].
    inv_bind H. inversion H; subst r p' m'. clear H.
    assert (Hfl1 : fl1 = take k fl1 ++ freelist m2) by (by rewrite Hf2, take_drop).
    assert (Hnd1' : NoDup (take k fl1 ++ freelist m2)) by (by rewrite <- Hfl1).
    apply NoDup_app in Hnd1' as (_ & Hdis1 & Hnd2).
    assert (Hm2 : ∀ p, p ∉ d :: fl1 → ram m2 !! p = ram m !! p).
    { intros p Hp. apply not_elem_of_cons in Hp as [Hp1 Hp2].
      rewrite Hfr2, Hm1; [done|done|done|by apply not_elem_of_take]. }
    assert (Hin2 : ∀ p, p ∈ freelist m2 → p ∈ fl1).
    { intros p Hp. rewrite Hfl1. apply elem_of_app. by right. }
    destruct (IH snx m2 cs nx m3 HN) as (cs' & F & HF & Hc' & Hndc & HcF & Hfr3 & Hcop);
      try done.
    { eapply chain_frame; [|exact Hc]. intros q Hq. apply Hm2. intros Hin.
      by apply (Hcf q); [apply list_elem_of_further|]. }
    { intros q Hq Hin. apply (Hcf q); [by apply list_elem_of_further|].
      by apply list_elem_of_further, Hin2. }
    { intros c j sv Hcin Hsv Hu Hin.
      apply (Hpf c j sv); [by apply list_elem_of_further|done|done|].
      by apply list_elem_of_further, Hin2. }
    assert (Hd3 : ram m3 !! d = Some (ChunkPage (mk_chunk dvs' None))).
    { rewrite Hfr3; [done|]. intros Hin. apply Hdfl, Hin2. rewrite HF.
      apply elem_of_app. by left. }
    unfold read_chunk in E1. rewrite Hd3 in E1. inversion E1; subst a. clear E1.
    simpl.
    assert (HdF : d ∉ F).
    { intros Hin. apply Hdfl, Hin2. rewrite HF. apply elem_of_app. by left. }
    exists ((d, dvs') :: cs'), (d :: take k fl1 ++ F).
    split.
    { simpl. f_equal. rewrite <- app_assoc, <- HF. done. }
    split.
    { simpl. split; [done|]. split; [done|]. exists nx.
      split; [by rewrite lookup_insert_eq|].
      eapply chain_frame; [|exact Hc']. intros q Hq.
      rewrite lookup_insert_ne; [done|]. intros ->. by apply HdF, HcF. }
    split.
    { simpl. apply NoDup_cons. split; [|done]. intros Hin. by apply HdF, HcF. }
    split.
    { intros q Hq. simpl in Hq. apply elem_of_cons in Hq as [->|Hq].
      - apply list_elem_of_here.
      - apply list_elem_of_further, elem_of_app. right. by apply HcF. }
    assert (Hfr4 : ∀ p, p ≠ d → p ∉ F →
              <[d:=ChunkPage (mk_chunk dvs' nx)]> (ram m3) !! p = ram m2 !! p).
    { intros p Hp1 Hp2. rewrite lookup_insert_ne by done. by apply Hfr3. }
    split.
    { intros p Hp. apply not_elem_of_cons in Hp as [Hp1 Hp2].
      apply not_elem_of_app in Hp2 as [Hp2 Hp3].
      rewrite Hfr4, Hfr2, Hm1; done. }
    constructor.
    + simpl. split; [done|]. intros j sv Hsv.
      destruct (Hfin j sv ltac:(lia) Hsv) as [Hz Hnz]. split.
      * intros Hu. rewrite Hz by done. apply lookup_replicate. split; [done|].
        apply lookup_lt_Some in Hsv. lia.
      * intros Hu. destruct (Hnz Hu) as (p & Hp1 & Hp2 & Hp3).
        destruct (Hppn1 j sv Hsv Hu) as [Hq1 Hq2].
        exists p. split; [done|]. split.
        { apply list_elem_of_further, elem_of_app. by left. }
        rewrite Hfr4.
        -- rewrite Hp3. by apply Hm1.
        -- intros ->. apply Hdfl. by eapply (subseteq_take k).
        -- intros Hin. apply (Hdis1 p Hp2). rewrite HF. apply elem_of_app. by left.
    + apply Forall2_same_length_lookup. split; [by eapply Forall2_length|].
      intros i c c' Hci Hci'.
      destruct (Forall2_lookup_lr _ _ _ _ _ _ Hcop Hci Hci') as [Hl Hrec].
      split; [done|]. intros j sv Hsv.
      destruct (Hrec j sv Hsv) as [Hz Hnz]. split; [done|].
      intros Hu. destruct (Hnz Hu) as (p & Hp1 & Hp2 & Hp3).
      exists p. split; [done|]. split.
      { apply list_elem_of_further, elem_of_app. by right. }
      rewrite lookup_insert_ne.
      2:{ intros ->. by apply HdF. }
      rewrite Hp3. apply Hm2.
      apply (Hpf c j sv); [|done|done].
      apply list_elem_of_further. by eapply list_elem_of_lookup_2.
  - destruct cs as [|[? ?] ?]; [|by destruct Hc]. intros [= <- <-].
    exists [], []. split; [done|]. split; [done|]. split; [constructor|].
    split; [intros q Hq; by apply elem_of_nil in Hq|]. split; [done|constructor].
Qed.

(** The rebuild changes no record and no page that is neither a chunk nor
    free, whatever the extents of the regions are. *)
Lemma update_pages_frame stop fuel : ∀ i vr start pt m rs css cs vr' pt' m',
  0 < VPIPPAGE →
  stores_ok m rs css → rs !! i = Some vr → css !! i = Some cs →
  update_pages fuel vr start stop pt m = Ok (vr', pt', m') →
  ∃ cs' n,
    same_extent vr vr' ∧
    freelist m' = drop n (freelist m) ∧
    stores_ok m' (<[i := vr']> rs) (<[i := cs']> css) ∧
    (∀ p, p ∉ cpages cs → p ∉ freelist m → ram m' !! p = ram m !! p) ∧
    (∀ p, p ∈ cpages cs' → p ∈ cpages cs ∨ p ∈ freelist m) ∧
    (∀ j, 0 <= j → info_at cs' j = info_at cs j).
Proof.
  induction fuel as [|fuel IH];
    intros i vr start pt m rs css cs vr' pt' m' HN Hs Hvr Hcs; simpl.
  - destruct (start <? stop); [discriminate|].
    intros [= <- <- <-]. exists cs, 0%nat.
    rewrite !list_insert_id by done.
    split; [apply same_extent_refl|]. split; [by rewrite drop_0|].
    split; [done|]. split; [done|]. split; [by left|done].
  - destruct (start <? stop); last first.
    { intros [= <- <- <-]. exists cs, 0%nat.
      rewrite !list_insert_id by done.
      split; [apply same_extent_refl|]. split; [by rewrite drop_0|].
      split; [done|]. split; [done|]. split; [by left|done]. }
    intros H. inv_bind H. destruct a as [[q vr1] m1].
    destruct (va2vpage_info_stores _ _ _ _ _ _ _ _ _ _ HN Hs Hvr Hcs E)
      as (Hidx & n1 & cs1 & Hext1 & Hf1 & Hok1 & Hs1 & Hfr1 & Hsub1 & Hat1 & Hq).
    destruct q as [[pg j]|]; [|discriminate].
    inv_bind H.
    assert (Hi : (i < length rs)%nat) by (by eapply lookup_lt_Some).
    assert (Hi' : (i < length css)%nat) by (by eapply lookup_lt_Some).
    destruct (IH i vr1 _ _ m1 (<[i:=vr1]> rs) (<[i:=cs1]> css) cs1
                vr' pt' m' HN Hs1
                ltac:(by apply list_lookup_insert_eq)
                ltac:(by apply list_lookup_insert_eq) H)
      as (cs' & n' & Hext & Hf' & Hs' & Hfr' & Hsub' & Hat').
    rewrite !list_insert_insert_eq in Hs'.
    exists cs', (n1 + n')%nat.
    split; [by eapply same_extent_trans|].
    split; [by rewrite Hf', Hf1, drop_drop|].
    split; [done|].
    split.
    { intros p Hp1 Hp2. rewrite Hfr'; [by apply Hfr1| |].
      - intros Hin. destruct (Hsub1 _ Hin); done.
      - rewrite Hf1. intros Hin. apply Hp2. by eapply elem_of_drop. }
    split.
    { intros p Hp. destruct (Hsub' _ Hp) as [Hin|Hin]; [by apply Hsub1|].
      right. rewrite Hf1 in Hin. by eapply elem_of_drop. }
    intros j' Hj. by rewrite Hat', Hat1.
Qed.

Lemma update_regions_frame : ∀ rs rs0 css0 css pt m rs' pt' m',
  0 < VPIPPAGE →
  length rs0 = length css0 → length rs = length css →
  stores_ok m (rs0 ++ rs) (css0 ++ css) →
  update_regions rs pt m = Ok (rs', pt', m') →
  ∃ css' n,
    Forall2 same_extent rs rs' ∧
    freelist m' = drop n (freelist m) ∧
    stores_ok m' (rs0 ++ rs') (css0 ++ css') ∧
    Forall2 (λ cs cs', ∀ j, 0 <= j → info_at cs' j = info_at cs j) css css' ∧
    (∀ p, (∀ cs, cs ∈ css → p ∉ cpages cs) → p ∉ freelist m →
          ram m' !! p = ram m !! p).
Proof.
  induction rs as [|vr rs IH];
    intros rs0 css0 css pt m rs' pt' m' HN Hl0 Hl Hs; simpl.
  - intros [= <- <- <-]. destruct css; [|done]. exists [], 0%nat.
    split; [constructor|]. split; [by rewrite drop_0|]. split; [done|].
    split; [constructor|done].
  - destruct css as [|cs css]; [done|]. simpl in Hl.
    intros H. inv_bind H. clear E a.
    inv_bind H. destruct a as [[vr1 pt1] m1].
    destruct (update_pages_frame _ _ (length rs0) _ _ _ _ _ _ cs _ _ _ HN Hs
                ltac:(by apply list_lookup_middle)
                ltac:(rewrite Hl0; by apply list_lookup_middle) E)
      as (cs1 & n1 & Hext1 & Hf1 & Hs1 & Hfr1 & Hsub1 & Hat1).
    replace (length rs0) with (length rs0 + 0)%nat in Hs1 at 1 by lia.
    rewrite insert_app_r in Hs1. rewrite Hl0 in Hs1.
    replace (length css0) with (length css0 + 0)%nat in Hs1 by lia.
    rewrite insert_app_r in Hs1. simpl in Hs1.
    rewrite (cons_middle vr1), (cons_middle cs1), !app_assoc in Hs1.
    inv_bind H. destruct a as [[rs2 pt2] m2].
    destruct (IH (rs0 ++ [vr1]) (css0 ++ [cs1]) css pt1 m1 rs2 pt2 m2 HN
                ltac:(rewrite !length_app; simpl; lia) ltac:(lia) Hs1 E0)
      as (css' & n' & Hext' & Hf' & Hs' & Hat' & Hfr').
    inversion H; subst rs' pt' m'. clear H.
    exists (cs1 :: css'), (n1 + n')%nat.
    split; [by constructor|].
    split; [by rewrite Hf', Hf1, drop_drop|].
    split; [by rewrite <- !app_assoc in Hs'|].
    split; [by constructor|].
    intros p Hp1 Hp2. rewrite Hfr'.
    + apply Hfr1; [|done]. apply Hp1, list_elem_of_here.
    + intros c Hc. by apply Hp1, list_elem_of_further.
    + rewrite Hf1. intros Hin. apply Hp2. by eapply elem_of_drop.
Qed.

Lemma copy_vpi_page_result fuel : ∀ src m r p m',
  copy_vpi_page fuel src m = Ok (r, p, m') → r = 0 ∨ r = -1.
Proof.
  induction fuel as [|fuel IH]; intros src m r p m'; destruct src as [s|]; simpl;
    try discriminate; try (intros [= <- _ _]; by left).
  destruct (kalloc m) as [[d|] m1]; [|intros [= <- _ _]; by right].
  intros H. inv_bind H. destruct a as [fin m2].
  destruct fin; [|inversion H; by right].
  inv_bind H. inv_bind H. destruct a0 as [[r0 nx] m3].
  inv_bind H. inversion H; subst. by eapply IH.
Qed.

Lemma copy_regions_result : ∀ rs m r rs' m',
  copy_regions rs m = Ok (r, rs', m') → r = 0 ∨ r = -1.
Proof.
  induction rs as [|vr rs IH]; intros m r rs' m'; simpl.
  - intros [= <- _ _]. by left.
  - intros H. inv_bind H. destruct a as [[r0 p] m1].
    destruct (r0 <? 0); [inversion H; by right|].
    inv_bind H. destruct a as [[r1 rs1] m2]. inversion H; subst. by eapply IH.
Qed.

Lemma stores_ok_nil m : stores_ok m [] [].
Proof. split; [constructor|]. intros i j cs cs' p _ Hi. by destruct i. Qed.

Lemma stores_ok_cons m vr cs rs css :
  store_ok m vr cs → stores_ok m rs css →
  (∀ q cs', cs' ∈ css → q ∈ cpages cs → q ∉ cpages cs') →
  stores_ok m (vr :: rs) (cs :: css).
Proof.
  intros Hok [Hf Hd] Hdis. split; [by constructor|].
  intros i j ci cj p Hne Hi Hj Hp.
  destruct i as [|i]; destruct j as [|j]; simpl in Hi, Hj; [done| | |].
  - simplify_eq. apply (Hdis p cj); [by eapply list_elem_of_lookup_2|done].
  - simplify_eq. intros Hq. apply (Hdis p ci); [by eapply list_elem_of_lookup_2|done|done].
  - apply (Hd i j ci cj p); [lia|done|done|done].
Qed.

Lemma chains_frame r r' (rs : list vregion) css :
  Forall2 (λ vr cs, chain r (pages vr) cs) rs css →
  (∀ cs q, cs ∈ css → q ∈ cpages cs → r' !! q = r !! q) →
  Forall2 (λ vr cs, chain r' (pages vr) cs) rs css.
Proof.
  intros Hf Hfr. apply Forall2_same_length_lookup.
  split; [by eapply Forall2_length|]. intros i vr cs Hvr Hcs.
  eapply chain_frame; [|exact (Forall2_lookup_lr _ _ _ _ _ _ Hf Hvr Hcs)].
  intros q Hq. apply (Hfr cs q); [by eapply list_elem_of_lookup_2|done].
Qed.

Lemma copy_regions_spec : ∀ rs css m rs' m',
  0 < VPIPPAGE →
  Forall2 (λ vr cs, chain (ram m) (pages vr) cs) rs css →
  NoDup (freelist m) →
  (∀ cs q, cs ∈ css → q ∈ cpages cs → q ∉ freelist m) →
  (∀ cs c j sv, cs ∈ css → c ∈ cs → c.2 !! j = Some sv → used sv ≠ 0 →
                ppn sv ∉ freelist m) →
  copy_regions rs m = Ok (0, rs', m') →
  ∃ css' F,
    freelist m = F ++ freelist m' ∧
    Forall2 same_extent rs rs' ∧
    stores_ok m' rs' css' ∧
    (∀ cs' q, cs' ∈ css' → q ∈ cpages cs' → q ∈ F) ∧
    (∀ p, p ∉ F → ram m' !! p = ram m !! p) ∧
    Forall2 (λ cs cs', Forall2 (λ c c', copied (ram m) (ram m') F c.2 c'.2) cs cs')
            css css'.
Proof.
  induction rs as [|vr rs IH]; intros css m rs' m' HN Hch Hnd Hcf Hpf; simpl.
  - apply Forall2_nil_inv_l in Hch. subst css. intros [= <- <-].
    exists [], []. split; [done|]. split; [constructor|]. split; [apply stores_ok_nil|].
    split; [intros cs' q Hin; by apply elem_of_nil in Hin|]. split; [done|constructor].
  - apply Forall2_cons_inv_l in Hch as (cs & css_t & Hc & Hch & ->).
    intros H. inv_bind H. destruct a as [[r0 p] m1].
    destruct (Z.ltb_spec r0 0) as [|Hr0]; [discriminate|].
    destruct (copy_vpi_page_result (S (length (freelist m))) (pages vr) m r0 p m1 E)
      as [-> | ->]; [|lia].
    inv_bind H. destruct a as [[r1 rs1] m2]. inversion H; subst r1 rs' m2. clear H.
    assert (Q1 : ∀ q, q ∈ cpages cs → q ∉ freelist m).
    { intros q Hq. apply (Hcf cs q); [apply list_elem_of_here|done]. }
    assert (Q2 : ∀ c j sv, c ∈ cs → c.2 !! j = Some sv → used sv ≠ 0 →
                           ppn sv ∉ freelist m).
    { intros c j sv Hin. apply (Hpf cs c j sv); [apply list_elem_of_here|done]. }
    destruct (copy_vpi_page_spec (S (length (freelist m))) (pages vr) m cs p m1
                HN Hc Hnd Q1 Q2 E)
      as (cs1 & F1 & HF1 & Hc1 & Hnd1 & HcF1 & Hfr1 & Hcop1).
    pose proof Hnd as Hnd'. rewrite HF1 in Hnd'.
    apply NoDup_app in Hnd' as (HndF1 & Hdis1 & Hndm1).
    assert (Hsub1 : ∀ x, x ∈ freelist m1 → x ∈ freelist m).
    { intros x Hx. rewrite HF1. apply elem_of_app. by right. }
    assert (HsubF1 : ∀ x, x ∈ F1 → x ∈ freelist m).
    { intros x Hx. rewrite HF1. apply elem_of_app. by left. }
    assert (R1 : Forall2 (λ vr cs, chain (ram m1) (pages vr) cs) rs css_t).
    { eapply chains_frame; [exact Hch|]. intros c q Hin Hq. apply Hfr1.
      intros HqF. apply (Hcf c q); [by apply list_elem_of_further|done|].
      by apply HsubF1. }
    assert (R2 : ∀ c q, c ∈ css_t → q ∈ cpages c → q ∉ freelist m1).
    { intros c q Hin Hq Hfl. apply (Hcf c q); [by apply list_elem_of_further|done|].
      by apply Hsub1. }
    assert (R3 : ∀ c0 c j sv, c0 ∈ css_t → c ∈ c0 → c.2 !! j = Some sv →
                              used sv ≠ 0 → ppn sv ∉ freelist m1).
    { intros c0 c j sv Hin Hin' Hsv Hu Hfl.
      apply (Hpf c0 c j sv); [by apply list_elem_of_further|done|done|done|].
      by apply Hsub1. }
    destruct (IH css_t m1 rs1 m' HN R1 Hndm1 R2 R3 E0)
      as (css' & F2 & HF2 & Hext & Hs' & HcF2 & Hfr2 & Hcop2).
    assert (HF12 : ∀ x, x ∈ F1 → x ∉ F2).
    { intros x Hx Hx2. apply (Hdis1 x Hx). rewrite HF2. apply elem_of_app. by left. }
    assert (Hrest : ∀ x, x ∈ F1 → x ∉ freelist m').
    { intros x Hx Hx2. apply (Hdis1 x Hx). rewrite HF2. apply elem_of_app. by right. }
    exists (cs1 :: css'), (F1 ++ F2).
    split; [by rewrite HF1, HF2, app_assoc|].
    split; [constructor; [by destruct vr|done]|].
    split.
    { apply stores_ok_cons; [|done|].
      - split.
        + simpl. eapply chain_frame; [|exact Hc1]. intros q Hq. apply Hfr2.
          by apply HF12, HcF1.
        + apply NoDup_app. split; [done|]. split; [|by destruct Hs' as [Hf _];
            rewrite HF2 in Hndm1; apply NoDup_app in Hndm1 as (_ & _ & ?)].
          intros q Hq. by apply Hrest, HcF1.
      - intros q c' Hin Hq Hq'. apply (HF12 q); [by apply HcF1|].
        by apply (HcF2 c' q). }
    split.
    { intros c' q Hin Hq. apply elem_of_app. apply elem_of_cons in Hin as [->|Hin].
      - left. by apply HcF1.
      - right. by apply (HcF2 c' q). }
    split.
    { intros x Hx. apply not_elem_of_app in Hx as [Hx1 Hx2].
      rewrite Hfr2, Hfr1; done. }
    constructor.
    + eapply Forall2_impl; [exact Hcop1|]. simpl.
      intros c c' [Hl Hrec]. split; [done|]. intros j sv Hsv.
      destruct (Hrec j sv Hsv) as [Hz Hnz]. split; [done|].
      intros Hu. destruct (Hnz Hu) as (x & Hx1 & Hx2 & Hx3).
      exists x. split; [done|]. split; [apply elem_of_app; by left|].
      rewrite Hfr2; [done|]. by apply HF12.
    + apply Forall2_same_length_lookup. split; [by eapply Forall2_length|].
      intros i c0 c0' Hi Hi'.
      pose proof (Forall2_lookup_lr _ _ _ _ _ _ Hcop2 Hi Hi') as Hcc.
      apply Forall2_same_length_lookup. split; [by eapply Forall2_length|].
      intros i2 c c' Hc2 Hc2'.
      destruct (Forall2_lookup_lr _ _ _ _ _ _ Hcc Hc2 Hc2') as [Hl Hrec].
      split; [done|]. intros j sv Hsv.
      destruct (Hrec j sv Hsv) as [Hz Hnz]. split; [done|].
      intros Hu. destruct (Hnz Hu) as (x & Hx1 & Hx2 & Hx3).
      exists x. split; [done|]. split; [apply elem_of_app; by right|].
      rewrite Hx3. apply Hfr1. intros HxF.
      apply (Hpf c0 c j sv); [|by eapply list_elem_of_lookup_2|done|done|by apply HsubF1].
      apply list_elem_of_further. by eapply list_elem_of_lookup_2.
Qed.

Lemma vpi_at_no_pages m vr j : pages vr = None → vpi_at m vr j = vpi_zero.
Proof. intros H. unfold vpi_at. rewrite H. by destruct (Z.to_nat (j / VPIPPAGE)). Qed.

Lemma same_extent_bounds vr vr' :
  same_extent vr vr' → VRBOT vr' = VRBOT vr ∧ VRTOP vr' = VRTOP vr.
Proof. intros (Hd & Hb & Hz). unfold VRBOT, VRTOP. by rewrite Hd, Hb, Hz. Qed.

Lemma no_shared_page_extent rs rs' :
  Forall2 same_extent rs rs' → no_shared_page rs → no_shared_page rs'.
Proof.
  intros Hf Hn k k' vr vr' a a' Hne Hk Hk' Ha Ha'.
  destruct (Forall2_lookup_r _ _ _ _ _ Hf Hk) as (v & Hv & Hse).
  destruct (Forall2_lookup_r _ _ _ _ _ Hf Hk') as (v' & Hv' & Hse').
  destruct (same_extent_bounds _ _ Hse) as [Hb Ht].
  destruct (same_extent_bounds _ _ Hse') as [Hb' Ht'].
  apply (Hn k k' v v' a a' Hne Hv Hv'); unfold region_page in *; congruence.
Qed.

(** The record at position [j] of the chunk at position [k] of a chain is the
    record of index [k * VPIPPAGE + j]. *)
Lemma chunk_record_index r p cs k c j sv :
  0 < VPIPPAGE → chain r p cs → cs !! k = Some c → c.2 !! j = Some sv →
  0 <= Z.of_nat k * VPIPPAGE + Z.of_nat j ∧
  info_at cs (Z.of_nat k * VPIPPAGE + Z.of_nat j) = sv.
Proof.
  intros HN Hc Hk Hj. destruct c as [q vs]. simpl in Hj.
  destruct (chain_at _ _ _ _ _ _ Hc Hk) as (Hlen & _).
  apply lookup_lt_Some in Hj as Hlt. rewrite Hlen in Hlt.
  split; [nia|]. unfold info_at.
  rewrite Z.add_comm, Z.div_add, Z.mod_add by lia.
  rewrite Z.div_small, Z.mod_small by lia. rewrite Z.add_0_l, !Nat2Z.id, Hk.
  simpl. by rewrite Hj.
Qed.

(** The record of a mapped index in the copy of a chain. *)
Lemma copied_info_at r0 r' F cs cs' j :
  Forall2 (λ c c', copied r0 r' F c.2 c'.2) cs cs' →
  used (info_at cs j) ≠ 0 →
  ∃ p, info_at cs' j
       = mk_vpi (used (info_at cs j)) p (present (info_at cs j))
                (writable (info_at cs j)) ∧
       p ∈ F ∧ r' !! p = r0 !! ppn (info_at cs j).
Proof.
  intros Hf Hu. unfold info_at in *.
  destruct (cs !! Z.to_nat (j / VPIPPAGE)) as [c|] eqn:Hk; simpl in *; [|done].
  destruct (c.2 !! Z.to_nat (j mod VPIPPAGE)) as [sv|] eqn:Hj; simpl in *; [|done].
  destruct (Forall2_lookup_l _ _ _ _ _ Hf Hk) as (c' & Hk' & _ & Hrec).
  destruct (Hrec _ _ Hj) as [_ Hnz]. destruct (Hnz Hu) as (p & Hp & HpF & Hr).
  exists p. rewrite Hk'. simpl. rewrite Hp. done.
Qed.

(** C6, as amended. After [vspacecopy] returns 0 from a state whose source
    stores are well formed and whose mapped source pages are not free pages:
    the regions of the destination have the base, size and direction of the
    source's; for every mapped record of the source, the record with that
    index in the destination has the same mapped, present and writable
    flags, another physical page, and that page holds the bytes of the
    source page, which are still in the source page; and, when the regions
    lie below [2^39] and share no page, the table of the destination has an
    entry for a page of a region exactly when the record of the destination
    is mapped, and the entry targets the physical page of that record with
    the bits of its flags. *)
Theorem vspacecopy_success dst src m css dst' m' :
  0 < VPIPPAGE →
  stores_ok m (regions src) css →
  NoDup (freelist m) →
  (∀ k vr j, regions src !! k = Some vr → 0 <= j →
     used (vpi_at m vr j) ≠ 0 → ppn (vpi_at m vr j) ∉ freelist m) →
  vspacecopy dst src m = Ok (0, dst', m') →
  Forall2 same_extent (regions src) (regions dst') ∧
  (∀ k vr j, regions src !! k = Some vr → 0 <= j →
     used (vpi_at m vr j) ≠ 0 →
     ∃ vr', regions dst' !! k = Some vr' ∧
       used (vpi_at m' vr' j) = used (vpi_at m vr j) ∧
       present (vpi_at m' vr' j) = present (vpi_at m vr j) ∧
       writable (vpi_at m' vr' j) = writable (vpi_at m vr j) ∧
       ppn (vpi_at m' vr' j) ≠ ppn (vpi_at m vr j) ∧
       ∀ b, ram m !! ppn (vpi_at m vr j) = Some (DataPage b) →
            ram m' !! ppn (vpi_at m' vr' j) = Some (DataPage b) ∧
            ram m' !! ppn (vpi_at m vr j) = Some (DataPage b)) ∧
  (Forall (λ vr, 0 <= VRBOT vr ∧ VRTOP vr <= 2 ^ 39) (regions src) →
   no_shared_page (regions src) →
   ∀ k vr' a, regions dst' !! k = Some vr' →
     VRBOT vr' <= a < VRTOP vr' → a mod PGSIZE = 0 →
     (used (page_info m' vr' a) ≠ 0 ↔
        is_Some (pgtbl dst' !! Z.shiftr a PT_SHIFT)) ∧
     (∀ e, pgtbl dst' !! Z.shiftr a PT_SHIFT = Some e →
           pte_ppn e = ppn (page_info m' vr' a) ∧
           Z.land (pte_perm e) PTE_U ≠ 0 ∧
           (Z.land (pte_perm e) PTE_P ≠ 0 ↔ present (page_info m' vr' a) ≠ 0) ∧
           (Z.land (pte_perm e) PTE_W ≠ 0 ↔ writable (page_info m' vr' a) ≠ 0))).
Proof.
  intros HN Hs Hnd Hdata H.
  unfold vspacecopy in H. simpl in H. inv_bind H. destruct a as [[r rs1] m1].
  destruct (Z.ltb_spec r 0) as [|Hr]; [discriminate|].
  inv_bind H. destruct a as [dst2 m2]. inversion H; subst dst2 m2. clear H.
  destruct (copy_regions_result _ _ _ _ _ E) as [-> | ->]; [|lia].
  unfold vspaceupdate in E0. simpl in E0. inv_bind E0.
  destruct a as [[rs2 pt2] m2]. inversion E0; subst dst' m2. clear E0. simpl.
  destruct Hs as [Hf Hdis].
  assert (P1 : Forall2 (λ vr cs, chain (ram m) (pages vr) cs) (regions src) css).
  { eapply Forall2_impl; [exact Hf|]. by intros vr cs [Hc _]. }
  assert (P2 : ∀ cs q, cs ∈ css → q ∈ cpages cs → q ∉ freelist m).
  { intros cs q Hin Hq Hfl. apply list_elem_of_lookup in Hin as [k Hk].
    destruct (Forall2_lookup_r _ _ _ _ _ Hf Hk) as (vr & _ & _ & Hn).
    apply NoDup_app in Hn as (_ & Hn & _). by apply (Hn q). }
  assert (P3 : ∀ cs c j sv, cs ∈ css → c ∈ cs → c.2 !! j = Some sv →
                            used sv ≠ 0 → ppn sv ∉ freelist m).
  { intros cs c j sv Hin Hc Hj Hu. apply list_elem_of_lookup in Hin as [k Hk].
    apply list_elem_of_lookup in Hc as [k2 Hk2].
    destruct (Forall2_lookup_r _ _ _ _ _ Hf Hk) as (vr & Hvr & Hch & _).
    destruct (chunk_record_index _ _ _ _ _ _ _ HN Hch Hk2 Hj) as [Hi0 Hi].
    pose proof (Hdata k vr _ Hvr Hi0) as Hd.
    rewrite (vpi_at_chain _ _ _ _ Hch), Hi in Hd. by apply Hd. }
  destruct (copy_regions_spec _ _ _ _ _ HN P1 Hnd P2 P3 E)
    as (css1 & F & HF & Hext1 & Hs1 & HcF & Hfr1 & Hcop).
  pose proof (Forall2_length _ _ _ (proj1 Hs1)) as Hlen1.
  destruct (update_regions_frame rs1 [] [] css1 _ _ _ _ _ HN eq_refl Hlen1 Hs1 E1)
    as (css2 & n & Hext2 & Hfl2 & Hs2 & Hat & Hfr2).
  simpl in Hs2.
  assert (Hext : Forall2 same_extent (regions src) rs2).
  { apply Forall2_same_length_lookup.
    split; [by rewrite (Forall2_length _ _ _ Hext1), (Forall2_length _ _ _ Hext2)|].
    intros k vr vr2 Hk Hk2.
    destruct (Forall2_lookup_l _ _ _ _ _ Hext1 Hk) as (vr1 & Hk1 & Hse1).
    pose proof (Forall2_lookup_lr _ _ _ _ _ _ Hext2 Hk1 Hk2) as Hse2.
    by eapply same_extent_trans. }
  split; [done|]. split.
  - intros k vr j Hk Hj Hu.
    destruct (Forall2_lookup_l _ _ _ _ _ Hext Hk) as (vr2 & Hk2 & _).
    destruct (Forall2_lookup_l _ _ _ _ _ Hf Hk) as (cs & Hcs & Hch & _).
    destruct (Forall2_lookup_l _ _ _ _ _ Hcop Hcs) as (cs1 & Hcs1 & Hcc).
    destruct (Forall2_lookup_l _ _ _ _ _ Hat Hcs1) as (cs2 & Hcs2 & Hrec).
    pose proof (Forall2_lookup_lr _ _ _ _ _ _ (proj1 Hs2) Hk2 Hcs2) as [Hch2 _].
    rewrite (vpi_at_chain _ _ _ _ Hch) in *.
    destruct (copied_info_at _ _ _ _ _ j Hcc Hu) as (p & Hp & HpF & Hrp).
    exists vr2. split; [done|].
    rewrite (vpi_at_chain _ _ _ _ Hch2), (Hrec j Hj), Hp. simpl.
    split; [done|]. split; [done|]. split; [done|].
    pose proof (Hdata k vr j Hk Hj) as Hd.
    rewrite (vpi_at_chain _ _ _ _ Hch) in Hd. specialize (Hd Hu).
    assert (HpFl : p ∈ freelist m) by (rewrite HF; apply elem_of_app; by left).
    split; [congruence|]. intros b Hb.
    assert (Hsub : ∀ x, x ∈ freelist m1 → x ∈ freelist m).
    { intros x Hx. rewrite HF. apply elem_of_app. by right. }
    assert (Hnc : ∀ x bs, ram m1 !! x = Some (DataPage bs) →
                          ∀ c, c ∈ css1 → x ∉ cpages c).
    { intros x bs Hx c Hin Hxc. apply list_elem_of_lookup in Hin as [i Hi].
      destruct (Forall2_lookup_r _ _ _ _ _ (proj1 Hs1) Hi) as (v & _ & Hcv & _).
      destruct (chain_is_chunk _ _ _ _ Hcv Hxc) as (ch & Hch'). congruence. }
    assert (Hp1 : ram m1 !! p = Some (DataPage b)) by congruence.
    assert (Hs1' : ram m1 !! ppn (info_at cs j) = Some (DataPage b)).
    { rewrite Hfr1; [done|]. intros HxF. apply Hd. rewrite HF.
      apply elem_of_app. by left. }
    split.
    + rewrite Hfr2; [done|by eapply Hnc|].
      rewrite HF in Hnd. apply NoDup_app in Hnd as (_ & Hn & _). by apply Hn.
    + rewrite Hfr2; [done|by eapply Hnc|]. intros Hx. by apply Hd, Hsub.
  - intros Hb39 Hshare k vr2 a Hk2 Ha Hal.
    assert (Hext64 : Forall (λ vr, 0 <= VRBOT vr ∧ VRTOP vr <= 2 ^ 64 - PGSIZE) rs1).
    { apply Forall_lookup. intros i v Hi.
      destruct (Forall2_lookup_r _ _ _ _ _ Hext1 Hi) as (v0 & Hv0 & Hse).
      destruct (same_extent_bounds _ _ Hse) as [-> ->].
      pose proof (proj1 (Forall_lookup _ _) Hb39 _ _ Hv0) as Hv. simpl in Hv.
      unfold PGSIZE. lia. }
    pose proof (no_shared_page_extent _ _ Hext1 Hshare) as Hshare1.
    destruct (update_regions_inv rs1 [] [] css1 _ _ _ _ _ HN eq_refl Hlen1 Hs1
                Hext64 Hshare1 E1)
      as (css2' & n' & _ & Halign & _ & Hs2' & Hat' & _ & Hvis & _).
    simpl in Hs2'.
    destruct (Forall2_lookup_r _ _ _ _ _ Hext2 Hk2) as (vr1 & Hk1 & Hse).
    destruct (Forall2_lookup_l _ _ _ _ _ (proj1 Hs1) Hk1) as (cs1 & Hcs1 & _).
    destruct (Forall2_lookup_l _ _ _ _ _ Hat' Hcs1) as (cs2 & Hcs2 & Hrec).
    pose proof (Forall2_lookup_lr _ _ _ _ _ _ (proj1 Hs2') Hk2 Hcs2) as [Hch2 _].
    destruct (same_extent_bounds _ _ Hse) as [Hbot Htop].
    pose proof (proj1 (Forall_lookup _ _) Halign _ _ Hk1) as Hbal. simpl in Hbal.
    pose proof (proj1 (Forall_lookup _ _) Hext64 _ _ Hk1) as [Hb0 Ht]. 
    assert (Hv : region_page vr1 a).
    { apply visited_aligned; [done|]. rewrite <- Hbot, <- Htop. done. }
    destruct (Hvis k vr1 cs1 a Hk1 Hcs1 Hv) as [Hidx Hpt].
    assert (Ht39 : VRTOP vr1 <= 2 ^ 39).
    { destruct (Forall2_lookup_r _ _ _ _ _ Hext1 Hk1) as (v0 & Hv0 & Hse0).
      destruct (same_extent_bounds _ _ Hse0) as [_ ->].
      by pose proof (proj1 (Forall_lookup _ _) Hb39 _ _ Hv0) as [_ ?]. }
    rewrite free_user_entries_low in Hpt; last first.
    { unfold PT_SHIFT. rewrite Z.shiftr_div_pow2 by lia. split.
      - apply Z.div_pos; lia.
      - apply Z.div_lt_upper_bound; lia. }
    assert (Hpi : page_info m' vr2 a = info_at cs1 (va2vpi_idx vr1 a)).
    { unfold page_info. rewrite (vpi_at_chain _ _ _ _ Hch2).
      rewrite (same_extent_idx _ _ _ Hse). by apply Hrec. }
    rewrite Hpi. set (v := info_at cs1 (va2vpi_idx vr1 a)) in *.
    destruct (x86perms_bits v) as (HU & HP & HW).
    unfold installed in Hpt. rewrite Hpt.
    destruct (Z.eqb_spec (used v) 0) as [Hu|Hu].
    + split; [split; [done|intros [? ?]; done]|]. intros e ?. done.
    + split; [split; [eauto|done]|]. intros e [= <-]. simpl. done.
Qed.

(** ** Writing into user memory *)

(** The record that the loop of [vspacewritetova] reads for [va]: the one of
    the page of [va] in the first region that holds [va], when there is such
    a region and the index of the page is not negative as an [int]. *)
Definition vspace_info (vs : vspace) (m : kmem) (va : Z) : option vpage_info :=
  i ← va2vregion vs va;
  vr ← regions vs !! i;
  if va2vpi_idx vr va <? 0 then None else Some (page_info m vr va).

(** The loop gives up at [va]: no region holds the address, or its page is
    mapped and not writable. *)
Definition blocked (vs : vspace) (m : kmem) (va : Z) : Prop :=
  va2vregion vs va = None ∨
  ∃ v, vspace_info vs m va = Some v ∧ used v ≠ 0 ∧ writable v = 0.

(** The page [p] after [n] bytes of [data] were written from offset
    [va % PGSIZE] on. *)
Definition written (p : Z) (va n : Z) (data b : list byte) (m : kmem) : kmem :=
  store p (DataPage (list_inserts (Z.to_nat (va mod PGSIZE))
                                  (take (Z.to_nat n) data) b)) m.

Lemma page_rest va :
  0 <= va → va + PGSIZE <= 2 ^ 64 →
  int32 (u64 (PGROUNDUP va - va)) = PGROUNDUP va - va ∧
  0 <= PGROUNDUP va - va < PGSIZE ∧
  (va mod PGSIZE = 0 → PGROUNDUP va - va = 0) ∧
  (va mod PGSIZE ≠ 0 → PGROUNDUP va - va = PGSIZE - va mod PGSIZE).
Proof.
  intros H0 H1.
  assert (Hr : PGROUNDUP va = va + PGSIZE - 1 - (va + PGSIZE - 1) mod PGSIZE).
  { rewrite PGROUNDUP_eq, u64_small by (unfold PGSIZE in *; lia). done. }
  unfold PGSIZE in *.
  pose proof (Z.mod_pos_bound va 4096 ltac:(lia)) as Hm.
  pose proof (Z.div_mod va 4096 ltac:(lia)) as Hd.
  assert (Hcase : (va mod 4096 = 0 ∧ (va + 4096 - 1) mod 4096 = 4095) ∨
                  (va mod 4096 ≠ 0 ∧ (va + 4096 - 1) mod 4096 = va mod 4096 - 1)).
  { destruct (decide (va mod 4096 = 0)) as [Hz|Hz]; [left|right]; (split; [done|]).
    - symmetry. apply (Z.mod_unique _ _ (va / 4096)); lia.
    - symmetry. apply (Z.mod_unique _ _ (va / 4096 + 1)); lia. }
  assert (Hb : 0 <= PGROUNDUP va - va < 4096) by lia.
  split; [rewrite u64_small, int32_small; lia|].
  split; [done|]. split; intros; lia.
Qed.

Lemma store_same p pg m : ram m !! p = Some pg → store p pg m = m.
Proof. intros H. unfold store. rewrite insert_id by done. by destruct m. Qed.

(** A write into a data page leaves the stores as they are. *)
Lemma stores_ok_store_data m rs css p b b' :
  stores_ok m rs css → ram m !! p = Some (DataPage b) →
  stores_ok (store p (DataPage b') m) rs css.
Proof.
  intros Hs Hp. apply (stores_ok_frame m _ rs css 0 Hs); [done|].
  intros k cs q Hk Hq. simpl. apply lookup_insert_ne. intros <-.
  destruct (Forall2_lookup_r _ _ _ _ _ (proj1 Hs) Hk) as (vr & _ & Hc & _).
  destruct (chain_is_chunk _ _ _ _ Hc Hq) as (c & Hc'). congruence.
Qed.

Lemma vspace_info_store_data vs m css p b b' a :
  stores_ok m (regions vs) css → ram m !! p = Some (DataPage b) →
  vspace_info vs (store p (DataPage b') m) a = vspace_info vs m a.
Proof.
  intros Hs Hp. unfold vspace_info.
  destruct (va2vregion vs a) as [i|]; simpl; [|done].
  destruct (regions vs !! i) as [vr|] eqn:Hvr; simpl; [|done].
  destruct (va2vpi_idx vr a <? 0); [done|]. f_equal. unfold page_info.
  destruct (stores_ok_lookup _ _ _ _ _ Hs Hvr) as (cs & Hcs & Hok).
  pose proof (stores_ok_store_data _ _ _ _ _ b' Hs Hp) as Hs'.
  destruct (stores_ok_lookup _ _ _ _ _ Hs' Hvr) as (cs' & Hcs' & Hok').
  rewrite Hcs in Hcs'. inversion Hcs'; subst cs'.
  by rewrite (vpi_at_chain _ _ _ _ (store_ok_chain _ _ _ Hok)),
             (vpi_at_chain _ _ _ _ (store_ok_chain _ _ _ Hok')).
Qed.

Lemma blocked_store_data vs m css p b b' a :
  stores_ok m (regions vs) css → ram m !! p = Some (DataPage b) →
  blocked vs (store p (DataPage b') m) a ↔ blocked vs m a.
Proof.
  intros Hs Hp. unfold blocked.
  by rewrite (vspace_info_store_data _ _ _ _ _ _ _ Hs Hp).
Qed.

Lemma writetova_loop_done fuel vs va stop data sz m :
  stop <= va → writetova_loop fuel vs va stop data sz m = Ok (0, vs, m).
Proof.
  intros H. destruct fuel; simpl; by destruct (Z.ltb_spec va stop); [lia|].
Qed.

Lemma writetova_loop_outside fuel vs va stop data sz m :
  va < stop → va2vregion vs va = None →
  writetova_loop (S fuel) vs va stop data sz m = Ok (-1, vs, m).
Proof.
  intros H Hn. simpl. destruct (Z.ltb_spec va stop); [|lia]. by rewrite Hn.
Qed.

(** One turn of the loop at an address whose page is mapped. *)
Lemma writetova_loop_mapped fuel vs va stop data sz m css v :
  0 < VPIPPAGE → stores_ok m (regions vs) css → va < stop →
  vspace_info vs m va = Some v → used v ≠ 0 →
  writetova_loop (S fuel) vs va stop data sz m =
    if writable v =? 0 then Ok (-1, vs, m)
    else
      let wsz := Z.min (int32 (u64 (PGROUNDUP va - va))) sz in
      _ ← (if Z.of_nat (length data) <? wsz then Fault BadAccess else Ok tt);
      m ← write_bytes (ppn v) (va mod PGSIZE) (take (Z.to_nat wsz) data) m;
      writetova_loop fuel vs (u64 (va + wsz)) stop
        (drop (Z.to_nat wsz) data) (int32 (sz - wsz)) m.
Proof.
  intros HN Hs Hlt Hv Hu. unfold vspace_info in Hv.
  destruct (va2vregion vs va) as [i|] eqn:Hi; simpl in Hv; [|done].
  destruct (regions vs !! i) as [vr|] eqn:Hvr; simpl in Hv; [|done].
  destruct (Z.ltb_spec (va2vpi_idx vr va) 0) as [|Hidx]; [done|].
  injection Hv as <-.
  destruct (stores_ok_lookup _ _ _ _ _ Hs Hvr) as (cs & Hcs & Hok).
  unfold page_info in *.
  rewrite (vpi_at_chain _ _ _ _ (store_ok_chain _ _ _ Hok)) in *.
  pose proof (info_at_used_lookup _ _ Hu) as Hlen.
  destruct (va2vpage_info_spec vr va m cs HN Hok Hidx)
    as (q & n & vr' & m' & Heq & _ & _ & _ & _ & _ & Hn0 & Hq).
  { intros [Hp _]. destruct Hok as [Hc _]. rewrite Hp in Hc.
    destruct cs as [|[q0 vs0] cs]; [simpl in Hlen; lia|]. simpl in Hc. by destruct Hc. }
  destruct q as [[pg j]|]; [|lia]. destruct Hq as (Hpg & -> & Hn).
  assert (n = 0%nat) as -> by lia. destruct (Hn0 eq_refl) as [-> ->].
  simpl in Hpg. rewrite app_nil_r in Hpg.
  pose proof (vpi_get_chain m _ cs _ pg HN Hidx (store_ok_chain _ _ _ Hok) Hpg) as Hget.
  cbn [writetova_loop]. destruct (Z.ltb_spec va stop); [|lia].
  rewrite Hi, Hvr, Heq. cbn [mbind outcome_bind]. rewrite Hget. cbn [mbind outcome_bind].
  rewrite list_insert_id by done.
  replace (set_regions vs (regions vs)) with vs by (by destruct vs).
  destruct (Z.eqb_spec (used (info_at cs (va2vpi_idx vr va))) 0); [done|].
  done.
Qed.

(** A turn of the loop that returns found no region for the address, or a
    mapped page. *)
Lemma writetova_loop_inv fuel vs va stop data sz m css res :
  0 < VPIPPAGE → stores_ok m (regions vs) css → va < stop →
  writetova_loop (S fuel) vs va stop data sz m = Ok res →
  va2vregion vs va = None ∨ ∃ v, vspace_info vs m va = Some v ∧ used v ≠ 0.
Proof.
  intros HN Hs Hlt H. cbn [writetova_loop] in H.
  destruct (Z.ltb_spec va stop); [|lia].
  unfold vspace_info.
  destruct (va2vregion vs va) as [i|] eqn:Hi; [right|by left].
  destruct (regions vs !! i) as [vr|] eqn:Hvr; [|done].
  inv_bind H. destruct a as [[q vr'] m1].
  destruct (stores_ok_lookup _ _ _ _ _ Hs Hvr) as (cs & Hcs & Hok).
  destruct (va2vpage_info_stores _ _ _ _ _ _ _ _ _ _ HN Hs Hvr Hcs E)
    as (Hidx & n & cs' & _ & _ & Hok' & _ & _ & _ & Hat & Hq).
  destruct q as [[pg j]|]; [|done]. destruct Hq as [Hpg ->].
  inv_bind H.
  rewrite (vpi_get_chain m1 _ cs' _ pg HN Hidx (store_ok_chain _ _ _ Hok') Hpg) in E0.
  injection E0 as <-. rewrite (Hat _ Hidx) in H.
  simpl. rewrite Hvr. simpl. destruct (Z.ltb_spec (va2vpi_idx vr va) 0); [lia|].
  eexists. split; [done|]. unfold page_info.
  rewrite (vpi_at_chain _ _ _ _ (store_ok_chain _ _ _ Hok)).
  destruct (Z.eqb_spec (used (info_at cs (va2vpi_idx vr va))) 0); [done|done].
Qed.

(** At the start of a page the loop writes no byte and stays where it is:
    when it returns, it returns -1 for that address and has changed
    nothing. *)
Lemma writetova_loop_aligned css data sz stop va fuel : ∀ vs m r vs' m',
  0 < VPIPPAGE → stores_ok m (regions vs) css →
  0 <= va < 2 ^ 64 → PGROUNDUP va - va = 0 → va < stop → 0 < sz < 2 ^ 31 →
  writetova_loop fuel vs va stop data sz m = Ok (r, vs', m') →
  r = -1 ∧ vs' = vs ∧ m' = m ∧ blocked vs m va.
Proof.
  induction fuel as [|fuel IH]; intros vs m r vs' m' HN Hs Hva Hal Hlt Hsz H.
  { simpl in H. by destruct (Z.ltb_spec va stop); [|lia]. }
  destruct (writetova_loop_inv _ _ _ _ _ _ _ _ _ HN Hs Hlt H) as [Hn|(v & Hv & Hu)].
  { rewrite writetova_loop_outside in H by done. injection H as <- <- <-.
    repeat split; try done. by left. }
  rewrite (writetova_loop_mapped _ _ _ _ _ _ _ _ _ HN Hs Hlt Hv Hu) in H.
  destruct (Z.eqb_spec (writable v) 0) as [Hw|Hw].
  { injection H as <- <- <-. repeat split; try done. right. by exists v. }
  rewrite Hal in H. change (int32 (u64 0)) with 0 in H.
  rewrite Z.min_l in H by lia. cbn zeta in H.
  destruct (Z.ltb_spec (Z.of_nat (length data)) 0); [lia|].
  cbn [mbind outcome_bind] in H. unfold write_bytes in H.
  destruct (ram m !! ppn v) as [[c|b]|] eqn:Hp; try discriminate.
  cbn [mbind outcome_bind] in H. change (take (Z.to_nat 0) data) with (take 0 data) in H.
  rewrite take_0 in H. simpl list_inserts in H. rewrite store_same in H by done.
  change (drop (Z.to_nat 0) data) with (drop 0 data) in H. rewrite drop_0 in H.
  rewrite Z.add_0_r, Z.sub_0_r, u64_small, int32_small in H by lia.
  by apply (IH vs m r vs' m').
Qed.

(** At the start of a mapped, writable page the loop does not return. *)
Lemma writetova_loop_aligned_spins css data sz stop va v b fuel : ∀ vs m,
  0 < VPIPPAGE → stores_ok m (regions vs) css →
  0 <= va < 2 ^ 64 → PGROUNDUP va - va = 0 → va < stop → 0 < sz < 2 ^ 31 →
  vspace_info vs m va = Some v → used v ≠ 0 → writable v ≠ 0 →
  ram m !! ppn v = Some (DataPage b) →
  writetova_loop fuel vs va stop data sz m = OutOfFuel.
Proof.
  induction fuel as [|fuel IH]; intros vs m HN Hs Hva Hal Hlt Hsz Hv Hu Hw Hp.
  { simpl. by destruct (Z.ltb_spec va stop); [|lia]. }
  rewrite (writetova_loop_mapped _ _ _ _ _ _ _ _ _ HN Hs Hlt Hv Hu).
  destruct (Z.eqb_spec (writable v) 0) as [|_]; [done|].
  rewrite Hal. change (int32 (u64 0)) with 0.
  rewrite Z.min_l by lia. cbn zeta.
  destruct (Z.ltb_spec (Z.of_nat (length data)) 0); [lia|].
  cbn [mbind outcome_bind]. unfold write_bytes. rewrite Hp.
  cbn [mbind outcome_bind]. change (take (Z.to_nat 0) data) with (take 0 data).
  rewrite take_0. simpl list_inserts. rewrite store_same by done.
  change (drop (Z.to_nat 0) data) with (drop 0 data). rewrite drop_0.
  rewrite Z.add_0_r, Z.sub_0_r, u64_small, int32_small by lia.
  by apply IH.
Qed.

(** C10. [vspacewritetova] on an address space with well-formed stores, for
    a range below the kernel base and a buffer of [sz] bytes. It returns -1
    at once, with nothing written, when the first address is outside every
    region or in a page that is mapped and not writable. When the first
    page is mapped and writable and the range goes on beyond it, and the
    next page starts outside every region or is mapped and not writable, it
    returns -1 and the bytes written to the first page stay there: the call
    is not atomic. It returns 0 only when the page of the first address is
    mapped and writable and holds the whole range, and then all [sz] bytes
    are in that page. Every other result it returns is -1, for one of the
    two reasons above. *)
Theorem vspacewritetova_not_atomic vs va data sz m css :
  0 < VPIPPAGE → stores_ok m (regions vs) css →
  0 <= va → 0 < sz < 2 ^ 31 →
  va + sz < KERNBASE → KERNBASE <= 2 ^ 64 - PGSIZE →
  sz <= Z.of_nat (length data) →
  (blocked vs m va → vspacewritetova vs va data sz m = Ok (-1, vs, m)) ∧
  (∀ v b, vspace_info vs m va = Some v → used v ≠ 0 → writable v ≠ 0 →
     ram m !! ppn v = Some (DataPage b) →
     0 < PGROUNDUP va - va < sz →
     blocked vs m (PGROUNDUP va) →
     vspacewritetova vs va data sz m
     = Ok (-1, vs, written (ppn v) va (PGROUNDUP va - va) data b m)) ∧
  (∀ vs' m', vspacewritetova vs va data sz m = Ok (0, vs', m') →
     ∃ v b, vspace_info vs m va = Some v ∧ used v ≠ 0 ∧ writable v ≠ 0 ∧
       ram m !! ppn v = Some (DataPage b) ∧
       va mod PGSIZE ≠ 0 ∧ va mod PGSIZE + sz <= PGSIZE ∧
       vs' = vs ∧ m' = written (ppn v) va sz data b m) ∧
  (∀ r vs' m', vspacewritetova vs va data sz m = Ok (r, vs', m') → r ≠ 0 →
     r = -1 ∧ vs' = vs ∧
     ((blocked vs m va ∧ m' = m) ∨
      ∃ v b, vspace_info vs m va = Some v ∧ used v ≠ 0 ∧ writable v ≠ 0 ∧
        ram m !! ppn v = Some (DataPage b) ∧
        0 < PGROUNDUP va - va < sz ∧ blocked vs m (PGROUNDUP va) ∧
        m' = written (ppn v) va (PGROUNDUP va - va) data b m)).
Proof.
  intros HN Hs Hva Hsz Hkb Hk Hdata.
  assert (Hstop : u64 (va + sz) = va + sz).
  { apply u64_small. unfold PGSIZE in *. lia. }
  assert (Hunf : vspacewritetova vs va data sz m
                 = writetova_loop (Z.to_nat sz) vs va (va + sz) data sz m).
  { unfold vspacewritetova. rewrite Hstop.
    destruct (Z.ltb_spec 0 sz); [|lia].
    destruct (Z.ltb_spec (va + sz) KERNBASE); [|lia]. done. }
  rewrite Hunf. clear Hunf.
  destruct (Z.to_nat sz) as [|f] eqn:Hf; [lia|].
  destruct (page_rest va) as (Hi32 & Hrng & Hz & Hnz);
    [lia|unfold PGSIZE in *; lia|].
  assert (Hlt : va < va + sz) by lia.
  assert (Hb : 0 <= va < 2 ^ 64) by (unfold PGSIZE in *; lia).
  split; [|split; [|split]].
  - intros [Hn|(v & Hv & Hu & Hw)].
    + by apply writetova_loop_outside.
    + rewrite (writetova_loop_mapped _ _ _ _ _ _ _ _ _ HN Hs Hlt Hv Hu).
      by destruct (Z.eqb_spec (writable v) 0).
  - intros v b Hv Hu Hw Hp Hrem Hbl.
    rewrite (writetova_loop_mapped _ _ _ _ _ _ _ _ _ HN Hs Hlt Hv Hu).
    destruct (Z.eqb_spec (writable v) 0); [done|].
    rewrite Hi32, Z.min_l by lia. cbn zeta.
    destruct (Z.ltb_spec (Z.of_nat (length data)) (PGROUNDUP va - va)); [lia|].
    cbn [mbind outcome_bind]. unfold write_bytes. rewrite Hp.
    cbn [mbind outcome_bind].
    change (store (ppn v) _ m) with (written (ppn v) va (PGROUNDUP va - va) data b m).
    replace (va + (PGROUNDUP va - va)) with (PGROUNDUP va) by lia.
    rewrite u64_small by apply PGROUNDUP_range.
    destruct f as [|f]; [lia|].
    pose proof (stores_ok_store_data _ _ _ _ _
                  (list_inserts (Z.to_nat (va mod PGSIZE))
                     (take (Z.to_nat (PGROUNDUP va - va)) data) b) Hs Hp) as Hs'.
    apply (blocked_store_data _ _ _ _ _
             (list_inserts (Z.to_nat (va mod PGSIZE))
                (take (Z.to_nat (PGROUNDUP va - va)) data) b) _ Hs Hp) in Hbl.
    fold (written (ppn v) va (PGROUNDUP va - va) data b m) in Hs', Hbl.
    assert (Hlt' : PGROUNDUP va < va + sz) by lia.
    destruct Hbl as [Hn|(v2 & Hv2 & Hu2 & Hw2)].
    + by apply writetova_loop_outside.
    + rewrite (writetova_loop_mapped _ _ _ _ _ _ _ _ _ HN Hs' Hlt' Hv2 Hu2).
      by destruct (Z.eqb_spec (writable v2) 0).
  - intros vs' m' H.
    destruct (decide (PGROUNDUP va - va = 0)) as [Hal|Hal].
    { destruct (writetova_loop_aligned _ _ _ _ _ _ _ _ _ _ _ HN Hs Hb Hal Hlt Hsz H)
        as (Hr & _).
      discriminate. }
    destruct (writetova_loop_inv _ _ _ _ _ _ _ _ _ HN Hs Hlt H) as [Hn|(v & Hv & Hu)].
    { rewrite writetova_loop_outside in H by done. discriminate. }
    rewrite (writetova_loop_mapped _ _ _ _ _ _ _ _ _ HN Hs Hlt Hv Hu) in H.
    destruct (Z.eqb_spec (writable v) 0) as [|Hw]; [discriminate|].
    rewrite Hi32 in H. cbn zeta in H.
    destruct (Z.ltb_spec (Z.of_nat (length data)) (Z.min (PGROUNDUP va - va) sz));
      [discriminate|].
    cbn [mbind outcome_bind] in H. unfold write_bytes in H.
    destruct (ram m !! ppn v) as [[c|b]|] eqn:Hp; try discriminate.
    cbn [mbind outcome_bind] in H.
    assert (Hm : va mod PGSIZE ≠ 0) by (intros Hm0; by apply Hal, Hz).
    specialize (Hnz Hm).
    destruct (Z.le_gt_cases sz (PGROUNDUP va - va)) as [Hle|Hgt].
    + rewrite Z.min_r in H by lia. rewrite writetova_loop_done in H by lia.
      injection H as <- <-. exists v, b. unfold written.
      repeat split; try done. lia.
    + exfalso. rewrite Z.min_l in H by lia.
      replace (va + (PGROUNDUP va - va)) with (PGROUNDUP va) in H by lia.
      rewrite u64_small in H by apply PGROUNDUP_range.
      rewrite int32_small in H by lia.
      pose proof (stores_ok_store_data _ _ _ _ _
                    (list_inserts (Z.to_nat (va mod PGSIZE))
                       (take (Z.to_nat (PGROUNDUP va - va)) data) b) Hs Hp) as Hs'.
      destruct (page_rest (PGROUNDUP va)) as (_ & _ & Hz' & _);
        [lia|unfold PGSIZE in *; lia|].
      assert (Hlt' : PGROUNDUP va < va + sz) by lia.
      assert (Hsz' : 0 < sz - (PGROUNDUP va - va) < 2 ^ 31) by lia.
      destruct (writetova_loop_aligned _ _ _ _ _ _ _ _ _ _ _ HN Hs'
                  (PGROUNDUP_range va) (Hz' (PGROUNDUP_aligned va)) Hlt' Hsz' H)
        as (Hr & _).
      discriminate.
  - intros r vs' m' H Hr.
    destruct (decide (PGROUNDUP va - va = 0)) as [Hal|Hal].
    { destruct (writetova_loop_aligned _ _ _ _ _ _ _ _ _ _ _ HN Hs Hb Hal Hlt Hsz H)
        as (-> & -> & -> & Hbl).
      split; [done|]. split; [done|]. by left. }
    destruct (writetova_loop_inv _ _ _ _ _ _ _ _ _ HN Hs Hlt H) as [Hn|(v & Hv & Hu)].
    { rewrite writetova_loop_outside in H by done. injection H as <- <- <-.
      split; [done|]. split; [done|]. left. split; [by left|done]. }
    rewrite (writetova_loop_mapped _ _ _ _ _ _ _ _ _ HN Hs Hlt Hv Hu) in H.
    destruct (Z.eqb_spec (writable v) 0) as [Hw|Hw].
    { injection H as <- <- <-. split; [done|]. split; [done|]. left.
      split; [|done]. right. by exists v. }
    rewrite Hi32 in H. cbn zeta in H.
    destruct (Z.ltb_spec (Z.of_nat (length data)) (Z.min (PGROUNDUP va - va) sz));
      [discriminate|].
    cbn [mbind outcome_bind] in H. unfold write_bytes in H.
    destruct (ram m !! ppn v) as [[c|b]|] eqn:Hp; try discriminate.
    cbn [mbind outcome_bind] in H.
    destruct (Z.le_gt_cases sz (PGROUNDUP va - va)) as [Hle|Hgt].
    { rewrite Z.min_r in H by lia. rewrite writetova_loop_done in H by lia.
      injection H as <- <- <-. done. }
    rewrite Z.min_l in H by lia.
    replace (va + (PGROUNDUP va - va)) with (PGROUNDUP va) in H by lia.
    rewrite u64_small in H by apply PGROUNDUP_range.
    rewrite int32_small in H by lia.
    pose proof (stores_ok_store_data _ _ _ _ _
                  (list_inserts (Z.to_nat (va mod PGSIZE))
                     (take (Z.to_nat (PGROUNDUP va - va)) data) b) Hs Hp) as Hs'.
    destruct (page_rest (PGROUNDUP va)) as (_ & _ & Hz' & _);
      [lia|unfold PGSIZE in *; lia|].
    assert (Hlt' : PGROUNDUP va < va + sz) by lia.
    assert (Hsz' : 0 < sz - (PGROUNDUP va - va) < 2 ^ 31) by lia.
    destruct (writetova_loop_aligned _ _ _ _ _ _ _ _ _ _ _ HN Hs'
                (PGROUNDUP_range va) (Hz' (PGROUNDUP_aligned va)) Hlt' Hsz' H)
      as (-> & -> & -> & Hbl).
    apply (blocked_store_data _ _ _ _ _ _ _ Hs Hp) in Hbl.
    split; [done|]. split; [done|]. right. exists v, b.
    split; [done|]. split; [done|]. split; [done|]. split; [done|].
    split; [lia|]. split; [done|]. done.
Qed.

(** ** The loader on a fresh address space *)

Lemma PGROUNDUP_id a :
  0 <= a → a + PGSIZE <= 2 ^ 64 → a mod PGSIZE = 0 → PGROUNDUP a = a.
Proof.
  intros H0 H1 Hal. destruct (page_rest a H0 H1) as (_ & _ & Hz & _).
  specialize (Hz Hal). lia.
Qed.

(** [vregionaddmap] for a range that starts at the start of a page and ends
    in it, when the record of the page is not mapped and the free pages
    suffice for the chunks that the look-up adds and for the page: the call
    returns the size, the record is mapped to a cleared page. *)
Lemma vregionaddmap_one_page vr from_va sz pres wr m cs :
  0 < VPIPPAGE → store_ok m vr cs →
  0 <= from_va → from_va mod PGSIZE = 0 → 0 < sz <= PGSIZE →
  from_va + sz < KERNBASE → KERNBASE <= 2 ^ 64 - PGSIZE →
  0 <= va2vpi_idx vr from_va →
  used (info_at cs (va2vpi_idx vr from_va)) = 0 →
  (S (Z.to_nat (va2vpi_idx vr from_va / VPIPPAGE)) - length cs
     < length (freelist m))%nat →
  ∃ vr' m' cs' p,
    vregionaddmap vr from_va sz pres wr m = Ok (int32 sz, vr', m') ∧
    same_extent vr vr' ∧ store_ok m' vr' cs' ∧
    info_at cs' (va2vpi_idx vr from_va) = mk_vpi 1 p pres wr ∧
    (∀ i, 0 <= i → i ≠ va2vpi_idx vr from_va → info_at cs' i = info_at cs i) ∧
    ram m' !! p = Some (DataPage zero_bytes) ∧
    (length cs ≤ length cs')%nat ∧
    freelist m'
    = drop (S (S (Z.to_nat (va2vpi_idx vr from_va / VPIPPAGE)) - length cs))
           (freelist m).
Proof.
  intros HN Hok Hva Hal Hsz Hkb Hk Hidx Hu Hfree.
  set (idx := va2vpi_idx vr from_va) in *.
  unfold vregionaddmap.
  rewrite (u64_small (sz + from_va)) by (unfold PGSIZE in *; lia).
  destruct (Z.leb_spec KERNBASE (sz + from_va)); [lia|].
  destruct (Z.leb_spec sz 0); [lia|].
  rewrite PGROUNDUP_id by (unfold PGSIZE in *; lia).
  rewrite (u64_small (from_va + sz)) by (unfold PGSIZE in *; lia).
  replace (from_va + sz - from_va) with sz by lia.
  destruct (Z.to_nat (sz / PGSIZE + 1)) as [|f] eqn:Hf.
  { pose proof (Z.div_pos sz PGSIZE). unfold PGSIZE in *. lia. }
  cbn [addmap_loop]. destruct (Z.ltb_spec from_va (from_va + sz)); [|lia].
  destruct (va2vpage_info_spec vr from_va m cs HN Hok Hidx)
    as (q & n & vr' & m1 & Heq & Hext & Hn & Hfl1 & Hok1 & Hfr1 & _ & Hq).
  { intros [_ Hnil]. rewrite Hnil in Hfree. simpl in Hfree. lia. }
  fold idx in Hq. destruct q as [[pg j]|]; [|lia].
  destruct Hq as (Hpg & -> & ->).
  set (n := (S (Z.to_nat (idx / VPIPPAGE)) - length cs)%nat) in *.
  set (cs1 := cs ++ zeros (take n (freelist m))) in *.
  rewrite Heq. cbn [mbind outcome_bind].
  rewrite (vpi_get_chain m1 _ cs1 _ pg HN Hidx (store_ok_chain _ _ _ Hok1) Hpg).
  cbn [mbind outcome_bind]. unfold cs1 at 1. rewrite info_at_app_zeros by done.
  rewrite Hu. cbn [assert Z.eqb mbind outcome_bind].
  destruct (freelist m1) as [|p fl] eqn:Hfl.
  { apply (f_equal length) in Hfl1. rewrite length_drop in Hfl1. simpl in Hfl1. lia. }
  unfold kalloc. rewrite Hfl.
  destruct (store_ok_kalloc _ _ _ _ _ Hok1 Hfl) as (Hpc & Hpf & Hnd).
  set (m2 := store p (DataPage zero_bytes) (mk_kmem fl (ram m1))).
  assert (Hc2 : chain (ram m2) (pages vr') cs1).
  { eapply chain_frame; [|exact (store_ok_chain _ _ _ Hok1)].
    intros x Hx. simpl. apply lookup_insert_ne. by intros <-. }
  assert (Hndc : NoDup (cpages cs1)) by (by apply NoDup_app in Hnd as (? & _)).
  destruct (vpi_set_chain m2 _ cs1 idx pg (mk_vpi 1 p pres wr) HN Hidx Hc2 Hndc Hpg)
    as (m3 & Hset & Hfl3 & Hc3 & Hfr3).
  rewrite Hset. cbn [mbind outcome_bind].
  assert (Hdone : addmap_loop f vr' (u64 (from_va + PGSIZE)) (from_va + sz) pres wr m3
                  = Ok (AddDone, vr', m3)).
  { rewrite u64_small by (unfold PGSIZE in *; lia).
    destruct f; simpl; by destruct (Z.ltb_spec (from_va + PGSIZE) (from_va + sz)); [lia|]. }
  rewrite Hdone. cbn [mbind outcome_bind].
  exists vr', m3, (info_set cs1 idx (mk_vpi 1 p pres wr)), p.
  split; [done|]. split; [done|]. split.
  { split; [done|]. by rewrite cpages_info_set, Hfl3. }
  assert (Hlt : (Z.to_nat (idx / VPIPPAGE) < length cs1)%nat).
  { apply lookup_lt_Some in Hpg. unfold cpages in Hpg. by rewrite length_fmap in Hpg. }
  split; [by eapply info_at_info_set_eq|].
  split.
  { intros i Hi Hne. rewrite info_at_info_set_ne by done.
    unfold cs1. by apply info_at_app_zeros. }
  split.
  { rewrite Hfr3; [unfold m2; simpl; by rewrite lookup_insert_eq|].
    intros ->. apply Hpc. by eapply list_elem_of_lookup_2. }
  split; [rewrite length_info_set; unfold cs1; rewrite length_app; lia|].
  rewrite Hfl3. unfold m2. simpl.
  replace (S n) with (n + 1)%nat by lia. by rewrite <- drop_drop, <- Hfl1.
Qed.

(** [vrloaddata] for at most a page of bytes that the file holds, into a
    mapped page: the bytes are written at the start of the page. *)
Lemma vrloaddata_one_page vr va ip offset sz m cs v b :
  0 < VPIPPAGE → store_ok m vr cs →
  0 <= va < 2 ^ 64 → va mod PGSIZE = 0 →
  0 < sz <= PGSIZE → 0 <= offset < 2 ^ 32 →
  (Z.to_nat offset + Z.to_nat sz ≤ length (i_data ip))%nat →
  0 <= va2vpi_idx vr va →
  info_at cs (va2vpi_idx vr va) = v → used v ≠ 0 →
  ram m !! ppn v = Some (DataPage b) →
  vrloaddata vr va ip offset sz m
  = Ok (0, vr, store (ppn v) (DataPage (list_inserts 0 (readi ip offset sz) b)) m).
Proof.
  intros HN Hok Hva Hal Hsz Hoff Hfile Hidx Hv Hu Hp.
  unfold vrloaddata. rewrite Hal. cbn [Z.eqb assert mbind outcome_bind].
  destruct (Z.to_nat (sz / PGSIZE + 1)) as [|f] eqn:Hf.
  { pose proof (Z.div_pos sz PGSIZE). unfold PGSIZE in *. lia. }
  cbn [vrloaddata_loop]. destruct (Z.ltb_spec 0 sz); [|lia].
  rewrite (Z.add_0_r va), (u64_small va) by done.
  assert (Hlen : (Z.to_nat (va2vpi_idx vr va / VPIPPAGE) < length cs)%nat).
  { apply info_at_used_lookup. by rewrite Hv. }
  destruct (va2vpage_info_spec vr va m cs HN Hok Hidx)
    as (q & n & vr' & m' & Heq & _ & _ & _ & _ & _ & Hn0 & Hq).
  { intros [Hpn _]. destruct Hok as [Hc _]. rewrite Hpn in Hc.
    destruct cs as [|[q0 vs0] cs]; [simpl in Hlen; lia|]. simpl in Hc. by destruct Hc. }
  destruct q as [[pg j]|]; [|lia]. destruct Hq as (Hpg & -> & Hn).
  assert (n = 0%nat) as -> by lia. destruct (Hn0 eq_refl) as [-> ->].
  simpl in Hpg. rewrite app_nil_r in Hpg.
  rewrite Heq. cbn [mbind outcome_bind].
  rewrite (vpi_get_chain m _ cs _ pg HN Hidx (store_ok_chain _ _ _ Hok) Hpg), Hv.
  cbn [mbind outcome_bind].
  destruct (Z.eqb_spec (used v) 0); [done|]. cbn [negb assert mbind outcome_bind].
  rewrite Z.sub_0_r, (Z.add_0_r offset).
  assert (Hu32 : u32 sz = sz) by (unfold u32, PGSIZE in *; apply Z.mod_small; lia).
  assert (Hu32' : u32 offset = offset) by (unfold u32; apply Z.mod_small; lia).
  rewrite Hu32, Hu32'. change (u32 PGSIZE) with PGSIZE.
  rewrite Z.min_l by lia.
  unfold write_bytes. rewrite Hp. cbn [mbind outcome_bind].
  assert (Hrl : Z.of_nat (length (readi ip offset sz)) = sz).
  { unfold readi. rewrite length_take, length_drop. lia. }
  rewrite Hrl, Z.eqb_refl. cbn [negb].
  change (Z.to_nat 0) with 0%nat.
  change (u32 (0 + PGSIZE)) with PGSIZE.
  destruct f; simpl; by destruct (Z.ltb_spec PGSIZE sz); [lia|].
Qed.

Lemma store_ok_store_data m vr cs p b b' :
  store_ok m vr cs → ram m !! p = Some (DataPage b) →
  store_ok (store p (DataPage b') m) vr cs.
Proof.
  intros [Hc Hnd] Hp. split; [|done].
  eapply chain_frame; [|exact Hc]. intros q Hq. simpl.
  apply lookup_insert_ne. intros <-.
  destruct (chain_is_chunk _ _ _ _ Hc Hq) as (c & Hc'). congruence.
Qed.

(** One round of the loader for a segment that starts at the start of a
    page and ends in it, with bytes in the file: the round maps the page and
    goes on. *)
Lemma load_segment_one_page ip ph ls vs m code cs :
  let code0 := if first_section ls
               then set_va_base code (PGROUNDDOWN (ph_vaddr ph)) else code in
  let idx := va2vpi_idx code0 (ph_vaddr ph) in
  0 < VPIPPAGE → KERNBASE <= 2 ^ 64 - PGSIZE →
  regions vs !! VR_CODE = Some code → store_ok m code0 cs →
  0 <= ph_vaddr ph → ph_vaddr ph mod PGSIZE = 0 →
  0 < ph_filesz ph → ph_filesz ph <= ph_memsz ph → ph_memsz ph <= PGSIZE →
  ph_vaddr ph + ph_memsz ph < KERNBASE →
  0 <= ph_off ph < 2 ^ 32 →
  (Z.to_nat (ph_off ph) + Z.to_nat (ph_filesz ph) ≤ length (i_data ip))%nat →
  0 <= idx → used (info_at cs idx) = 0 →
  (S (Z.to_nat (idx / VPIPPAGE)) - length cs < length (freelist m))%nat →
  ∃ code' m' cs',
    load_segment ip ph ls vs m
    = Ok (Some (mk_load false (ph_memsz ph) (ph_vaddr ph + ph_memsz ph)),
          set_regions vs (<[VR_CODE := code']> (regions vs)), m') ∧
    same_extent code0 code' ∧ store_ok m' code' cs' ∧
    used (info_at cs' idx) ≠ 0 ∧
    (∀ i, 0 <= i → i ≠ idx → info_at cs' i = info_at cs i) ∧
    freelist m' = drop (S (S (Z.to_nat (idx / VPIPPAGE)) - length cs)) (freelist m).
Proof.
  intros code0 idx HN Hk Hcode Hok Hva Hal Hfs Hfm Hms Hkb Hoff Hfile Hidx Hu Hfree.
  destruct (vregionaddmap_one_page code0 (ph_vaddr ph) (ph_memsz ph) VPI_PRESENT
              (if Z.land (ph_flags ph) ELF_PROG_FLAG_WRITE =? 0
               then VPI_READONLY else VPI_WRITABLE) m cs HN Hok Hva Hal)
    as (code1 & m1 & cs1 & p & Hmap & Hext & Hok1 & Hrec & Hoth & Hp & _ & Hfl);
    [lia|done|done|done|done|done|].
  assert (Hi32 : int32 (ph_memsz ph) = ph_memsz ph)
    by (apply int32_small; unfold PGSIZE in *; lia).
  rewrite Hi32 in Hmap.
  assert (Hput : set_regions
                   (set_regions vs (<[VR_CODE := code1]> (regions vs)))
                   (<[VR_CODE := code1]>
                      (regions (set_regions vs (<[VR_CODE := code1]> (regions vs)))))
                 = set_regions vs (<[VR_CODE := code1]> (regions vs))).
  { unfold set_regions. simpl. by rewrite list_insert_insert_eq. }
  exists code1, (store p (DataPage (list_inserts 0
                   (readi ip (ph_off ph) (ph_filesz ph)) zero_bytes)) m1), cs1.
  split.
  - unfold load_segment.
    destruct (Z.ltb_spec (ph_memsz ph) (ph_filesz ph)); [lia|].
    rewrite (u64_small (ph_vaddr ph + ph_memsz ph)) by (unfold PGSIZE in *; lia).
    destruct (Z.ltb_spec (ph_vaddr ph + ph_memsz ph) (ph_vaddr ph)); [lia|].
    rewrite Hcode. fold code0. rewrite Hmap. cbn [mbind outcome_bind].
    destruct (Z.ltb_spec (ph_memsz ph) 0); [lia|].
    rewrite Hal. cbn [Z.eqb negb].
    assert (Hu32 : u32 (ph_off ph) = ph_off ph) by (unfold u32; apply Z.mod_small; lia).
    assert (Hu32' : u32 (ph_filesz ph) = ph_filesz ph).
    { unfold u32, PGSIZE in *. apply Z.mod_small. lia. }
    rewrite Hu32, Hu32'.
    assert (Hidx1 : va2vpi_idx code1 (ph_vaddr ph) = idx)
      by apply (same_extent_idx _ _ _ Hext).
    assert (Hload : vrloaddata code1 (ph_vaddr ph) ip (ph_off ph) (ph_filesz ph) m1
              = Ok (0, code1,
                    store p (DataPage (list_inserts 0
                      (readi ip (ph_off ph) (ph_filesz ph)) zero_bytes)) m1)).
    { apply (vrloaddata_one_page code1 (ph_vaddr ph) ip (ph_off ph) (ph_filesz ph) m1
               cs1 (mk_vpi 1 p VPI_PRESENT
                      (if Z.land (ph_flags ph) ELF_PROG_FLAG_WRITE =? 0
                       then VPI_READONLY else VPI_WRITABLE)) zero_bytes HN Hok1).
      - unfold PGSIZE in *. lia.
      - done.
      - lia.
      - done.
      - done.
      - by rewrite Hidx1.
      - rewrite Hidx1. exact Hrec.
      - done.
      - done. }
    rewrite Hload.
    cbn [mbind outcome_bind ppn]. cbn [Z.ltb Z.compare]. by rewrite Hput.
  - split; [done|]. split; [by eapply store_ok_store_data|].
    fold idx in Hrec. rewrite Hrec. simpl. split; [done|]. split; [|done].
    intros i Hi Hne. by apply Hoth.
Qed.

(** C5, as amended. A load of the two-segment image that succeeds (it
    stores the entry point) returns the size asked for the last segment,
    0x50, and leaves the code region with base [0x10000] and size
    [0x1050], and the heap region with base [0x13000], the page-rounded end
    [0x12000] of the second segment plus one page, and size 0. The load
    succeeds when the code region is an upward region without a chunk, as
    [vspaceinit] leaves it, four pages are free and the file holds the
    bytes of its segments. *)
Theorem vspaceloadcode_two_segments vs ip m :
  two_segment_image ip →
  (∀ r rip vs' m', vspaceloadcode vs (Some ip) m = Ok (r, Some rip, vs', m') →
     r = 0x50 ∧
     ∃ code heap,
       regions vs' !! VR_CODE = Some code ∧ regions vs' !! VR_HEAP = Some heap ∧
       va_base code = 0x10000 ∧ size code = 0x1050 ∧
       va_base heap = 0x13000 ∧ size heap = 0) ∧
  (0 < VPIPPAGE → 0x11050 < KERNBASE → KERNBASE <= 2 ^ 64 - PGSIZE →
   (∀ ph, ph ∈ i_ph ip →
      0 <= ph_off ph < 2 ^ 32 ∧
      (Z.to_nat (ph_off ph) + Z.to_nat (ph_filesz ph) ≤ length (i_data ip))%nat) →
   (∃ code heap, regions vs !! VR_CODE = Some code ∧ dir code = VRDIR_UP ∧
                 pages code = None ∧ regions vs !! VR_HEAP = Some heap) →
   NoDup (freelist m) → (4 ≤ length (freelist m))%nat →
   ∃ rip vs' m', vspaceloadcode vs (Some ip) m = Ok (0x50, Some rip, vs', m')).
Proof.
  intros Himg. split.
  { intros r rip vs' m' H. by eapply vspaceloadcode_two_segments_regions. }
  destruct Himg as (entry & flA & flB & offA & offB & Helf & Hph & _ & _).
  intros HN Hkb Hk Hfile (code & heap & Hcode & Hdir & Hpg & Hheap) Hnd Hfree.
  set (phA := mk_proghdr ELF_PROG_LOAD flA offA 0x10000 0x100 0x1000) in *.
  set (phB := mk_proghdr ELF_PROG_LOAD flB offB 0x11000 0x50 0x50) in *.
  destruct (Hfile phA) as [HoffA HfileA]; [rewrite Hph; apply list_elem_of_here|].
  destruct (Hfile phB) as [HoffB HfileB];
    [rewrite Hph; apply list_elem_of_further, list_elem_of_here|].
  (* the first segment *)
  set (codeA := set_va_base code (PGROUNDDOWN (ph_vaddr phA))).
  assert (HidxA : va2vpi_idx codeA (ph_vaddr phA) = 0).
  { unfold va2vpi_idx, codeA. simpl. rewrite Hdir. reflexivity. }
  destruct (load_segment_one_page ip phA (mk_load true 0 0) vs m code [] HN Hk Hcode)
    as (code1 & m1 & cs1 & E1 & Hext1 & Hok1 & Hu1 & Hoth1 & Hfl1).
  { split; [exact Hpg|done]. }
  { simpl. lia. }
  { reflexivity. }
  { simpl. lia. }
  { simpl. lia. }
  { simpl. unfold PGSIZE. lia. }
  { simpl. lia. }
  { exact HoffA. }
  { exact HfileA. }
  { cbn [first_section]. fold codeA. rewrite HidxA. lia. }
  { cbn [first_section]. fold codeA. by rewrite HidxA. }
  { cbn [first_section]. fold codeA. rewrite HidxA, Z.div_0_l by lia. simpl. lia. }
  cbn [first_section] in Hext1, Hu1, Hoth1, Hfl1. fold codeA in Hext1, Hu1, Hoth1, Hfl1.
  rewrite HidxA in Hu1, Hoth1, Hfl1.
  change (S (Z.to_nat (0 / VPIPPAGE)) - length (@nil (Z * list vpage_info)))%nat
    with (S (Z.to_nat (0 / VPIPPAGE))) in Hfl1.
  rewrite Z.div_0_l in Hfl1 by lia. change (S (S (Z.to_nat 0))) with 2%nat in Hfl1.
  (* the second segment *)
  set (vs1 := set_regions vs (<[VR_CODE := code1]> (regions vs))) in *.
  assert (Hlen : (0 < length (regions vs))%nat) by (by eapply lookup_lt_Some).
  assert (Hcode1 : regions vs1 !! VR_CODE = Some code1).
  { unfold vs1. simpl. by apply list_lookup_insert_eq. }
  assert (HidxB : va2vpi_idx code1 (ph_vaddr phB) = 1).
  { rewrite (same_extent_idx _ _ _ Hext1). unfold va2vpi_idx, codeA. simpl.
    rewrite Hdir. reflexivity. }
  assert (Hl1 : (1 ≤ length cs1)%nat).
  { pose proof (info_at_used_lookup _ _ Hu1) as Hl. lia. }
  assert (Hdiv : 0 <= 1 / VPIPPAGE <= 1).
  { split; [apply Z.div_pos; lia|]. apply Z.div_le_upper_bound; lia. }
  destruct (load_segment_one_page ip phB
              (mk_load false (ph_memsz phA) (ph_vaddr phA + ph_memsz phA))
              vs1 m1 code1 cs1 HN Hk Hcode1)
    as (code2 & m2 & cs2 & E2 & Hext2 & Hok2 & _ & _ & _).
  { exact Hok1. }
  { simpl. lia. }
  { reflexivity. }
  { simpl. lia. }
  { simpl. lia. }
  { simpl. unfold PGSIZE. lia. }
  { simpl. lia. }
  { exact HoffB. }
  { exact HfileB. }
  { cbn [first_section]. rewrite HidxB. lia. }
  { cbn [first_section]. rewrite HidxB. rewrite Hoth1 by lia. reflexivity. }
  { cbn [first_section]. rewrite HidxB, Hfl1, length_drop. lia. }
  (* the loader *)
  exists entry. unfold vspaceloadcode. rewrite Helf.
  cbn [elf_magic elf_phnum elf_entry]. rewrite Z.eqb_refl. cbn [negb].
  change (Z.to_nat 2) with 2%nat. cbn [load_segments]. rewrite Hph.
  change ([phA; phB] !! 0%nat) with (Some phA).
  change ([phA; phB] !! 1%nat) with (Some phB).
  cbn iota.
  change (negb (ph_type phA =? ELF_PROG_LOAD)) with false.
  change (negb (ph_type phB =? ELF_PROG_LOAD)) with false.
  cbn iota. rewrite E1. cbn [mbind outcome_bind]. rewrite E2.
  cbn [mbind outcome_bind first_section negb assert last_sz code_end].
  set (vs2 := set_regions vs1 (<[VR_CODE := code2]> (regions vs1))).
  assert (Hcode2 : regions vs2 !! VR_CODE = Some code2).
  { unfold vs2, vs1. simpl. apply list_lookup_insert_eq. by rewrite length_insert. }
  assert (Hheap2 : ∀ c, <[VR_CODE := c]> (regions vs2) !! VR_HEAP = Some heap).
  { intros c. unfold vs2, vs1. simpl. by rewrite !list_lookup_insert_ne. }
  rewrite Hcode2, Hheap2. by eexists _, _.
Qed.

(** * The other operations of the file *)

(** ** Queries on an address space *)

(** [vspacecontains]: the result of [vregioncontains] on the region that
    [va2vregion] finds, and -1 when it finds none. *)
Definition vspacecontains (vs : vspace) (va sz : Z) : Z :=
  match va2vregion vs va ≫= (λ i, regions vs !! i) with
  | None => -1
  | Some vr => vregioncontains vr va sz
  end.

(** Modelled from the spec: [setupkvm] (x86_64vm.c) is not part of the
    translated file; [kvm] is what it returned, the table with the kernel
    part set or nothing when no page was left. *)
Definition vspaceinit (vs : vspace) (kvm : option (gmap Z pte)) : Z * vspace :=
  match kvm with
  | None => (-1, mk_vspace (regions vs) ∅)
  | Some pt =>
    (0, mk_vspace [mk_vregion VRDIR_UP 0 0 None; mk_vregion VRDIR_UP 0 0 None;
                   mk_vregion VRDIR_DOWN 0 0 None] pt)
  end.

Lemma vregion_holds_extent vr va :
  vregion_holds vr va = true ↔ VRBOT vr <= va < VRTOP vr.
Proof.
  unfold vregion_holds, VRBOT, VRTOP. destruct (dir vr);
    rewrite andb_true_iff, Z.leb_le, Z.ltb_lt; done.
Qed.

Lemma va2vregion_Some vs va i :
  va2vregion vs va = Some i →
  ∃ vr, regions vs !! i = Some vr ∧ vregion_holds vr va = true ∧
        ∀ j vr', regions vs !! j = Some vr' → (j < i)%nat →
                 vregion_holds vr' va ≠ true.
Proof.
  unfold va2vregion. intros H.
  destruct (list_find _ (regions vs)) as [[k vr]|] eqn:Hf; simpl in H; [|done].
  injection H as ->. apply list_find_Some in Hf as (Hk & Hh & Hfirst).
  exists vr. split; [done|]. split; [done|]. intros j vr' Hj Hlt. by eapply Hfirst.
Qed.

Lemma va2vregion_None vs va :
  va2vregion vs va = None ↔ ∀ vr, vr ∈ regions vs → vregion_holds vr va ≠ true.
Proof.
  unfold va2vregion. split.
  - intros H. destruct (list_find _ (regions vs)) as [[k vr]|] eqn:Hf; [done|].
    apply list_find_None in Hf. intros vr Hin. by apply (proj1 (Forall_forall _ _) Hf).
  - intros H. replace (list_find _ (regions vs)) with (@None (nat * vregion)); [done|].
    symmetry. apply list_find_None. by apply Forall_forall.
Qed.

(** X1. [va2vpi_idx] counts pages from the base of the region, upwards in
    an upward region and downwards from the page under the base in a
    downward one. For a region with a page-aligned base and two addresses
    within [2^43] bytes of the base on the side of the region, the index is
    not negative, and the two addresses have the same index exactly when
    they lie in the same page. *)
Theorem va2vpi_idx_same_page r va va' :
  let side a := match dir r with
                | VRDIR_UP => va_base r <= a < va_base r + 2 ^ 43
                | VRDIR_DOWN => va_base r - 2 ^ 43 <= a < va_base r
                end in
  0 <= va_base r < 2 ^ 64 → va_base r mod PGSIZE = 0 →
  0 <= va < 2 ^ 64 → 0 <= va' < 2 ^ 64 → side va → side va' →
  0 <= va2vpi_idx r va ∧
  va2vpi_idx r va
  = match dir r with
    | VRDIR_UP => va / PGSIZE - va_base r / PGSIZE
    | VRDIR_DOWN => va_base r / PGSIZE - 1 - va / PGSIZE
    end ∧
  (va2vpi_idx r va = va2vpi_idx r va' ↔ va / PGSIZE = va' / PGSIZE).
Proof.
  intros side Hb Hal Hva Hva' Hs Hs'. unfold side in *. clear side.
  assert (Hidx : ∀ a, 0 <= a < 2 ^ 64 →
            match dir r with
            | VRDIR_UP => va_base r <= a < va_base r + 2 ^ 43
            | VRDIR_DOWN => va_base r - 2 ^ 43 <= a < va_base r
            end →
            va2vpi_idx r a
            = match dir r with
              | VRDIR_UP => a / PGSIZE - va_base r / PGSIZE
              | VRDIR_DOWN => va_base r / PGSIZE - 1 - a / PGSIZE
              end ∧ 0 <= va2vpi_idx r a).
  { intros a Ha Hside. unfold va2vpi_idx, PAGE_SHIFT, PGSIZE in *.
    pose proof (Z.div_mod (va_base r) 4096 ltac:(lia)) as Hdb.
    pose proof (Z.div_mod a 4096 ltac:(lia)) as Hda.
    pose proof (Z.mod_pos_bound a 4096 ltac:(lia)) as Hma.
    destruct (dir r).
    - rewrite u64_small by lia. rewrite Z.shiftr_div_pow2 by lia.
      change (2 ^ 12) with 4096.
      assert (Hq : (a - va_base r) / 4096 = a / 4096 - va_base r / 4096).
      { symmetry. apply (Z.div_unique _ _ _ (a mod 4096)); lia. }
      assert (Hr : 0 <= (a - va_base r) / 4096 < 2 ^ 31).
      { split; [apply Z.div_pos; lia|apply Z.div_lt_upper_bound; lia]. }
      rewrite int32_small by lia. lia.
    - rewrite u64_small by lia. rewrite Z.shiftr_div_pow2 by lia.
      change (2 ^ 12) with 4096.
      assert (Hq : (va_base r - 1 - a) / 4096 = va_base r / 4096 - 1 - a / 4096).
      { symmetry. apply (Z.div_unique _ _ _ (4095 - a mod 4096)); lia. }
      assert (Hr : 0 <= (va_base r - 1 - a) / 4096 < 2 ^ 31).
      { split; [apply Z.div_pos; lia|apply Z.div_lt_upper_bound; lia]. }
      rewrite int32_small by lia. lia. }
  destruct (Hidx va Hva Hs) as [E1 P1]. destruct (Hidx va' Hva' Hs') as [E2 _].
  split; [done|]. split; [done|]. rewrite E1, E2. destruct (dir r); lia.
Qed.

(** X2. [vspacecontains] answers 1, 0 or -1, and -1 exactly when no region
    holds [va]; the null region is not turned into 0. With size 0 it never
    answers 0. When it answers 1 for a size that is not negative, every
    address of [va, va+sz) is held by the one region that [va2vregion]
    finds for [va]: a range that leaves that region is refused, also when
    other regions hold the rest. *)
Theorem vspacecontains_result vs va sz :
  0 <= va < 2 ^ 64 →
  (vspacecontains vs va sz = 1 ∨ vspacecontains vs va sz = 0 ∨
   vspacecontains vs va sz = -1) ∧
  (vspacecontains vs va sz = -1 ↔ va2vregion vs va = None) ∧
  vspacecontains vs va 0 ≠ 0 ∧
  (0 <= sz → va + sz < 2 ^ 64 → vspacecontains vs va sz = 1 →
   ∃ i vr, va2vregion vs va = Some i ∧ regions vs !! i = Some vr ∧
           ∀ x, va <= x < va + sz → vregion_holds vr x = true).
Proof.
  intros Hva. unfold vspacecontains.
  assert (Hrc : ∀ vr s, vregioncontains vr va s = 1 ∨ vregioncontains vr va s = 0).
  { intros vr s. unfold vregioncontains.
    destruct ((s =? 0) && (va =? VRTOP vr)); [by right|].
    destruct ((VRBOT vr <=? va) && (u64 (va + s) <=? VRTOP vr)); [by left|by right]. }
  destruct (va2vregion vs va) as [i|] eqn:Hi; simpl.
  - destruct (va2vregion_Some _ _ _ Hi) as (vr & Hvr & Hh & _). rewrite Hvr.
    apply vregion_holds_extent in Hh as Hext.
    split; [destruct (Hrc vr sz) as [->| ->]; auto|].
    split; [split; [destruct (Hrc vr sz) as [->| ->]; done|done]|].
    split.
    { unfold vregioncontains. rewrite Z.eqb_refl. simpl.
      destruct (Z.eqb_spec va (VRTOP vr)); [lia|].
      rewrite Z.add_0_r, u64_small by done.
      destruct (Z.leb_spec (VRBOT vr) va); [|lia].
      by destruct (Z.leb_spec va (VRTOP vr)); [|lia]. }
    intros Hsz Hsum Hc. exists i, vr. split; [done|]. split; [done|].
    intros x Hx. apply vregion_holds_extent.
    unfold vregioncontains in Hc. rewrite u64_small in Hc by lia.
    destruct ((sz =? 0) && (va =? VRTOP vr)); [done|].
    destruct (Z.leb_spec (VRBOT vr) va); [|done].
    destruct (Z.leb_spec (va + sz) (VRTOP vr)); [|done]. lia.
  - split; [auto|]. split; [done|]. split; [done|]. intros _ _ H. discriminate.
Qed.

(** X3. An address space as [vspaceinit] leaves it has three regions, the
    code and heap regions upward and the stack region downward, and holds
    no address: [va2vregion] finds no region and [vspacecontains] answers
    -1 for every address. When [setupkvm] fails the call returns -1 and
    the regions are as they were. *)
Theorem vspaceinit_holds_nothing vs pt va sz :
  (vspaceinit vs (Some pt)).1 = 0 ∧
  dir <$> regions (vspaceinit vs (Some pt)).2 = [VRDIR_UP; VRDIR_UP; VRDIR_DOWN] ∧
  va2vregion (vspaceinit vs (Some pt)).2 va = None ∧
  vspacecontains (vspaceinit vs (Some pt)).2 va sz = -1 ∧
  (vspaceinit vs None).1 = -1 ∧
  regions (vspaceinit vs None).2 = regions vs.
Proof.
  assert (Hn : va2vregion (vspaceinit vs (Some pt)).2 va = None).
  { apply va2vregion_None. simpl. intros vr Hin.
    assert (Hz : va_base vr = 0 ∧ size vr = 0).
    { repeat (apply elem_of_cons in Hin as [->|Hin]; [done|]).
      by apply elem_of_nil in Hin. }
    destruct Hz as [Hb Hz]. unfold vregion_holds. rewrite Hb, Hz.
    change (u64 (0 + 0)) with 0. change (u64 (0 - 0)) with 0.
    destruct (dir vr); rewrite andb_true_iff, Z.leb_le, Z.ltb_lt; lia. }
  split; [done|]. split; [done|]. split; [done|].
  split; [unfold vspacecontains; by rewrite Hn|]. done.
Qed.

(** ** The store under [va2vpage_info] *)

(** A look-up of a page whose chunk is in the chain. *)
Lemma va2vpage_info_hit vr va m cs :
  0 < VPIPPAGE → store_ok m vr cs → 0 <= va2vpi_idx vr va →
  (Z.to_nat (va2vpi_idx vr va / VPIPPAGE) < length cs)%nat →
  ∃ q, va2vpage_info vr va m = Ok (Some q, vr, m) ∧
       q.2 = Z.to_nat (va2vpi_idx vr va mod VPIPPAGE) ∧
       cpages cs !! Z.to_nat (va2vpi_idx vr va / VPIPPAGE) = Some q.1 ∧
       vpi_get q m = Ok (page_info m vr va).
Proof.
  intros HN Hok Hidx Hlen.
  destruct (va2vpage_info_spec vr va m cs HN Hok Hidx)
    as (q & n & vr' & m' & Heq & _ & _ & _ & _ & _ & Hn0 & Hq).
  { intros [Hpn _]. destruct Hok as [Hc _]. rewrite Hpn in Hc.
    destruct cs as [|[q0 vs0] cs]; [simpl in Hlen; lia|]. simpl in Hc. by destruct Hc. }
  destruct q as [[pg j]|]; [|lia]. destruct Hq as (Hpg & -> & Hn).
  assert (n = 0%nat) as -> by lia. destruct (Hn0 eq_refl) as [-> ->].
  simpl in Hpg. rewrite app_nil_r in Hpg.
  exists (pg, Z.to_nat (va2vpi_idx vr va mod VPIPPAGE)).
  split; [done|]. split; [done|]. split; [done|].
  unfold page_info. rewrite (vpi_at_chain _ _ _ _ (store_ok_chain _ _ _ Hok)).
  exact (vpi_get_chain m _ cs _ pg HN Hidx (store_ok_chain _ _ _ Hok) Hpg).
Qed.

(** X4. A look-up of a page whose chunk is in the chain already allocates
    nothing and changes neither the region record nor the memory; the
    pointer it returns is to the record of the page. *)
Theorem va2vpage_info_in_chain vr va m cs :
  0 < VPIPPAGE → store_ok m vr cs → 0 <= va2vpi_idx vr va →
  (Z.to_nat (va2vpi_idx vr va / VPIPPAGE) < length cs)%nat →
  ∃ q, va2vpage_info vr va m = Ok (Some q, vr, m) ∧
       q.2 = Z.to_nat (va2vpi_idx vr va mod VPIPPAGE) ∧
       cpages cs !! Z.to_nat (va2vpi_idx vr va / VPIPPAGE) = Some q.1 ∧
       vpi_get q m = Ok (page_info m vr va).
Proof.
  intros HN Hok Hidx Hlen.
  destruct (va2vpage_info_spec vr va m cs HN Hok Hidx)
    as (q & n & vr' & m' & Heq & _ & _ & _ & _ & _ & Hn0 & Hq).
  { intros [Hpn _]. destruct Hok as [Hc _]. rewrite Hpn in Hc.
    destruct cs as [|[q0 vs0] cs]; [simpl in Hlen; lia|]. simpl in Hc. by destruct Hc. }
  destruct q as [[pg j]|]; [|lia]. destruct Hq as (Hpg & -> & Hn).
  assert (n = 0%nat) as -> by lia. destruct (Hn0 eq_refl) as [-> ->].
  simpl in Hpg. rewrite app_nil_r in Hpg.
  exists (pg, Z.to_nat (va2vpi_idx vr va mod VPIPPAGE)).
  split; [done|]. split; [done|]. split; [done|].
  unfold page_info. rewrite (vpi_at_chain _ _ _ _ (store_ok_chain _ _ _ Hok)).
  exact (vpi_get_chain m _ cs _ pg HN Hidx (store_ok_chain _ _ _ Hok) Hpg).
Qed.

(** X5. A look-up on a well-formed store, in a region that has a chunk or
    with a page free, returns; no record reads differently afterwards, and
    the extent of the region is as before. With [need] the number of chunks
    missing up to the chunk of the page: when that many pages are free the
    look-up takes exactly those from the front of the free pages and
    returns a pointer; when fewer are free it returns the null pointer, has
    taken every free page, and the pages it took stay in the chain as
    chunks of cleared records. *)
Theorem va2vpage_info_grows vr va m cs :
  let need := (S (Z.to_nat (va2vpi_idx vr va / VPIPPAGE)) - length cs)%nat in
  0 < VPIPPAGE → store_ok m vr cs → 0 <= va2vpi_idx vr va →
  ¬ (pages vr = None ∧ freelist m = []) →
  ∃ q vr' m', va2vpage_info vr va m = Ok (q, vr', m') ∧
    same_extent vr vr' ∧
    (∀ j, 0 <= j → vpi_at m' vr' j = vpi_at m vr j) ∧
    ((need ≤ length (freelist m))%nat →
       is_Some q ∧ freelist m' = drop need (freelist m) ∧
       store_ok m' vr' (cs ++ zeros (take need (freelist m)))) ∧
    ((length (freelist m) < need)%nat →
       q = None ∧ freelist m' = [] ∧ store_ok m' vr' (cs ++ zeros (freelist m))).
Proof.
  intros need HN Hok Hidx Hne.
  destruct (va2vpage_info_spec vr va m cs HN Hok Hidx Hne)
    as (q & n & vr' & m' & Heq & Hext & Hn & Hfl & Hok' & _ & _ & Hq).
  exists q, vr', m'. split; [done|]. split; [done|]. split.
  { intros j Hj. rewrite (vpi_at_chain _ _ _ _ (store_ok_chain _ _ _ Hok')),
      (vpi_at_chain _ _ _ _ (store_ok_chain _ _ _ Hok)).
    by apply info_at_app_zeros. }
  destruct q as [[pg j]|].
  - destruct Hq as (_ & _ & ->). fold need in Hn, Hfl, Hok'.
    split; [done|]. intros Hlt. lia.
  - destruct Hq as [-> Hq]. split; [intros Hle; unfold need in Hle; lia|].
    intros _. split; [done|]. rewrite drop_all in Hfl. split; [done|].
    by rewrite firstn_all in Hok'.
Qed.

(** ** What [vregionaddmap] returns *)

(** X6. Whatever [vregionaddmap] returns, the direction, base and size of
    the region are as before. The value returned is -1, or 0 for a size of
    0 (and then nothing has changed), or the size converted to [int]: for
    a size of [2^31] bytes or more, up to [2^32], a call that mapped every
    page returns a value that is not positive, which its callers take for
    a failure or for an empty range. *)
Theorem vregionaddmap_returns vr from_va sz pres wr m r vr' m' :
  0 <= sz →
  vregionaddmap vr from_va sz pres wr m = Ok (r, vr', m') →
  same_extent vr vr' ∧
  (r = -1 ∨ (sz = 0 ∧ r = 0 ∧ vr' = vr ∧ m' = m) ∨ (0 < sz ∧ r = int32 sz)) ∧
  (0 < sz < 2 ^ 31 → r = -1 ∨ r = sz) ∧
  (2 ^ 31 <= sz <= 2 ^ 32 → r <= 0).
Proof.
  intros Hsz H. split; [by eapply vregionaddmap_extent|].
  assert (Hres : r = -1 ∨ (sz = 0 ∧ r = 0 ∧ vr' = vr ∧ m' = m) ∨ (0 < sz ∧ r = int32 sz)).
  { unfold vregionaddmap in H.
    destruct (Z.leb_spec KERNBASE (u64 (sz + from_va))); [injection H as <- _ _; by left|].
    destruct (Z.leb_spec sz 0).
    - injection H as <- <- <-. right. left. repeat split; lia.
    - destruct (vregionaddmap_result vr from_va sz pres wr m r vr' m') as [?|[?|?]];
        [|by left|lia|by right; right].
      unfold vregionaddmap.
      destruct (Z.leb_spec KERNBASE (u64 (sz + from_va))); [lia|].
      by destruct (Z.leb_spec sz 0); [lia|]. }
  split; [done|]. split.
  - intros Hr. destruct Hres as [?|[?|[_ ->]]]; [by left|lia|].
    right. apply int32_small. lia.
  - intros Hr. destruct Hres as [->|[?|[_ ->]]]; [lia|lia|].
    unfold int32.
    destruct (decide (sz = 2 ^ 32)) as [->|]; [vm_compute; discriminate|].
    replace ((sz + 2 ^ 31) mod 2 ^ 32) with (sz + 2 ^ 31 - 2 ^ 32); [lia|].
    apply (Z.mod_unique _ _ 1); lia.
Qed.

(** ** When [vregionaddmap] succeeds *)

(** The allocation loop runs to its end when the pages it visits are not
    mapped, have records of their own, [c] more chunks are enough for every
    one of them, and [k] pages that cover the range and [c] more are
    free. *)
Lemma addmap_loop_succeeds bound pres wr fuel : ∀ vr a m cs (k c : nat),
  0 < VPIPPAGE → bound <= 2 ^ 64 - PGSIZE → 0 <= a →
  store_ok m vr cs →
  bound <= a + Z.of_nat fuel * PGSIZE → bound <= a + Z.of_nat k * PGSIZE →
  (∀ a', visited a bound a' →
     0 <= va2vpi_idx vr a' ∧ used (info_at cs (va2vpi_idx vr a')) = 0 ∧
     (Z.to_nat (va2vpi_idx vr a' / VPIPPAGE) < length cs + c)%nat) →
  (∀ a' a'', visited a bound a' → visited a bound a'' → a' ≠ a'' →
     va2vpi_idx vr a' ≠ va2vpi_idx vr a'') →
  (k + c ≤ length (freelist m))%nat →
  ∃ vr' m', addmap_loop fuel vr a bound pres wr m = Ok (AddDone, vr', m') ∧
    (length (freelist m) ≤ length (freelist m') + k + c)%nat.
Proof.
  induction fuel as [|fuel IH];
    intros vr a m cs k c HN Hb Ha Hok Hfuel Hk Hvis Hinj Hfree; simpl.
  { destruct (Z.ltb_spec a bound); [lia|]. eexists _, _. split; [done|lia]. }
  destruct (Z.ltb_spec a bound) as [Hlt|]; [|eexists _, _; split; [done|lia]].
  destruct (Hvis a (visited_first _ _ Hlt)) as (Hidx & Hu & Hc).
  assert (Hk1 : (1 ≤ k)%nat) by (unfold PGSIZE in *; lia).
  destruct (va2vpage_info_spec vr a m cs HN Hok Hidx)
    as (q & n & vr1 & m1 & Heq & Hext & Hn & Hfl1 & Hok1 & _ & _ & Hq).
  { intros [_ Hnil]. rewrite Hnil in Hfree. simpl in Hfree. lia. }
  destruct q as [[pg j]|]; [|lia]. destruct Hq as (Hpg & -> & ->).
  set (n := (S (Z.to_nat (va2vpi_idx vr a / VPIPPAGE)) - length cs)%nat) in *.
  set (cs1 := cs ++ zeros (take n (freelist m))) in *.
  rewrite Heq. cbn [mbind outcome_bind].
  rewrite (vpi_get_chain m1 _ cs1 _ pg HN Hidx (store_ok_chain _ _ _ Hok1) Hpg).
  cbn [mbind outcome_bind]. unfold cs1 at 1. rewrite info_at_app_zeros by done.
  rewrite Hu. cbn [assert Z.eqb mbind outcome_bind].
  destruct (freelist m1) as [|p fl] eqn:Hfl.
  { apply (f_equal length) in Hfl1. rewrite length_drop in Hfl1. simpl in Hfl1. lia. }
  unfold kalloc. rewrite Hfl.
  destruct (store_ok_kalloc _ _ _ _ _ Hok1 Hfl) as (Hpc & Hpf & Hnd).
  set (m2 := store p (DataPage zero_bytes) (mk_kmem fl (ram m1))).
  assert (Hc2 : chain (ram m2) (pages vr1) cs1).
  { eapply chain_frame; [|exact (store_ok_chain _ _ _ Hok1)].
    intros x Hx. simpl. apply lookup_insert_ne. by intros <-. }
  assert (Hndc : NoDup (cpages cs1)) by (by apply NoDup_app in Hnd as (? & _)).
  destruct (vpi_set_chain m2 _ cs1 (va2vpi_idx vr a) pg (mk_vpi 1 p pres wr)
              HN Hidx Hc2 Hndc Hpg) as (m3 & Hset & Hfl3 & Hc3 & _).
  rewrite Hset. cbn [mbind outcome_bind].
  rewrite u64_small by (unfold PGSIZE in *; lia).
  assert (Hlen1 : length cs1 = (length cs + n)%nat).
  { unfold cs1, zeros. rewrite length_app, length_fmap, length_take. lia. }
  assert (Hfllen : length fl = (length (freelist m) - n - 1)%nat).
  { apply (f_equal length) in Hfl1. rewrite length_drop in Hfl1. simpl in Hfl1. lia. }
  destruct (IH vr1 (a + PGSIZE) m3 (info_set cs1 (va2vpi_idx vr a) (mk_vpi 1 p pres wr))
              (k - 1)%nat (c - n)%nat HN Hb) as (vr' & m' & Hend & Hcnt).
  - unfold PGSIZE. lia.
  - split; [done|]. by rewrite cpages_info_set, Hfl3.
  - unfold PGSIZE in *. lia.
  - unfold PGSIZE in *. lia.
  - intros a' Hv'. pose proof (visited_next _ _ _ Hv') as Hv.
    destruct (Hvis a' Hv) as (Hi' & Hu' & Hc').
    rewrite (same_extent_idx _ _ _ Hext).
    split; [done|]. split.
    + rewrite info_at_info_set_ne; [|done|done|done|].
      * unfold cs1. by rewrite info_at_app_zeros.
      * apply Hinj; [by apply visited_first|done|].
        destruct Hv' as (k' & ? & -> & ?). unfold PGSIZE. lia.
    + rewrite length_info_set, Hlen1. unfold n in *. lia.
  - intros a' a'' Hv' Hv'' Hne. rewrite !(same_extent_idx _ _ _ Hext).
    apply Hinj; [by apply visited_next|by apply visited_next|done].
  - rewrite Hfl3. unfold m2. simpl. rewrite Hfllen. unfold n in *. lia.
  - exists vr', m'. split; [done|].
    rewrite Hfl3 in Hcnt. unfold m2 in Hcnt. simpl in Hcnt. rewrite Hfllen in Hcnt.
    unfold n in *. lia.
Qed.

(** X7. [vregionaddmap] returns the size (as an [int]) when the range
    passes the entry tests, the store is well formed, every page of the
    range is not mapped and has a record of its own, [c] more chunks are
    enough for every one of them, and as many pages as cover the range and
    [c] more are free. *)
Theorem vregionaddmap_succeeds vr from_va sz pres wr m cs (k c : nat) :
  0 < VPIPPAGE → store_ok m vr cs →
  0 <= from_va → 0 < sz → from_va + sz < KERNBASE → KERNBASE <= 2 ^ 64 - PGSIZE →
  from_va + sz <= PGROUNDUP from_va + Z.of_nat k * PGSIZE →
  (∀ a, PGROUNDUP from_va <= a < from_va + sz → a mod PGSIZE = 0 →
     0 <= va2vpi_idx vr a ∧ used (page_info m vr a) = 0 ∧
     (Z.to_nat (va2vpi_idx vr a / VPIPPAGE) < length cs + c)%nat) →
  (∀ a a', PGROUNDUP from_va <= a < from_va + sz → a mod PGSIZE = 0 →
     PGROUNDUP from_va <= a' < from_va + sz → a' mod PGSIZE = 0 → a ≠ a' →
     va2vpi_idx vr a ≠ va2vpi_idx vr a') →
  (k + c ≤ length (freelist m))%nat →
  ∃ vr' m', vregionaddmap vr from_va sz pres wr m = Ok (int32 sz, vr', m').
Proof.
  intros HN Hok Hva Hsz Hkb Hk Hcover Hpages Hinj Hfree.
  unfold vregionaddmap.
  rewrite (u64_small (sz + from_va)) by (unfold PGSIZE in *; lia).
  destruct (Z.leb_spec KERNBASE (sz + from_va)); [lia|].
  destruct (Z.leb_spec sz 0); [lia|].
  rewrite (u64_small (from_va + sz)) by (unfold PGSIZE in *; lia).
  pose proof (PGROUNDUP_aligned from_va) as Hal.
  destruct (PGROUNDUP_small from_va Hva) as [Hs1 Hs2]; [unfold PGSIZE in *; lia|].
  set (start := PGROUNDUP from_va) in *.
  assert (Hv : ∀ a, visited start (from_va + sz) a ↔
                    (start <= a < from_va + sz ∧ a mod PGSIZE = 0))
    by (intros a; by apply visited_aligned).
  destruct (addmap_loop_succeeds (from_va + sz) pres wr
              (Z.to_nat ((from_va + sz - start) / PGSIZE + 1)) vr start m cs k c HN)
    as (vr' & m' & Heq & _).
  - lia.
  - lia.
  - done.
  - destruct (Z.le_gt_cases (from_va + sz) start) as [|Hgt]; [unfold PGSIZE; lia|].
    pose proof (Z.div_mod (from_va + sz - start) PGSIZE ltac:(done)) as Hd.
    pose proof (Z.mod_pos_bound (from_va + sz - start) PGSIZE ltac:(done)) as Hm.
    pose proof (Z.div_pos (from_va + sz - start) PGSIZE ltac:(lia) ltac:(done)).
    unfold PGSIZE in *. lia.
  - done.
  - intros a Ha. apply Hv in Ha as [Ha1 Ha2].
    destruct (Hpages a Ha1 Ha2) as (Hi & Hu & Hc). split; [done|]. split; [|done].
    unfold page_info in Hu.
    by rewrite (vpi_at_chain _ _ _ _ (store_ok_chain _ _ _ Hok)) in Hu.
  - intros a a' Ha Ha' Hne. apply Hv in Ha as [Ha1 Ha2]. apply Hv in Ha' as [Ha1' Ha2'].
    by apply Hinj.
  - done.
  - exists vr', m'. by rewrite Heq.
Qed.

(** ** When [vregionaddmap] runs out of pages *)

(** The allocation loop returns, with its end reached or with the address
    at which a page was missing, when the pages it visits are not mapped
    and have records of their own. The pages it mapped are distinct, the
    chunks of the store are still chunks of it, and every page that was
    free is free, a chunk of the store, or the page of an address that the
    loop mapped. *)
Lemma addmap_loop_returns bound pres wr fuel : ∀ vr a m cs,
  0 < VPIPPAGE → bound <= 2 ^ 64 - PGSIZE → 0 <= a →
  store_ok m vr cs →
  bound <= a + Z.of_nat fuel * PGSIZE →
  ¬ (pages vr = None ∧ freelist m = []) →
  (∀ a', visited a bound a' →
     0 <= va2vpi_idx vr a' ∧ used (info_at cs (va2vpi_idx vr a')) = 0) →
  (∀ a' a'', visited a bound a' → visited a bound a'' → a' ≠ a'' →
     va2vpi_idx vr a' ≠ va2vpi_idx vr a'') →
  ∃ e vr' m' cs', addmap_loop fuel vr a bound pres wr m = Ok (e, vr', m') ∧
    store_ok m' vr' cs' ∧
    (∀ x, x ∈ cpages cs → x ∈ cpages cs') ∧
    (∀ x, x ∈ freelist m →
       x ∈ freelist m' ∨ x ∈ cpages cs' ∨
       ∃ a', visited a (loop_stop bound e) a' ∧
             x = ppn (info_at cs' (va2vpi_idx vr a'))) ∧
    ∀ a1 a2, visited a (loop_stop bound e) a1 → visited a (loop_stop bound e) a2 →
      a1 ≠ a2 →
      ppn (info_at cs' (va2vpi_idx vr a1)) ≠ ppn (info_at cs' (va2vpi_idx vr a2)).
Proof.
  induction fuel as [|fuel IH];
    intros vr a m cs HN Hb Ha Hok Hfuel Hne Hvis Hinj; simpl.
  { destruct (Z.ltb_spec a bound); [lia|]. exists AddDone, vr, m, cs.
    split; [done|]. split; [done|]. split; [done|]. split; [by left|].
    intros a1 a2 (k1 & ? & -> & ?). simpl in *. unfold PGSIZE in *. lia. }
  destruct (Z.ltb_spec a bound) as [Hlt|].
  2:{ exists AddDone, vr, m, cs.
      split; [done|]. split; [done|]. split; [done|]. split; [by left|].
      intros a1 a2 (k1 & ? & -> & ?). simpl in *. unfold PGSIZE in *. lia. }
  destruct (Hvis a (visited_first _ _ Hlt)) as (Hidx & Hu).
  destruct (va2vpage_info_spec vr a m cs HN Hok Hidx Hne)
    as (q & n & vr1 & m1 & Heq & Hext & Hn & Hfl1 & Hok1 & _ & _ & Hq).
  set (cs1 := cs ++ zeros (take n (freelist m))) in *.
  rewrite Heq. cbn [mbind outcome_bind].
  assert (Hcp1 : ∀ x, x ∈ cpages cs → x ∈ cpages cs1).
  { intros x Hx. unfold cs1. rewrite cpages_app. apply elem_of_app. by left. }
  assert (Hfree1 : ∀ x, x ∈ freelist m → x ∈ freelist m1 ∨ x ∈ cpages cs1).
  { intros x Hx. rewrite <- (take_drop n (freelist m)) in Hx.
    apply elem_of_app in Hx as [Hx|Hx].
    - right. unfold cs1. rewrite cpages_app, cpages_zeros. apply elem_of_app. by right.
    - left. by rewrite Hfl1. }
  assert (Hfail : ∃ e vr' m' cs',
            Ok (AddFailed a, vr1, m1) = Ok (e, vr', m') ∧ store_ok m' vr' cs' ∧
            (∀ x, x ∈ cpages cs → x ∈ cpages cs') ∧
            (∀ x, x ∈ freelist m →
               x ∈ freelist m' ∨ x ∈ cpages cs' ∨
               ∃ a', visited a (loop_stop bound e) a' ∧
                     x = ppn (info_at cs' (va2vpi_idx vr a'))) ∧
            ∀ a1 a2, visited a (loop_stop bound e) a1 →
              visited a (loop_stop bound e) a2 → a1 ≠ a2 →
              ppn (info_at cs' (va2vpi_idx vr a1)) ≠ ppn (info_at cs' (va2vpi_idx vr a2))).
  { exists (AddFailed a), vr1, m1, cs1. split; [done|]. split; [done|].
    split; [done|]. split.
    - intros x Hx. destruct (Hfree1 x Hx); auto.
    - intros a1 a2 (k1 & ? & -> & ?). simpl in *. unfold PGSIZE in *. lia. }
  destruct q as [[pg j]|]; [|exact Hfail].
  destruct Hq as (Hpg & -> & _).
  rewrite (vpi_get_chain m1 _ cs1 _ pg HN Hidx (store_ok_chain _ _ _ Hok1) Hpg).
  cbn [mbind outcome_bind]. unfold cs1 at 1. rewrite info_at_app_zeros by done.
  rewrite Hu. cbn [assert Z.eqb mbind outcome_bind].
  unfold kalloc. destruct (freelist m1) as [|p fl] eqn:Hfl; [exact Hfail|].
  clear Hfail.
  destruct (store_ok_kalloc _ _ _ _ _ Hok1 Hfl) as (Hpc & Hpf & Hnd).
  set (m2 := store p (DataPage zero_bytes) (mk_kmem fl (ram m1))).
  assert (Hc2 : chain (ram m2) (pages vr1) cs1).
  { eapply chain_frame; [|exact (store_ok_chain _ _ _ Hok1)].
    intros x Hx. simpl. apply lookup_insert_ne. by intros <-. }
  assert (Hndc : NoDup (cpages cs1)) by (by apply NoDup_app in Hnd as (? & _)).
  destruct (vpi_set_chain m2 _ cs1 (va2vpi_idx vr a) pg (mk_vpi 1 p pres wr)
              HN Hidx Hc2 Hndc Hpg) as (m3 & Hset & Hfl3 & Hc3 & _).
  rewrite Hset. cbn [mbind outcome_bind].
  rewrite u64_small by (unfold PGSIZE in *; lia).
  set (cs2 := info_set cs1 (va2vpi_idx vr a) (mk_vpi 1 p pres wr)) in *.
  assert (Hok3 : store_ok m3 vr1 cs2).
  { split; [done|]. unfold cs2. by rewrite cpages_info_set, Hfl3. }
  assert (Hlt1 : (Z.to_nat (va2vpi_idx vr a / VPIPPAGE) < length cs1)%nat).
  { apply lookup_lt_Some in Hpg. unfold cpages in Hpg. by rewrite length_fmap in Hpg. }
  assert (Hidx_eq : ∀ x, va2vpi_idx vr1 x = va2vpi_idx vr x)
    by (intros x; by apply same_extent_idx).
  assert (Hvis2 : ∀ a', visited (a + PGSIZE) bound a' →
            0 <= va2vpi_idx vr1 a' ∧ used (info_at cs2 (va2vpi_idx vr1 a')) = 0).
  { intros a' Hv'. pose proof (visited_next _ _ _ Hv') as Hv.
    destruct (Hvis a' Hv) as (Hi' & Hu'). rewrite Hidx_eq. split; [done|].
    unfold cs2. rewrite info_at_info_set_ne; [|done|done|done|].
    - unfold cs1. by rewrite info_at_app_zeros.
    - apply Hinj; [by apply visited_first|done|].
      destruct Hv' as (k' & ? & -> & ?). unfold PGSIZE. lia. }
  destruct (IH vr1 (a + PGSIZE) m3 cs2 HN Hb)
    as (e & vr' & m' & cs' & Hloop & Hok' & Hcp' & Hfree' & Hdist).
  - unfold PGSIZE. lia.
  - done.
  - unfold PGSIZE in *. lia.
  - intros [Hpn _]. destruct Hok3 as [Hc _]. rewrite Hpn in Hc.
    destruct cs2 as [|[q0 vs0] cs2'] eqn:Hcs2.
    + apply (f_equal length) in Hcs2. unfold cs2 in Hcs2 at 1.
      rewrite length_info_set in Hcs2. simpl in Hcs2. lia.
    + simpl in Hc. by destruct Hc.
  - done.
  - intros a' a'' Hv' Hv'' Hneq. rewrite !Hidx_eq.
    apply Hinj; [by apply visited_next|by apply visited_next|done].
  - exists e, vr', m', cs'. split; [done|]. split; [done|].
    assert (Ha' : 0 <= a + PGSIZE) by (unfold PGSIZE; lia).
    destruct (addmap_loop_inv _ _ _ _ _ _ _ _ _ _ _ HN Hb Ha' Hok3 Hloop)
      as (cs'' & n' & Hext' & Hok'' & Hf' & _ & _ & Hvis' & Hoth' & He').
    assert (cs'' = cs') as ->.
    { eapply chain_functional; [exact (store_ok_chain _ _ _ Hok'')|].
      exact (store_ok_chain _ _ _ Hok'). }
    assert (Hstop : loop_stop bound e <= bound).
    { destruct e; simpl; [lia|]. destruct He' as [(k' & ? & -> & ?) _]. lia. }
    assert (Hstop' : a < loop_stop bound e).
    { destruct e; simpl; [done|].
      destruct He' as [(k' & ? & -> & ?) _]. unfold PGSIZE in *. lia. }
    assert (Hin : ∀ x, visited (a + PGSIZE) (loop_stop bound e) x →
                       visited (a + PGSIZE) bound x).
    { intros x (k' & ? & -> & ?). exists k'. repeat split; [done|lia]. }
    assert (Hhere : info_at cs' (va2vpi_idx vr a) = mk_vpi 1 p pres wr).
    { rewrite Hoth'; [|done|].
      - unfold cs2. by eapply info_at_info_set_eq.
      - intros a' Hv'. rewrite Hidx_eq. apply Hinj; [|by apply visited_first|].
        + by apply visited_next, Hin.
        + destruct Hv' as (k' & ? & -> & ?). unfold PGSIZE. lia. }
    assert (Hthere : ∀ x, visited (a + PGSIZE) (loop_stop bound e) x →
                          ppn (info_at cs' (va2vpi_idx vr x)) ≠ p).
    { intros x Hx. destruct (Hvis' x Hx) as (_ & _ & p' & Hp' & Hp1 & _).
      rewrite Hidx_eq in Hp'. rewrite Hp'. simpl. intros ->.
      rewrite Hfl3 in Hp1. unfold m2 in Hp1. simpl in Hp1. done. }
    split.
    { intros x Hx. apply Hcp'. unfold cs2. rewrite cpages_info_set. by apply Hcp1. }
    split.
    { intros x Hx. destruct (Hfree1 x Hx) as [Hx1|Hx1].
      - apply elem_of_cons in Hx1 as [->|Hx1].
        + right. right. exists a. split; [|by rewrite Hhere].
          by apply visited_first.
        + destruct (Hfree' x) as [?|[?|(a' & Hv' & Hx')]].
          * rewrite Hfl3. unfold m2. simpl. done.
          * by left.
          * right. by left.
          * right. right. exists a'. split; [by apply visited_next|].
            by rewrite Hidx_eq in Hx'.
      - right. left. apply Hcp'. unfold cs2. by rewrite cpages_info_set. }
    intros a1 a2 H1 H2 Hneq.
    destruct (visited_split _ _ _ H1) as [->|H1'];
      destruct (visited_split _ _ _ H2) as [->|H2'].
    + done.
    + rewrite Hhere. simpl. intros Heq'. by apply (Hthere a2 H2').
    + rewrite Hhere. simpl. by apply Hthere.
    + specialize (Hdist a1 a2 H1' H2' Hneq). by rewrite !Hidx_eq in Hdist.
Qed.

Lemma visited_last start a a' k :
  0 <= k → a = start + k * PGSIZE → visited start (a + PGSIZE) a' →
  a' = a ∨ visited start a a'.
Proof.
  intros Hk -> (k' & Hk' & -> & Hlt). unfold PGSIZE in *.
  destruct (decide (k' = k)) as [->|Hne]; [by left|].
  right. exists k'. repeat split; [done|lia].
Qed.

(** The rollback loop from [a] down to [start], which is not in the first
    page, over pages that this call mapped to distinct pages: it returns,
    the records of the pages are cleared, and their pages are free. *)
Lemma addmap_undo_spec start fuel : ∀ vr a m cs,
  0 < VPIPPAGE → PGSIZE <= start → a < 2 ^ 64 →
  store_ok m vr cs →
  (∃ k, -1 <= k ∧ a = start + k * PGSIZE ∧ k < Z.of_nat fuel) →
  (∀ a', visited start (a + PGSIZE) a' →
     0 <= va2vpi_idx vr a' ∧ used (info_at cs (va2vpi_idx vr a')) ≠ 0 ∧
     (ppn (info_at cs (va2vpi_idx vr a')) ∉ cpages cs) ∧
     (ppn (info_at cs (va2vpi_idx vr a')) ∉ freelist m)) →
  (∀ a' a'', visited start (a + PGSIZE) a' → visited start (a + PGSIZE) a'' →
     a' ≠ a'' →
     va2vpi_idx vr a' ≠ va2vpi_idx vr a'' ∧
     ppn (info_at cs (va2vpi_idx vr a')) ≠ ppn (info_at cs (va2vpi_idx vr a''))) →
  ∃ m' cs',
    addmap_undo fuel vr a start m = Ok (vr, m') ∧ store_ok m' vr cs' ∧
    cpages cs' = cpages cs ∧
    (∀ a', visited start (a + PGSIZE) a' → info_at cs' (va2vpi_idx vr a') = vpi_zero) ∧
    (∀ i, 0 <= i → (∀ a', visited start (a + PGSIZE) a' → va2vpi_idx vr a' ≠ i) →
          info_at cs' i = info_at cs i) ∧
    (∀ x, x ∈ freelist m' ↔
          x ∈ freelist m ∨
          ∃ a', visited start (a + PGSIZE) a' ∧ x = ppn (info_at cs (va2vpi_idx vr a'))).
Proof.
  induction fuel as [|fuel IH];
    intros vr a m cs HN Hst Ha Hok (k & Hk & Hak & Hkf) Hvis Hinj.
  { assert (k = -1) as -> by lia. simpl.
    destruct (Z.leb_spec start a); [unfold PGSIZE in *; lia|].
    exists m, cs. split; [done|]. split; [done|]. split; [done|].
    assert (Hno : ∀ a', ¬ visited start (a + PGSIZE) a').
    { intros a' (k' & ? & -> & ?). unfold PGSIZE in *. lia. }
    split; [intros a' Hv; by destruct (Hno a')|]. split; [done|].
    intros x. split; [by left|]. intros [?|(a' & Hv & _)]; [done|by destruct (Hno a')]. }
  cbn [addmap_undo]. destruct (Z.leb_spec start a) as [Hle|Hgt].
  2:{ exists m, cs. split; [done|]. split; [done|]. split; [done|].
      assert (Hno : ∀ a', ¬ visited start (a + PGSIZE) a').
      { intros a' (k' & ? & -> & ?). unfold PGSIZE in *. lia. }
      split; [intros a' Hv; by destruct (Hno a')|]. split; [done|].
      intros x. split; [by left|]. intros [?|(a' & Hv & _)]; [done|by destruct (Hno a')]. }
  assert (Hk0 : 0 <= k) by (unfold PGSIZE in *; lia).
  assert (Hva : visited start (a + PGSIZE) a).
  { exists k. unfold PGSIZE in *. repeat split; lia. }
  destruct (Hvis a Hva) as (Hidx & Hu & Hpc & Hpf).
  pose proof (info_at_used_lookup _ _ Hu) as Hlen.
  destruct (va2vpage_info_hit vr a m cs HN Hok Hidx Hlen) as ([pg j] & Heq & Hj & Hpg & Hget).
  simpl in Hj, Hpg. subst j.
  unfold page_info in Hget.
  rewrite (vpi_at_chain _ _ _ _ (store_ok_chain _ _ _ Hok)) in Hget.
  rewrite Heq. cbn [mbind outcome_bind]. rewrite Hget. cbn [mbind outcome_bind].
  set (v := info_at cs (va2vpi_idx vr a)) in *. set (p := ppn v) in *.
  assert (Hc1 : chain (ram (kfree p m)) (pages vr) cs).
  { eapply chain_frame; [|exact (store_ok_chain _ _ _ Hok)].
    intros x Hx. simpl. apply lookup_delete_ne. by intros <-. }
  destruct Hok as [Hc Hnd]. pose proof Hnd as Hnd'.
  apply NoDup_app in Hnd' as (Hndc & Hdis & Hndf).
  destruct (vpi_set_chain (kfree p m) _ cs (va2vpi_idx vr a) pg vpi_zero
              HN Hidx Hc1 Hndc Hpg) as (m2 & Hset & Hfl2 & Hc2 & Hfr2).
  rewrite Hset. cbn [mbind outcome_bind].
  rewrite u64_small by (unfold PGSIZE in *; lia).
  set (cs2 := info_set cs (va2vpi_idx vr a) vpi_zero) in *.
  assert (Hok2 : store_ok m2 vr cs2).
  { split; [done|]. unfold cs2. rewrite cpages_info_set, Hfl2. simpl.
    apply NoDup_app. split; [done|]. split.
    - intros x Hx Hin. apply elem_of_cons in Hin as [->|Hin]; [done|].
      by apply (Hdis x).
    - by apply NoDup_cons. }
  assert (Hsub : a - PGSIZE + PGSIZE = a) by lia.
  assert (Hbelow : ∀ a', visited start a a' →
            visited start (a + PGSIZE) a' ∧ a' ≠ a).
  { intros a' (k' & ? & -> & ?). split; [|lia].
    exists k'. unfold PGSIZE in *. repeat split; lia. }
  assert (Hat2 : ∀ a', visited start a a' →
            info_at cs2 (va2vpi_idx vr a') = info_at cs (va2vpi_idx vr a')).
  { intros a' Hv'. destruct (Hbelow a' Hv') as [Hv Hneq].
    unfold cs2. apply info_at_info_set_ne; [done|done|by apply Hvis|].
    by apply Hinj. }
  destruct (IH vr (a - PGSIZE) m2 cs2 HN Hst ltac:(unfold PGSIZE; lia) Hok2)
    as (m' & cs' & Hundo & Hok' & Hcp' & Hz' & Hoth' & Hfl').
  - exists (k - 1). unfold PGSIZE in *. repeat split; lia.
  - rewrite Hsub. intros a' Hv'. destruct (Hbelow a' Hv') as [Hv Hneq].
    destruct (Hvis a' Hv) as (Hi' & Hu' & Hpc' & Hpf').
    rewrite (Hat2 a' Hv'). split; [done|]. split; [done|].
    split; [unfold cs2; by rewrite cpages_info_set|].
    rewrite Hfl2. simpl. apply not_elem_of_cons. split; [|done].
    by apply (Hinj a' a Hv Hva Hneq).
  - rewrite Hsub. intros a' a'' Hv' Hv'' Hneq.
    destruct (Hbelow a' Hv') as [Hv1 _]. destruct (Hbelow a'' Hv'') as [Hv2 _].
    rewrite (Hat2 a' Hv'), (Hat2 a'' Hv''). by apply Hinj.
  - rewrite Hsub in Hz', Hoth', Hfl'.
    exists m', cs'. split; [done|]. split; [done|].
    split; [rewrite Hcp'; unfold cs2; by rewrite cpages_info_set|].
    split.
    { intros a' Hv. destruct (visited_last _ _ _ _ Hk0 Hak Hv) as [->|Hv'].
      - rewrite Hoth'; [|done|].
        + unfold cs2. by eapply info_at_info_set_eq.
        + intros a' Hv'. destruct (Hbelow a' Hv') as [Hv1 Hneq]. by apply Hinj.
      - by apply Hz'. }
    split.
    { intros i Hi Hne. rewrite Hoth'; [|done|].
      - unfold cs2. apply info_at_info_set_ne; [done|done|done|]. by apply Hne.
      - intros a' Hv'. apply Hne. by apply Hbelow. }
    intros x. rewrite Hfl', Hfl2. simpl. rewrite elem_of_cons. split.
    + intros [[->|Hx]|(a' & Hv' & ->)].
      * right. by exists a.
      * by left.
      * right. exists a'. split; [by apply Hbelow|]. by rewrite (Hat2 a' Hv').
    + intros [Hx|(a' & Hv & ->)]; [left; by right|].
      destruct (visited_last _ _ _ _ Hk0 Hak Hv) as [->|Hv'].
      * left. by left.
      * right. exists a'. split; [done|]. by rewrite (Hat2 a' Hv').
Qed.

Lemma visited_index_dec start stop (f : Z → Z) j (k : nat) :
  (∃ a', visited start stop a' ∧ a' < start + Z.of_nat k * PGSIZE ∧ f a' = j) ∨
  (∀ a', visited start stop a' → a' < start + Z.of_nat k * PGSIZE → f a' ≠ j).
Proof.
  induction k as [|k [(a' & Hv & Hlt & Hf)|Hno]].
  - right. intros a' (k' & ? & -> & ?) Hlt. unfold PGSIZE in *. lia.
  - left. exists a'. split; [done|]. split; [unfold PGSIZE in *; lia|done].
  - destruct (decide (start + Z.of_nat k * PGSIZE < stop ∧
                      f (start + Z.of_nat k * PGSIZE) = j)) as [[Hlt Hf]|Hn].
    + left. exists (start + Z.of_nat k * PGSIZE). split.
      * exists (Z.of_nat k). repeat split; [lia|done].
      * split; [unfold PGSIZE; lia|done].
    + right. intros a' Hv Hlt.
      destruct (decide (a' < start + Z.of_nat k * PGSIZE)) as [Hlt'|Hge];
        [by apply Hno|].
      assert (a' = start + Z.of_nat k * PGSIZE) as ->.
      { destruct Hv as (k' & ? & -> & ?). unfold PGSIZE in *. lia. }
      intros Hf. apply Hn. split; [by destruct Hv as (? & ? & ? & ?)|done].
Qed.

(** X8. [vregionaddmap] on a range that passes the entry tests and starts
    above the first page, over pages that are not mapped and have record
    indices of their own that are not negative, in a well-formed store,
    when the region has a first chunk or a page is free: the call returns.
    It returns the size as [int], or -1; when it returns -1 the extent of
    the region is as before, every record reads as before the call or is
    cleared where it was not mapped before, so that no page of this call
    stays mapped and the pages of earlier calls are untouched, and no page
    is lost: every page that was free is free again or is a chunk of the
    store. *)
Theorem vregionaddmap_rolls_back vr from_va sz pres wr m cs :
  0 < VPIPPAGE → store_ok m vr cs →
  0 <= from_va → 0 < sz → from_va + sz < KERNBASE → KERNBASE <= 2 ^ 64 - PGSIZE →
  PGSIZE <= PGROUNDUP from_va →
  ¬ (pages vr = None ∧ freelist m = []) →
  (∀ a, PGROUNDUP from_va <= a < from_va + sz → a mod PGSIZE = 0 →
     0 <= va2vpi_idx vr a ∧ used (page_info m vr a) = 0) →
  (∀ a a', PGROUNDUP from_va <= a < from_va + sz → a mod PGSIZE = 0 →
     PGROUNDUP from_va <= a' < from_va + sz → a' mod PGSIZE = 0 → a ≠ a' →
     va2vpi_idx vr a ≠ va2vpi_idx vr a') →
  ∃ r vr' m', vregionaddmap vr from_va sz pres wr m = Ok (r, vr', m') ∧
    (r = int32 sz ∨
     (r = -1 ∧ same_extent vr vr' ∧
      (∀ j, 0 <= j →
         vpi_at m' vr' j = vpi_at m vr j ∨
         (used (vpi_at m vr j) = 0 ∧ vpi_at m' vr' j = vpi_zero)) ∧
      ∃ cs', store_ok m' vr' cs' ∧
        (∀ x, x ∈ freelist m → x ∈ freelist m' ∨ x ∈ cpages cs') ∧
        (∀ x, x ∈ freelist m' → x ∈ freelist m))).
Proof.
  intros HN Hok Hva Hsz Hkb Hk Hst Hne Hpages Hinj.
  unfold vregionaddmap.
  rewrite (u64_small (sz + from_va)) by (unfold PGSIZE in *; lia).
  destruct (Z.leb_spec KERNBASE (sz + from_va)); [lia|].
  destruct (Z.leb_spec sz 0); [lia|].
  rewrite (u64_small (from_va + sz)) by (unfold PGSIZE in *; lia).
  pose proof (PGROUNDUP_aligned from_va) as Hal.
  set (start := PGROUNDUP from_va) in *. set (bound := from_va + sz) in *.
  assert (Hv : ∀ a, visited start bound a ↔ (start <= a < bound ∧ a mod PGSIZE = 0))
    by (intros a; by apply visited_aligned).
  assert (Hb : bound <= 2 ^ 64 - PGSIZE) by (unfold bound; lia).
  assert (Hs0 : 0 <= start) by (unfold PGSIZE in *; lia).
  assert (Hvis : ∀ a', visited start bound a' →
            0 <= va2vpi_idx vr a' ∧ used (info_at cs (va2vpi_idx vr a')) = 0).
  { intros a Ha. apply Hv in Ha as [Ha1 Ha2].
    destruct (Hpages a Ha1 Ha2) as (Hi & Hu). split; [done|].
    unfold page_info in Hu.
    by rewrite (vpi_at_chain _ _ _ _ (store_ok_chain _ _ _ Hok)) in Hu. }
  assert (Hinj' : ∀ a' a'', visited start bound a' → visited start bound a'' →
            a' ≠ a'' → va2vpi_idx vr a' ≠ va2vpi_idx vr a'').
  { intros a a' Ha Ha' Hneq. apply Hv in Ha as [Ha1 Ha2]. apply Hv in Ha' as [Ha1' Ha2'].
    by apply Hinj. }
  destruct (addmap_loop_returns bound pres wr
              (Z.to_nat ((bound - start) / PGSIZE + 1)) vr start m cs HN Hb Hs0 Hok)
    as (e & vr1 & m1 & cs1 & Hloop & Hok1 & Hcp1 & Hcons & Hdist); [|done|done|done|].
  { destruct (Z.le_gt_cases bound start) as [|Hgt]; [unfold PGSIZE; lia|].
    pose proof (Z.div_mod (bound - start) PGSIZE ltac:(done)) as Hd.
    pose proof (Z.mod_pos_bound (bound - start) PGSIZE ltac:(done)) as Hm.
    pose proof (Z.div_pos (bound - start) PGSIZE ltac:(lia) ltac:(done)).
    unfold PGSIZE in *. lia. }
  rewrite Hloop. cbn [mbind outcome_bind].
  destruct e as [|af]; [exists (int32 sz), vr1, m1; split; [done|by left]|].
  destruct (addmap_loop_inv _ _ _ _ _ _ _ _ _ _ _ HN Hb Hs0 Hok Hloop)
    as (cs1' & n & Hext & Hok1' & Hf1 & _ & _ & Hvis1 & Hoth1 & (k & Hk0 & Haf & Hafb) & Hnil).
  assert (cs1' = cs1) as ->.
  { eapply chain_functional; [exact (store_ok_chain _ _ _ Hok1')|].
    exact (store_ok_chain _ _ _ Hok1). }
  simpl in Hvis1, Hoth1, Hcons, Hdist.
  assert (Hidx_eq : ∀ x, va2vpi_idx vr1 x = va2vpi_idx vr x)
    by (intros x; by apply same_extent_idx).
  assert (Hu64 : u64 (af - PGSIZE) = af - PGSIZE)
    by (apply u64_small; unfold PGSIZE in *; lia).
  rewrite Hu64.
  assert (Hsub : af - PGSIZE + PGSIZE = af) by lia.
  assert (Hup : ∀ a', visited start af a' → visited start bound a').
  { intros a' (k' & ? & -> & ?). exists k'. repeat split; [done|lia]. }
  destruct (addmap_undo_spec start (Z.to_nat ((af - start) / PGSIZE + 1)) vr1
              (af - PGSIZE) m1 cs1 HN Hst)
    as (m' & cs' & Hundo & Hok' & Hcp' & Hz & Hoth' & Hfl').
  - unfold PGSIZE in *. lia.
  - done.
  - exists (k - 1). split; [lia|]. split; [unfold PGSIZE in *; lia|].
    replace (af - start) with (k * PGSIZE) by lia.
    rewrite Z.div_mul by done. lia.
  - rewrite Hsub. intros a' Hv'.
    destruct (Hvis1 a' Hv') as (Hi & _ & p & Hp & _ & Hp2 & Hp3 & _).
    rewrite Hidx_eq, Hp. simpl. repeat split; try done.
  - rewrite Hsub. intros a' a'' Hv' Hv'' Hneq. rewrite !Hidx_eq.
    split; [by apply Hinj'; [apply Hup|apply Hup|]|]. by apply Hdist.
  - rewrite Hsub in Hz, Hoth', Hfl'. rewrite Hundo. cbn [mbind outcome_bind].
    exists (-1), vr1, m'. split; [done|]. right.
    split; [done|]. split; [done|]. split.
    { intros j Hj.
      rewrite (vpi_at_chain _ _ _ _ (store_ok_chain _ _ _ Hok')),
              (vpi_at_chain _ _ _ _ (store_ok_chain _ _ _ Hok)).
      destruct (visited_index_dec start af (va2vpi_idx vr) j (Z.to_nat (k + 1)))
        as [(a' & Hv' & _ & Hf)|Hno].
      - right. destruct (Hvis1 a' Hv') as (_ & Hu & _). rewrite Hf in Hu.
        split; [done|]. rewrite <- Hf, <- Hidx_eq. by apply Hz.
      - left. assert (Hno' : ∀ a', visited start af a' → va2vpi_idx vr a' ≠ j).
        { intros a' Hv'. apply Hno; [done|].
          destruct Hv' as (k' & ? & -> & ?). unfold PGSIZE in *. lia. }
        rewrite Hoth'; [by apply Hoth1|done|].
        intros a' Hv'. rewrite Hidx_eq. by apply Hno'. }
    exists cs'. split; [done|]. split.
    + intros x Hx. destruct (Hcons x Hx) as [Hx1|[Hx1|(a' & Hv' & ->)]].
      * rewrite Hnil in Hx1. by apply elem_of_nil in Hx1.
      * right. by rewrite Hcp'.
      * left. apply Hfl'. right. exists a'. split; [done|]. by rewrite Hidx_eq.
    + intros x Hx. apply Hfl' in Hx as [Hx|(a' & Hv' & ->)].
      * rewrite Hnil in Hx. by apply elem_of_nil in Hx.
      * destruct (Hvis1 a' Hv') as (_ & _ & p & Hp & Hp1 & _).
        rewrite Hidx_eq, Hp. done.
Qed.

(** ** A mapped page in the range of [vregionaddmap] *)

(** C8, as amended. When a page of the range, whose end is the 64-bit sum
    [from_va + sz], is mapped already, the call does not return success and
    does not touch the mapping: whatever it returns is -1, and the record
    of the mapped page reads as before. It stops at the assertion on the
    mapped flag, at that page or at a mapped page before it, whenever the
    loop gets that far: the range passes the test against [KERNBASE], the
    pages of the range before the mapped page have record indices that are
    not negative, and the free pages suffice for these pages and for the
    chunks that their look-ups add ([k] pages before the mapped page, [c]
    chunks). For the first page of the range nothing is asked of the free
    pages. *)
Theorem vregionaddmap_already_mapped vr from_va sz pres wr m cs a0 (k c : nat) :
  0 < VPIPPAGE → KERNBASE <= 2 ^ 64 - PGSIZE →
  store_ok m vr cs → 0 < sz →
  PGROUNDUP from_va <= a0 < u64 (from_va + sz) → a0 mod PGSIZE = 0 →
  0 <= va2vpi_idx vr a0 → used (page_info m vr a0) ≠ 0 →
  (∀ r vr' m', vregionaddmap vr from_va sz pres wr m = Ok (r, vr', m') →
     r = -1 ∧ page_info m' vr' a0 = page_info m vr a0) ∧
  (u64 (sz + from_va) < KERNBASE →
   a0 = PGROUNDUP from_va + Z.of_nat k * PGSIZE →
   (∀ a, PGROUNDUP from_va <= a < a0 → a mod PGSIZE = 0 →
      0 <= va2vpi_idx vr a ∧
      (Z.to_nat (va2vpi_idx vr a / VPIPPAGE) < length cs + c)%nat) →
   (k + c ≤ length (freelist m))%nat →
   vregionaddmap vr from_va sz pres wr m = Fault AssertFailed).
Proof.
  intros HN HK Hok Hsz Ha0 Hal Hidx Hused.
  pose proof (store_ok_chain _ _ _ Hok) as Hc.
  unfold page_info in Hused. rewrite (vpi_at_chain _ _ _ _ Hc) in Hused.
  split.
  - intros r vr' m' H. unfold vregionaddmap in H.
    destruct (Z.leb_spec KERNBASE (u64 (sz + from_va))) as [|Hlt];
      [by inversion H|].
    destruct (Z.leb_spec sz 0); [lia|].
    inv_bind H. destruct a as [[e vr1] m1].
    rewrite (Z.add_comm sz from_va) in Hlt.
    set (start := PGROUNDUP from_va) in *.
    set (bound := u64 (from_va + sz)) in *.
    assert (Hb : bound <= 2 ^ 64 - PGSIZE) by lia.
    assert (Hs0 : 0 <= start) by apply PGROUNDUP_range.
    pose proof (PGROUNDUP_aligned from_va) as Hsal. fold start in Hsal.
    destruct (addmap_loop_inv _ _ _ _ _ _ _ _ _ _ _ HN Hb Hs0 Hok E)
      as (cs1 & n & Hext & Hok1 & _ & _ & _ & Hvis & Hoth & Hlast).
    pose proof (addmap_loop_distinct _ _ _ _ _ _ _ _ _ _ _ HN Hb Hs0 Hok E) as Hdist.
    destruct e as [|af].
    { exfalso. destruct (Hvis a0) as (_ & Hu & _); [|done].
      apply visited_aligned; [done|done]. }
    destruct Hlast as ((j & Hj0 & Haf & Hafb) & Hnil).
    simpl in Hvis, Hoth, Hdist.
    inv_bind H. destruct a as [vr2 m2]. injection H as <- <- <-.
    split; [done|].
    destruct (decide (start = 0)) as [Hz|Hnz].
    { exfalso. rewrite Hz in E0.
      eapply addmap_undo_start_zero; [|exact E0]. apply u64_range. }
    assert (Hst : PGSIZE <= start).
    { pose proof (Z.div_mod start PGSIZE ltac:(done)) as Hd. rewrite Hsal in Hd.
      unfold PGSIZE in *. lia. }
    assert (Hidx_eq : ∀ x, va2vpi_idx vr1 x = va2vpi_idx vr x)
      by (intros x; by apply same_extent_idx).
    assert (Hu64 : u64 (af - PGSIZE) = af - PGSIZE)
      by (apply u64_small; unfold PGSIZE in *; lia).
    rewrite Hu64 in E0.
    assert (Hsub : af - PGSIZE + PGSIZE = af) by lia.
    pose proof (store_ok_chain _ _ _ Hok1) as Hc1.
    destruct (addmap_undo_spec start (Z.to_nat ((af - start) / PGSIZE + 1)) vr1
                (af - PGSIZE) m1 cs1 HN Hst)
      as (m' & cs' & Hundo & Hok' & _ & _ & Hoth' & _).
    + unfold PGSIZE in *. lia.
    + done.
    + exists (j - 1). split; [lia|]. split; [unfold PGSIZE in *; lia|].
      replace (af - start) with (j * PGSIZE) by lia.
      rewrite Z.div_mul by done. lia.
    + rewrite Hsub. intros a' Hv'.
      destruct (Hvis a' Hv') as (Hi & _ & p & Hp & _ & Hp2 & Hp3 & _).
      rewrite Hidx_eq, Hp. simpl. repeat split; try done.
    + rewrite Hsub. intros a' a'' Hv' Hv'' Hneq. rewrite !Hidx_eq.
      pose proof (Hdist a' a'' Hv' Hv'' Hneq) as Hd.
      rewrite !(vpi_at_chain _ _ _ _ Hc1) in Hd.
      split; [|done]. intros Heq. by rewrite Heq in Hd.
    + rewrite Hsub in Hoth'. rewrite Hundo in E0. injection E0 as <- <-.
      unfold page_info.
      rewrite (vpi_at_chain _ _ _ _ (store_ok_chain _ _ _ Hok')),
              (vpi_at_chain _ _ _ _ Hc), Hidx_eq.
      assert (Hno : ∀ a', visited start af a' → va2vpi_idx vr a' ≠ va2vpi_idx vr a0).
      { intros a' Hv' Heq. destruct (Hvis a' Hv') as (_ & Hu & _).
        rewrite Heq in Hu. done. }
      rewrite Hoth'; [by apply Hoth|done|].
      intros a' Hv'. rewrite Hidx_eq. by apply Hno.
  - intros Hlt Hk Hbefore Hfree. unfold vregionaddmap.
    destruct (Z.leb_spec KERNBASE (u64 (sz + from_va))); [lia|].
    destruct (Z.leb_spec sz 0); [lia|].
    set (start := PGROUNDUP from_va) in *.
    set (bound := u64 (from_va + sz)) in *.
    assert (Hb : bound <= 2 ^ 64 - PGSIZE).
    { unfold bound. rewrite (Z.add_comm from_va sz). lia. }
    rewrite (addmap_loop_hits_mapped bound pres wr a0 _ vr start m cs k c HN Hb); [done|..].
    + apply PGROUNDUP_range.
    + done.
    + done.
    + lia.
    + assert (Z.of_nat k <= (bound - start) / PGSIZE); [|lia].
      apply Z.div_le_lower_bound; [unfold PGSIZE; lia|]. unfold PGSIZE in *. lia.
    + done.
    + done.
    + intros a' Hv. apply visited_aligned in Hv as [Hr Hm]; [|apply PGROUNDUP_aligned].
      by apply Hbefore.
    + done.
Qed.

(** ** The stack, the initial code and teardown *)

(** [vspaceinitstack]. *)
Definition vspaceinitstack (vs : vspace) (start : Z) (m : kmem)
  : outcome (Z * vspace * kmem) :=
  match regions vs !! VR_USTACK with
  | None => Fault BadIndex
  | Some vr =>
    let vr := set_size (set_va_base vr start) PGSIZE in
    '(r, vr, m) ← vregionaddmap vr (u64 (start - PGSIZE)) PGSIZE
                    VPI_PRESENT VPI_WRITABLE m;
    let vs := set_regions vs (<[VR_USTACK := vr]> (regions vs)) in
    if r <? 0 then Ok (-1, vs, m) else Ok (0, vs, m)
  end.

(** The loop of [vradddata]; [sz] is an [int] that the comparison and the
    difference convert to [uint64_t]. Reading [data] beyond its end is an
    access outside it. *)
Fixpoint vradddata_loop (fuel : nat) (r : vregion) (va : Z) (data : list byte)
    (sz i : Z) (m : kmem) : outcome (vregion * kmem) :=
  if i <? u64 sz then
    match fuel with
    | O => OutOfFuel
    | S fuel' =>
      '(q, r, m) ← va2vpage_info r (u64 (va + i)) m;
      match q with
      | None => Fault NullDeref
      | Some q =>
        v ← vpi_get q m;
        _ ← assert (negb (used v =? 0));
        let n := Z.min (u64 (u64 sz - i)) PGSIZE in
        _ ← (if Z.of_nat (length data) <? i + n then Fault BadAccess else Ok tt);
        m ← write_bytes (ppn v) 0 (take (Z.to_nat n) (drop (Z.to_nat i) data)) m;
        vradddata_loop fuel' r va data sz (u64 (i + PGSIZE)) m
      end
    end
  else Ok (r, m).

(** [vradddata]. *)
Definition vradddata (r : vregion) (va : Z) (data : list byte) (sz pres wr : Z)
    (m : kmem) : outcome (Z * vregion * kmem) :=
  '(ret, r, m) ← vregionaddmap r va (u64 sz) pres wr m;
  if ret <? 0 then Ok (ret, r, m)
  else
    '(r, m) ← vradddata_loop (Z.to_nat (u64 sz / PGSIZE + 1)) r va data sz 0 m;
    Ok (0, r, m).

Definition SZ_2G : Z := 2 ^ 31.

(** [vspaceinitcode]: [size] is a [uint64_t] that the call of [vradddata]
    converts to [int]. *)
Definition vspaceinitcode (vs : vspace) (init : list byte) (size : Z) (m : kmem)
  : outcome (vspace * kmem) :=
  match regions vs !! VR_CODE with
  | None => Fault BadIndex
  | Some code =>
    let code := set_size (set_va_base code 0x10000)
                         (u64 (PGROUNDUP size + 5 * PGSIZE)) in
    '(r, code, m) ← vradddata code 0x10000 init (int32 size)
                      VPI_PRESENT VPI_WRITABLE m;
    _ ← assert (r =? 0);
    '(r, code, m) ← vregionaddmap code (u64 (va_base code + PGROUNDUP size))
                      (5 * PGSIZE) VPI_PRESENT VPI_WRITABLE m;
    _ ← assert (0 <=? r);
    let rs := <[VR_CODE := code]> (regions vs) in
    match rs !! VR_USTACK with
    | None => Fault BadIndex
    | Some stack =>
      let stack := set_size (set_va_base stack SZ_2G) PGSIZE in
      '(r, stack, m) ← vregionaddmap stack (u64 (SZ_2G - PGSIZE)) PGSIZE
                         VPI_PRESENT VPI_WRITABLE m;
      _ ← assert (0 <=? r);
      vspaceupdate (set_regions vs (<[VR_USTACK := stack]> rs)) m
    end
  end.

(** [free_page_desc_list]: the chunks are released from the last one back
    to the first. A pointer here is the number of a page, so the test of
    its alignment has no counterpart. *)
Fixpoint free_page_desc_list (fuel : nat) (page : option Z) (m : kmem)
  : outcome kmem :=
  match page with
  | None => Ok m
  | Some p =>
    match fuel with
    | O => OutOfFuel
    | S fuel' =>
      c ← read_chunk p m;
      m ← free_page_desc_list fuel' (next c) m;
      Ok (kfree p m)
    end
  end.

(** Modelled from the spec: vspace.h is not part of the translated file.
    The direction of a region cleared by [memset] is the enumerator of
    value 0, whichever of the two it is. *)
Variable VRDIR_CLEARED : vr_direction.

(** The loop of [vspacefree] over the regions. *)
Fixpoint free_regions (rs : list vregion) (m : kmem)
  : outcome (list vregion * kmem) :=
  match rs with
  | [] => Ok ([], m)
  | vr :: rs' =>
    m ← free_page_desc_list (base.size (ram m)) (pages vr) m;
    '(rs', m) ← free_regions rs' m;
    Ok (mk_vregion VRDIR_CLEARED 0 0 None :: rs', m)
  end.

(** Modelled from the spec: [freevm] (x86_64vm.c) is not part of the
    translated file. It releases the whole table, which holds no entry
    afterwards; the pages that the entries pointed to are not released. *)
Definition freevm (pt : gmap Z pte) : gmap Z pte := ∅.

(** [vspacefree]. *)
Definition vspacefree (vs : vspace) (m : kmem) : outcome (vspace * kmem) :=
  '(rs, m) ← free_regions (regions vs) m;
  Ok (mk_vspace rs (freevm (pgtbl vs)), m).

(** Modelled from the spec: [walkpml4] (x86_64vm.c) is not part of the
    translated file. Called without allocation it finds the entry of the
    page when the table has one; with that entry set to 0 the table holds
    no mapping for the page. *)
Definition clear_pte (pt : gmap Z pte) (va : Z) : gmap Z pte :=
  delete (Z.shiftr va PT_SHIFT) pt.

(** [vspacemarknotpresent]. The [panic] for a present page is the fault of
    a failed assertion. *)
Definition vspacemarknotpresent (vs : vspace) (user_va : Z) (m : kmem)
  : outcome (vspace * kmem) :=
  _ ← assert (user_va mod PGSIZE =? 0);
  match va2vregion vs user_va with
  | None => Fault AssertFailed
  | Some i =>
    match regions vs !! i with
    | None => Fault BadIndex
    | Some vr =>
      '(q, vr, m) ← va2vpage_info vr user_va m;
      let vs := set_regions vs (<[i := vr]> (regions vs)) in
      match q with
      | None => Fault AssertFailed
      | Some q =>
        v ← vpi_get q m;
        if negb (present v =? 0) then Fault AssertFailed
        else Ok (mk_vspace (regions vs) (clear_pte (pgtbl vs) user_va), m)
      end
    end
  end.

(** The index of an address in the page under the base of a downward
    region is 0. *)
Lemma va2vpi_idx_stack_page vr a :
  dir vr = VRDIR_DOWN → 0 <= va_base vr < 2 ^ 64 →
  va_base vr - PGSIZE <= a < va_base vr → va2vpi_idx vr a = 0.
Proof.
  intros Hd Hb Ha. unfold va2vpi_idx, PAGE_SHIFT, PGSIZE in *. rewrite Hd.
  rewrite u64_small by lia. rewrite Z.shiftr_div_pow2 by lia.
  rewrite Z.div_small by lia. reflexivity.
Qed.

(** [vregionaddmap] for one page when the free pages suffice for the chunks
    that the look-up adds and none is left for the page: the call returns
    -1, and what it took for the chunks stays in the store. *)
Lemma vregionaddmap_one_page_fails vr from_va sz pres wr m cs :
  0 < VPIPPAGE → store_ok m vr cs →
  PGSIZE <= from_va → from_va mod PGSIZE = 0 → 0 < sz <= PGSIZE →
  from_va + sz < KERNBASE → KERNBASE <= 2 ^ 64 - PGSIZE →
  0 <= va2vpi_idx vr from_va →
  used (info_at cs (va2vpi_idx vr from_va)) = 0 →
  ¬ (pages vr = None ∧ freelist m = []) →
  length (freelist m)
  = (S (Z.to_nat (va2vpi_idx vr from_va / VPIPPAGE)) - length cs)%nat →
  ∃ vr' m',
    vregionaddmap vr from_va sz pres wr m = Ok (-1, vr', m') ∧
    same_extent vr vr' ∧ store_ok m' vr' (cs ++ zeros (freelist m)) ∧
    freelist m' = [].
Proof.
  intros HN Hok Hva Hal Hsz Hkb Hk Hidx Hu Hne Hfree.
  set (idx := va2vpi_idx vr from_va) in *.
  unfold vregionaddmap.
  rewrite (u64_small (sz + from_va)) by (unfold PGSIZE in *; lia).
  destruct (Z.leb_spec KERNBASE (sz + from_va)); [lia|].
  destruct (Z.leb_spec sz 0); [lia|].
  rewrite PGROUNDUP_id by (unfold PGSIZE in *; lia).
  rewrite (u64_small (from_va + sz)) by (unfold PGSIZE in *; lia).
  replace (from_va + sz - from_va) with sz by lia.
  destruct (Z.to_nat (sz / PGSIZE + 1)) as [|f] eqn:Hf.
  { pose proof (Z.div_pos sz PGSIZE). unfold PGSIZE in *. lia. }
  cbn [addmap_loop]. destruct (Z.ltb_spec from_va (from_va + sz)); [|lia].
  destruct (va2vpage_info_spec vr from_va m cs HN Hok Hidx Hne)
    as (q & n & vr' & m1 & Heq & Hext & Hn & Hfl1 & Hok1 & _ & _ & Hq).
  fold idx in Hq. rewrite Heq. cbn [mbind outcome_bind].
  assert (Hundo : ∀ fuel v0 m0,
            addmap_undo fuel v0 (u64 (from_va - PGSIZE)) from_va m0 = Ok (v0, m0)).
  { intros fuel v0 m0. rewrite u64_small by (unfold PGSIZE in *; lia).
    destruct fuel; simpl;
      by destruct (Z.leb_spec from_va (from_va - PGSIZE)); [unfold PGSIZE in *; lia|]. }
  destruct q as [[pg j]|].
  - destruct Hq as (Hpg & -> & ->). rewrite <- Hfree in *.
    rewrite firstn_all in Hok1, Hpg. rewrite drop_all in Hfl1.
    rewrite (vpi_get_chain m1 _ _ _ pg HN Hidx (store_ok_chain _ _ _ Hok1) Hpg).
    cbn [mbind outcome_bind]. rewrite info_at_app_zeros by done.
    rewrite Hu. cbn [assert Z.eqb mbind outcome_bind].
    unfold kalloc. rewrite Hfl1. cbn [mbind outcome_bind]. rewrite Hundo.
    cbn [mbind outcome_bind]. by exists vr', m1.
  - destruct Hq as [-> _]. rewrite firstn_all in Hok1. rewrite drop_all in Hfl1.
    cbn [mbind outcome_bind]. rewrite Hundo. cbn [mbind outcome_bind].
    by exists vr', m1.
Qed.

(** X9. [vspaceinitstack] with a page-aligned [start] of at least one page
    and below the kernel base, on a downward stack region whose store is
    well formed and has no page mapped at index 0, when one page more than
    a first chunk needs is free: the call returns 0; the stack region has
    base [start] and size [PGSIZE], holds every address of the page under
    [start], and the record of that page is mapped, present and writable,
    with a page of zeros. *)
Theorem vspaceinitstack_maps_page vs start m vr cs :
  0 < VPIPPAGE → regions vs !! VR_USTACK = Some vr → dir vr = VRDIR_DOWN →
  store_ok m vr cs → used (vpi_at m vr 0) = 0 →
  start mod PGSIZE = 0 → PGSIZE <= start → start < KERNBASE →
  KERNBASE <= 2 ^ 64 - PGSIZE →
  (1 - length cs < length (freelist m))%nat →
  ∃ vs' m' vr' p,
    vspaceinitstack vs start m = Ok (0, vs', m') ∧
    regions vs' = <[VR_USTACK := vr']> (regions vs) ∧
    dir vr' = VRDIR_DOWN ∧ va_base vr' = start ∧ size vr' = PGSIZE ∧
    ram m' !! p = Some (DataPage zero_bytes) ∧
    ∀ a, start - PGSIZE <= a < start →
      vregion_holds vr' a = true ∧
      page_info m' vr' a = mk_vpi 1 p VPI_PRESENT VPI_WRITABLE.
Proof.
  intros HN Hvr Hdir Hok Hu Hal Hst Hkb Hk Hfree.
  set (vr0 := set_size (set_va_base vr start) PGSIZE).
  assert (Hok0 : store_ok m vr0 cs) by (by destruct Hok).
  assert (Hd0 : dir vr0 = VRDIR_DOWN) by done.
  assert (Hb0 : 0 <= va_base vr0 < 2 ^ 64) by (simpl; unfold PGSIZE in *; lia).
  assert (Hi0 : va2vpi_idx vr0 (start - PGSIZE) = 0).
  { apply va2vpi_idx_stack_page; [done|done|]. simpl. unfold PGSIZE. lia. }
  rewrite (vpi_at_chain _ _ _ _ (store_ok_chain _ _ _ Hok)) in Hu.
  destruct (vregionaddmap_one_page vr0 (start - PGSIZE) PGSIZE VPI_PRESENT
              VPI_WRITABLE m cs HN Hok0)
    as (vr' & m' & cs' & p & Hmap & Hext & Hok' & Hrec & _ & Hp & _ & _).
  - lia.
  - unfold PGSIZE in *. replace (start - 4096) with (start + (-1) * 4096) by lia.
    by rewrite Z.mod_add.
  - unfold PGSIZE. lia.
  - lia.
  - done.
  - rewrite Hi0. lia.
  - by rewrite Hi0.
  - rewrite Hi0, Z.div_0_l by lia. exact Hfree.
  - destruct Hext as (Hd' & Hb' & Hs').
    exists (set_regions vs (<[VR_USTACK := vr']> (regions vs))), m', vr', p.
    split.
    { unfold vspaceinitstack. rewrite Hvr. fold vr0.
      rewrite u64_small by (unfold PGSIZE in *; lia). rewrite Hmap.
      cbn [mbind outcome_bind]. change (int32 PGSIZE) with 4096. done. }
    split; [done|]. split; [by rewrite Hd'|]. split; [by rewrite Hb'|].
    split; [by rewrite Hs'|]. split; [done|].
    intros a Ha. split.
    + unfold vregion_holds. rewrite Hd', Hb', Hs', Hd0. simpl.
      rewrite u64_small by (unfold PGSIZE in *; lia).
      apply andb_true_iff. rewrite Z.leb_le, Z.ltb_lt. lia.
    + unfold page_info. rewrite (vpi_at_chain _ _ _ _ (store_ok_chain _ _ _ Hok')).
      rewrite va2vpi_idx_stack_page; [|by rewrite Hd'|rewrite Hb'; exact Hb0
                                      |rewrite Hb'; simpl; lia].
      by rewrite Hi0 in Hrec.
Qed.

(** X10. [vspaceinitstack] when the free pages suffice for the first chunk
    of the stack region and none is left for the stack page, for a [start]
    of at least two pages: the call returns -1, and the stack region keeps
    the base [start] and the size [PGSIZE] that were set before the page was
    asked for, so that it holds the addresses of a page that is not
    mapped. *)
Theorem vspaceinitstack_without_page vs start m vr cs :
  0 < VPIPPAGE → regions vs !! VR_USTACK = Some vr → dir vr = VRDIR_DOWN →
  store_ok m vr cs → used (vpi_at m vr 0) = 0 →
  start mod PGSIZE = 0 → 2 * PGSIZE <= start → start < KERNBASE →
  KERNBASE <= 2 ^ 64 - PGSIZE →
  ¬ (pages vr = None ∧ freelist m = []) →
  length (freelist m) = (1 - length cs)%nat →
  ∃ vs' m' vr',
    vspaceinitstack vs start m = Ok (-1, vs', m') ∧
    regions vs' = <[VR_USTACK := vr']> (regions vs) ∧
    va_base vr' = start ∧ size vr' = PGSIZE ∧ freelist m' = [] ∧
    ∀ a, start - PGSIZE <= a < start →
      vregion_holds vr' a = true ∧ used (page_info m' vr' a) = 0.
Proof.
  intros HN Hvr Hdir Hok Hu Hal Hst Hkb Hk Hne Hfree.
  set (vr0 := set_size (set_va_base vr start) PGSIZE).
  assert (Hok0 : store_ok m vr0 cs) by (by destruct Hok).
  assert (Hd0 : dir vr0 = VRDIR_DOWN) by done.
  assert (Hb0 : 0 <= va_base vr0 < 2 ^ 64) by (simpl; unfold PGSIZE in *; lia).
  assert (Hi0 : va2vpi_idx vr0 (start - PGSIZE) = 0).
  { apply va2vpi_idx_stack_page; [done|done|]. simpl. unfold PGSIZE. lia. }
  rewrite (vpi_at_chain _ _ _ _ (store_ok_chain _ _ _ Hok)) in Hu.
  destruct (vregionaddmap_one_page_fails vr0 (start - PGSIZE) PGSIZE VPI_PRESENT
              VPI_WRITABLE m cs HN Hok0)
    as (vr' & m' & Hmap & Hext & Hok' & Hnil).
  - unfold PGSIZE in *. lia.
  - unfold PGSIZE in *. replace (start - 4096) with (start + (-1) * 4096) by lia.
    by rewrite Z.mod_add.
  - unfold PGSIZE. lia.
  - lia.
  - done.
  - rewrite Hi0. lia.
  - by rewrite Hi0.
  - done.
  - rewrite Hi0, Z.div_0_l by lia. exact Hfree.
  - destruct Hext as (Hd' & Hb' & Hs').
    exists (set_regions vs (<[VR_USTACK := vr']> (regions vs))), m', vr'.
    split.
    { unfold vspaceinitstack. rewrite Hvr. fold vr0.
      rewrite u64_small by (unfold PGSIZE in *; lia). rewrite Hmap. done. }
    split; [done|]. split; [by rewrite Hb'|]. split; [by rewrite Hs'|].
    split; [done|]. intros a Ha. split.
    + unfold vregion_holds. rewrite Hd', Hb', Hs', Hd0. simpl.
      rewrite u64_small by (unfold PGSIZE in *; lia).
      apply andb_true_iff. rewrite Z.leb_le, Z.ltb_lt. lia.
    + unfold page_info. rewrite (vpi_at_chain _ _ _ _ (store_ok_chain _ _ _ Hok')).
      rewrite va2vpi_idx_stack_page; [|by rewrite Hd'|rewrite Hb'; exact Hb0
                                      |rewrite Hb'; simpl; lia].
      rewrite info_at_app_zeros by lia. done.
Qed.

(** ** [vradddata] *)

(** A call of [vregionaddmap] with a size above 0 that does not return -1:
    the pages of its range were not mapped and now are, on pages that were
    free; the other records read as before. *)
Lemma vregionaddmap_done vr from_va sz pres wr m cs r vr' m' :
  0 < VPIPPAGE → KERNBASE <= 2 ^ 64 - PGSIZE → store_ok m vr cs → 0 < sz →
  vregionaddmap vr from_va sz pres wr m = Ok (r, vr', m') → r ≠ -1 →
  r = int32 sz ∧
  ∃ cs' n,
    same_extent vr vr' ∧ store_ok m' vr' cs' ∧
    freelist m' = drop n (freelist m) ∧
    (∀ p, p ∉ cpages cs → p ∉ freelist m → ram m' !! p = ram m !! p) ∧
    (∀ q, q ∈ cpages cs' → q ∈ cpages cs ∨ q ∈ freelist m) ∧
    (∀ a, visited (PGROUNDUP from_va) (u64 (from_va + sz)) a →
       0 <= va2vpi_idx vr a ∧ used (info_at cs (va2vpi_idx vr a)) = 0 ∧
       mapped_fresh m m' cs' (va2vpi_idx vr a) pres wr) ∧
    (∀ i, 0 <= i →
       (∀ a, visited (PGROUNDUP from_va) (u64 (from_va + sz)) a → va2vpi_idx vr a ≠ i) →
       info_at cs' i = info_at cs i).
Proof.
  intros HN HK Hok Hsz H Hr. unfold vregionaddmap in H.
  destruct (Z.leb_spec KERNBASE (u64 (sz + from_va))) as [|Hlt];
    [inversion H; lia|].
  destruct (Z.leb_spec sz 0); [lia|].
  inv_bind H. destruct a as [[e vr1] m1].
  rewrite (Z.add_comm sz from_va) in Hlt.
  assert (Hb : u64 (from_va + sz) <= 2 ^ 64 - PGSIZE) by lia.
  destruct (addmap_loop_inv _ _ _ _ _ _ _ _ _ _ _ HN Hb
              (proj1 (PGROUNDUP_range from_va)) Hok E)
    as (cs' & n & Hext & Hok' & Hf & Hfr & Hcp & Hvis & Hoth & He).
  destruct e as [|af].
  - inversion H; subst r vr1 m1. simpl in *. split; [done|]. by exists cs', n.
  - inv_bind H. destruct a as [vr2 m2]. inversion H. lia.
Qed.

Lemma vradddata_loop_done fuel r va data sz i m :
  u64 sz <= i → vradddata_loop fuel r va data sz i m = Ok (r, m).
Proof.
  intros H. destruct fuel; simpl; by destruct (Z.ltb_spec i (u64 sz)); [lia|].
Qed.

(** X11. [vradddata] of at most a page of bytes at a page-aligned address
    whose page is not mapped, with the free pages that the look-up and the
    page need: the call returns 0, the page is mapped with the flags given,
    and its physical page holds the bytes at its start and zeros after
    them. *)
Theorem vradddata_one_page vr va data sz pres wr m cs :
  0 < VPIPPAGE → store_ok m vr cs →
  0 <= va → va mod PGSIZE = 0 → 0 < sz <= PGSIZE →
  va + sz < KERNBASE → KERNBASE <= 2 ^ 64 - PGSIZE →
  sz <= Z.of_nat (length data) →
  0 <= va2vpi_idx vr va → used (page_info m vr va) = 0 →
  (S (Z.to_nat (va2vpi_idx vr va / VPIPPAGE)) - length cs
     < length (freelist m))%nat →
  ∃ vr' m' p,
    vradddata vr va data sz pres wr m = Ok (0, vr', m') ∧
    same_extent vr vr' ∧
    page_info m' vr' va = mk_vpi 1 p pres wr ∧
    ram m' !! p
    = Some (DataPage (list_inserts 0 (take (Z.to_nat sz) data) zero_bytes)).
Proof.
  intros HN Hok Hva Hal Hsz Hkb Hk Hdata Hidx Hu Hfree.
  unfold page_info in Hu.
  rewrite (vpi_at_chain _ _ _ _ (store_ok_chain _ _ _ Hok)) in Hu.
  assert (Hu64 : u64 sz = sz) by (apply u64_small; unfold PGSIZE in *; lia).
  destruct (vregionaddmap_one_page vr va sz pres wr m cs HN Hok Hva Hal Hsz Hkb Hk
              Hidx Hu Hfree)
    as (vr' & m1 & cs' & p & Hmap & Hext & Hok' & Hrec & _ & Hp & _ & _).
  rewrite int32_small in Hmap by (unfold PGSIZE in *; lia).
  rewrite <- (same_extent_idx _ _ _ Hext) in Hrec.
  assert (Hlen : (Z.to_nat (va2vpi_idx vr' va / VPIPPAGE) < length cs')%nat).
  { apply info_at_used_lookup. by rewrite Hrec. }
  assert (Hidx' : 0 <= va2vpi_idx vr' va) by (by rewrite (same_extent_idx _ _ _ Hext)).
  destruct (va2vpage_info_hit vr' va m1 cs' HN Hok' Hidx' Hlen) as (q & Heq & _ & _ & Hget).
  unfold page_info in Hget.
  rewrite (vpi_at_chain _ _ _ _ (store_ok_chain _ _ _ Hok')), Hrec in Hget.
  exists vr', (store p (DataPage (list_inserts 0 (take (Z.to_nat sz) data) zero_bytes)) m1), p.
  split.
  - unfold vradddata. rewrite Hu64, Hmap. cbn [mbind outcome_bind].
    destruct (Z.ltb_spec sz 0); [lia|].
    destruct (Z.to_nat (sz / PGSIZE + 1)) as [|f] eqn:Hf.
    { pose proof (Z.div_pos sz PGSIZE). unfold PGSIZE in *. lia. }
    cbn [vradddata_loop]. rewrite Hu64. destruct (Z.ltb_spec 0 sz); [|lia].
    rewrite Z.add_0_r, (u64_small va) by (unfold PGSIZE in *; lia).
    rewrite Heq. cbn [mbind outcome_bind]. rewrite Hget.
    cbn [mbind outcome_bind used Z.eqb negb assert ppn].
    rewrite Z.sub_0_r, Hu64, Z.min_l by lia. rewrite !Z.add_0_l.
    destruct (Z.ltb_spec (Z.of_nat (length data)) sz); [lia|].
    cbn [mbind outcome_bind]. unfold write_bytes. rewrite Hp.
    cbn [mbind outcome_bind]. change (Z.to_nat 0) with 0%nat. rewrite drop_0.
    change (u64 PGSIZE) with PGSIZE.
    rewrite vradddata_loop_done by (rewrite Hu64; lia). done.
  - split; [done|]. split.
    + unfold page_info.
      rewrite (vpi_at_chain _ _ _ _
                 (store_ok_chain _ _ _ (store_ok_store_data _ _ _ _ _ _ Hok' Hp))).
      exact Hrec.
    + simpl. by rewrite lookup_insert_eq.
Qed.

(** [vregionaddmap] over pages that are not mapped, with the pages it needs
    free: the call returns the size, and the state it leaves. *)
Lemma vregionaddmap_maps vr from_va sz pres wr m cs (k c : nat) :
  0 < VPIPPAGE → store_ok m vr cs →
  0 <= from_va → 0 < sz → from_va + sz < KERNBASE → KERNBASE <= 2 ^ 64 - PGSIZE →
  from_va + sz <= PGROUNDUP from_va + Z.of_nat k * PGSIZE →
  (∀ a, PGROUNDUP from_va <= a < from_va + sz → a mod PGSIZE = 0 →
     0 <= va2vpi_idx vr a ∧ used (info_at cs (va2vpi_idx vr a)) = 0 ∧
     (Z.to_nat (va2vpi_idx vr a / VPIPPAGE) < length cs + c)%nat) →
  (∀ a a', PGROUNDUP from_va <= a < from_va + sz → a mod PGSIZE = 0 →
     PGROUNDUP from_va <= a' < from_va + sz → a' mod PGSIZE = 0 → a ≠ a' →
     va2vpi_idx vr a ≠ va2vpi_idx vr a') →
  (k + c ≤ length (freelist m))%nat →
  ∃ vr' m' cs' n,
    vregionaddmap vr from_va sz pres wr m = Ok (int32 sz, vr', m') ∧
    same_extent vr vr' ∧ store_ok m' vr' cs' ∧
    freelist m' = drop n (freelist m) ∧
    (length (freelist m) ≤ length (freelist m') + k + c)%nat ∧
    (∀ p, p ∉ cpages cs → p ∉ freelist m → ram m' !! p = ram m !! p) ∧
    (∀ q, q ∈ cpages cs' → q ∈ cpages cs ∨ q ∈ freelist m) ∧
    (∀ a, PGROUNDUP from_va <= a < from_va + sz → a mod PGSIZE = 0 →
       mapped_fresh m m' cs' (va2vpi_idx vr a) pres wr) ∧
    (∀ i, 0 <= i →
       (∀ a, PGROUNDUP from_va <= a < from_va + sz → a mod PGSIZE = 0 →
             va2vpi_idx vr a ≠ i) →
       info_at cs' i = info_at cs i).
Proof.
  intros HN Hok Hva Hsz Hkb Hk Hcover Hpages Hinj Hfree.
  unfold vregionaddmap.
  rewrite (u64_small (sz + from_va)) by (unfold PGSIZE in *; lia).
  destruct (Z.leb_spec KERNBASE (sz + from_va)); [lia|].
  destruct (Z.leb_spec sz 0); [lia|].
  rewrite (u64_small (from_va + sz)) by (unfold PGSIZE in *; lia).
  pose proof (PGROUNDUP_aligned from_va) as Hal.
  destruct (PGROUNDUP_small from_va Hva) as [Hs1 Hs2]; [unfold PGSIZE in *; lia|].
  set (start := PGROUNDUP from_va) in *.
  assert (Hv : ∀ a, visited start (from_va + sz) a ↔
                    (start <= a < from_va + sz ∧ a mod PGSIZE = 0))
    by (intros a; by apply visited_aligned).
  assert (Hb : from_va + sz <= 2 ^ 64 - PGSIZE) by lia.
  assert (Hst0 : 0 <= start) by lia.
  destruct (addmap_loop_succeeds (from_va + sz) pres wr
              (Z.to_nat ((from_va + sz - start) / PGSIZE + 1)) vr start m cs k c HN
              Hb Hst0 Hok)
    as (vr' & m' & Heq & Hcnt).
  - destruct (Z.le_gt_cases (from_va + sz) start) as [|Hgt]; [unfold PGSIZE; lia|].
    pose proof (Z.div_mod (from_va + sz - start) PGSIZE ltac:(done)) as Hd.
    pose proof (Z.mod_pos_bound (from_va + sz - start) PGSIZE ltac:(done)) as Hm.
    pose proof (Z.div_pos (from_va + sz - start) PGSIZE ltac:(lia) ltac:(done)).
    unfold PGSIZE in *. lia.
  - done.
  - intros a Ha. apply Hv in Ha as [Ha1 Ha2]. by apply Hpages.
  - intros a a' Ha Ha' Hne. apply Hv in Ha as [Ha1 Ha2]. apply Hv in Ha' as [Ha1' Ha2'].
    by apply Hinj.
  - done.
  - destruct (addmap_loop_inv _ _ _ _ _ _ _ _ _ _ _ HN Hb Hst0 Hok Heq)
      as (cs' & n & Hext & Hok' & Hf & Hfr & Hcp & Hvis & Hoth & _).
    exists vr', m', cs', n. rewrite Heq. cbn [mbind outcome_bind].
    split; [done|]. split; [done|]. split; [done|]. split; [done|]. split; [done|].
    split; [done|]. split; [done|]. split.
    + intros a Ha1 Ha2. apply Hvis. simpl. by apply Hv.
    + intros i Hi Hne. apply Hoth; [done|]. intros a Ha. simpl in Ha.
      apply Hv in Ha as [Ha1 Ha2]. by apply Hne.
Qed.

(** What one run of the allocation loop takes from the free pages: the
    chunks that the chain gained and a page for each address it mapped. *)
Lemma addmap_loop_account bound pres wr fuel : ∀ vr a m cs e vr' m' cs' (k : nat),
  0 < VPIPPAGE → bound <= 2 ^ 64 - PGSIZE → 0 <= a →
  store_ok m vr cs →
  addmap_loop fuel vr a bound pres wr m = Ok (e, vr', m') →
  chain (ram m') (pages vr') cs' →
  loop_stop bound e <= a + Z.of_nat k * PGSIZE →
  (length cs ≤ length cs')%nat ∧
  (length (freelist m) + length cs ≤ length (freelist m') + length cs' + k)%nat.
Proof.
  induction fuel as [|fuel IH]; intros vr a m cs e vr' m' cs' k HN Hb Ha Hok; simpl.
  - destruct (Z.ltb_spec a bound) as [Hlt|Hge]; [discriminate|].
    intros [= <- <- <-] Hc' _.
    rewrite (chain_functional _ _ _ _ Hc' (store_ok_chain _ _ _ Hok)). lia.
  - destruct (Z.ltb_spec a bound) as [Hlt|Hge]; last first.
    { intros [= <- <- <-] Hc' _.
      rewrite (chain_functional _ _ _ _ Hc' (store_ok_chain _ _ _ Hok)). lia. }
    intros H. inv_bind H. destruct a0 as [[q vr1] m1].
    destruct (va2vpage_info_inv _ _ _ _ _ _ _ HN Hok E)
      as (Hidx & n1 & Hext1 & Hn1 & Hf1 & Hok1 & Hfr1 & _ & Hq).
    set (cs1 := cs ++ zeros (take n1 (freelist m))) in *.
    assert (Hlen1 : length cs1 = (length cs + n1)%nat).
    { unfold cs1, zeros. rewrite length_app, length_fmap, length_take. lia. }
    assert (Hflen1 : length (freelist m1) = (length (freelist m) - n1)%nat)
      by (by rewrite Hf1, length_drop).
    destruct q as [[pg j]|]; last first.
    { inversion H; subst e vr' m'. intros Hc' _.
      assert (cs' = cs1) as ->
        by (eapply chain_functional; [exact Hc'|exact (store_ok_chain _ _ _ Hok1)]).
      lia. }
    destruct Hq as (Hpg & -> & _).
    pose proof (vpi_get_chain m1 _ cs1 _ pg HN Hidx (store_ok_chain _ _ _ Hok1) Hpg) as Hget.
    inv_bind H. rewrite Hget in E0. inversion E0; subst a0. clear E0.
    inv_bind H. unfold assert in E0.
    destruct (Z.eqb_spec (used (info_at cs1 (va2vpi_idx vr a))) 0) as [Hun|]; [|discriminate].
    clear E0 a0.
    unfold kalloc in H. destruct (freelist m1) as [|p fl2] eqn:Hfl1.
    { inversion H; subst e vr' m'. intros Hc' _.
      assert (cs' = cs1) as ->
        by (eapply chain_functional; [exact Hc'|exact (store_ok_chain _ _ _ Hok1)]).
      rewrite Hfl1 in *. simpl in *. lia. }
    destruct (store_ok_kalloc _ _ _ _ _ Hok1 Hfl1) as (Hpc & Hpf & Hnd2).
    set (m3 := store p (DataPage zero_bytes) (mk_kmem fl2 (ram m1))) in *.
    assert (Hc3 : chain (ram m3) (pages vr1) cs1).
    { eapply chain_frame; [|exact (store_ok_chain _ _ _ Hok1)].
      intros x Hx. subst m3. simpl. rewrite lookup_insert_ne; [done|]. by intros ->. }
    destruct (vpi_set_chain m3 _ cs1 _ pg (mk_vpi 1 p pres wr) HN Hidx Hc3)
      as (m4 & Hset & Hf4 & Hc4 & Hfr4); [by apply NoDup_app in Hnd2 as [? _]|done|].
    inv_bind H. rewrite Hset in E0. inversion E0; subst a0. clear E0.
    set (cs2 := info_set cs1 (va2vpi_idx vr a) (mk_vpi 1 p pres wr)) in *.
    assert (Hok4 : store_ok m4 vr1 cs2).
    { split; [done|]. rewrite Hf4. subst cs2. by rewrite cpages_info_set. }
    assert (Hu : u64 (a + PGSIZE) = a + PGSIZE)
      by (apply u64_small; unfold PGSIZE in *; lia).
    rewrite Hu in H.
    assert (Ha' : 0 <= a + PGSIZE) by (unfold PGSIZE; lia).
    destruct (addmap_loop_inv _ _ _ _ _ _ _ _ _ _ _ HN Hb Ha' Hok4 H)
      as (_ & _ & _ & _ & _ & _ & _ & _ & _ & He).
    intros Hc' Hstop.
    assert (Hk : (1 ≤ k)%nat ∧ loop_stop bound e <= a + PGSIZE + Z.of_nat (k - 1) * PGSIZE).
    { assert (a < loop_stop bound e).
      { destruct e as [|af]; simpl in *; [done|].
        destruct He as [(j & Hj & -> & _) _]. unfold PGSIZE. lia. }
      unfold PGSIZE in *. lia. }
    destruct Hk as [Hk1 Hk2].
    destruct (IH vr1 (a + PGSIZE) m4 cs2 e vr' m' cs' (k - 1)%nat HN Hb Ha' Hok4 H Hc' Hk2)
      as [Hl Hacc].
    assert (Hlen2 : length cs2 = length cs1) by (subst cs2; apply length_info_set).
    rewrite Hf4 in Hacc. subst m3. simpl in Hacc. simpl in Hflen1. lia.
Qed.

(** X12. [vradddata] copies to the page of [va], and [vregionaddmap] maps
    from [PGROUNDUP(va)] on: for an address that is not page-aligned, whose
    page is not mapped and has a record index of its own that is not
    negative, in a well-formed store, a call with a size above 0 does not
    return 0: whatever it returns is -1. When the range ends below
    [KERNBASE], its pages are not mapped and have record indices of their
    own that are not negative, and the free pages suffice for them and for
    the chunks that the look-ups add, the one for the page of [va] among
    them ([k] pages, [c] chunks), [vregionaddmap] returns the size and the
    call stops at the assertion of [vradddata] on the page of [va], which
    is not mapped. *)
Theorem vradddata_needs_aligned vr va data sz pres wr m cs (k c : nat) :
  0 < VPIPPAGE → KERNBASE <= 2 ^ 64 - PGSIZE → store_ok m vr cs →
  0 <= va → va + sz < 2 ^ 64 → va mod PGSIZE ≠ 0 → 0 < sz < 2 ^ 31 →
  0 <= va2vpi_idx vr va → used (page_info m vr va) = 0 →
  (∀ a, PGROUNDUP va <= a < va + sz → a mod PGSIZE = 0 →
        va2vpi_idx vr a ≠ va2vpi_idx vr va) →
  (∀ r vr' m', vradddata vr va data sz pres wr m = Ok (r, vr', m') → r = -1) ∧
  (va + sz < KERNBASE →
   va + sz <= PGROUNDUP va + Z.of_nat k * PGSIZE →
   (∀ a, PGROUNDUP va <= a < va + sz → a mod PGSIZE = 0 →
      0 <= va2vpi_idx vr a ∧ used (page_info m vr a) = 0 ∧
      (Z.to_nat (va2vpi_idx vr a / VPIPPAGE) < length cs + c)%nat) →
   (∀ a a', PGROUNDUP va <= a < va + sz → a mod PGSIZE = 0 →
      PGROUNDUP va <= a' < va + sz → a' mod PGSIZE = 0 → a ≠ a' →
      va2vpi_idx vr a ≠ va2vpi_idx vr a') →
   (Z.to_nat (va2vpi_idx vr va / VPIPPAGE) < length cs + c)%nat →
   (k + c ≤ length (freelist m))%nat →
   (∃ vr1 m1, vregionaddmap vr va sz pres wr m = Ok (sz, vr1, m1)) ∧
   vradddata vr va data sz pres wr m = Fault AssertFailed).
Proof.
  intros HN HK Hok Hva0 Hsum Hal Hsz Hidx Hu Hother.
  assert (Hva : 0 <= va < 2 ^ 64) by lia.
  pose proof (store_ok_chain _ _ _ Hok) as Hch.
  unfold page_info in Hu. rewrite (vpi_at_chain _ _ _ _ Hch) in Hu.
  assert (Hu64 : u64 sz = sz) by (apply u64_small; lia).
  split.
  - intros r vr' m' H.
    unfold vradddata in H. rewrite Hu64 in H. inv_bind H. destruct a as [[ret vr1] m1].
    destruct (decide (ret = -1)) as [->|Hret]; [by inversion H|].
    assert (Hsz0 : 0 < sz) by lia.
    destruct (vregionaddmap_done _ _ _ _ _ _ _ _ _ _ HN HK Hok Hsz0 E Hret)
      as (-> & cs1 & n & Hext & Hok1 & _ & _ & _ & _ & Hoth).
    rewrite int32_small in H by lia.
    destruct (Z.ltb_spec sz 0); [lia|]. exfalso.
    inv_bind H. destruct a as [vr2 m2]. clear H.
    destruct (Z.to_nat (sz / PGSIZE + 1)) as [|f] eqn:Hf.
    { pose proof (Z.div_pos sz PGSIZE). unfold PGSIZE in *. lia. }
    cbn [vradddata_loop] in E0. rewrite Hu64 in E0.
    destruct (Z.ltb_spec 0 sz); [|lia].
    rewrite Z.add_0_r, (u64_small va) in E0 by done.
    inv_bind E0. destruct a as [[q vr3] m3].
    destruct (va2vpage_info_inv _ _ _ _ _ _ _ HN Hok1 E1)
      as (Hidx1 & n1 & _ & _ & _ & Hok3 & _ & _ & Hq).
    destruct q as [[pg j]|]; [|done]. destruct Hq as (Hpg & -> & _).
    inv_bind E0.
    rewrite (vpi_get_chain m3 _ _ _ pg HN Hidx1 (store_ok_chain _ _ _ Hok3) Hpg) in E2.
    injection E2 as <-. rewrite info_at_app_zeros in E0 by done.
    rewrite (same_extent_idx _ _ _ Hext) in E0.
    rewrite Hoth in E0; [|done|].
    + rewrite Hu in E0. simpl in E0. discriminate.
    + intros a Hv. apply visited_aligned in Hv as [Ha1 Ha2];
        [|apply PGROUNDUP_aligned]. rewrite u64_small in Ha1 by lia. by apply Hother.
  - intros Hkb Hcover Hpages Hinj Hcva Hfree.
    assert (Hsz0 : 0 < sz) by lia.
    destruct (vregionaddmap_maps vr va sz pres wr m cs k c HN Hok Hva0 Hsz0 Hkb HK Hcover)
      as (vr1 & m1 & cs1 & n & Hmap & Hext & Hok1 & _ & _ & _ & _ & _ & Hoth); [|done|done|].
    { intros a Ha Hm. destruct (Hpages a Ha Hm) as (? & Hua & ?).
      unfold page_info in Hua. by rewrite (vpi_at_chain _ _ _ _ Hch) in Hua. }
    pose proof (store_ok_chain _ _ _ Hok1) as Hch1.
    (* what the mapping took *)
    assert (Hacc : (length cs ≤ length cs1)%nat ∧
                   (length (freelist m) + length cs
                    ≤ length (freelist m1) + length cs1 + k)%nat).
    { pose proof Hmap as H. unfold vregionaddmap in H.
      rewrite (Z.add_comm sz va), (u64_small (va + sz)) in H by lia.
      destruct (Z.leb_spec KERNBASE (va + sz)); [lia|].
      destruct (Z.leb_spec sz 0); [lia|].
      inv_bind H. destruct a as [[e vr2] m2].
      assert (Hb : va + sz <= 2 ^ 64 - PGSIZE) by lia.
      destruct e as [|af].
      - injection H as -> ->.
        eapply (addmap_loop_account _ _ _ _ _ _ _ _ _ _ _ _ k HN Hb
                  (proj1 (PGROUNDUP_range va)) Hok E Hch1). simpl. lia.
      - inv_bind H. destruct a as [vr3 m3]. injection H as H _ _.
        rewrite int32_small in H by lia. lia. }
    destruct Hacc as [Hl1 Hacc].
    rewrite int32_small in Hmap by lia.
    split; [by exists vr1, m1|].
    assert (Hidx1 : 0 <= va2vpi_idx vr1 va) by (by rewrite (same_extent_idx _ _ _ Hext)).
    destruct (va2vpage_info_spec vr1 va m1 cs1 HN Hok1 Hidx1)
      as (q & n1 & vr2 & m2 & Heq & _ & _ & _ & Hok2 & _ & _ & Hq).
    { intros [Hp Hnil]. rewrite Hp in Hch1.
      destruct cs1 as [|[q0 vs0] cs1]; [|simpl in Hch1; by destruct Hch1].
      rewrite Hnil in Hacc. simpl in *. lia. }
    rewrite (same_extent_idx _ _ _ Hext) in Hq.
    destruct q as [[pg j]|]; [|lia]. destruct Hq as (Hpg & -> & _).
    unfold vradddata. rewrite Hu64, Hmap. cbn [mbind outcome_bind].
    destruct (Z.ltb_spec sz 0); [lia|].
    destruct (Z.to_nat (sz / PGSIZE + 1)) as [|f] eqn:Hf.
    { pose proof (Z.div_pos sz PGSIZE). unfold PGSIZE in *. lia. }
    cbn [vradddata_loop]. rewrite Hu64. destruct (Z.ltb_spec 0 sz); [|lia].
    rewrite Z.add_0_r, (u64_small va) by done.
    rewrite Heq. cbn [mbind outcome_bind].
    rewrite (vpi_get_chain m2 _ _ _ pg HN Hidx (store_ok_chain _ _ _ Hok2) Hpg).
    cbn [mbind outcome_bind]. rewrite info_at_app_zeros by done.
    rewrite Hoth by done. rewrite Hu. done.
Qed.

(** ** Teardown *)

Lemma chain_length_size r p cs :
  chain r p cs → NoDup (cpages cs) → (length cs ≤ base.size r)%nat.
Proof.
  intros Hc Hnd.
  assert (Hsub : (list_to_set (cpages cs) : gset Z) ⊆ dom r).
  { intros x Hx. apply elem_of_list_to_set in Hx.
    destruct (chain_is_chunk _ _ _ _ Hc Hx) as (c & Hr). apply elem_of_dom. eauto. }
  apply subseteq_size in Hsub. rewrite size_list_to_set, size_dom in Hsub by done.
  unfold cpages in Hsub. by rewrite length_fmap in Hsub.
Qed.

Lemma free_page_desc_list_spec fuel : ∀ p m cs,
  chain (ram m) p cs → (length cs ≤ fuel)%nat →
  free_page_desc_list fuel p m
  = Ok (mk_kmem (cpages cs ++ freelist m) (foldr delete (ram m) (cpages cs))).
Proof.
  induction fuel as [|fuel IH]; intros p m cs Hc Hlen.
  - destruct cs; [|simpl in Hlen; lia]. simpl in Hc. subst p. simpl. by destruct m.
  - destruct cs as [|[q vs] cs].
    + simpl in Hc. subst p. simpl. by destruct m.
    + simpl in Hc. destruct Hc as (-> & _ & nx & Hq & Hc).
      cbn [free_page_desc_list]. unfold read_chunk. rewrite Hq.
      cbn [mbind outcome_bind next].
      rewrite (IH nx m cs Hc) by (simpl in Hlen; lia).
      cbn [mbind outcome_bind]. done.
Qed.

Lemma lookup_foldr_delete (r : gmap Z kpage) l x :
  foldr delete r l !! x = if decide (x ∈ l) then None else r !! x.
Proof.
  induction l as [|y l IH]; simpl.
  - by destruct (decide (x ∈ [])) as [H|]; [apply elem_of_nil in H|].
  - destruct (decide (x = y)) as [->|Hne].
    + rewrite lookup_delete_eq. destruct (decide (y ∈ y :: l)) as [|Hn]; [done|].
      destruct Hn. apply list_elem_of_here.
    + rewrite lookup_delete_ne by done. rewrite IH.
      destruct (decide (x ∈ l)); destruct (decide (x ∈ y :: l)) as [Hin|Hn]; try done.
      * destruct Hn. by apply list_elem_of_further.
      * apply elem_of_cons in Hin as [?|?]; done.
Qed.

(** X13. [free_page_desc_list] on the chain of a store releases the chunks
    of the chain and nothing else: afterwards the free pages are the chunks,
    first to last, in front of the pages that were free; a released chunk
    holds nothing; every other page holds what it held. The pages that the
    records of the chunks point to are not released. *)
Theorem free_page_desc_list_releases fuel p m cs :
  chain (ram m) p cs → (length cs ≤ fuel)%nat →
  ∃ m', free_page_desc_list fuel p m = Ok m' ∧
    freelist m' = cpages cs ++ freelist m ∧
    (∀ x, x ∈ cpages cs → ram m' !! x = None) ∧
    (∀ x, x ∉ cpages cs → ram m' !! x = ram m !! x).
Proof.
  intros Hc Hlen. eexists. split; [by apply free_page_desc_list_spec|].
  split; [done|]. simpl. split; intros x Hx; rewrite lookup_foldr_delete;
    by destruct (decide (x ∈ cpages cs)).
Qed.

Lemma cleared_holds_nothing vr va :
  va_base vr = 0 → size vr = 0 → vregion_holds vr va ≠ true.
Proof.
  intros Hb Hz. unfold vregion_holds. rewrite Hb, Hz.
  change (u64 (0 + 0)) with 0. change (u64 (0 - 0)) with 0.
  destruct (dir vr); rewrite andb_true_iff, Z.leb_le, Z.ltb_lt; lia.
Qed.

Lemma free_regions_spec : ∀ rs css m,
  Forall2 (λ vr cs, chain (ram m) (pages vr) cs ∧ NoDup (cpages cs)) rs css →
  (∀ i j cs cs' p, i ≠ j → css !! i = Some cs → css !! j = Some cs' →
                   p ∈ cpages cs → p ∉ cpages cs') →
  ∃ m', free_regions rs m
        = Ok (replicate (length rs) (mk_vregion VRDIR_CLEARED 0 0 None), m') ∧
    (∀ x, x ∈ freelist m' ↔ x ∈ freelist m ∨ ∃ cs, cs ∈ css ∧ x ∈ cpages cs) ∧
    (∀ x, (∃ cs, cs ∈ css ∧ x ∈ cpages cs) → ram m' !! x = None) ∧
    (∀ x, (∀ cs, cs ∈ css → x ∉ cpages cs) → ram m' !! x = ram m !! x).
Proof.
  induction rs as [|vr rs IH]; intros css m Hf Hdis.
  - apply Forall2_nil_inv_l in Hf. subst css. exists m. split; [done|].
    split; [|split].
    + intros x. split; [by left|]. intros [?|(cs & Hin & _)]; [done|].
      by apply elem_of_nil in Hin.
    + intros x (cs & Hin & _). by apply elem_of_nil in Hin.
    + done.
  - apply Forall2_cons_inv_l in Hf as (cs & css' & [Hc Hnd] & Hf & ->).
    cbn [free_regions].
    rewrite (free_page_desc_list_spec _ _ _ cs Hc) by (by eapply chain_length_size).
    cbn [mbind outcome_bind].
    set (m1 := mk_kmem (cpages cs ++ freelist m) (foldr delete (ram m) (cpages cs))).
    assert (Hhead : ∀ c q, c ∈ css' → q ∈ cpages c → q ∉ cpages cs).
    { intros c q Hin Hq. apply list_elem_of_lookup in Hin as [j Hj].
      by apply (Hdis (S j) 0%nat c cs q). }
    destruct (IH css' m1) as (m' & Heq & Hfl & Hgone & Hfr).
    + apply Forall2_same_length_lookup. split; [by eapply Forall2_length|].
      intros i v c Hv Hci.
      destruct (Forall2_lookup_lr _ _ _ _ _ _ Hf Hv Hci) as [Hch Hn].
      split; [|done]. eapply chain_frame; [|exact Hch].
      intros q Hq. unfold m1. simpl. rewrite lookup_foldr_delete.
      destruct (decide (q ∈ cpages cs)) as [Hin|]; [|done].
      destruct (Hhead c q (list_elem_of_lookup_2 _ _ _ Hci) Hq Hin).
    + intros i j c c' q Hne Hi Hj. apply (Hdis (S i) (S j)); [lia|done|done].
    + exists m'. rewrite Heq. cbn [mbind outcome_bind]. split; [done|].
      split; [|split].
      * intros x. rewrite Hfl. unfold m1. simpl. rewrite elem_of_app. split.
        -- intros [[Hx|Hx]|(c & Hin & Hx)].
           ++ right. exists cs. split; [apply list_elem_of_here|done].
           ++ by left.
           ++ right. exists c. split; [by apply list_elem_of_further|done].
        -- intros [Hx|(c & Hin & Hx)]; [left; by right|].
           apply elem_of_cons in Hin as [->|Hin]; [left; by left|].
           right. by exists c.
      * intros x (c & Hin & Hx). apply elem_of_cons in Hin as [->|Hin].
        -- destruct (ram m' !! x) eqn:Hr; [|done]. exfalso.
           assert (Hnot : ¬ ∃ c', c' ∈ css' ∧ x ∈ cpages c').
           { intros Hex. by rewrite (Hgone x Hex) in Hr. }
           rewrite Hfr in Hr.
           ++ unfold m1 in Hr. simpl in Hr. rewrite lookup_foldr_delete in Hr.
              by destruct (decide (x ∈ cpages cs)).
           ++ intros c' Hin' Hx'. apply Hnot. by exists c'.
        -- apply Hgone. by exists c.
      * intros x Hno. rewrite Hfr.
        -- unfold m1. simpl. rewrite lookup_foldr_delete.
           destruct (decide (x ∈ cpages cs)) as [Hin|]; [|done].
           destruct (Hno cs (list_elem_of_here _ _) Hin).
        -- intros c Hin. apply Hno. by apply list_elem_of_further.
Qed.

(** X14. [vspacefree] on an address space with well-formed stores returns.
    Every region is cleared, so that no address is held any more, and the
    table holds no entry. The pages released are the chunks of the stores
    and no other page: a page is free afterwards exactly when it was free
    or was a chunk, the chunks hold nothing, and every other page, the
    pages of the mapped records among them, holds what it held. *)
Theorem vspacefree_releases_chunks vs m css :
  stores_ok m (regions vs) css →
  ∃ vs' m', vspacefree vs m = Ok (vs', m') ∧
    regions vs' = replicate (length (regions vs)) (mk_vregion VRDIR_CLEARED 0 0 None) ∧
    pgtbl vs' = ∅ ∧
    (∀ va, va2vregion vs' va = None) ∧
    (∀ x, x ∈ freelist m' ↔ x ∈ freelist m ∨ ∃ cs, cs ∈ css ∧ x ∈ cpages cs) ∧
    (∀ x, (∃ cs, cs ∈ css ∧ x ∈ cpages cs) → ram m' !! x = None) ∧
    (∀ x, (∀ cs, cs ∈ css → x ∉ cpages cs) → ram m' !! x = ram m !! x).
Proof.
  intros [Hf Hdis].
  destruct (free_regions_spec (regions vs) css m) as (m' & Heq & Hfl & Hgone & Hfr).
  - eapply Forall2_impl; [exact Hf|]. intros vr cs [Hc Hnd]. split; [done|].
    by apply NoDup_app in Hnd as (? & _).
  - done.
  - eexists _, m'. unfold vspacefree. rewrite Heq. cbn [mbind outcome_bind].
    split; [done|]. split; [done|]. split; [done|]. split; [|done].
    intros va. apply va2vregion_None. simpl. intros vr Hin.
    apply elem_of_replicate in Hin as [-> _]. by apply cleared_holds_nothing.
Qed.

(** ** More on [vspacewritetova] *)

(** X15. A write that does not start at the first byte of a page and ends
    in that page, into a page that is mapped and writable: the call returns
    0, the bookkeeping of the address space is as before, and the page
    holds the [sz] bytes from the offset of [va] on and what it held
    elsewhere. *)
Theorem vspacewritetova_within_page vs va data sz m css v b :
  0 < VPIPPAGE → stores_ok m (regions vs) css →
  0 <= va → 0 < sz → va + sz < KERNBASE → KERNBASE <= 2 ^ 64 - PGSIZE →
  sz <= Z.of_nat (length data) →
  va mod PGSIZE ≠ 0 → va mod PGSIZE + sz <= PGSIZE →
  vspace_info vs m va = Some v → used v ≠ 0 → writable v ≠ 0 →
  ram m !! ppn v = Some (DataPage b) → length b = Z.to_nat PGSIZE →
  ∃ b',
    vspacewritetova vs va data sz m = Ok (0, vs, store (ppn v) (DataPage b') m) ∧
    length b' = length b ∧
    ∀ i : nat,
      b' !! i = if decide (va mod PGSIZE <= Z.of_nat i < va mod PGSIZE + sz)
                then data !! (i - Z.to_nat (va mod PGSIZE))%nat
                else b !! i.
Proof.
  intros HN Hs Hva Hsz Hkb Hk Hdata Hm Hfit Hv Hu Hw Hp Hlen.
  pose proof (Z.mod_pos_bound va PGSIZE ltac:(done)) as Hmb.
  exists (list_inserts (Z.to_nat (va mod PGSIZE)) (take (Z.to_nat sz) data) b).
  split; [|split].
  - unfold vspacewritetova.
    rewrite (u64_small (va + sz)) by (unfold PGSIZE in *; lia).
    destruct (Z.ltb_spec 0 sz); [|lia].
    destruct (Z.ltb_spec (va + sz) KERNBASE); [|lia].
    cbn [assert mbind outcome_bind].
    destruct (Z.to_nat sz) as [|f] eqn:Hf; [lia|].
    assert (Hlt : va < va + sz) by lia.
    rewrite (writetova_loop_mapped _ _ _ _ _ _ _ _ _ HN Hs Hlt Hv Hu).
    destruct (Z.eqb_spec (writable v) 0); [done|].
    destruct (page_rest va) as (Hi32 & _ & _ & Hnz); [lia|unfold PGSIZE in *; lia|].
    specialize (Hnz Hm). rewrite Hi32, Z.min_r by lia. cbn zeta.
    destruct (Z.ltb_spec (Z.of_nat (length data)) sz); [lia|].
    cbn [mbind outcome_bind]. unfold write_bytes. rewrite Hp.
    cbn [mbind outcome_bind]. rewrite writetova_loop_done; [|rewrite u64_small; lia].
    by rewrite <- Hf.
  - apply length_inserts.
  - intros i. assert (Hlt : length (take (Z.to_nat sz) data) = Z.to_nat sz).
    { rewrite length_take. lia. }
    destruct (decide (va mod PGSIZE <= Z.of_nat i < va mod PGSIZE + sz)) as [Hin|Hout].
    + rewrite list_lookup_inserts by (rewrite ?Hlt, ?Hlen; lia).
      apply lookup_take_lt. lia.
    + destruct (decide (Z.of_nat i < va mod PGSIZE)).
      * apply list_lookup_inserts_lt. lia.
      * apply list_lookup_inserts_ge. rewrite Hlt. lia.
Qed.

(** X16. A write that starts at the first byte of a page that is mapped
    and writable does not return: each turn of the loop copies
    [PGROUNDUP(va) - va = 0] bytes and leaves [va] where it is, whatever
    the number of turns. *)
Theorem vspacewritetova_page_start_spins vs va data sz m css v b :
  0 < VPIPPAGE → stores_ok m (regions vs) css →
  0 <= va → va mod PGSIZE = 0 → 0 < sz < 2 ^ 31 →
  va + sz < KERNBASE → KERNBASE <= 2 ^ 64 - PGSIZE →
  vspace_info vs m va = Some v → used v ≠ 0 → writable v ≠ 0 →
  ram m !! ppn v = Some (DataPage b) →
  vspacewritetova vs va data sz m = OutOfFuel ∧
  ∀ fuel, writetova_loop fuel vs va (va + sz) data sz m = OutOfFuel.
Proof.
  intros HN Hs Hva Hal Hsz Hkb Hk Hv Hu Hw Hp.
  destruct (page_rest va) as (_ & _ & Hz & _); [lia|unfold PGSIZE in *; lia|].
  assert (Hb : 0 <= va < 2 ^ 64) by (unfold PGSIZE in *; lia).
  assert (Hlt : va < va + sz) by lia.
  assert (Hspin : ∀ fuel, writetova_loop fuel vs va (va + sz) data sz m = OutOfFuel).
  { intros fuel.
    exact (writetova_loop_aligned_spins css data sz (va + sz) va v b fuel vs m
             HN Hs Hb (Hz Hal) Hlt Hsz Hv Hu Hw Hp). }
  split; [|done]. unfold vspacewritetova.
  rewrite (u64_small (va + sz)) by (unfold PGSIZE in *; lia).
  destruct (Z.ltb_spec 0 sz); [|lia].
  destruct (Z.ltb_spec (va + sz) KERNBASE); [|lia].
  cbn [assert mbind outcome_bind]. apply Hspin.
Qed.

(** ** [vspacemarknotpresent] *)

(** X17. [vspacemarknotpresent] for a page-aligned address whose page is
    mapped: when the record says present the call aborts; otherwise it
    returns, the entry of the page is gone from the table, the other
    entries, the regions and the memory are as before. *)
Theorem vspacemarknotpresent_clears vs va m css v :
  0 < VPIPPAGE → stores_ok m (regions vs) css →
  va mod PGSIZE = 0 → vspace_info vs m va = Some v → used v ≠ 0 →
  (present v ≠ 0 → vspacemarknotpresent vs va m = Fault AssertFailed) ∧
  (present v = 0 →
   ∃ vs', vspacemarknotpresent vs va m = Ok (vs', m) ∧
     regions vs' = regions vs ∧
     pgtbl vs' !! Z.shiftr va PT_SHIFT = None ∧
     ∀ vpn, vpn ≠ Z.shiftr va PT_SHIFT → pgtbl vs' !! vpn = pgtbl vs !! vpn).
Proof.
  intros HN Hs Hal Hv Hu. unfold vspace_info in Hv.
  destruct (va2vregion vs va) as [i|] eqn:Hi; simpl in Hv; [|done].
  destruct (regions vs !! i) as [vr|] eqn:Hvr; simpl in Hv; [|done].
  destruct (Z.ltb_spec (va2vpi_idx vr va) 0) as [|Hidx]; [done|].
  injection Hv as <-.
  destruct (stores_ok_lookup _ _ _ _ _ Hs Hvr) as (cs & Hcs & Hok).
  assert (Hlen : (Z.to_nat (va2vpi_idx vr va / VPIPPAGE) < length cs)%nat).
  { apply info_at_used_lookup. unfold page_info in Hu.
    by rewrite (vpi_at_chain _ _ _ _ (store_ok_chain _ _ _ Hok)) in Hu. }
  destruct (va2vpage_info_hit vr va m cs HN Hok Hidx Hlen) as (q & Heq & _ & _ & Hget).
  assert (Hrun : vspacemarknotpresent vs va m
            = if negb (present (page_info m vr va) =? 0) then Fault AssertFailed
              else Ok (mk_vspace (regions vs)
                         (delete (Z.shiftr va PT_SHIFT) (pgtbl vs)), m)).
  { unfold vspacemarknotpresent. rewrite Hal, Hi, Hvr.
    cbn [Z.eqb assert mbind outcome_bind]. rewrite Heq.
    cbn [mbind outcome_bind]. rewrite Hget. cbn [mbind outcome_bind].
    rewrite list_insert_id by done. done. }
  rewrite Hrun. split.
  - intros Hp. by destruct (Z.eqb_spec (present (page_info m vr va)) 0).
  - intros Hp. rewrite Hp. simpl. eexists. split; [done|]. split; [done|]. simpl.
    split; [apply lookup_delete_eq|]. intros vpn Hne. by apply lookup_delete_ne.
Qed.

(** ** More on the loader *)

Lemma load_segments_skip ip ls vs m : ∀ n i,
  (∀ j ph, (i ≤ j < i + n)%nat → i_ph ip !! j = Some ph →
           ph_type ph ≠ ELF_PROG_LOAD) →
  (i + n ≤ length (i_ph ip))%nat →
  load_segments n i ip ls vs m = Ok (Some ls, vs, m).
Proof.
  induction n as [|n IH]; intros i Hall Hlen; simpl; [done|].
  destruct (lookup_lt_is_Some_2 (i_ph ip) i) as [ph Hph]; [lia|].
  rewrite Hph. destruct (Z.eqb_spec (ph_type ph) ELF_PROG_LOAD) as [He|_].
  - destruct (Hall i ph); [lia|done|done].
  - simpl. apply IH; [|lia]. intros j ph' Hj. apply Hall. lia.
Qed.

(** X18. A file with a good header whose program headers name no loadable
    segment, the file without program header among them, is not refused
    with the result 0: the loop leaves [first_section] set and the
    assertion after it aborts the kernel. *)
Theorem vspaceloadcode_no_loadable_segment vs ip elf m :
  i_elf ip = Some elf → elf_magic elf = ELF_MAGIC →
  (Z.to_nat (elf_phnum elf) ≤ length (i_ph ip))%nat →
  (∀ j ph, (j < Z.to_nat (elf_phnum elf))%nat → i_ph ip !! j = Some ph →
           ph_type ph ≠ ELF_PROG_LOAD) →
  vspaceloadcode vs (Some ip) m = Fault AssertFailed.
Proof.
  intros Helf Hmagic Hlen Hall. unfold vspaceloadcode. rewrite Helf, Hmagic.
  rewrite Z.eqb_refl. cbn [negb].
  rewrite load_segments_skip; [done| |done].
  intros j ph Hj. apply Hall. lia.
Qed.

(** ** A duplication that fails *)

Lemma vpi_set_freelist q v m m' : vpi_set q v m = Ok m' → freelist m' = freelist m.
Proof.
  unfold vpi_set. intros H. inv_bind H.
  destruct (infos a !! q.2); [|discriminate]. by inversion H.
Qed.

Lemma copy_infos_stops : ∀ n i d s m m',
  copy_infos n i d s m = Ok (false, m') → freelist m' = [].
Proof.
  induction n as [|n IH]; intros i d s m m'; simpl; [discriminate|].
  intros H. inv_bind H. destruct (used a =? 0); [by eapply IH|].
  inv_bind H. inv_bind H. apply vpi_set_freelist in E1.
  unfold kalloc in H. destruct (freelist a1) as [|p fl] eqn:Hfl.
  - by inversion H; subst.
  - simpl in H. inv_bind H. inv_bind H. by eapply IH.
Qed.

Lemma copy_vpi_page_fails fuel : ∀ src m p m',
  copy_vpi_page fuel src m = Ok (-1, p, m') → src ≠ None ∧ freelist m' = [].
Proof.
  induction fuel as [|fuel IH]; intros src m p m'; destruct src as [s|]; simpl;
    try discriminate.
  unfold kalloc. destruct (freelist m) as [|d fl] eqn:Hfl.
  { intros [= _ <-]. done. }
  intros H. inv_bind H. destruct a as [fin m2]. destruct fin.
  - inv_bind H. inv_bind H. destruct a0 as [[r0 nx] m3]. inv_bind H.
    inversion H; subst. apply IH in E1 as [_ E1]. done.
  - inversion H; subst. split; [done|]. by eapply copy_infos_stops.
Qed.

Lemma copy_regions_failure : ∀ rs m rs' m',
  copy_regions rs m = Ok (-1, rs', m') →
  Forall2 same_extent rs rs' ∧
  ∃ k vr mk p,
    rs !! k = Some vr ∧
    copy_vpi_page (S (length (freelist mk))) (pages vr) mk = Ok (-1, p, m') ∧
    rs' !! k = Some (set_pages vr p) ∧
    ∀ j, (k < j)%nat → rs' !! j = rs !! j.
Proof.
  induction rs as [|vr rs IH]; intros m rs' m'; [discriminate|].
  cbn [copy_regions]. intros H. inv_bind H. destruct a as [[r0 p] m1].
  destruct (copy_vpi_page_result _ _ _ _ _ _ E) as [-> | ->].
  - cbn [Z.ltb Z.compare] in H. inv_bind H. destruct a as [[r1 rs1] m2].
    inversion H; subst r1 rs' m2.
    destruct (IH _ _ _ E0) as (Hext & k & vrk & mk & pk & Hk & Hcopy & Hk' & Htail).
    split; [constructor; [by destruct vr|done]|].
    exists (S k), vrk, mk, pk. split; [done|]. split; [done|]. split; [done|].
    intros j Hj. destruct j as [|j]; [lia|]. simpl. apply Htail. lia.
  - cbn [Z.ltb Z.compare] in H. inversion H; subst rs' m'. split.
    + constructor; [by destruct vr|]. apply Forall2_same_length_lookup.
      split; [done|]. intros i x y Hx Hy. rewrite Hx in Hy. inversion Hy.
      apply same_extent_refl.
    + exists 0%nat, vr, m, p. split; [done|]. split; [done|]. split; [done|].
      intros j Hj. by destruct j; [lia|].
Qed.

(** X19. [vspacecopy] returns 0 or -1. It returns -1 when the copy of the
    chunks of one region fails, which leaves no page free, and then nothing
    is undone and the table of [dst] is not rebuilt: the table is the one
    [dst] had, the regions of [dst] have the extents of the source's, the
    region whose copy failed points to what was copied of its chunks, and
    the regions after it are the records of the source as they are, with
    the pointers to the chunks of the source. *)
Theorem vspacecopy_failure dst src m r dst' m' :
  vspacecopy dst src m = Ok (r, dst', m') → r ≠ 0 →
  r = -1 ∧ pgtbl dst' = pgtbl dst ∧ freelist m' = [] ∧
  Forall2 same_extent (regions src) (regions dst') ∧
  ∃ k vr mk p,
    regions src !! k = Some vr ∧ pages vr ≠ None ∧
    copy_vpi_page (S (length (freelist mk))) (pages vr) mk = Ok (-1, p, m') ∧
    regions dst' !! k = Some (set_pages vr p) ∧
    ∀ j, (k < j)%nat → regions dst' !! j = regions src !! j.
Proof.
  intros H Hr. unfold vspacecopy in H. simpl in H.
  inv_bind H. destruct a as [[r0 rs] m1].
  destruct (copy_regions_result _ _ _ _ _ E) as [-> | ->]; simpl in H.
  - inv_bind H. destruct a as [d m2]. inversion H. lia.
  - inversion H; subst r dst' m'. simpl. split; [done|]. split; [done|].
    destruct (copy_regions_failure _ _ _ _ E) as (Hext & k & vr & mk & p & Hk & Hc & Hk' & Ht).
    destruct (copy_vpi_page_fails _ _ _ _ _ Hc) as [Hsrc Hfl].
    split; [done|]. split; [done|]. by exists k, vr, mk, p.
Qed.

(** ** A short read in [vrloaddata] *)

(** X20. [vrloaddata] of at most a page of bytes into a mapped page, when
    the file ends before the last byte asked for: the call returns -1, and
    the bytes that the file had are at the start of the page. *)
Theorem vrloaddata_short_read vr va ip offset sz m cs v b :
  0 < VPIPPAGE → store_ok m vr cs →
  0 <= va < 2 ^ 64 → va mod PGSIZE = 0 →
  0 < sz <= PGSIZE → 0 <= offset < 2 ^ 32 →
  (length (i_data ip) < Z.to_nat offset + Z.to_nat sz)%nat →
  0 <= va2vpi_idx vr va →
  page_info m vr va = v → used v ≠ 0 →
  ram m !! ppn v = Some (DataPage b) →
  vrloaddata vr va ip offset sz m
  = Ok (-1, vr, store (ppn v) (DataPage (list_inserts 0 (readi ip offset sz) b)) m) ∧
  readi ip offset sz = drop (Z.to_nat offset) (i_data ip).
Proof.
  intros HN Hok Hva Hal Hsz Hoff Hfile Hidx Hv Hu Hp.
  unfold page_info in Hv.
  rewrite (vpi_at_chain _ _ _ _ (store_ok_chain _ _ _ Hok)) in Hv.
  assert (Hrd : readi ip offset sz = drop (Z.to_nat offset) (i_data ip)).
  { unfold readi. apply take_ge. rewrite length_drop. lia. }
  split; [|done].
  unfold vrloaddata. rewrite Hal. cbn [Z.eqb assert mbind outcome_bind].
  destruct (Z.to_nat (sz / PGSIZE + 1)) as [|f] eqn:Hf.
  { pose proof (Z.div_pos sz PGSIZE). unfold PGSIZE in *. lia. }
  cbn [vrloaddata_loop]. destruct (Z.ltb_spec 0 sz); [|lia].
  rewrite (Z.add_0_r va), (u64_small va) by done.
  assert (Hlen : (Z.to_nat (va2vpi_idx vr va / VPIPPAGE) < length cs)%nat).
  { apply info_at_used_lookup. by rewrite Hv. }
  destruct (va2vpage_info_hit vr va m cs HN Hok Hidx Hlen) as (q & Heq & _ & _ & Hget).
  unfold page_info in Hget.
  rewrite (vpi_at_chain _ _ _ _ (store_ok_chain _ _ _ Hok)), Hv in Hget.
  rewrite Heq. cbn [mbind outcome_bind]. rewrite Hget. cbn [mbind outcome_bind].
  destruct (Z.eqb_spec (used v) 0); [done|]. cbn [negb assert mbind outcome_bind].
  rewrite Z.sub_0_r, (Z.add_0_r offset).
  assert (Hu32 : u32 sz = sz) by (unfold u32, PGSIZE in *; apply Z.mod_small; lia).
  assert (Hu32' : u32 offset = offset) by (unfold u32; apply Z.mod_small; lia).
  rewrite Hu32, Hu32'. change (u32 PGSIZE) with PGSIZE.
  rewrite Z.min_l by lia.
  unfold write_bytes. rewrite Hp. cbn [mbind outcome_bind].
  change (Z.to_nat 0) with 0%nat.
  destruct (Z.eqb_spec (Z.of_nat (length (readi ip offset sz))) sz) as [He|_]; [|done].
  rewrite Hrd, length_drop in He. lia.
Qed.

(** ** The rebuild returns *)

(** The loop over the pages of one region, when the chunk of every page it
    visits is in the chain. *)
Lemma update_pages_returns vr m cs stop :
  0 < VPIPPAGE → store_ok m vr cs → stop <= 2 ^ 64 - PGSIZE →
  ∀ fuel start pt, 0 <= start →
  (start < stop → (stop - start) / PGSIZE < Z.of_nat fuel) →
  (∀ a, visited start stop a →
     0 <= va2vpi_idx vr a ∧ (Z.to_nat (va2vpi_idx vr a / VPIPPAGE) < length cs)%nat) →
  ∃ pt', update_pages fuel vr start stop pt m = Ok (vr, pt', m).
Proof.
  intros HN Hok Hstop. induction fuel as [|fuel IH]; intros start pt H0 Hfuel Hin.
  - simpl. destruct (Z.ltb_spec start stop) as [Hlt|]; [|by eexists].
    specialize (Hfuel Hlt). pose proof (Z.div_pos (stop - start) PGSIZE).
    unfold PGSIZE in *. lia.
  - cbn [update_pages]. destruct (Z.ltb_spec start stop) as [Hlt|]; [|by eexists].
    destruct (Hin start (visited_first _ _ Hlt)) as [Hidx Hlen].
    destruct (va2vpage_info_hit vr start m cs HN Hok Hidx Hlen) as (q & Heq & _ & _ & Hget).
    rewrite Heq. cbn [mbind outcome_bind]. rewrite Hget. cbn [mbind outcome_bind].
    rewrite u64_small by (unfold PGSIZE in *; lia).
    apply IH.
    + unfold PGSIZE. lia.
    + intros Hlt'. specialize (Hfuel Hlt).
      replace (stop - (start + PGSIZE)) with ((stop - start) + (-1) * PGSIZE) by lia.
      rewrite Z.div_add by (unfold PGSIZE; lia). lia.
    + intros a Ha. apply Hin. by apply visited_next.
Qed.

Lemma update_regions_returns m :
  0 < VPIPPAGE → ∀ rs css pt,
  Forall2 (store_ok m) rs css →
  Forall (λ vr, 0 <= VRBOT vr ∧ VRTOP vr <= 2 ^ 64 - PGSIZE) rs →
  Forall (λ vr, VRBOT vr mod PGSIZE = 0) rs →
  (∀ k vr cs a, rs !! k = Some vr → css !! k = Some cs → region_page vr a →
     0 <= va2vpi_idx vr a ∧ (Z.to_nat (va2vpi_idx vr a / VPIPPAGE) < length cs)%nat) →
  ∃ pt', update_regions rs pt m = Ok (rs, pt', m).
Proof.
  intros HN rs. induction rs as [|vr rs IH]; intros css pt Hst Hb Hal Hin.
  - by eexists.
  - apply Forall2_cons_inv_l in Hst as (cs & css' & Hok & Hst & ->).
    apply Forall_cons in Hb as [[Hb0 Htop] Hb].
    apply Forall_cons in Hal as [Hal0 Hal].
    cbn [update_regions]. rewrite Hal0. cbn [Z.eqb assert mbind outcome_bind].
    destruct (update_pages_returns vr m cs (VRTOP vr) HN Hok Htop
               (Z.to_nat ((VRTOP vr - VRBOT vr) / PGSIZE + 1)) (VRBOT vr) pt Hb0)
      as [pt1 E1].
    + intros Hlt. pose proof (Z.div_pos (VRTOP vr - VRBOT vr) PGSIZE).
      unfold PGSIZE in *. lia.
    + intros a Ha. exact (Hin 0%nat vr cs a eq_refl eq_refl Ha).
    + rewrite E1. cbn [mbind outcome_bind].
      destruct (IH css' pt1 Hst Hb Hal) as [pt2 E2].
      { intros k vr' cs' a Hk Hc. exact (Hin (S k) vr' cs' a Hk Hc). }
      rewrite E2. by eexists.
Qed.

Lemma update_regions_aligned : ∀ rs pt m rs' pt' m',
  update_regions rs pt m = Ok (rs', pt', m') →
  Forall (λ vr, VRBOT vr mod PGSIZE = 0) rs.
Proof.
  induction rs as [|vr rs IH]; intros pt m rs' pt' m'; [constructor|].
  cbn [update_regions]. intros H. inv_bind H.
  destruct (Z.eqb_spec (VRBOT vr mod PGSIZE) 0) as [Hal|]; [|discriminate].
  inv_bind H. destruct a0 as [[vr1 pt1] m1]. inv_bind H. destruct a0 as [[rs1 pt2] m2].
  constructor; [done|]. by eapply IH.
Qed.

(** X21. [vspaceupdate] on an address space with well-formed stores, whose
    regions lie between 0 and a page below [2^64], when the chunk of every
    page of every region is in the chain of its region: the call returns
    exactly when the bottom of every region is page aligned (the assertion
    stops it otherwise), and when it returns it has taken no page, and the
    regions and the memory are as before; only the table is rebuilt. *)
Theorem vspaceupdate_returns vs m css :
  0 < VPIPPAGE → Forall2 (store_ok m) (regions vs) css →
  Forall (λ vr, 0 <= VRBOT vr ∧ VRTOP vr <= 2 ^ 64 - PGSIZE) (regions vs) →
  (∀ k vr cs a, regions vs !! k = Some vr → css !! k = Some cs → region_page vr a →
     0 <= va2vpi_idx vr a ∧ (Z.to_nat (va2vpi_idx vr a / VPIPPAGE) < length cs)%nat) →
  (Forall (λ vr, VRBOT vr mod PGSIZE = 0) (regions vs)
   ↔ ∃ vs' m', vspaceupdate vs m = Ok (vs', m')) ∧
  ∀ vs' m', vspaceupdate vs m = Ok (vs', m') → regions vs' = regions vs ∧ m' = m.
Proof.
  intros HN Hst Hb Hin.
  assert (Hret : Forall (λ vr, VRBOT vr mod PGSIZE = 0) (regions vs) →
                 ∃ pt, vspaceupdate vs m = Ok (mk_vspace (regions vs) pt, m)).
  { intros Hal.
    destruct (update_regions_returns m HN (regions vs) css
                (free_user_entries (pgtbl vs)) Hst Hb Hal Hin) as [pt E].
    exists pt. unfold vspaceupdate. by rewrite E. }
  assert (Hal : ∀ vs' m', vspaceupdate vs m = Ok (vs', m') →
                Forall (λ vr, VRBOT vr mod PGSIZE = 0) (regions vs)).
  { intros vs' m' H. unfold vspaceupdate in H. inv_bind H.
    destruct a as [[rs pt] m1]. by eapply update_regions_aligned. }
  split.
  - split; [intros H; destruct (Hret H) as [pt E]; by eexists _, _|].
    intros (vs' & m' & H). by eapply Hal.
  - intros vs' m' H. destruct (Hret (Hal _ _ H)) as [pt E].
    rewrite E in H. by inversion H.
Qed.

(** ** The first process *)

Lemma PGROUNDUP_one_page sz : 0 < sz <= PGSIZE → PGROUNDUP sz = PGSIZE.
Proof.
  intros Hsz. pose proof (PGROUNDUP_aligned sz) as Hal.
  destruct (PGROUNDUP_small sz) as [H1 H2]; [lia|unfold PGSIZE in *; lia|].
  unfold PGSIZE in *. pose proof (Z.div_mod (PGROUNDUP sz) 4096 ltac:(lia)). lia.
Qed.


(** [vradddata] of at most a page of bytes at the start of a page that is
    not mapped: the call returns 0, and the state it leaves. *)
Lemma vradddata_one_page_store vr va data sz pres wr m cs (c : nat) :
  0 < VPIPPAGE → store_ok m vr cs →
  0 <= va → va mod PGSIZE = 0 → 0 < sz <= PGSIZE →
  va + sz < KERNBASE → KERNBASE <= 2 ^ 64 - PGSIZE →
  sz <= Z.of_nat (length data) →
  0 <= va2vpi_idx vr va → used (info_at cs (va2vpi_idx vr va)) = 0 →
  (Z.to_nat (va2vpi_idx vr va / VPIPPAGE) < length cs + c)%nat →
  (1 + c ≤ length (freelist m))%nat →
  ∃ vr' m' cs' n p,
    vradddata vr va data sz pres wr m = Ok (0, vr', m') ∧
    same_extent vr vr' ∧ store_ok m' vr' cs' ∧
    freelist m' = drop n (freelist m) ∧
    (length (freelist m) ≤ length (freelist m') + 1 + c)%nat ∧
    (∀ q, q ∉ cpages cs → q ∉ freelist m → ram m' !! q = ram m !! q) ∧
    (∀ q, q ∈ cpages cs' → q ∈ cpages cs ∨ q ∈ freelist m) ∧
    info_at cs' (va2vpi_idx vr va) = mk_vpi 1 p pres wr ∧
    p ∈ freelist m ∧ (p ∉ freelist m') ∧ (p ∉ cpages cs') ∧
    ram m' !! p
    = Some (DataPage (list_inserts 0 (take (Z.to_nat sz) data) zero_bytes)) ∧
    (∀ i, 0 <= i → i ≠ va2vpi_idx vr va → info_at cs' i = info_at cs i).
Proof.
  intros HN Hok Hva Hal Hsz Hkb Hk Hdata Hidx Hu Hc Hfree.
  assert (Hu64 : u64 sz = sz) by (apply u64_small; unfold PGSIZE in *; lia).
  assert (Hup : PGROUNDUP va = va) by (apply PGROUNDUP_id; unfold PGSIZE in *; lia).
  assert (Hone : ∀ a, PGROUNDUP va <= a < va + sz → a mod PGSIZE = 0 → a = va).
  { intros a Ha Hm. rewrite Hup in Ha. unfold PGSIZE in *.
    pose proof (Z.div_mod a 4096 ltac:(lia)). pose proof (Z.div_mod va 4096 ltac:(lia)).
    lia. }
  destruct (vregionaddmap_maps vr va sz pres wr m cs 1 c HN Hok Hva)
    as (vr' & m1 & cs' & n & Hmap & Hext & Hok' & Hfl & Hcnt & Hfr & Hcp & Hfresh & Hoth).
  - lia.
  - done.
  - done.
  - rewrite Hup. unfold PGSIZE in *. lia.
  - intros a Ha Hm. by rewrite (Hone a Ha Hm).
  - intros a a' Ha Hm Ha' Hm' Hne. rewrite (Hone a Ha Hm), (Hone a' Ha' Hm') in Hne. done.
  - done.
  - destruct (Hfresh va) as (p & Hrec & Hp1 & Hp2 & Hp3 & Hp4);
      [rewrite Hup; lia|done|].
    rewrite int32_small in Hmap by (unfold PGSIZE in *; lia).
    assert (Hrec' : info_at cs' (va2vpi_idx vr' va) = mk_vpi 1 p pres wr)
      by (by rewrite (same_extent_idx _ _ _ Hext)).
    assert (Hlen : (Z.to_nat (va2vpi_idx vr' va / VPIPPAGE) < length cs')%nat).
    { apply info_at_used_lookup. by rewrite Hrec'. }
    assert (Hidx' : 0 <= va2vpi_idx vr' va) by (by rewrite (same_extent_idx _ _ _ Hext)).
    destruct (va2vpage_info_hit vr' va m1 cs' HN Hok' Hidx' Hlen)
      as (q & Heq & _ & _ & Hget).
    unfold page_info in Hget.
    rewrite (vpi_at_chain _ _ _ _ (store_ok_chain _ _ _ Hok')), Hrec' in Hget.
    exists vr', (store p (DataPage (list_inserts 0 (take (Z.to_nat sz) data) zero_bytes)) m1),
      cs', n, p.
    split.
    { unfold vradddata. rewrite Hu64, Hmap. cbn [mbind outcome_bind].
      destruct (Z.ltb_spec sz 0); [lia|].
      destruct (Z.to_nat (sz / PGSIZE + 1)) as [|f] eqn:Hf.
      { pose proof (Z.div_pos sz PGSIZE). unfold PGSIZE in *. lia. }
      cbn [vradddata_loop]. rewrite Hu64. destruct (Z.ltb_spec 0 sz); [|lia].
      rewrite Z.add_0_r, (u64_small va) by (unfold PGSIZE in *; lia).
      rewrite Heq. cbn [mbind outcome_bind]. rewrite Hget.
      cbn [mbind outcome_bind used Z.eqb negb assert ppn].
      rewrite Z.sub_0_r, Hu64, Z.min_l by lia. rewrite !Z.add_0_l.
      destruct (Z.ltb_spec (Z.of_nat (length data)) sz); [lia|].
      cbn [mbind outcome_bind]. unfold write_bytes. rewrite Hp4.
      cbn [mbind outcome_bind]. change (Z.to_nat 0) with 0%nat. rewrite drop_0.
      change (u64 PGSIZE) with PGSIZE.
      rewrite vradddata_loop_done by (rewrite Hu64; lia). done. }
    split; [done|]. split; [by eapply store_ok_store_data|].
    split; [done|]. split; [simpl; lia|]. split.
    { intros x Hx1 Hx2. simpl. rewrite lookup_insert_ne; [by apply Hfr|].
      by intros <-. }
    split; [done|]. split; [done|]. split; [done|]. split; [done|]. split; [done|].
    split; [simpl; by rewrite lookup_insert_eq|].
    intros i Hi Hne. apply Hoth; [done|]. intros a Ha Hm. by rewrite (Hone a Ha Hm).
Qed.

(** The page-aligned addresses of a run of pages. *)
Lemma aligned_in_run lo n a :
  lo mod PGSIZE = 0 → lo <= a < lo + n * PGSIZE → a mod PGSIZE = 0 →
  ∃ k, 0 <= k < n ∧ a = lo + k * PGSIZE.
Proof.
  unfold PGSIZE. intros Hlo Ha Hm. exists ((a - lo) / 4096).
  pose proof (Z.div_mod a 4096 ltac:(lia)). pose proof (Z.div_mod lo 4096 ltac:(lia)).
  assert (a - lo = (a / 4096 - lo / 4096) * 4096) as -> by lia.
  rewrite Z.div_mul by lia. lia.
Qed.

(** The index of a page of an upward region with a page-aligned base. *)
Lemma va2vpi_idx_up_page vr k :
  dir vr = VRDIR_UP → 0 <= va_base vr → 0 <= k < 2 ^ 31 →
  va_base vr + k * PGSIZE < 2 ^ 64 →
  va2vpi_idx vr (va_base vr + k * PGSIZE) = k.
Proof.
  intros Hd Hb Hk Hlt. unfold va2vpi_idx, PAGE_SHIFT, PGSIZE in *. rewrite Hd.
  replace (va_base vr + k * 4096 - va_base vr) with (k * 4096) by lia.
  rewrite u64_small by lia. rewrite Z.shiftr_div_pow2 by lia.
  change (2 ^ 12) with 4096. rewrite Z.div_mul by lia. apply int32_small. lia.
Qed.

(** The page of [a] is mapped to the physical page [q], present and
    writable, in the records of the region and in the table. *)
Definition mapped_rw (vs : vspace) (m : kmem) (vr : vregion) (a q : Z) : Prop :=
  page_info m vr a = mk_vpi 1 q VPI_PRESENT VPI_WRITABLE ∧
  pgtbl vs !! Z.shiftr a PT_SHIFT
  = Some (mk_pte q (Z.lor (Z.lor PTE_U PTE_P) PTE_W)).

(** X22. [vspaceinitcode] on an address space as [vspaceinit] leaves it,
    for an image of at most a page, with chunks of six records or more and
    nine free pages: the call returns. The code region has base [0x10000]
    and six pages, the stack region base [SZ_2G] and one page, and the heap
    region is as [vspaceinit] left it, with base 0 and size 0. The first
    page of the code holds the image and zeros after it; the five pages
    after it and the page of the stack hold zeros. Each of these seven
    pages is mapped present and writable, in the records of its region and
    in the table that the rebuild at the end leaves. *)
Theorem vspaceinitcode_first_process vs0 pt init sz m :
  6 <= VPIPPAGE → SZ_2G < KERNBASE → KERNBASE <= 2 ^ 64 - PGSIZE →
  0 < sz <= PGSIZE → sz <= Z.of_nat (length init) →
  NoDup (freelist m) → (9 ≤ length (freelist m))%nat →
  ∃ vs' m' code heap stack p,
    vspaceinitcode (vspaceinit vs0 (Some pt)).2 init sz m = Ok (vs', m') ∧
    regions vs' = [code; heap; stack] ∧
    dir code = VRDIR_UP ∧ va_base code = 0x10000 ∧ size code = 6 * PGSIZE ∧
    heap = mk_vregion VRDIR_UP 0 0 None ∧
    dir stack = VRDIR_DOWN ∧ va_base stack = SZ_2G ∧ size stack = PGSIZE ∧
    mapped_rw vs' m' code 0x10000 p ∧
    ram m' !! p
    = Some (DataPage (list_inserts 0 (take (Z.to_nat sz) init) zero_bytes)) ∧
    (∀ a, 0x11000 <= a < 0x16000 → a mod PGSIZE = 0 →
       ∃ q, mapped_rw vs' m' code a q ∧ ram m' !! q = Some (DataPage zero_bytes)) ∧
    (∃ q, mapped_rw vs' m' stack (SZ_2G - PGSIZE) q ∧
          ram m' !! q = Some (DataPage zero_bytes)).
Proof.
  intros HV Hkb Hk Hsz Hdata Hnd Hfree.
  assert (HN : 0 < VPIPPAGE) by lia.
  set (code0 := mk_vregion VRDIR_UP 0x10000 (6 * PGSIZE) None).
  set (stack0 := mk_vregion VRDIR_DOWN SZ_2G PGSIZE None).
  set (heap0 := mk_vregion VRDIR_UP 0 0 None).
  assert (Hup : PGROUNDUP sz = PGSIZE) by (by apply PGROUNDUP_one_page).
  assert (Hidx0 : va2vpi_idx code0 0x10000 = 0) by reflexivity.
  assert (Hcode_idx : ∀ vr k, same_extent code0 vr → 0 <= k < 6 →
            va2vpi_idx vr (0x10000 + k * PGSIZE) = k).
  { intros vr k Hext Hk6. rewrite (same_extent_idx _ _ _ Hext).
    apply (va2vpi_idx_up_page code0 k); [done|simpl; lia|lia|].
    simpl. unfold PGSIZE. lia. }
  (* the page of the code *)
  destruct (vradddata_one_page_store code0 0x10000 init sz VPI_PRESENT VPI_WRITABLE
              m [] 1 HN)
    as (code1 & m1 & cs1 & n1 & p & EA & Hext1 & Hok1 & Hfl1 & Hcnt1 & Hfr1 & Hcp1 &
        Hrec1 & Hp1 & Hp2 & Hp3 & Hp4 & Hoth1).
  { by split. }
  { lia. }
  { reflexivity. }
  { done. }
  { unfold SZ_2G, PGSIZE in *. lia. }
  { done. }
  { done. }
  { rewrite Hidx0. lia. }
  { reflexivity. }
  { rewrite Hidx0, Z.div_0_l by lia. simpl. lia. }
  { lia. }
  rewrite Hidx0 in Hrec1, Hoth1.
  assert (Hl1 : (1 ≤ length cs1)%nat).
  { pose proof (info_at_used_lookup cs1 0) as Hl. rewrite Hrec1 in Hl.
    rewrite Z.div_0_l in Hl by lia. specialize (Hl ltac:(done)). simpl in Hl. lia. }
  (* the five pages after it *)
  assert (Hrun : ∀ a, PGROUNDUP 0x11000 <= a < 0x11000 + 5 * PGSIZE → a mod PGSIZE = 0 →
            ∃ k, 1 <= k < 6 ∧ a = 0x10000 + k * PGSIZE).
  { intros a Ha Hm. change (PGROUNDUP 0x11000) with 0x11000 in Ha.
    destruct (aligned_in_run 0x11000 5 a) as (k & Hk5 & ->); [reflexivity|lia|done|].
    exists (k + 1). unfold PGSIZE. lia. }
  destruct (vregionaddmap_maps code1 0x11000 (5 * PGSIZE) VPI_PRESENT VPI_WRITABLE
              m1 cs1 5 0 HN Hok1)
    as (code2 & m2 & cs2 & n2 & EB & Hext2 & Hok2 & Hfl2 & Hcnt2 & Hfr2 & Hcp2 &
        Hfresh2 & Hoth2).
  { lia. }
  { unfold PGSIZE. lia. }
  { unfold SZ_2G, PGSIZE in *. lia. }
  { done. }
  { change (PGROUNDUP 0x11000) with 0x11000. unfold PGSIZE. lia. }
  { intros a Ha Hm. destruct (Hrun a Ha Hm) as (k & Hk6 & ->).
    rewrite (Hcode_idx code1 k Hext1) by lia.
    split; [lia|]. split.
    - rewrite Hoth1 by lia. reflexivity.
    - rewrite Z.div_small by lia. simpl. lia. }
  { intros a a' Ha Hm Ha' Hm' Hne.
    destruct (Hrun a Ha Hm) as (k & Hk6 & ->).
    destruct (Hrun a' Ha' Hm') as (k' & Hk6' & ->).
    rewrite !(Hcode_idx code1 _ Hext1) by lia. intros ->. done. }
  { lia. }
  (* the page of the stack *)
  assert (Hnd2 : NoDup (freelist m2)).
  { destruct Hok2 as [_ H]. by apply NoDup_app in H as (_ & _ & ?). }
  assert (Hsidx : ∀ vr, same_extent stack0 vr → va2vpi_idx vr (SZ_2G - PGSIZE) = 0).
  { intros vr Hext. rewrite (same_extent_idx _ _ _ Hext). reflexivity. }
  assert (Hsone : ∀ a, PGROUNDUP (SZ_2G - PGSIZE) <= a < SZ_2G - PGSIZE + PGSIZE →
            a mod PGSIZE = 0 → a = SZ_2G - PGSIZE).
  { intros a Ha Hm. change (PGROUNDUP (SZ_2G - PGSIZE)) with (SZ_2G - PGSIZE) in Ha.
    destruct (aligned_in_run (SZ_2G - PGSIZE) 1 a) as (k & Hk1 & ->);
      [reflexivity|lia|done|]. unfold PGSIZE in *. lia. }
  destruct (vregionaddmap_maps stack0 (SZ_2G - PGSIZE) PGSIZE VPI_PRESENT VPI_WRITABLE
              m2 [] 1 1 HN)
    as (stack1 & m3 & cs3 & n3 & EC & Hext3 & Hok3 & Hfl3 & Hcnt3 & Hfr3 & Hcp3 &
        Hfresh3 & Hoth3).
  { by split. }
  { unfold SZ_2G, PGSIZE. lia. }
  { unfold PGSIZE. lia. }
  { unfold SZ_2G, PGSIZE in *. lia. }
  { done. }
  { change (PGROUNDUP (SZ_2G - PGSIZE)) with (SZ_2G - PGSIZE). lia. }
  { intros a Ha Hm. rewrite (Hsone a Ha Hm), (Hsidx stack0) by apply same_extent_refl.
    split; [lia|]. split; [reflexivity|]. rewrite Z.div_0_l by lia. simpl. lia. }
  { intros a a' Ha Hm Ha' Hm' Hne. rewrite (Hsone a Ha Hm), (Hsone a' Ha' Hm') in Hne.
    done. }
  { lia. }
  (* the stores in the memory that the last call leaves *)
  assert (Hext02 : same_extent code0 code2) by (by eapply same_extent_trans).
  assert (Hrec2 : info_at cs2 0 = mk_vpi 1 p VPI_PRESENT VPI_WRITABLE).
  { rewrite <- Hrec1. apply Hoth2; [lia|]. intros a Ha Hm.
    destruct (Hrun a Ha Hm) as (k & Hk6 & ->).
    rewrite (Hcode_idx code1 k Hext1) by lia. lia. }
  assert (Hl2 : (1 ≤ length cs2)%nat).
  { pose proof (info_at_used_lookup cs2 0) as Hl. rewrite Hrec2 in Hl.
    rewrite Z.div_0_l in Hl by lia. specialize (Hl ltac:(done)). simpl in Hl. lia. }
  destruct (Hfresh3 (SZ_2G - PGSIZE)) as (ps & Hrec3 & Hs1 & Hs2 & Hs3 & Hs4).
  { change (PGROUNDUP (SZ_2G - PGSIZE)) with (SZ_2G - PGSIZE). unfold PGSIZE. lia. }
  { reflexivity. }
  rewrite (Hsidx stack0) in Hrec3 by apply same_extent_refl.
  assert (Hl3 : (1 ≤ length cs3)%nat).
  { pose proof (info_at_used_lookup cs3 0) as Hl. rewrite Hrec3 in Hl.
    rewrite Z.div_0_l in Hl by lia. specialize (Hl ltac:(done)). simpl in Hl. lia. }
  assert (Hkeep : ∀ x, x ∉ freelist m2 → ram m3 !! x = ram m2 !! x).
  { intros x Hx. apply Hfr3; [apply not_elem_of_nil|done]. }
  assert (Hok2' : store_ok m3 code2 cs2).
  { destruct Hok2 as [Hc2 Hn2]. split.
    - eapply chain_frame; [|exact Hc2]. intros x Hx. apply Hkeep.
      intros Hf. apply NoDup_app in Hn2 as (_ & Hdis & _). by apply (Hdis x).
    - rewrite Hfl3. by apply NoDup_app_drop. }
  assert (Hnd3 : NoDup (freelist m3)).
  { destruct Hok3 as [_ H]. by apply NoDup_app in H as (_ & _ & ?). }
  assert (Hst : Forall2 (store_ok m3) [code2; heap0; stack1] [cs2; []; cs3]).
  { constructor; [done|]. constructor; [by split|]. constructor; [done|]. constructor. }
  destruct (same_extent_bounds _ _ Hext02) as [Hbot2 Htop2].
  destruct (same_extent_bounds _ _ Hext3) as [Hbot3 Htop3].
  change (VRBOT code0) with 0x10000 in Hbot2.
  change (VRTOP code0) with (0x10000 + 6 * PGSIZE) in Htop2.
  change (VRBOT stack0) with (SZ_2G - PGSIZE) in Hbot3.
  change (VRTOP stack0) with (SZ_2G - PGSIZE + 1 * PGSIZE) in Htop3.
  destruct (update_regions_returns m3 HN [code2; heap0; stack1] [cs2; []; cs3]
              (free_user_entries pt) Hst) as [pt' EU].
  { constructor; [rewrite Hbot2, Htop2; vm_compute; split; discriminate|].
    constructor; [vm_compute; split; discriminate|].
    constructor; [rewrite Hbot3, Htop3; vm_compute; split; discriminate|]. constructor. }
  { constructor; [by rewrite Hbot2|]. constructor; [reflexivity|].
    constructor; [by rewrite Hbot3|]. constructor. }
  { intros k vr cs a Hk' Hc Hrp. unfold region_page in Hrp.
    destruct k as [|[|[|k]]]; simpl in Hk', Hc; try done;
      injection Hk' as <-; injection Hc as <-.
    - rewrite Hbot2, Htop2 in Hrp. apply visited_aligned in Hrp as [Ha Hm]; [|reflexivity].
      destruct (aligned_in_run 0x10000 6 a) as (j & Hj & ->); [reflexivity|lia|done|].
      rewrite (Hcode_idx code2 j Hext02 Hj). split; [lia|].
      rewrite Z.div_small by lia. simpl. lia.
    - destruct Hrp as (j & Hj & -> & Hlt). change (VRTOP heap0) with 0 in Hlt.
      change (VRBOT heap0) with 0 in Hlt. unfold PGSIZE in Hlt. lia.
    - rewrite Hbot3, Htop3 in Hrp. apply visited_aligned in Hrp as [Ha Hm]; [|reflexivity].
      destruct (aligned_in_run (SZ_2G - PGSIZE) 1 a) as (j & Hj & ->);
        [reflexivity|lia|done|].
      assert (j = 0) as -> by lia. change (SZ_2G - PGSIZE + 0 * PGSIZE) with (SZ_2G - PGSIZE).
      rewrite (Hsidx stack1 Hext3). split; [lia|]. rewrite Z.div_0_l by lia. simpl. lia. }
  exists (mk_vspace [code2; heap0; stack1] pt'), m3, code2, heap0, stack1, p.
  split.
  { unfold vspaceinitcode.
    change (regions (vspaceinit vs0 (Some pt)).2)
      with [heap0; heap0; mk_vregion VRDIR_DOWN 0 0 None].
    change ([heap0; heap0; mk_vregion VRDIR_DOWN 0 0 None] !! VR_CODE) with (Some heap0).
    cbn iota. rewrite Hup.
    change (set_size (set_va_base heap0 65536) (u64 (PGSIZE + 5 * PGSIZE))) with code0.
    rewrite (int32_small sz) by (unfold PGSIZE in *; lia).
    rewrite EA. cbn [mbind outcome_bind].
    change (assert (0 =? 0)) with (Ok tt). cbn [mbind outcome_bind].
    pose proof Hext1 as (_ & Hb1 & _). rewrite Hb1.
    change (u64 (va_base code0 + PGSIZE)) with 0x11000.
    rewrite EB. cbn [mbind outcome_bind].
    change (assert (0 <=? int32 (5 * PGSIZE))) with (Ok tt). cbn [mbind outcome_bind].
    change (<[VR_CODE:=code2]> [heap0; heap0; mk_vregion VRDIR_DOWN 0 0 None] !! VR_USTACK)
      with (Some (mk_vregion VRDIR_DOWN 0 0 None)).
    cbn iota.
    change (set_size (set_va_base (mk_vregion VRDIR_DOWN 0 0 None) SZ_2G) PGSIZE)
      with stack0.
    change (u64 (SZ_2G - PGSIZE)) with (SZ_2G - PGSIZE).
    rewrite EC. cbn [mbind outcome_bind].
    change (assert (0 <=? int32 PGSIZE)) with (Ok tt). cbn [mbind outcome_bind].
    unfold vspaceupdate.
    change (regions (set_regions (vspaceinit vs0 (Some pt)).2
              (<[VR_USTACK:=stack1]>
                 (<[VR_CODE:=code2]> [heap0; heap0; mk_vregion VRDIR_DOWN 0 0 None]))))
      with [code2; heap0; stack1].
    change (pgtbl (set_regions (vspaceinit vs0 (Some pt)).2
              (<[VR_USTACK:=stack1]>
                 (<[VR_CODE:=code2]> [heap0; heap0; mk_vregion VRDIR_DOWN 0 0 None]))))
      with pt.
    by rewrite EU. }
  pose proof (store_ok_chain _ _ _ Hok2') as Hc2.
  pose proof (store_ok_chain _ _ _ Hok3) as Hc3.
  (* the table *)
  assert (Hss : stores_ok m3 ([] ++ [code2; heap0; stack1]) ([] ++ [cs2; []; cs3])).
  { split; [exact Hst|]. intros i j cs cs' x Hne Hi Hj Hx.
    assert (Hdis : ∀ y, y ∈ cpages cs2 → y ∉ cpages cs3).
    { intros y Hy Hy3. destruct (Hcp3 y Hy3) as [Hnil|Hf]; [by apply elem_of_nil in Hnil|].
      destruct Hok2 as [_ Hn2]. apply NoDup_app in Hn2 as (_ & Hd & _). by apply (Hd y). }
    destruct i as [|[|[|i]]]; simpl in Hi; try done; injection Hi as <-;
      destruct j as [|[|[|j]]]; simpl in Hj; try done; injection Hj as <-;
      try (by apply elem_of_nil in Hx); try apply not_elem_of_nil.
    - by apply Hdis.
    - intros Hx2. by apply (Hdis x). }
  assert (Hvpn : ∀ a, Z.shiftr a PT_SHIFT = a / PGSIZE).
  { intros a. unfold PT_SHIFT. by rewrite Z.shiftr_div_pow2 by lia. }
  assert (Hcode_pg : ∀ a, region_page code2 a → 0x10000 <= a < 0x16000 ∧ a mod PGSIZE = 0).
  { intros a Hrp. unfold region_page in Hrp. rewrite Hbot2, Htop2 in Hrp.
    apply visited_aligned in Hrp as [Ha Hm]; [|reflexivity]. unfold PGSIZE in *. lia. }
  assert (Hstack_pg : ∀ a, region_page stack1 a → a = SZ_2G - PGSIZE).
  { intros a Hrp. unfold region_page in Hrp. rewrite Hbot3, Htop3 in Hrp.
    apply visited_aligned in Hrp as [Ha Hm]; [|reflexivity].
    destruct (aligned_in_run (SZ_2G - PGSIZE) 1 a) as (j & Hj & ->);
      [reflexivity|lia|done|]. unfold PGSIZE. lia. }
  assert (Hheap_pg : ∀ a, ¬ region_page heap0 a).
  { intros a (j & Hj & -> & Hlt). change (VRTOP heap0) with 0 in Hlt.
    change (VRBOT heap0) with 0 in Hlt. unfold PGSIZE in Hlt. lia. }
  assert (Hns : no_shared_page [code2; heap0; stack1]).
  { assert (Hcs : ∀ a a', region_page code2 a → region_page stack1 a' →
              Z.shiftr a PT_SHIFT ≠ Z.shiftr a' PT_SHIFT).
    { intros a a' Ha Ha'. apply Hcode_pg in Ha as [Ha _]. apply Hstack_pg in Ha' as ->.
      rewrite !Hvpn. change ((SZ_2G - PGSIZE) / PGSIZE) with 0x7ffff.
      assert (a / PGSIZE < 0x16) by (apply Z.div_lt_upper_bound; unfold PGSIZE; lia).
      lia. }
    intros k k' vr vr' a a' Hne Hk1 Hk2 Ha Ha'.
    destruct k as [|[|[|k]]]; simpl in Hk1; try done; injection Hk1 as <-;
      destruct k' as [|[|[|k']]]; simpl in Hk2; try done; injection Hk2 as <-;
      try (by destruct (Hheap_pg _ Ha)); try (by destruct (Hheap_pg _ Ha')).
    - by apply Hcs.
    - intros Heq. by apply (Hcs a' a). }
  destruct (update_regions_inv [code2; heap0; stack1] [] [] [cs2; []; cs3]
              (free_user_entries pt) m3 [code2; heap0; stack1] pt' m3 HN eq_refl eq_refl Hss)
    as (css' & n4 & _ & _ & _ & _ & _ & _ & Htab & _); [..|exact EU|].
  { constructor; [rewrite Hbot2, Htop2; vm_compute; split; discriminate|].
    constructor; [vm_compute; split; discriminate|].
    constructor; [rewrite Hbot3, Htop3; vm_compute; split; discriminate|]. constructor. }
  { done. }
  assert (Hcode_tab : ∀ a q, 0x10000 <= a < 0x16000 → a mod PGSIZE = 0 →
            info_at cs2 (va2vpi_idx code2 a) = mk_vpi 1 q VPI_PRESENT VPI_WRITABLE →
            mapped_rw (mk_vspace [code2; heap0; stack1] pt') m3 code2 a q).
  { intros a q Ha Hm Hq. split.
    - unfold page_info. by rewrite (vpi_at_chain _ _ _ _ Hc2).
    - cbn [pgtbl]. destruct (Htab 0%nat code2 cs2 a eq_refl eq_refl) as [_ ->].
      + unfold region_page. rewrite Hbot2, Htop2. apply visited_aligned; [reflexivity|].
        unfold PGSIZE in *. lia.
      + by rewrite Hq. }
  destruct Hext02 as (Hd2 & Hb2 & Hz2). pose proof Hext3 as (Hd3 & Hb3 & Hz3).
  split; [done|]. split; [done|]. split; [done|]. split; [done|]. split; [done|].
  split; [done|]. split; [done|]. split; [done|].
  assert (Hp5 : p ∉ freelist m2).
  { rewrite Hfl2. intros Hin. by apply Hp2, (elem_of_drop _ n2). }
  split.
  { apply Hcode_tab; [lia|reflexivity|].
    change 65536 with (65536 + 0 * PGSIZE) at 1.
    by rewrite (Hcode_idx code2 0 (conj Hd2 (conj Hb2 Hz2))) by lia. }
  split.
  { rewrite (Hkeep p Hp5), (Hfr2 p Hp3 Hp2). exact Hp4. }
  split.
  { intros a Ha Hm.
    destruct (Hfresh2 a) as (q & Hq & Hq1 & Hq2 & Hq3 & Hq4).
    { change (PGROUNDUP 0x11000) with 0x11000. unfold PGSIZE. lia. }
    { done. }
    exists q. split; [|by rewrite (Hkeep q Hq2)].
    apply Hcode_tab; [lia|done|]. by rewrite (same_extent_idx _ _ _ Hext2). }
  exists ps. split; [|done]. split.
  - unfold page_info. rewrite (vpi_at_chain _ _ _ _ Hc3).
    by rewrite (Hsidx stack1 Hext3).
  - cbn [pgtbl]. destruct (Htab 2%nat stack1 cs3 (SZ_2G - PGSIZE) eq_refl eq_refl) as [_ ->].
    + unfold region_page. rewrite Hbot3, Htop3. apply visited_aligned; [reflexivity|].
      split; [unfold PGSIZE; lia|reflexivity].
    + by rewrite (Hsidx stack1 Hext3), Hrec3.
Qed.

(** ** What the loader returns *)

(** X23. [vspaceloadcode] returns the size of the last segment it loaded,
    and 0 when it fails. For a file whose one program header names a
    loadable segment of no bytes at a page-aligned address, the load
    succeeds: the entry point is stored, the code region gets the address
    of the segment as its base and size 0, the heap region starts a page
    after it, nothing is allocated; and the value returned is 0, the value
    of a failure. *)
Theorem vspaceloadcode_empty_segment vs ip elf ph m code heap :
  KERNBASE <= 2 ^ 64 - PGSIZE →
  i_elf ip = Some elf → elf_magic elf = ELF_MAGIC → elf_phnum elf = 1 →
  i_ph ip !! 0%nat = Some ph → ph_type ph = ELF_PROG_LOAD →
  ph_memsz ph = 0 → ph_filesz ph = 0 →
  0 <= ph_vaddr ph < KERNBASE → ph_vaddr ph mod PGSIZE = 0 →
  regions vs !! VR_CODE = Some code → regions vs !! VR_HEAP = Some heap →
  vspaceloadcode vs (Some ip) m
  = Ok (0, Some (elf_entry elf),
        set_regions vs
          (<[VR_HEAP := mk_vregion (dir heap) (ph_vaddr ph + PGSIZE) 0 (pages heap)]>
             (<[VR_CODE := mk_vregion (dir code) (ph_vaddr ph) 0 (pages code)]>
                (regions vs))), m).
Proof.
  intros Hk Helf Hmagic Hnum Hph Hty Hms Hfs Hva Hal Hcode Hheap.
  assert (Hlen : (1 < length (regions vs))%nat) by exact (lookup_lt_Some _ _ _ Hheap).
  assert (Hdown : PGROUNDDOWN (ph_vaddr ph) = ph_vaddr ph).
  { rewrite PGROUNDDOWN_eq, u64_small by (unfold PGSIZE in *; lia). lia. }
  assert (Hup : PGROUNDUP (ph_vaddr ph) = ph_vaddr ph)
    by (apply PGROUNDUP_id; unfold PGSIZE in *; lia).
  set (code1 := set_va_base code (ph_vaddr ph)).
  assert (Hseg : load_segment ip ph (mk_load true 0 0) vs m
                 = Ok (Some (mk_load false 0 (ph_vaddr ph)),
                       set_regions vs (<[VR_CODE := code1]> (regions vs)), m)).
  { unfold load_segment. rewrite Hms, Hfs, Z.add_0_r, Hcode.
    rewrite (u64_small (ph_vaddr ph)) by (unfold PGSIZE in *; lia).
    rewrite Z.ltb_irrefl. cbn [first_section]. rewrite Hdown. fold code1.
    unfold vregionaddmap. rewrite Z.add_0_l.
    rewrite (u64_small (ph_vaddr ph)) by (unfold PGSIZE in *; lia).
    destruct (Z.leb_spec KERNBASE (ph_vaddr ph)); [lia|].
    cbn [Z.leb Z.compare mbind outcome_bind Z.ltb].
    rewrite Hal. cbn [Z.eqb negb].
    unfold vrloaddata. rewrite Hal. cbn [Z.eqb assert mbind outcome_bind].
    change (u32 0) with 0. change (Z.to_nat (0 / PGSIZE + 1)) with 1%nat.
    cbn [vrloaddata_loop Z.ltb Z.compare mbind outcome_bind].
    cbn [set_regions regions]. rewrite Z.ltb_irrefl.
    unfold set_regions. cbn [pgtbl regions]. by rewrite list_insert_insert_eq. }
  unfold vspaceloadcode. rewrite Helf, Hmagic, Z.eqb_refl, Hnum. cbn [negb].
  change (Z.to_nat 1) with 1%nat. cbn [load_segments]. rewrite Hph, Hty, Z.eqb_refl.
  cbn [negb]. rewrite Hseg.
  cbn [mbind outcome_bind first_section negb assert code_end last_sz set_regions regions].
  unfold VR_CODE, VR_HEAP in *.
  rewrite list_lookup_insert_eq by lia. cbn iota.
  rewrite list_insert_insert_eq, list_lookup_insert_ne by done.
  rewrite Hheap. cbn iota.
  unfold code1. cbn [set_size set_va_base va_base dir size pages].
  rewrite Z.sub_diag, Hup. change (u64 0) with 0.
  rewrite (u64_small (ph_vaddr ph + PGSIZE)) by (unfold PGSIZE in *; lia).
  done.
Qed.

(** X24. A load that fails after a segment was loaded is not undone. For a
    file of two program headers whose first names a loadable segment of at
    most a page, at a page-aligned address, that loads, and whose second
    cannot be read or names a loadable segment with more bytes in the file
    than in memory: [vspaceloadcode] returns 0 and stores no entry point;
    the code region keeps the base that the first segment gave it and the
    size it had before the call, the page of the first segment stays
    mapped, and the pages taken for it are not given back. *)
Theorem vspaceloadcode_failure_not_undone vs ip elf phA m code cs :
  0 < VPIPPAGE → KERNBASE <= 2 ^ 64 - PGSIZE →
  i_elf ip = Some elf → elf_magic elf = ELF_MAGIC → elf_phnum elf = 2 →
  i_ph ip !! 0%nat = Some phA → ph_type phA = ELF_PROG_LOAD →
  (i_ph ip !! 1%nat = None ∨
   ∃ phB, i_ph ip !! 1%nat = Some phB ∧ ph_type phB = ELF_PROG_LOAD ∧
          ph_memsz phB < ph_filesz phB) →
  regions vs !! VR_CODE = Some code → dir code = VRDIR_UP → store_ok m code cs →
  0 <= ph_vaddr phA → ph_vaddr phA mod PGSIZE = 0 →
  0 < ph_filesz phA → ph_filesz phA <= ph_memsz phA → ph_memsz phA <= PGSIZE →
  ph_vaddr phA + ph_memsz phA < KERNBASE →
  0 <= ph_off phA < 2 ^ 32 →
  (Z.to_nat (ph_off phA) + Z.to_nat (ph_filesz phA) ≤ length (i_data ip))%nat →
  used (info_at cs 0) = 0 → (1 - length cs < length (freelist m))%nat →
  ∃ code' m' cs',
    vspaceloadcode vs (Some ip) m
    = Ok (0, None, set_regions vs (<[VR_CODE := code']> (regions vs)), m') ∧
    dir code' = VRDIR_UP ∧ va_base code' = ph_vaddr phA ∧ size code' = size code ∧
    store_ok m' code' cs' ∧
    used (page_info m' code' (ph_vaddr phA)) ≠ 0 ∧
    freelist m' = drop (S (1 - length cs)) (freelist m).
Proof.
  intros HN Hk Helf Hmagic Hnum HphA HtyA HphB Hcode Hdir Hok Hva Hal Hfs Hfm Hms
    Hkb Hoff Hfile Hu Hfree.
  assert (Hdown : PGROUNDDOWN (ph_vaddr phA) = ph_vaddr phA).
  { rewrite PGROUNDDOWN_eq, u64_small by (unfold PGSIZE in *; lia). lia. }
  set (code0 := set_va_base code (ph_vaddr phA)).
  assert (Hidx : va2vpi_idx code0 (ph_vaddr phA) = 0).
  { unfold va2vpi_idx, code0. cbn [set_va_base dir va_base]. rewrite Hdir, Z.sub_diag.
    reflexivity. }
  destruct (load_segment_one_page ip phA (mk_load true 0 0) vs m code cs HN Hk Hcode)
    as (code' & m' & cs' & Eseg & Hext & Hok' & Hu' & _ & Hfl);
    cbn [first_section]; rewrite ?Hdown; fold code0; rewrite ?Hidx; try done.
  cbn [first_section] in Hext, Hu', Hfl. rewrite Hdown in Hext, Hu', Hfl.
  fold code0 in Hext, Hu', Hfl. rewrite Hidx in Hu', Hfl.
  rewrite Z.div_0_l in Hfl by lia. change (Z.to_nat 0) with 0%nat in Hfl.
  exists code', m', cs'. split.
  { unfold vspaceloadcode. rewrite Helf, Hmagic, Z.eqb_refl, Hnum. cbn [negb].
    change (Z.to_nat 2) with 2%nat. cbn [load_segments].
    rewrite HphA, HtyA, Z.eqb_refl. cbn [negb]. rewrite Eseg.
    cbn [mbind outcome_bind].
    destruct HphB as [-> | (phB & -> & HtyB & Hbad)]; [done|].
    rewrite HtyB, Z.eqb_refl. cbn [negb]. unfold load_segment.
    destruct (Z.ltb_spec (ph_memsz phB) (ph_filesz phB)); [done|lia]. }
  destruct Hext as (Hd & Hb & Hz).
  split; [by rewrite Hd|]. split; [by rewrite Hb|]. split; [by rewrite Hz|].
  split; [done|]. split; [|done].
  unfold page_info. rewrite (vpi_at_chain _ _ _ _ (store_ok_chain _ _ _ Hok')).
  by rewrite (same_extent_idx _ _ _ (conj Hd (conj Hb Hz))), Hidx.
Qed.

(** ** A second rebuild *)

(** The loops of the rebuild read the regions and the memory only: run on
    another table they take the same way, and an entry of the table they
    leave is the one they wrote, or is untouched in both runs. *)
Lemma update_pages_rel fuel : ∀ vr start stop pt m vr' pt' m' pt0,
  update_pages fuel vr start stop pt m = Ok (vr', pt', m') →
  ∃ pt0', update_pages fuel vr start stop pt0 m = Ok (vr', pt0', m') ∧
    ∀ vpn, pt0' !! vpn = pt' !! vpn ∨
           (pt' !! vpn = pt !! vpn ∧ pt0' !! vpn = pt0 !! vpn).
Proof.
  induction fuel as [|fuel IH]; intros vr start stop pt m vr' pt' m' pt0; simpl.
  - destruct (start <? stop); [discriminate|]. intros [= <- <- <-].
    exists pt0. split; [done|]. intros vpn. by right.
  - destruct (start <? stop); last first.
    { intros [= <- <- <-]. exists pt0. split; [done|]. intros vpn. by right. }
    intros H. inv_bind H. destruct a as [[q vr1] m1]. rewrite E. cbn [mbind outcome_bind].
    destruct q as [q|]; [|discriminate].
    inv_bind H. rewrite E0. cbn [mbind outcome_bind].
    destruct (IH _ _ _ _ _ _ _ _
                (if used a =? 0 then pt0
                 else mappages pt0 (Z.shiftr start PT_SHIFT) (ppn a) (x86perms a)) H)
      as (pt0' & E' & Hrel).
    exists pt0'. split; [done|]. intros vpn. destruct (Hrel vpn) as [Heq | [H1 H2]]; [by left|].
    destruct (used a =? 0); [by right|]. unfold mappages in *.
    destruct (decide (vpn = Z.shiftr start PT_SHIFT)) as [->|Hne].
    + left. rewrite H1, H2. by rewrite !lookup_insert_eq.
    + right. rewrite H1, H2. by rewrite !lookup_insert_ne.
Qed.

Lemma update_regions_rel : ∀ rs pt m rs' pt' m' pt0,
  update_regions rs pt m = Ok (rs', pt', m') →
  ∃ pt0', update_regions rs pt0 m = Ok (rs', pt0', m') ∧
    ∀ vpn, pt0' !! vpn = pt' !! vpn ∨
           (pt' !! vpn = pt !! vpn ∧ pt0' !! vpn = pt0 !! vpn).
Proof.
  induction rs as [|vr rs IH]; intros pt m rs' pt' m' pt0.
  - intros [= <- <- <-]. exists pt0. split; [done|]. intros vpn. by right.
  - cbn [update_regions]. intros H. inv_bind H. rewrite E. cbn [mbind outcome_bind].
    inv_bind H. destruct a0 as [[vr1 pt1] m1].
    destruct (update_pages_rel _ _ _ _ _ _ _ _ _ pt0 E0) as (pt01 & E1 & Hrel1).
    rewrite E1. cbn [mbind outcome_bind].
    inv_bind H. destruct a0 as [[rs1 pt2] m2].
    destruct (IH _ _ _ _ _ pt01 E2) as (pt02 & E3 & Hrel2).
    rewrite E3. cbn [mbind outcome_bind]. injection H as <- <- <-.
    exists pt02. split; [done|]. intros vpn.
    destruct (Hrel2 vpn) as [Heq | [H1 H2]]; [by left|].
    destruct (Hrel1 vpn) as [Heq | [H3 H4]]; [left|right; split]; congruence.
Qed.

(** X25. A second rebuild changes nothing. On an address space with
    well-formed stores whose regions have page-aligned bottoms between 0 and
    a page below [2^64], when the chunk of every page of every region is in
    the chain of its region: [vspaceupdate] returns an address space with
    the same regions and leaves the memory as it was, and [vspaceupdate] on
    the address space it returned returns that address space again: the
    table of the second rebuild has the entries of the first. *)
Theorem vspaceupdate_idempotent vs m css :
  0 < VPIPPAGE → Forall2 (store_ok m) (regions vs) css →
  Forall (λ vr, 0 <= VRBOT vr ∧ VRTOP vr <= 2 ^ 64 - PGSIZE) (regions vs) →
  Forall (λ vr, VRBOT vr mod PGSIZE = 0) (regions vs) →
  (∀ k vr cs a, regions vs !! k = Some vr → css !! k = Some cs → region_page vr a →
     0 <= va2vpi_idx vr a ∧ (Z.to_nat (va2vpi_idx vr a / VPIPPAGE) < length cs)%nat) →
  ∃ vs1, vspaceupdate vs m = Ok (vs1, m) ∧ regions vs1 = regions vs ∧
         vspaceupdate vs1 m = Ok (vs1, m).
Proof.
  intros HN Hst Hb Hal Hin.
  destruct (update_regions_returns m HN (regions vs) css
              (free_user_entries (pgtbl vs)) Hst Hb Hal Hin) as [pt1 E1].
  exists (mk_vspace (regions vs) pt1). unfold vspaceupdate. rewrite E1.
  split; [done|]. split; [done|]. cbn [regions pgtbl].
  destruct (update_regions_rel _ _ _ _ _ _ (free_user_entries pt1) E1)
    as (pt2 & E2 & Hrel).
  rewrite E2. cbn [mbind outcome_bind]. do 3 f_equal.
  apply map_eq. intros vpn. destruct (Hrel vpn) as [Heq | [H1 H2]]; [done|].
  rewrite H2. unfold free_user_entries in *.
  destruct (pt1 !! vpn) as [e|] eqn:Hv.
  - symmetry in H1. apply map_lookup_filter_Some in H1 as [_ HP].
    apply map_lookup_filter_Some. by split.
  - apply map_lookup_filter_None. by left.
Qed.

End Layout.

(** * The properties on concrete inputs

    The constants left open above are given the values of the kernel's
    headers: the split at [0xFFFFFFFF80000000] and 169 records in a chunk
    (a page of 4096 bytes holds 170 records of 24 bytes, one of which gives
    way to the link). *)

Definition KERNBASE_xk : Z := 0xFFFFFFFF80000000.
Definition VPIPPAGE_xk : Z := 169.

(** A region as [vspaceinit] leaves it, for each direction. *)
Definition fresh_up : vregion := mk_vregion VRDIR_UP 0 0 None.
Definition fresh_down : vregion := mk_vregion VRDIR_DOWN 0 0 None.

(** An address space as [vspaceinit] leaves it, the hardware table taken
    empty. *)
Definition fresh_vspace : vspace := mk_vspace [fresh_up; fresh_up; fresh_down] ∅.

(** A memory with the free pages [l] and nothing written. *)
Definition blank (l : list Z) : kmem := mk_kmem l ∅.

(** An upward region of one page at [0x1000]. *)
Definition one_page_region : vregion := mk_vregion VRDIR_UP 0x1000 0x1000 None.

Lemma vregioncontains_spec_witness :
  vregioncontains one_page_region 0x2000 0 = 0 ∧
  vregioncontains one_page_region 0x1800 0 = 1 ∧
  vregioncontains one_page_region 0x1800 0x800 = 1.
Proof.
  split; [|split].
  - apply (proj1 (vregioncontains_spec one_page_region 0x2000 0
                    ltac:(lia) ltac:(lia) ltac:(lia))); reflexivity.
  - apply (proj1 (proj2 (vregioncontains_spec one_page_region 0x1800 0
                           ltac:(lia) ltac:(lia) ltac:(lia)))); [reflexivity|].
    change (VRBOT one_page_region) with 0x1000.
    change (VRTOP one_page_region) with 0x2000. lia.
  - apply (proj2 (proj2 (vregioncontains_spec one_page_region 0x1800 0x800
                           ltac:(lia) ltac:(lia) ltac:(lia)))); [lia|].
    intros x Hx. change (VRBOT one_page_region) with 0x1000.
    change (VRTOP one_page_region) with 0x2000. lia.
Defined.

(** C9 as stated fails: the one byte at the top address of the region lies
    in the closed range from bottom to top, and the test rejects it. *)
Lemma vregioncontains_closed_top_counterexample :
  (∀ x, 0x2000 <= x < 0x2000 + 1 →
        VRBOT one_page_region <= x <= VRTOP one_page_region) ∧
  vregioncontains one_page_region 0x2000 1 = 0.
Proof.
  split; [|reflexivity].
  intros x Hx. change (VRBOT one_page_region) with 0x1000.
  change (VRTOP one_page_region) with 0x2000. lia.
Qed.

Lemma vregionaddmap_entry_tests_witness :
  vregionaddmap KERNBASE_xk VPIPPAGE_xk fresh_up KERNBASE_xk 0x1000 1 1 (blank [7])
    = Ok (-1, fresh_up, blank [7]) ∧
  vregionaddmap KERNBASE_xk VPIPPAGE_xk fresh_up 0x1000 0 1 1 (blank [7])
    = Ok (0, fresh_up, blank [7]).
Proof.
  split.
  - apply (vregionaddmap_entry_tests KERNBASE_xk VPIPPAGE_xk). vm_compute. discriminate.
  - apply (vregionaddmap_entry_tests KERNBASE_xk VPIPPAGE_xk); vm_compute; [done|discriminate].
Defined.

(** C4 as stated fails: with [sz] equal to 0 and [from_va] at the split the
    call returns -1, not 0. *)
Lemma vregionaddmap_zero_size_counterexample :
  vregionaddmap KERNBASE_xk VPIPPAGE_xk fresh_up KERNBASE_xk 0 1 1 (blank [7])
    = Ok (-1, fresh_up, blank [7]).
Proof. reflexivity. Qed.

Lemma va2vpage_info_first_chunk_unchecked_witness :
  va2vpage_info VPIPPAGE_xk fresh_up 0 (blank []) = Fault NullDeref.
Proof.
  apply (va2vpage_info_first_chunk_unchecked VPIPPAGE_xk fresh_up 0 (blank []));
    reflexivity.
Defined.

(** An upward region at [0x10000] with an empty store. *)
Definition code_at_64k : vregion := mk_vregion VRDIR_UP 0x10000 0 None.

Lemma vregionaddmap_success_witness :
  ∃ vr' m',
    vregionaddmap KERNBASE_xk VPIPPAGE_xk code_at_64k 0x10000 0x2000 1 1
      (blank [1; 2; 3; 4]) = Ok (0x2000, vr', m') ∧
    same_extent code_at_64k vr' ∧
    (∀ a, PGROUNDUP 0x10000 <= a < 0x10000 + 0x2000 → a mod PGSIZE = 0 →
          ∃ p, page_info VPIPPAGE_xk m' vr' a = mk_vpi 1 p 1 1 ∧
               p ∈ [1; 2; 3; 4] ∧ (p ∉ freelist m') ∧
               ram m' !! p = Some (DataPage zero_bytes)) ∧
    ppn (page_info VPIPPAGE_xk m' vr' 0x10000) ≠ ppn (page_info VPIPPAGE_xk m' vr' 0x11000).
Proof.
  destruct (vregionaddmap KERNBASE_xk VPIPPAGE_xk code_at_64k 0x10000 0x2000 1 1
              (blank [1; 2; 3; 4])) as [[[r vr'] m']| |] eqn:E;
    [|vm_compute in E; discriminate..].
  assert (Hr : r = 0x2000) by (vm_compute in E; congruence). subst r.
  assert (H0 : 0 < VPIPPAGE_xk) by reflexivity.
  assert (H1 : KERNBASE_xk <= 2 ^ 64 - PGSIZE) by (vm_compute; discriminate).
  assert (H2 : store_ok VPIPPAGE_xk (blank [1; 2; 3; 4]) code_at_64k []).
  { split; [reflexivity|]. simpl. apply NoDup_ListNoDup.
    repeat constructor; simpl; intuition lia. }
  destruct (vregionaddmap_success KERNBASE_xk VPIPPAGE_xk code_at_64k
              0x10000 0x2000 1 1 (blank [1; 2; 3; 4]) [] 0x2000 vr' m' H0 H1 H2)
    as (_ & _ & Hext & Hpages & Hdis & _); [lia|lia|lia|exact E|lia|].
  exists vr', m'. split; [done|]. split; [done|]. split; [done|].
  apply Hdis; [|reflexivity| |reflexivity|lia];
    (vm_compute; split; [discriminate|reflexivity]).
Defined.

(** A downward region of one page with its base at address 0, as
    [vspaceinitstack(vs, 0)] sets the stack region before it maps the
    page. *)
Definition stack_at_zero : vregion := mk_vregion VRDIR_DOWN 0 PGSIZE None.

(** C3 as stated fails for a range that wraps around [2^64] and for a size
    above [INT_MAX]. The call for the page under address 0 passes the
    entry tests on the wrapped sum, runs no round of the loop and returns
    the size: the call is a success, the page-aligned address
    [2^64 - 4096] of its range has no mapped record, and no page was taken.
    A call with the size [2^32 + 5] returns 5. *)
Lemma vregionaddmap_wrapped_range_counterexample :
  vregionaddmap KERNBASE_xk VPIPPAGE_xk stack_at_zero (2 ^ 64 - 4096) 4096 1 1
    (blank [1; 2]) = Ok (4096, stack_at_zero, blank [1; 2]) ∧
  PGROUNDUP (2 ^ 64 - 4096) = 2 ^ 64 - 4096 ∧
  (2 ^ 64 - 4096) mod PGSIZE = 0 ∧
  used (page_info VPIPPAGE_xk (blank [1; 2]) stack_at_zero (2 ^ 64 - 4096)) = 0 ∧
  vregionaddmap KERNBASE_xk VPIPPAGE_xk fresh_up 0xFFFFFFFF00000000 (2 ^ 32 + 5) 1 1
    (blank [1]) = Ok (5, fresh_up, blank [1]).
Proof. repeat split; vm_compute; reflexivity. Qed.

(** A store of one chunk, on page 1, in which the record with index 1 is
    mapped to page 2, and a memory that holds it and has no free page. *)
Definition chunk_second_mapped : vpi_page :=
  mk_chunk (<[1%nat := mk_vpi 1 2 1 1]> (replicate (Z.to_nat VPIPPAGE_xk) vpi_zero)) None.
Definition mem_second_mapped (fl : list Z) : kmem :=
  mk_kmem fl (<[1 := ChunkPage chunk_second_mapped]> (<[2 := DataPage zero_bytes]> ∅)).
Definition code_second_mapped : vregion :=
  mk_vregion VRDIR_UP 0x10000 0x2000 (Some 1).

Lemma store_ok_second_mapped fl :
  NoDup (1 :: fl) →
  store_ok VPIPPAGE_xk (mem_second_mapped fl) code_second_mapped
    [(1, infos chunk_second_mapped)].
Proof.
  intros Hnd. split; [|exact Hnd].
  simpl. split; [done|]. split; [reflexivity|]. exists None. split; [|done].
  unfold mem_second_mapped. simpl. by rewrite lookup_insert_eq.
Qed.

Lemma vregionaddmap_already_mapped_witness :
  (∀ r vr' m',
      vregionaddmap KERNBASE_xk VPIPPAGE_xk code_second_mapped 0x10000 0x2000 1 1
        (mem_second_mapped [3; 4]) = Ok (r, vr', m') →
      r = -1 ∧
      page_info VPIPPAGE_xk m' vr' 0x11000
      = page_info VPIPPAGE_xk (mem_second_mapped [3; 4]) code_second_mapped 0x11000) ∧
  vregionaddmap KERNBASE_xk VPIPPAGE_xk code_second_mapped 0x10000 0x2000 1 1
    (mem_second_mapped [3; 4]) = Fault AssertFailed.
Proof.
  destruct (vregionaddmap_already_mapped KERNBASE_xk VPIPPAGE_xk
              code_second_mapped 0x10000 0x2000 1 1 (mem_second_mapped [3; 4])
              [(1, infos chunk_second_mapped)] 0x11000 1 0) as [A B].
  - reflexivity.
  - vm_compute. discriminate.
  - apply store_ok_second_mapped. apply NoDup_ListNoDup.
    repeat constructor; simpl; intuition lia.
  - lia.
  - vm_compute. split; [discriminate|reflexivity].
  - reflexivity.
  - vm_compute. discriminate.
  - vm_compute. discriminate.
  - split; [exact A|]. apply B.
    + reflexivity.
    + reflexivity.
    + intros a Ha Hm. change (PGROUNDUP 0x10000) with 0x10000 in Ha.
      assert (a = 0x10000) as ->.
      { unfold PGSIZE in Hm. pose proof (Z.div_mod a 4096 ltac:(lia)). lia. }
      split; [vm_compute; discriminate|vm_compute; lia].
    + simpl. lia.
Defined.

(** C8 as stated fails: the second page of the range is mapped, no page is
    free, and the call returns -1 at the first page of the range without
    reaching the assertion. *)
Lemma vregionaddmap_already_mapped_counterexample :
  (PGROUNDUP 0x10000 <= 0x11000 < 0x10000 + 0x2000) ∧
  used (page_info VPIPPAGE_xk (mem_second_mapped []) code_second_mapped 0x11000) = 1 ∧
  vregionaddmap KERNBASE_xk VPIPPAGE_xk code_second_mapped 0x10000 0x2000 1 1
    (mem_second_mapped [])
  = Ok (-1, code_second_mapped, mem_second_mapped []).
Proof.
  split; [|split].
  - vm_compute. split; [discriminate|reflexivity].
  - reflexivity.
  - vm_compute. reflexivity.
Qed.

(** Two pages from address 0 in a fresh region, with two free pages: the
    first goes to the chunk, the second to the page at 0, and none is left
    for the page at [0x1000]. The rollback unmaps the page at 0, steps below
    0 to [2^64 - 4096], and the look-up there computes the index -1. *)
Lemma vregionaddmap_rollback_from_zero_witness :
  (∀ res, vregionaddmap KERNBASE_xk VPIPPAGE_xk fresh_up 0 0x2000 1 1 (blank [1; 2])
          ≠ Ok res) ∧
  vregionaddmap KERNBASE_xk VPIPPAGE_xk fresh_up 0 0x2000 1 1 (blank [1; 2])
  = Fault BadIndex.
Proof.
  split; [|vm_compute; reflexivity].
  eapply (vregionaddmap_rollback_from_zero KERNBASE_xk VPIPPAGE_xk fresh_up
            0 0x2000 1 1 (blank [1; 2])).
  - reflexivity.
  - lia.
  - vm_compute. reflexivity.
  - vm_compute. reflexivity.
Defined.

(** The image of the scenario, with 'A' bytes for the two segments, and a
    load of it into a fresh address space with four free pages. *)
Definition image_two_segments : inode :=
  mk_inode (Some (mk_elfhdr ELF_MAGIC 2 0x10000))
    [mk_proghdr ELF_PROG_LOAD 5 0x1000 0x10000 0x100 0x1000;
     mk_proghdr ELF_PROG_LOAD 6 0x2000 0x11000 0x50 0x50]
    (replicate 0x3000%nat "A"%byte).

Lemma image_two_segments_ok : two_segment_image image_two_segments.
Proof. exists 0x10000, 5, 6, 0x1000, 0x2000. by repeat split. Qed.

Lemma vspaceloadcode_two_segments_witness :
  ∃ rip vs' m',
    vspaceloadcode KERNBASE_xk VPIPPAGE_xk fresh_vspace (Some image_two_segments)
      (blank [1; 2; 3; 4]) = Ok (0x50, Some rip, vs', m') ∧
    ∃ code heap,
      regions vs' !! VR_CODE = Some code ∧ regions vs' !! VR_HEAP = Some heap ∧
      va_base code = 0x10000 ∧ size code = 0x1050 ∧
      va_base heap = 0x13000 ∧ size heap = 0.
Proof.
  destruct (vspaceloadcode_two_segments KERNBASE_xk VPIPPAGE_xk fresh_vspace
              image_two_segments (blank [1; 2; 3; 4]) image_two_segments_ok)
    as [Hregions Hsuccess].
  destruct Hsuccess as (rip & vs' & m' & E).
  - reflexivity.
  - reflexivity.
  - vm_compute. discriminate.
  - intros ph Hin. simpl in Hin.
    apply elem_of_cons in Hin as [->|Hin];
      [|apply elem_of_cons in Hin as [->|Hin]; [|by apply elem_of_nil in Hin]];
      (split; [simpl; lia|apply Nat.leb_le; vm_compute; reflexivity]).
  - by exists fresh_up, fresh_up.
  - apply NoDup_ListNoDup. repeat constructor; simpl; intuition lia.
  - simpl. lia.
  - exists rip, vs', m'. split; [exact E|]. by destruct (Hregions _ _ _ _ E).
Defined.

(** C5 as stated fails: after the load the heap region starts at
    [0x13000], not at [0x12000]. *)
Lemma vspaceloadcode_heap_base_counterexample :
  ∃ r rip vs' m' heap,
    vspaceloadcode KERNBASE_xk VPIPPAGE_xk fresh_vspace (Some image_two_segments)
      (blank [1; 2; 3; 4]) = Ok (r, Some rip, vs', m') ∧
    regions vs' !! VR_HEAP = Some heap ∧
    va_base heap = 0x13000 ∧ va_base heap ≠ 0x12000.
Proof.
  eexists _, _, _, _, _. split; [vm_compute; reflexivity|].
  split; [reflexivity|]. split; [reflexivity|]. discriminate.
Qed.

(** An address space whose code region has its second page mapped, with a
    stale entry for the first page in the table. *)
Definition vspace_second_mapped : vspace :=
  mk_vspace [code_second_mapped; fresh_up; fresh_down] {[ 0x10 := mk_pte 9 7 ]}.

Lemma region_page_fresh_up a : ¬ region_page fresh_up a.
Proof. intros (k & Hk & -> & Hlt). vm_compute in Hlt. destruct k; try done. Qed.

Lemma region_page_fresh_down a : ¬ region_page fresh_down a.
Proof. intros (k & Hk & -> & Hlt). vm_compute in Hlt. destruct k; try done. Qed.

Lemma no_shared_page_second_mapped : no_shared_page (regions vspace_second_mapped).
Proof.
  intros k k' vr vr' a a' Hne Hk Hk' Ha Ha'.
  destruct k as [|[|[|k]]]; destruct k' as [|[|[|k']]]; simpl in Hk, Hk';
    try done; simplify_eq;
    try (by destruct (region_page_fresh_up _ Ha));
    try (by destruct (region_page_fresh_up _ Ha'));
    try (by destruct (region_page_fresh_down _ Ha));
    by destruct (region_page_fresh_down _ Ha').
Qed.

Lemma stores_ok_second_mapped fl :
  NoDup (1 :: fl) →
  stores_ok VPIPPAGE_xk (mem_second_mapped fl) (regions vspace_second_mapped)
    [[(1, infos chunk_second_mapped)]; []; []].
Proof.
  intros Hnd. assert (Hfl : NoDup fl) by (by apply NoDup_cons in Hnd as [_ ?]).
  split.
  - constructor; [apply (store_ok_second_mapped fl Hnd)|].
    constructor; [by split|]. constructor; [by split|]. constructor.
  - intros i j cs cs' p Hne Hi Hj Hp.
    destruct j as [|[|[|j]]]; simpl in Hj; try done; simplify_eq;
      try apply not_elem_of_nil.
    destruct i as [|[|[|i]]]; simpl in Hi; try done; simplify_eq;
      by apply elem_of_nil in Hp.
Qed.

Lemma vspaceupdate_mirrors_witness :
  ∃ vs' m' vr',
    vspaceupdate VPIPPAGE_xk vspace_second_mapped (mem_second_mapped [3])
      = Ok (vs', m') ∧
    regions vs' !! 0%nat = Some vr' ∧
    (hw_present (pgtbl vs') 0x11000 ↔
       used (page_info VPIPPAGE_xk m' vr' 0x11000) ≠ 0 ∧
       present (page_info VPIPPAGE_xk m' vr' 0x11000) ≠ 0) ∧
    (used (page_info VPIPPAGE_xk m' vr' 0x10000) ≠ 0 ↔
       is_Some (pgtbl vs' !! Z.shiftr 0x10000 PT_SHIFT)).
Proof.
  destruct (vspaceupdate VPIPPAGE_xk vspace_second_mapped (mem_second_mapped [3]))
    as [[vs' m']| |] eqn:E; [|vm_compute in E; discriminate..].
  assert (H0 : 0 < VPIPPAGE_xk) by reflexivity.
  assert (H1 : stores_ok VPIPPAGE_xk (mem_second_mapped [3])
                 (regions vspace_second_mapped) [[(1, infos chunk_second_mapped)]; []; []]).
  { apply stores_ok_second_mapped, NoDup_ListNoDup.
    repeat constructor; simpl; intuition lia. }
  assert (H2 : Forall (λ vr, 0 <= VRBOT vr ∧ VRTOP vr <= 2 ^ 39)
                      (regions vspace_second_mapped)).
  { repeat constructor; vm_compute; discriminate. }
  pose proof (vspaceupdate_mirrors VPIPPAGE_xk vspace_second_mapped
                (mem_second_mapped [3]) _ vs' m' H0 H1 H2
                no_shared_page_second_mapped E 0%nat code_second_mapped) as H.
  destruct (H 0x11000 eq_refl) as (vr' & Hk & _ & _ & Hp & _).
  { vm_compute. split; [discriminate|reflexivity]. }
  { reflexivity. }
  destruct (H 0x10000 eq_refl) as (vr'' & Hk' & _ & _ & _ & Hu & _).
  { vm_compute. split; [discriminate|reflexivity]. }
  { reflexivity. }
  rewrite Hk in Hk'. inversion Hk'; subst vr''.
  by exists vs', m', vr'.
Defined.

(** An address space whose first region is one page at [2^39], with no
    page mapped, and a table that still holds a present entry for that
    page. *)
Definition vspace_high : vspace :=
  mk_vspace [mk_vregion VRDIR_UP (2 ^ 39) 0x1000 None; fresh_up; fresh_down]
    {[ 2 ^ 27 := mk_pte 5 7 ]}.

(** C1 as stated fails: the rebuild clears the entries under the first
    top-level entry only, so the stale present mapping of the page at [2^39]
    stays although the record of the page is not mapped. *)
Lemma vspaceupdate_stale_entry_counterexample :
  ∃ vs' m' vr',
    vspaceupdate VPIPPAGE_xk vspace_high (blank [1]) = Ok (vs', m') ∧
    regions vs' !! 0%nat = Some vr' ∧
    VRBOT vr' <= 2 ^ 39 < VRTOP vr' ∧ 2 ^ 39 mod PGSIZE = 0 ∧
    hw_present (pgtbl vs') (2 ^ 39) ∧
    used (page_info VPIPPAGE_xk m' vr' (2 ^ 39)) = 0.
Proof.
  eexists _, _, _. split; [vm_compute; reflexivity|].
  split; [reflexivity|]. split; [vm_compute; split; [discriminate|reflexivity]|].
  split; [reflexivity|]. split; [|reflexivity].
  exists (mk_pte 5 7). split; [reflexivity|]. vm_compute. discriminate.
Qed.

(** The records of the store of [code_second_mapped] point to page 2 or to
    no page. *)
Lemma ppn_second_mapped fl j :
  used (vpi_at VPIPPAGE_xk (mem_second_mapped fl) code_second_mapped j) ≠ 0 →
  ppn (vpi_at VPIPPAGE_xk (mem_second_mapped fl) code_second_mapped j) = 2.
Proof.
  assert (Hall : ∀ v, In v (infos chunk_second_mapped) →
                      (used v =? 0) || (ppn v =? 2) = true).
  { apply forallb_forall. vm_compute. reflexivity. }
  assert (Hc : chain VPIPPAGE_xk (ram (mem_second_mapped fl)) (pages code_second_mapped)
                 [(1, infos chunk_second_mapped)]).
  { simpl. split; [done|]. split; [reflexivity|]. exists None. split; [|done].
    by rewrite lookup_insert_eq. }
  rewrite (vpi_at_chain _ _ _ _ j Hc). unfold info_at.
  revert Hall. generalize (infos chunk_second_mapped). intros l Hall.
  destruct (Z.to_nat (j / VPIPPAGE_xk)) as [|n]; simpl; [|done].
  destruct (l !! Z.to_nat (j mod VPIPPAGE_xk)) as [v|] eqn:Hv; simpl; [|done].
  apply list_elem_of_lookup_2, list_elem_of_In, Hall in Hv.
  intros Hu. apply orb_true_iff in Hv as [Hv|Hv]; lia.
Qed.

Lemma vspacecopy_success_witness :
  ∃ dst' m' vr',
    vspacecopy VPIPPAGE_xk fresh_vspace vspace_second_mapped
      (mem_second_mapped [3; 4; 5]) = Ok (0, dst', m') ∧
    regions dst' !! 0%nat = Some vr' ∧
    used (vpi_at VPIPPAGE_xk m' vr' 1) = 1 ∧
    ppn (vpi_at VPIPPAGE_xk m' vr' 1) ≠ 2 ∧
    ram m' !! ppn (vpi_at VPIPPAGE_xk m' vr' 1) = Some (DataPage zero_bytes) ∧
    is_Some (pgtbl dst' !! Z.shiftr 0x11000 PT_SHIFT).
Proof.
  assert (E : ∃ dst' m',
             vspacecopy VPIPPAGE_xk fresh_vspace vspace_second_mapped
               (mem_second_mapped [3; 4; 5]) = Ok (0, dst', m')).
  { eexists _, _. vm_compute. reflexivity. }
  destruct E as (dst' & m' & E).
  assert (H0 : 0 < VPIPPAGE_xk) by reflexivity.
  assert (Hnd : NoDup (1 :: [3; 4; 5])).
  { apply NoDup_ListNoDup. repeat constructor; simpl; intuition lia. }
  pose proof (stores_ok_second_mapped [3; 4; 5] Hnd) as H1.
  assert (H2 : NoDup (freelist (mem_second_mapped [3; 4; 5]))).
  { by apply NoDup_cons in Hnd as [_ ?]. }
  assert (H3 : ∀ k vr j, regions vspace_second_mapped !! k = Some vr → 0 <= j →
            used (vpi_at VPIPPAGE_xk (mem_second_mapped [3; 4; 5]) vr j) ≠ 0 →
            ppn (vpi_at VPIPPAGE_xk (mem_second_mapped [3; 4; 5]) vr j)
              ∉ freelist (mem_second_mapped [3; 4; 5])).
  { intros k vr j Hk _ Hu. destruct k as [|[|[|k]]]; simpl in Hk; try done;
      simplify_eq; try (by rewrite vpi_at_no_pages in Hu).
    rewrite (ppn_second_mapped _ _ Hu). simpl.
    rewrite !not_elem_of_cons. repeat split; try lia. apply not_elem_of_nil. }
  destruct (vspacecopy_success VPIPPAGE_xk fresh_vspace vspace_second_mapped
              (mem_second_mapped [3; 4; 5]) _ dst' m' H0 H1 H2 H3 E)
    as (_ & Hrec & Hhw).
  assert (Hv : vpi_at VPIPPAGE_xk (mem_second_mapped [3; 4; 5]) code_second_mapped 1
               = mk_vpi 1 2 1 1) by reflexivity.
  destruct (Hrec 0%nat code_second_mapped 1 eq_refl) as (vr' & Hk & Hu & _ & _ & Hp & Hb);
    [lia|by rewrite Hv|].
  rewrite Hv in Hu, Hp, Hb. simpl in Hu, Hp, Hb.
  destruct (Hb zero_bytes eq_refl) as [Hd _].
  assert (H4 : Forall (λ vr, 0 <= VRBOT vr ∧ VRTOP vr <= 2 ^ 39)
                      (regions vspace_second_mapped)).
  { repeat constructor; vm_compute; discriminate. }
  destruct (Forall2_lookup_r _ _ _ _ _
              (proj1 (vspacecopy_success VPIPPAGE_xk fresh_vspace vspace_second_mapped
                 (mem_second_mapped [3; 4; 5]) _ dst' m' H0 H1 H2 H3 E)) Hk)
    as (vr0 & Hk0 & Hse).
  injection Hk0 as <-.
  destruct Hse as (Hd' & Hb' & Hz').
  destruct (Hhw H4 no_shared_page_second_mapped 0%nat vr' 0x11000 Hk) as [Hiff _].
  { unfold VRBOT, VRTOP. rewrite Hd', Hb', Hz'. vm_compute.
    split; [discriminate|reflexivity]. }
  { reflexivity. }
  exists dst', m', vr'. split; [done|]. split; [done|]. split; [done|].
  split; [done|]. split; [done|]. apply Hiff. unfold page_info.
  replace (va2vpi_idx vr' 0x11000) with 1; [by rewrite Hu|].
  unfold va2vpi_idx. by rewrite Hd', Hb'.
Defined.

(** An address space that was in use before, whose table still holds a
    present entry for the page at [2^39], and an address space with a region
    of one page there, not mapped. *)
Definition vspace_reused : vspace := mk_vspace (regions fresh_vspace) (pgtbl vspace_high).
Definition vspace_high_unmapped : vspace := mk_vspace (regions vspace_high) ∅.

(** C6 as stated fails in its last part: the copy succeeds, and the table of
    the destination keeps the stale entry of the page at [2^39], for which
    the record of the destination is not mapped. *)
Lemma vspacecopy_stale_entry_counterexample :
  ∃ dst' m' vr',
    vspacecopy VPIPPAGE_xk vspace_reused vspace_high_unmapped (blank [1])
      = Ok (0, dst', m') ∧
    regions dst' !! 0%nat = Some vr' ∧
    VRBOT vr' <= 2 ^ 39 < VRTOP vr' ∧ 2 ^ 39 mod PGSIZE = 0 ∧
    is_Some (pgtbl dst' !! Z.shiftr (2 ^ 39) PT_SHIFT) ∧
    used (page_info VPIPPAGE_xk m' vr' (2 ^ 39)) = 0.
Proof.
  eexists _, _, _. split; [vm_compute; reflexivity|].
  split; [reflexivity|]. split; [vm_compute; split; [discriminate|reflexivity]|].
  split; [reflexivity|]. split; [|reflexivity].
  exists (mk_pte 5 7). reflexivity.
Qed.

(** A write of four bytes that starts two bytes before the end of the
    mapped page at [0x11000] and runs into [0x12000], which no region
    holds: the call returns -1 and the two bytes it wrote stay in the
    page. *)
Lemma vspacewritetova_not_atomic_witness :
  vspacewritetova KERNBASE_xk VPIPPAGE_xk vspace_second_mapped 0x11ffe
    [x01; x02; x03; x04]%byte 4 (mem_second_mapped [])
  = Ok (-1, vspace_second_mapped,
        written 2 0x11ffe 2 [x01; x02; x03; x04]%byte zero_bytes
          (mem_second_mapped [])) ∧
  ∃ b, ram (written 2 0x11ffe 2 [x01; x02; x03; x04]%byte zero_bytes
              (mem_second_mapped [])) !! 2 = Some (DataPage b) ∧
       b !! 4094%nat = Some x01 ∧ b !! 4095%nat = Some x02.
Proof.
  split; [|by eexists].
  assert (H0 : 0 < VPIPPAGE_xk) by reflexivity.
  assert (H1 : stores_ok VPIPPAGE_xk (mem_second_mapped [])
                 (regions vspace_second_mapped) [[(1, infos chunk_second_mapped)]; []; []]).
  { apply stores_ok_second_mapped, NoDup_ListNoDup.
    repeat constructor; simpl; intuition lia. }
  destruct (vspacewritetova_not_atomic KERNBASE_xk VPIPPAGE_xk vspace_second_mapped
              0x11ffe [x01; x02; x03; x04]%byte 4 (mem_second_mapped []) _ H0 H1)
    as (_ & Hpartial & _).
  - lia.
  - lia.
  - reflexivity.
  - vm_compute. discriminate.
  - simpl. lia.
  - apply (Hpartial (mk_vpi 1 2 1 1) zero_bytes).
    + reflexivity.
    + simpl. lia.
    + simpl. lia.
    + reflexivity.
    + vm_compute. split; reflexivity.
    + left. reflexivity.
Defined.

(** A write that starts at the first byte of the mapped, writable page at
    [0x11000] does not return, whatever the number of turns allowed: the
    loop copies [PGROUNDUP(va) - va = 0] bytes in each turn. *)
Lemma writetova_loop_spins_at_page_start fuel :
  writetova_loop VPIPPAGE_xk fuel vspace_second_mapped 0x11000 0x11001
    [x01]%byte 1 (mem_second_mapped []) = OutOfFuel.
Proof.
  apply (writetova_loop_aligned_spins VPIPPAGE_xk
           [[(1, infos chunk_second_mapped)]; []; []] [x01]%byte 1 0x11001 0x11000
           (mk_vpi 1 2 1 1) zero_bytes fuel).
  - reflexivity.
  - apply stores_ok_second_mapped, NoDup_ListNoDup.
    repeat constructor; simpl; intuition lia.
  - lia.
  - reflexivity.
  - lia.
  - lia.
  - reflexivity.
  - simpl. lia.
  - simpl. lia.
  - reflexivity.
Qed.

(** * The other operations of the file, on concrete states *)

Lemma NoDup_one (p : Z) : NoDup [p].
Proof. apply NoDup_singleton. Qed.

Lemma NoDup_two (p q : Z) : p ≠ q → NoDup [p; q].
Proof.
  intros H. apply NoDup_cons. split; [|apply NoDup_singleton].
  rewrite elem_of_cons. intros [-> | Hn]; [done|]. by apply elem_of_nil in Hn.
Qed.

(** The page-aligned addresses of two pages from [0x10000] on, and of the
    pages from [0x11000] to [0x12010). *)
Lemma aligned_two_pages a :
  0x10000 <= a < 0x12000 → a mod PGSIZE = 0 → a = 0x10000 ∨ a = 0x11000.
Proof.
  unfold PGSIZE. intros Ha Hm.
  pose proof (Z.div_mod a 4096 ltac:(lia)). lia.
Qed.

Lemma aligned_after_first a :
  0x11000 <= a < 0x12010 → a mod PGSIZE = 0 → a = 0x11000 ∨ a = 0x12000.
Proof.
  unfold PGSIZE. intros Ha Hm.
  pose proof (Z.div_mod a 4096 ltac:(lia)). lia.
Qed.

Lemma store_ok_blank fl vr : pages vr = None → NoDup fl → store_ok VPIPPAGE_xk (blank fl) vr [].
Proof. intros Hp Hnd. by split. Qed.

Lemma va2vpi_idx_same_page_witness :
  0 <= va2vpi_idx code_second_mapped 0x10010 ∧
  va2vpi_idx code_second_mapped 0x10010 = 0x10010 / PGSIZE - 0x10000 / PGSIZE ∧
  (va2vpi_idx code_second_mapped 0x10010 = va2vpi_idx code_second_mapped 0x10ff0
   ↔ 0x10010 / PGSIZE = 0x10ff0 / PGSIZE).
Proof.
  apply (va2vpi_idx_same_page code_second_mapped 0x10010 0x10ff0);
    cbn; first [lia | reflexivity].
Defined.

Lemma vspacecontains_result_witness :
  (vspacecontains vspace_second_mapped 0x10000 0x1000 = 1 ∨
   vspacecontains vspace_second_mapped 0x10000 0x1000 = 0 ∨
   vspacecontains vspace_second_mapped 0x10000 0x1000 = -1) ∧
  (vspacecontains vspace_second_mapped 0x10000 0x1000 = -1
   ↔ va2vregion vspace_second_mapped 0x10000 = None) ∧
  vspacecontains vspace_second_mapped 0x10000 0 ≠ 0 ∧
  (0 <= 0x1000 → 0x10000 + 0x1000 < 2 ^ 64 →
   vspacecontains vspace_second_mapped 0x10000 0x1000 = 1 →
   ∃ i vr, va2vregion vspace_second_mapped 0x10000 = Some i ∧
           regions vspace_second_mapped !! i = Some vr ∧
           ∀ x, 0x10000 <= x < 0x10000 + 0x1000 → vregion_holds vr x = true).
Proof. apply (vspacecontains_result vspace_second_mapped 0x10000 0x1000). lia. Defined.

Lemma va2vpage_info_in_chain_witness :
  ∃ q, va2vpage_info VPIPPAGE_xk code_second_mapped 0x11000 (mem_second_mapped [])
       = Ok (Some q, code_second_mapped, mem_second_mapped []) ∧
       q.2 = Z.to_nat (va2vpi_idx code_second_mapped 0x11000 mod VPIPPAGE_xk) ∧
       cpages [(1, infos chunk_second_mapped)]
         !! Z.to_nat (va2vpi_idx code_second_mapped 0x11000 / VPIPPAGE_xk) = Some q.1 ∧
       vpi_get q (mem_second_mapped [])
       = Ok (page_info VPIPPAGE_xk (mem_second_mapped []) code_second_mapped 0x11000).
Proof.
  apply (va2vpage_info_in_chain VPIPPAGE_xk code_second_mapped 0x11000
           (mem_second_mapped []) [(1, infos chunk_second_mapped)]).
  - reflexivity.
  - apply store_ok_second_mapped, NoDup_one.
  - vm_compute. discriminate.
  - vm_compute. lia.
Defined.

Lemma va2vpage_info_grows_witness :
  ∃ q vr' m', va2vpage_info VPIPPAGE_xk code_at_64k 0x10000 (blank [1; 2]) = Ok (q, vr', m') ∧
    same_extent code_at_64k vr' ∧
    (∀ j, 0 <= j → vpi_at VPIPPAGE_xk m' vr' j = vpi_at VPIPPAGE_xk (blank [1; 2]) code_at_64k j) ∧
    ((1 ≤ 2)%nat →
       is_Some q ∧ freelist m' = [2] ∧
       store_ok VPIPPAGE_xk m' vr' (zeros VPIPPAGE_xk [1])) ∧
    ((2 < 1)%nat →
       q = None ∧ freelist m' = [] ∧ store_ok VPIPPAGE_xk m' vr' (zeros VPIPPAGE_xk [1; 2])).
Proof.
  apply (va2vpage_info_grows VPIPPAGE_xk code_at_64k 0x10000 (blank [1; 2]) []).
  - reflexivity.
  - apply store_ok_blank; [done|]. by apply NoDup_two.
  - vm_compute. discriminate.
  - intros [_ H]. discriminate.
Defined.

Lemma vregionaddmap_returns_witness :
  ∃ r vr' m',
    vregionaddmap KERNBASE_xk VPIPPAGE_xk code_at_64k 0x10000 0x1000 1 1 (blank [1])
    = Ok (r, vr', m') ∧
    same_extent code_at_64k vr' ∧
    (r = -1 ∨ (0x1000 = 0 ∧ r = 0 ∧ vr' = code_at_64k ∧ m' = blank [1]) ∨
     (0 < 0x1000 ∧ r = int32 0x1000)) ∧
    (0 < 0x1000 < 2 ^ 31 → r = -1 ∨ r = 0x1000) ∧
    (2 ^ 31 <= 0x1000 <= 2 ^ 32 → r <= 0).
Proof.
  eexists _, _, _. split; [vm_compute; reflexivity|].
  apply (vregionaddmap_returns KERNBASE_xk VPIPPAGE_xk code_at_64k 0x10000 0x1000 1 1
           (blank [1])); [lia|vm_compute; reflexivity].
Defined.

Lemma vregionaddmap_succeeds_witness :
  ∃ vr' m', vregionaddmap KERNBASE_xk VPIPPAGE_xk code_at_64k 0x10000 0x2000 1 1
              (blank [1; 2; 3]) = Ok (int32 0x2000, vr', m').
Proof.
  apply (vregionaddmap_succeeds KERNBASE_xk VPIPPAGE_xk code_at_64k 0x10000 0x2000 1 1
           (blank [1; 2; 3]) [] 2 1).
  - reflexivity.
  - apply store_ok_blank; [done|]. apply NoDup_ListNoDup.
    repeat constructor; simpl; intuition lia.
  - lia.
  - lia.
  - reflexivity.
  - vm_compute. discriminate.
  - vm_compute. discriminate.
  - intros a Ha Hm. change (PGROUNDUP 0x10000) with 0x10000 in Ha.
    destruct (aligned_two_pages a ltac:(lia) Hm) as [-> | ->];
      (split; [vm_compute; discriminate|split; [reflexivity|vm_compute; lia]]).
  - intros a a' Ha Hm Ha' Hm' Hne. change (PGROUNDUP 0x10000) with 0x10000 in Ha, Ha'.
    destruct (aligned_two_pages a ltac:(lia) Hm) as [-> | ->];
      destruct (aligned_two_pages a' ltac:(lia) Hm') as [-> | ->];
      first [done | vm_compute; discriminate].
  - simpl. lia.
Defined.

Lemma vregionaddmap_rolls_back_witness :
  ∃ r vr' m',
    vregionaddmap KERNBASE_xk VPIPPAGE_xk code_at_64k 0x10000 0x2000 1 1 (blank [1; 2])
    = Ok (r, vr', m') ∧
    (r = int32 0x2000 ∨
     (r = -1 ∧ same_extent code_at_64k vr' ∧
      (∀ j, 0 <= j →
         vpi_at VPIPPAGE_xk m' vr' j = vpi_at VPIPPAGE_xk (blank [1; 2]) code_at_64k j ∨
         (used (vpi_at VPIPPAGE_xk (blank [1; 2]) code_at_64k j) = 0 ∧
          vpi_at VPIPPAGE_xk m' vr' j = vpi_zero)) ∧
      ∃ cs', store_ok VPIPPAGE_xk m' vr' cs' ∧
        (∀ x, x ∈ [1; 2] → x ∈ freelist m' ∨ x ∈ cpages cs') ∧
        (∀ x, x ∈ freelist m' → x ∈ [1; 2]))).
Proof.
  apply (vregionaddmap_rolls_back KERNBASE_xk VPIPPAGE_xk code_at_64k 0x10000 0x2000 1 1
           (blank [1; 2]) []).
  - reflexivity.
  - apply store_ok_blank; [done|]. by apply NoDup_two.
  - lia.
  - lia.
  - reflexivity.
  - vm_compute. discriminate.
  - vm_compute. discriminate.
  - intros [_ H]. discriminate.
  - intros a Ha Hm. change (PGROUNDUP 0x10000) with 0x10000 in Ha.
    destruct (aligned_two_pages a ltac:(lia) Hm) as [-> | ->];
      (split; [vm_compute; discriminate|reflexivity]).
  - intros a a' Ha Hm Ha' Hm' Hne. change (PGROUNDUP 0x10000) with 0x10000 in Ha, Ha'.
    destruct (aligned_two_pages a ltac:(lia) Hm) as [-> | ->];
      destruct (aligned_two_pages a' ltac:(lia) Hm') as [-> | ->];
      first [done | vm_compute; discriminate].
Defined.

Lemma vspaceinitstack_maps_page_witness :
  ∃ vs' m' vr' p,
    vspaceinitstack KERNBASE_xk VPIPPAGE_xk fresh_vspace SZ_2G (blank [1; 2])
    = Ok (0, vs', m') ∧
    regions vs' = <[VR_USTACK := vr']> (regions fresh_vspace) ∧
    dir vr' = VRDIR_DOWN ∧ va_base vr' = SZ_2G ∧ size vr' = PGSIZE ∧
    ram m' !! p = Some (DataPage zero_bytes) ∧
    ∀ a, SZ_2G - PGSIZE <= a < SZ_2G →
      vregion_holds vr' a = true ∧
      page_info VPIPPAGE_xk m' vr' a = mk_vpi 1 p VPI_PRESENT VPI_WRITABLE.
Proof.
  apply (vspaceinitstack_maps_page KERNBASE_xk VPIPPAGE_xk fresh_vspace SZ_2G
           (blank [1; 2]) fresh_down []).
  - reflexivity.
  - reflexivity.
  - reflexivity.
  - apply store_ok_blank; [done|]. by apply NoDup_two.
  - reflexivity.
  - reflexivity.
  - vm_compute. discriminate.
  - reflexivity.
  - vm_compute. discriminate.
  - simpl. lia.
Defined.

Lemma vspaceinitstack_without_page_witness :
  ∃ vs' m' vr',
    vspaceinitstack KERNBASE_xk VPIPPAGE_xk fresh_vspace SZ_2G (blank [1])
    = Ok (-1, vs', m') ∧
    regions vs' = <[VR_USTACK := vr']> (regions fresh_vspace) ∧
    va_base vr' = SZ_2G ∧ size vr' = PGSIZE ∧ freelist m' = [] ∧
    ∀ a, SZ_2G - PGSIZE <= a < SZ_2G →
      vregion_holds vr' a = true ∧ used (page_info VPIPPAGE_xk m' vr' a) = 0.
Proof.
  apply (vspaceinitstack_without_page KERNBASE_xk VPIPPAGE_xk fresh_vspace SZ_2G
           (blank [1]) fresh_down []).
  - reflexivity.
  - reflexivity.
  - reflexivity.
  - apply store_ok_blank; [done|]. apply NoDup_one.
  - reflexivity.
  - reflexivity.
  - vm_compute. discriminate.
  - reflexivity.
  - vm_compute. discriminate.
  - intros [_ H]. discriminate.
  - reflexivity.
Defined.

Lemma vradddata_one_page_witness :
  ∃ vr' m' p,
    vradddata KERNBASE_xk VPIPPAGE_xk code_at_64k 0x10000 [x01; x02] 2 1 1 (blank [1; 2])
    = Ok (0, vr', m') ∧
    same_extent code_at_64k vr' ∧
    page_info VPIPPAGE_xk m' vr' 0x10000 = mk_vpi 1 p 1 1 ∧
    ram m' !! p
    = Some (DataPage (list_inserts 0 (take (Z.to_nat 2) [x01; x02]) zero_bytes)).
Proof.
  apply (vradddata_one_page KERNBASE_xk VPIPPAGE_xk code_at_64k 0x10000 [x01; x02] 2 1 1
           (blank [1; 2]) []).
  - reflexivity.
  - apply store_ok_blank; [done|]. by apply NoDup_two.
  - lia.
  - reflexivity.
  - unfold PGSIZE. lia.
  - reflexivity.
  - vm_compute. discriminate.
  - simpl. lia.
  - vm_compute. discriminate.
  - reflexivity.
  - vm_compute. lia.
Defined.

Lemma vradddata_needs_aligned_witness :
  (∀ r vr' m',
     vradddata KERNBASE_xk VPIPPAGE_xk code_at_64k 0x10010 [x01; x02] 0x2000 1 1
       (blank [1; 2; 3]) = Ok (r, vr', m') → r = -1) ∧
  (∃ vr1 m1, vregionaddmap KERNBASE_xk VPIPPAGE_xk code_at_64k 0x10010 0x2000 1 1
               (blank [1; 2; 3]) = Ok (0x2000, vr1, m1)) ∧
  vradddata KERNBASE_xk VPIPPAGE_xk code_at_64k 0x10010 [x01; x02] 0x2000 1 1
    (blank [1; 2; 3]) = Fault AssertFailed.
Proof.
  assert (Hpg : ∀ a, PGROUNDUP 0x10010 <= a < 0x10010 + 0x2000 → a mod PGSIZE = 0 →
                     a = 0x11000 ∨ a = 0x12000).
  { intros a Ha Hm. change (PGROUNDUP 0x10010) with 0x11000 in Ha.
    apply aligned_after_first; [lia|done]. }
  destruct (vradddata_needs_aligned KERNBASE_xk VPIPPAGE_xk code_at_64k 0x10010
              [x01; x02] 0x2000 1 1 (blank [1; 2; 3]) [] 2 1) as [A B].
  - reflexivity.
  - vm_compute. discriminate.
  - apply store_ok_blank; [done|]. apply NoDup_ListNoDup.
    repeat constructor; simpl; intuition lia.
  - lia.
  - lia.
  - vm_compute. discriminate.
  - lia.
  - vm_compute. discriminate.
  - reflexivity.
  - intros a Ha Hm. destruct (Hpg a Ha Hm) as [-> | ->]; vm_compute; discriminate.
  - split; [exact A|]. apply B.
    + reflexivity.
    + vm_compute. discriminate.
    + intros a Ha Hm. destruct (Hpg a Ha Hm) as [-> | ->];
        (split; [vm_compute; discriminate|split; [reflexivity|vm_compute; lia]]).
    + intros a a' Ha Hm Ha' Hm' Hne.
      destruct (Hpg a Ha Hm) as [-> | ->]; destruct (Hpg a' Ha' Hm') as [-> | ->];
        first [done | vm_compute; discriminate].
    + vm_compute. lia.
    + simpl. lia.
Defined.

Lemma free_page_desc_list_releases_witness :
  ∃ m', free_page_desc_list 1 (Some 1) (mem_second_mapped [3]) = Ok m' ∧
    freelist m' = cpages [(1, infos chunk_second_mapped)] ++ [3] ∧
    (∀ x, x ∈ cpages [(1, infos chunk_second_mapped)] → ram m' !! x = None) ∧
    (∀ x, x ∉ cpages [(1, infos chunk_second_mapped)] →
          ram m' !! x = ram (mem_second_mapped [3]) !! x).
Proof.
  apply (free_page_desc_list_releases VPIPPAGE_xk 1 (Some 1) (mem_second_mapped [3])
           [(1, infos chunk_second_mapped)]).
  - apply (store_ok_chain VPIPPAGE_xk (mem_second_mapped [3]) code_second_mapped).
    apply store_ok_second_mapped. by apply NoDup_two.
  - simpl. lia.
Defined.

Lemma vspacefree_releases_chunks_witness :
  ∃ vs' m', vspacefree VRDIR_UP vspace_second_mapped (mem_second_mapped [3]) = Ok (vs', m') ∧
    regions vs' = replicate 3 (mk_vregion VRDIR_UP 0 0 None) ∧
    pgtbl vs' = ∅ ∧
    (∀ va, va2vregion vs' va = None) ∧
    (∀ x, x ∈ freelist m' ↔
          x ∈ [3] ∨ ∃ cs, cs ∈ [[(1, infos chunk_second_mapped)]; []; []] ∧ x ∈ cpages cs) ∧
    (∀ x, (∃ cs, cs ∈ [[(1, infos chunk_second_mapped)]; []; []] ∧ x ∈ cpages cs) →
          ram m' !! x = None) ∧
    (∀ x, (∀ cs, cs ∈ [[(1, infos chunk_second_mapped)]; []; []] → x ∉ cpages cs) →
          ram m' !! x = ram (mem_second_mapped [3]) !! x).
Proof.
  apply (vspacefree_releases_chunks VPIPPAGE_xk VRDIR_UP vspace_second_mapped
           (mem_second_mapped [3])).
  apply stores_ok_second_mapped. by apply NoDup_two.
Defined.

Lemma vspacewritetova_within_page_witness :
  ∃ b',
    vspacewritetova KERNBASE_xk VPIPPAGE_xk vspace_second_mapped 0x11010 [x01; x02] 2
      (mem_second_mapped [])
    = Ok (0, vspace_second_mapped, store 2 (DataPage b') (mem_second_mapped [])) ∧
    length b' = length zero_bytes ∧
    ∀ i : nat,
      b' !! i = if decide (0x11010 mod PGSIZE <= Z.of_nat i < 0x11010 mod PGSIZE + 2)
                then [x01; x02] !! (i - Z.to_nat (0x11010 mod PGSIZE))%nat
                else zero_bytes !! i.
Proof.
  apply (vspacewritetova_within_page KERNBASE_xk VPIPPAGE_xk vspace_second_mapped 0x11010
           [x01; x02] 2 (mem_second_mapped []) [[(1, infos chunk_second_mapped)]; []; []]
           (mk_vpi 1 2 1 1) zero_bytes).
  - reflexivity.
  - apply stores_ok_second_mapped, NoDup_one.
  - lia.
  - lia.
  - reflexivity.
  - vm_compute. discriminate.
  - simpl. lia.
  - vm_compute. discriminate.
  - vm_compute. discriminate.
  - vm_compute. reflexivity.
  - simpl. lia.
  - simpl. lia.
  - reflexivity.
  - reflexivity.
Defined.

Lemma vspacewritetova_page_start_spins_witness :
  vspacewritetova KERNBASE_xk VPIPPAGE_xk vspace_second_mapped 0x11000 [x01; x02] 2
    (mem_second_mapped []) = OutOfFuel ∧
  ∀ fuel, writetova_loop VPIPPAGE_xk fuel vspace_second_mapped
            0x11000 (0x11000 + 2) [x01; x02] 2 (mem_second_mapped []) = OutOfFuel.
Proof.
  apply (vspacewritetova_page_start_spins KERNBASE_xk VPIPPAGE_xk vspace_second_mapped
           0x11000 [x01; x02] 2 (mem_second_mapped [])
           [[(1, infos chunk_second_mapped)]; []; []] (mk_vpi 1 2 1 1) zero_bytes).
  - reflexivity.
  - apply stores_ok_second_mapped, NoDup_one.
  - lia.
  - reflexivity.
  - lia.
  - reflexivity.
  - vm_compute. discriminate.
  - vm_compute. reflexivity.
  - simpl. lia.
  - simpl. lia.
  - reflexivity.
Defined.

Lemma vspacemarknotpresent_clears_witness :
  (present (mk_vpi 1 2 1 1) ≠ 0 →
   vspacemarknotpresent VPIPPAGE_xk vspace_second_mapped 0x11000 (mem_second_mapped [])
   = Fault AssertFailed) ∧
  (present (mk_vpi 1 2 1 1) = 0 →
   ∃ vs', vspacemarknotpresent VPIPPAGE_xk vspace_second_mapped 0x11000
            (mem_second_mapped []) = Ok (vs', mem_second_mapped []) ∧
     regions vs' = regions vspace_second_mapped ∧
     pgtbl vs' !! Z.shiftr 0x11000 PT_SHIFT = None ∧
     ∀ vpn, vpn ≠ Z.shiftr 0x11000 PT_SHIFT →
            pgtbl vs' !! vpn = pgtbl vspace_second_mapped !! vpn).
Proof.
  apply (vspacemarknotpresent_clears VPIPPAGE_xk vspace_second_mapped 0x11000
           (mem_second_mapped []) [[(1, infos chunk_second_mapped)]; []; []]
           (mk_vpi 1 2 1 1)).
  - reflexivity.
  - apply stores_ok_second_mapped, NoDup_one.
  - reflexivity.
  - vm_compute. reflexivity.
  - simpl. lia.
Defined.

Lemma vspaceloadcode_no_loadable_segment_witness :
  vspaceloadcode KERNBASE_xk VPIPPAGE_xk fresh_vspace
    (Some (mk_inode (Some (mk_elfhdr ELF_MAGIC 1 0x10000))
                    [mk_proghdr 4 0 0 0 0 0] [])) (blank [])
  = Fault AssertFailed.
Proof.
  apply (vspaceloadcode_no_loadable_segment KERNBASE_xk VPIPPAGE_xk fresh_vspace
           (mk_inode (Some (mk_elfhdr ELF_MAGIC 1 0x10000)) [mk_proghdr 4 0 0 0 0 0] [])
           (mk_elfhdr ELF_MAGIC 1 0x10000) (blank [])).
  - reflexivity.
  - reflexivity.
  - simpl. lia.
  - intros j ph Hj Hph. destruct j as [|j]; [|simpl in Hj; lia].
    simpl in Hph. inversion Hph. vm_compute. discriminate.
Defined.

Lemma vspacecopy_failure_witness :
  ∃ r dst' m',
    vspacecopy VPIPPAGE_xk fresh_vspace vspace_second_mapped (mem_second_mapped [3])
    = Ok (r, dst', m') ∧
    r = -1 ∧ pgtbl dst' = pgtbl fresh_vspace ∧ freelist m' = [] ∧
    Forall2 same_extent (regions vspace_second_mapped) (regions dst') ∧
    ∃ k vr mk p,
      regions vspace_second_mapped !! k = Some vr ∧ pages vr ≠ None ∧
      copy_vpi_page VPIPPAGE_xk (S (length (freelist mk))) (pages vr) mk = Ok (-1, p, m') ∧
      regions dst' !! k = Some (set_pages vr p) ∧
      ∀ j, (k < j)%nat → regions dst' !! j = regions vspace_second_mapped !! j.
Proof.
  eexists _, _, _. split; [vm_compute; reflexivity|].
  eapply (vspacecopy_failure VPIPPAGE_xk fresh_vspace vspace_second_mapped
            (mem_second_mapped [3])).
  - vm_compute. reflexivity.
  - discriminate.
Defined.

Lemma vrloaddata_short_read_witness :
  vrloaddata VPIPPAGE_xk code_second_mapped 0x11000 (mk_inode None [] [x01]) 0 2
    (mem_second_mapped [])
  = Ok (-1, code_second_mapped,
        store 2 (DataPage (list_inserts 0 (readi (mk_inode None [] [x01]) 0 2) zero_bytes))
          (mem_second_mapped [])) ∧
  readi (mk_inode None [] [x01]) 0 2 = drop (Z.to_nat 0) [x01].
Proof.
  apply (vrloaddata_short_read VPIPPAGE_xk code_second_mapped 0x11000
           (mk_inode None [] [x01]) 0 2 (mem_second_mapped [])
           [(1, infos chunk_second_mapped)] (mk_vpi 1 2 1 1) zero_bytes).
  - reflexivity.
  - apply store_ok_second_mapped, NoDup_one.
  - lia.
  - reflexivity.
  - unfold PGSIZE. lia.
  - lia.
  - simpl. lia.
  - vm_compute. discriminate.
  - vm_compute. reflexivity.
  - simpl. lia.
  - reflexivity.
Defined.

(** The chunk of every page of [vspace_second_mapped] is in its chain. *)
Lemma chunks_second_mapped k vr cs a :
  regions vspace_second_mapped !! k = Some vr →
  [[(1, infos chunk_second_mapped)]; []; []] !! k = Some cs → region_page vr a →
  0 <= va2vpi_idx vr a ∧ (Z.to_nat (va2vpi_idx vr a / VPIPPAGE_xk) < length cs)%nat.
Proof.
  intros Hk Hc Ha.
  destruct k as [|[|[|k]]]; simpl in Hk, Hc; try done;
    injection Hk as <-; injection Hc as <-.
  - apply visited_aligned in Ha as [Ha Hm]; [|reflexivity].
    change (VRBOT code_second_mapped) with 0x10000 in Ha.
    change (VRTOP code_second_mapped) with 0x12000 in Ha.
    destruct (aligned_two_pages a Ha Hm) as [-> | ->];
      (split; [vm_compute; discriminate|vm_compute; lia]).
  - by destruct (region_page_fresh_up _ Ha).
  - by destruct (region_page_fresh_down _ Ha).
Qed.

Lemma vspaceupdate_returns_witness :
  (Forall (λ vr, VRBOT vr mod PGSIZE = 0) (regions vspace_second_mapped)
   ↔ ∃ vs' m', vspaceupdate VPIPPAGE_xk vspace_second_mapped (mem_second_mapped [])
               = Ok (vs', m')) ∧
  ∀ vs' m', vspaceupdate VPIPPAGE_xk vspace_second_mapped (mem_second_mapped [])
            = Ok (vs', m') →
            regions vs' = regions vspace_second_mapped ∧ m' = mem_second_mapped [].
Proof.
  apply (vspaceupdate_returns VPIPPAGE_xk vspace_second_mapped (mem_second_mapped [])
           [[(1, infos chunk_second_mapped)]; []; []]).
  - reflexivity.
  - apply (stores_ok_second_mapped [] (NoDup_one 1)).
  - repeat constructor; vm_compute; discriminate.
  - apply chunks_second_mapped.
Defined.

Lemma vspaceupdate_idempotent_witness :
  ∃ vs1, vspaceupdate VPIPPAGE_xk vspace_second_mapped (mem_second_mapped [])
         = Ok (vs1, mem_second_mapped []) ∧
         regions vs1 = regions vspace_second_mapped ∧
         vspaceupdate VPIPPAGE_xk vs1 (mem_second_mapped []) = Ok (vs1, mem_second_mapped []).
Proof.
  apply (vspaceupdate_idempotent VPIPPAGE_xk vspace_second_mapped (mem_second_mapped [])
           [[(1, infos chunk_second_mapped)]; []; []]).
  - reflexivity.
  - apply (stores_ok_second_mapped [] (NoDup_one 1)).
  - repeat constructor; vm_compute; discriminate.
  - repeat constructor.
  - apply chunks_second_mapped.
Defined.

Lemma vspaceinitcode_first_process_witness :
  ∃ vs' m' code heap stack p,
    vspaceinitcode KERNBASE_xk VPIPPAGE_xk (vspaceinit fresh_vspace (Some ∅)).2
      [x01; x02] 2 (blank [1; 2; 3; 4; 5; 6; 7; 8; 9]) = Ok (vs', m') ∧
    regions vs' = [code; heap; stack] ∧
    dir code = VRDIR_UP ∧ va_base code = 0x10000 ∧ size code = 6 * PGSIZE ∧
    heap = mk_vregion VRDIR_UP 0 0 None ∧
    dir stack = VRDIR_DOWN ∧ va_base stack = SZ_2G ∧ size stack = PGSIZE ∧
    mapped_rw VPIPPAGE_xk vs' m' code 0x10000 p ∧
    ram m' !! p
    = Some (DataPage (list_inserts 0 (take (Z.to_nat 2) [x01; x02]) zero_bytes)) ∧
    (∀ a, 0x11000 <= a < 0x16000 → a mod PGSIZE = 0 →
       ∃ q, mapped_rw VPIPPAGE_xk vs' m' code a q ∧
            ram m' !! q = Some (DataPage zero_bytes)) ∧
    (∃ q, mapped_rw VPIPPAGE_xk vs' m' stack (SZ_2G - PGSIZE) q ∧
          ram m' !! q = Some (DataPage zero_bytes)).
Proof.
  apply (vspaceinitcode_first_process KERNBASE_xk VPIPPAGE_xk fresh_vspace ∅
           [x01; x02] 2 (blank [1; 2; 3; 4; 5; 6; 7; 8; 9])).
  - vm_compute. discriminate.
  - reflexivity.
  - vm_compute. discriminate.
  - unfold PGSIZE. lia.
  - simpl. lia.
  - apply NoDup_ListNoDup. repeat constructor; simpl; intuition lia.
  - simpl. lia.
Defined.

(** A file of one loadable segment without bytes, and a file whose second
    program header cannot be read. *)
Definition image_empty_segment : inode :=
  mk_inode (Some (mk_elfhdr ELF_MAGIC 1 0x10000))
    [mk_proghdr ELF_PROG_LOAD 0 0 0x10000 0 0] [].
Definition image_short_headers : inode :=
  mk_inode (Some (mk_elfhdr ELF_MAGIC 2 0x10000))
    [mk_proghdr ELF_PROG_LOAD 0 0 0x10000 2 2] [x01; x02].

Lemma vspaceloadcode_empty_segment_witness :
  vspaceloadcode KERNBASE_xk VPIPPAGE_xk fresh_vspace (Some image_empty_segment) (blank [])
  = Ok (0, Some 0x10000,
        set_regions fresh_vspace
          (<[VR_HEAP := mk_vregion VRDIR_UP (0x10000 + PGSIZE) 0 None]>
             (<[VR_CODE := mk_vregion VRDIR_UP 0x10000 0 None]> (regions fresh_vspace))),
        blank []).
Proof.
  apply (vspaceloadcode_empty_segment KERNBASE_xk VPIPPAGE_xk fresh_vspace
           image_empty_segment (mk_elfhdr ELF_MAGIC 1 0x10000)
           (mk_proghdr ELF_PROG_LOAD 0 0 0x10000 0 0) (blank []) fresh_up fresh_up);
    try reflexivity.
  - vm_compute. discriminate.
  - vm_compute. split; [discriminate|reflexivity].
Defined.

Lemma vspaceloadcode_failure_not_undone_witness :
  ∃ code' m' cs',
    vspaceloadcode KERNBASE_xk VPIPPAGE_xk fresh_vspace (Some image_short_headers)
      (blank [1; 2])
    = Ok (0, None, set_regions fresh_vspace (<[VR_CODE := code']> (regions fresh_vspace)),
          m') ∧
    dir code' = VRDIR_UP ∧ va_base code' = 0x10000 ∧ size code' = 0 ∧
    store_ok VPIPPAGE_xk m' code' cs' ∧
    used (page_info VPIPPAGE_xk m' code' 0x10000) ≠ 0 ∧
    freelist m' = drop 2 [1; 2].
Proof.
  apply (vspaceloadcode_failure_not_undone KERNBASE_xk VPIPPAGE_xk fresh_vspace
           image_short_headers (mk_elfhdr ELF_MAGIC 2 0x10000)
           (mk_proghdr ELF_PROG_LOAD 0 0 0x10000 2 2) (blank [1; 2]) fresh_up []);
    first [reflexivity | by left
          | apply store_ok_blank; [done|by apply NoDup_two]
          | vm_compute; discriminate
          | simpl; unfold PGSIZE; lia].
Defined.
